(* ===== verification/_CoqProject ===== *)
-Q . S2P
Prelude.v
GoStrings.v
DeviceId.v
GoHash.v
Regexp.v
GoTime.v
CloudTypes.v
Rules.v
LogGen.v
SimHttp.v
NanoConfig.v
Config.v
Db.v
Ledger.v
Outbox.v
CwmpTypes.v
CwmpStore.v
Session.v
Soap.v
Xml.v
SoapDecode.v
XmlRoundtrip.v
DeviceSim.v
CloudSim.v
Gate.v
Wire.v
Uplink.v
ConnRequest.v
Server.v
ClosedLoop.v
Await.v
RequestAwait.v
Collector.v
FtpSim.v
SimMain.v
Acs.v
Client.v
CloudWire.v
Metrics.v
Manifest.v
Worker.v
CommandTable.v
WorkerRun.v
ServerAcs.v
EndToEnd.v
Address.v
PollRound.v
Agent.v
Delivery.v
Boot.v
