(* ===== verification/Prelude.v ===== *)
(** * The CloudlyNet edge agent: a verification library

    The edge agent (Go, src/goagent) is the TR-069 ACS of a site's femtocells and
    their bridge to the cloud.  Devices dial in over CWMP and are given tasks;
    their log uploads land in an FTP directory; the agent turns parameters and
    logs into telemetry, queues it in SQLite and delivers it, and applies the
    commands the cloud sends.  A test suite (Go, src/testsuite) plays every role
    around it: a fleet of devices, their uploads, and the cloud with a health
    gate.  This library models both as executable Rocq functions and step
    relations, file by file, and proves what each promises, alone and against the
    other.

    ** The parts and where they are modelled

    - goagent/internal/buffer: [Db] (the tables of Buffer.init, statements,
      transactions), [Outbox] (sqlite.go: enqueue, eviction, drain, applied
      commands), [Ledger] (ftp_ledger.go), [CwmpStore] (cwmp_store.go, the
      instance of the [Store] interface).
    - goagent/internal/cwmp: [CwmpTypes] (rpc.go, store.go: messages, tasks, the
      class [Store]), [DeviceId] (deviceid.go), [Session] (session.go: task
      queue, handlers, delivery), [Soap] (soap.go: the bytes of a response),
      [SoapDecode] (soap.go and the struct tags of rpc.go: the messages in the
      bytes of a request), [Server] (server.go: routing, ServeHTTP, Enqueue,
      Refresh, crURL), [Await] (server.go: callers waiting for results),
      [RequestAwait] (server.go: RequestAndAwait and triggerCR composed with
      them), [ConnRequest] (connrequest.go), [Manifest] (manifest.go).
    - goagent/internal/rules: [Rules] (engine.go).
    - goagent/internal/collector: [Collector] (collector.go: uploads and
      inventory), [Metrics] (metrics.go, managed_paths.go, CollectTier,
      Snapshot).
    - goagent/internal/cloud: [CloudTypes] (the DTOs of client.go), [Client]
      (calls and retries).
    - goagent/internal/worker: [Worker] (worker.go: splitting and queueing
      telemetry, verifying and applying commands, snapshots), [WorkerRun] (Run,
      register, heartbeat: the loop with the other goroutines in between), with
      [CommandTable] (who writes the table of applied commands).
    - goagent/internal/config: [Config] (config.go).
    - goagent/cmd/agent: [Boot] (main.go, and Open of sqlite.go).
    - [Agent]: collector, worker and buffer interleaved, with restarts;
      [Delivery]: that machine and the mock cloud, with a network between them
      that loses requests and replies.
    - testsuite: [NanoConfig] (config.go), [LogGen] (loggen/loggen.go),
      [DeviceSim] (device.go, soap.go, manifest.go: a device, its messages and its
      session), [FtpSim] (ftp.go), [CloudSim] (cloud.go: the mock cloud), [SimHttp]
      (its replies as data), [SimMain] (main.go, the device loop).
    - Both together: [Wire] (agent to device) and [Uplink] (device to agent), down
      to the bytes; [ClosedLoop] (a session of the simulated device against
      [Server]); [EndToEnd] (a call of the worker on the server, answered by the
      device's loop); [CloudWire] (the client's calls as the mock cloud answers
      them); [PollRound] (one poll of the worker with the cloud at one end and the
      device at the other); [Gate] (any history of requests at the mock cloud, and
      the path of a generated log line through [Rules] to the gate).
    - [Acs] is the interface between the worker and collector on one side and the
      server and the cloud client on the other; [ServerAcs] makes the server an
      instance of it, and [Address] follows a device's address in the buffer from
      its Inform to the worker's test of it.
    - Go's standard library, as far as the code uses it: [GoStrings], [GoTime],
      [GoHash], [Regexp], [Xml] (encoding/xml's decoder and escaping) with its laws
      in [XmlRoundtrip].

    ** How state and operations correspond to the code

    A struct is a record with the source's field names; a method is a function
    from the state to its result and the new state.  Code that may fail half-way
    is in the monad [SE] below, which keeps the state on the error path.  A
    database connection ([Db.sql]) carries the tables and an arbitrary list of
    outcomes for its next statements, so every theorem about the buffer holds
    under any pattern of statement failures unless it says [healthy].  Maps are
    finite maps, slices are lists, channels are bounded lists, and the two
    channels of a session with the registered waiters are explicit, since who
    takes a result is what [Await] is about.  A mutex-protected piece of code is
    one step; where a goroutine may be interrupted between two pieces, they are
    two steps: [Await.aw_step] and [Await.sys_step] interleave waiters,
    [Server.srv_step] interleaves requests with everything else that touches a
    session, [Agent.step] interleaves scans with the worker's batches, down to
    single outbox inserts, and stops and restarts the process between any two.  Its
    steps are the agent's own pieces of code ([Agent.own_step]) or whatever else
    touches the database; [Delivery.dl_step] adds the flush of the outbox, one
    step that ends where a send, a delete or the query first fails.
    [WorkerRun.Run] is the worker's goroutine as a sequence of whole actions, with
    polls of the watch directory and requests of devices between any two.
    [RequestAwait.RequestAndAwait] is a function of the turns taken while it
    waits: what the select does, what the connection request's goroutine does, and
    what the devices send; when no turns are left, it takes its deadline.

    ** What the theorems show

    - Uploads ([Agent], [Delivery], [Worker], [Collector], [Ledger]): in every
      reachable state of agent and cloud, every event of an upload in the ledger
      has been counted by the cloud, is in the outbox, fell to its cap, or shared a
      request with a metric that is NaN or infinite, which json.Marshal refuses;
      once database and network work, flushing empties the outbox, and the cloud
      has counted what was recorded but for the last two; an upload that will not be read again is settled
      or still on its way; a batch accounts for each upload's mark under any
      faults; a readable upload of a known device is ingested within 30 polls
      and under that device's id; whole polls and telemetry cycles are runs of
      the machines these invariants are proved on, and a start of the process is
      their restart ([Boot]).
    - Outbox ([Outbox]): an enqueue is one transaction with the least eviction;
      every reachable queue is within its cap and in id order; a drain delivers
      a prefix and keeps the rest; applied commands are read back.
    - Sessions ([Session], [Server], [Await]): the request handler refines an
      abstract queue of tasks with one in flight; a reboot is never sent twice;
      the queue is bounded; what a session logs of the writes it pushes does not
      depend on secret values; a command reaches only the session of its device;
      cookies stick; every published result is within reach of a receiver, stranded
      with a waiter that has returned, or dropped from a full channel, and is
      returned only to who waits for it.
    - Waiting for a device ([RequestAwait], [EndToEnd]): a call of RequestAndAwait
      is a run of the waiters' system; under a fresh CommandID it returns the
      device's answer to that very task; calls on a device that visits all
      return, and the device has performed their tasks in order.
    - Commands ([Worker], [WorkerRun], [ServerAcs]): over a whole run of the agent
      a command is applied exactly once, and acknowledged as applied only if the
      device confirmed it, on the server as on any implementation of [Acs]; a
      write so acknowledged was sent to the device's own session and, unless the
      device said that a reboot is due, read back; the worker registers until the cloud accepts and no longer.
    - The whole loop ([PollRound], [CloudWire], [Address]): one poll brings the
      mock cloud's commands to the device, and their outcomes back to the cloud,
      which verifies them on the device; an address once known stays known.
    - The wire ([Uplink], [Wire], [XmlRoundtrip]): what one side writes is what the
      other reads, markup in values included except in an Inform, whose values the
      device does not escape; the decoder terminates within its input.
    - A device session ([ClosedLoop]): run against the agent's server, it performs
      every other task the agent holds for the device.
    - The health gate ([Gate]): it answers every history of requests; an event
      counts once; tracking a fleet adds its section to the gate's reply and its
      verdict to the ok, and changes nothing else; in a green fleet nothing filed
      under a device carried another radio identity than the device's; the whole
      log a scenario generates reaches it.
    - Retention ([FtpSim]): a sweep selects a device's own expired uploads, logs
      and error logs, to the minute, and nothing else ever goes; the upload loop
      numbers what it sends.
    - Telemetry content ([Rules], [Metrics]): each log line is classified by the
      first matching rule; dedup keys are stable and distinguish; a tier's sample
      holds what the cache has under a literal catalogue of keys and paths; alarms are
      bounded.
    - Encodings ([Soap], [DeviceId], [Collector], [Client], [ConnRequest],
      [Config]): framing, ids, upload names, path segments and digest challenges
      survive their round trips; each setting comes from the environment, the file
      or the default, in that order; a cloud call is sent at most three times and
      the last answer decides.
    - Some theorems state what goes wrong: a late answer taken for a fresh read
      ([Await.stale_result_returned]), a result sent to a waiter that has returned
      ([Await.late_result_stranded]), a rejected reboot acknowledged as applied
      ([Worker.rejection_acknowledged_applied]), a batch that cannot be
      marshalled ([Worker.unmarshalable_batch_undelivered]); lemmas such as
      [DeviceId.CanonicalID_collision], [Metrics.nan_success_rate],
      [Config.interval_unchecked] and [ConnRequest.comma_cuts_realm] do too.

    ** Parameters and hypotheses

    What is not under src/ and not Go's language or small library functions is
    an argument of the definitions: encoding/json, regexp.Compile and YAML,
    net/http transports, gzip, base64, ParseDuration, float parsing and printing,
    curl, and which characters beyond ASCII an XML name may hold.  The theorems of
    [Agent] and [Delivery] hold whether json.Marshal succeeds or not (worker.go
    drops its error and queues an empty body); they assume that the cap is absent or
    at least [Worker.partsPerCap] bytes.  SQLite's errors are any errors but the buffer's own sentinel ([Db.engine_faults]).
    [Acs.AcsLaws] says that waiting for a device does not touch the table of
    applied commands; [ServerAcs.server_AcsLaws] proves it of the server.
    [CloudWire.codec] says that a JSON document is read back as it was written;
    [CloudWire.ex_codec] is one that does.  [Delivery.telemetry_codec] says that
    for each event written to a telemetry document under a hexadecimal key the
    cloud reads one with that key, and that only a float that is NaN or infinite
    makes json.Marshal fail; [Delivery.ex_events_codec] is one where this holds.
    [FtpSim.curl_deletes_on_command] says that curl removes a
    file only if its arguments carry the DELE of it.

    ** Fuel

    [Ledger.inChunks] runs with the number of marks as fuel ([inChunks_fuel]: more
    changes nothing); [Worker.split] with the number of events, which every
    halving decreases ([split_terminates]); the decoder of [Xml] with the length
    of its input, of which each token takes a byte ([Decode_terminates]);
    [FtpSim.curlDelete_loop] with the number of names, of which each batch takes
    one at least; the drain loop of a device's session has the source's own bound,
    [DeviceSim.maxSessionTasks]; the trimming loops of
    [GoStrings] and the block loops of [GoHash] with the length of their input,
    of which each round consumes at least one byte.  Everything else recurs on
    its data.

    ** What is not modelled

    Tickers, signals and the TCP listeners only start and time the operations
    above.  The bytes of a .tgz archive are a parameter; its entries are read as
    the collector reads them, though no scan reaches that reader.  The mux of the
    mock cloud is given clean paths.  [GoStrings.Quote] is strconv.Quote on ASCII;
    it leaves other bytes as if they were printable.  Log output is modelled where a session's
    lines are at stake, and else left out. *)

From stdpp Require Export base tactics option list numbers strings gmap fin_maps sorting.

(* stdpp's [set_solver] clears hypotheses that are already gone. *)
#[export] Set Warnings "-clear-no-such-hyp".

Declare Scope go_scope.
Delimit Scope go_scope with go.

(** ** Results and the state-and-error monad

    A Go function returning [(T, error)] while mutating state of type [S] is a
    function [S → result E A * S]: the state is kept on the error path too,
    because a Go function that fails half-way leaves behind what it did. *)

Inductive result (E A : Type) : Type :=
| Ok (a : A)
| Err (e : E).
Arguments Ok {E A} a.
Arguments Err {E A} e.

Definition SE (S E A : Type) : Type := S → result E A * S.

#[export] Instance SE_ret S E : MRet (SE S E) := λ A a s, (Ok a, s).
#[export] Instance SE_bind S E : MBind (SE S E) := λ A B f m s,
  match m s with
  | (Ok a, s') => f a s'
  | (Err e, s') => (Err e, s')
  end.

Definition throw {S E A} (e : E) : SE S E A := λ s, (Err e, s).

(** Running a computation on one component of a larger state. *)
Definition zoom {T S E A} (get : T → S) (set : S → T → T) (m : SE S E A) : SE T E A :=
  λ t, let '(r, s') := m (get t) in (r, set s' t).

(** Calling a function and ignoring its error (Go's [_ = f()]). *)
Definition ignore_err {S E A} (m : SE S E A) : S → S := λ s, (m s).2.

Lemma SE_ret_unfold {S E A} (a : A) (s : S) : (mret a : SE S E A) s = (Ok a, s).
Proof. reflexivity. Qed.

Lemma SE_bind_unfold {S E A B} (m : SE S E A) (f : A → SE S E B) (s : S) :
  (m ≫= f) s = match m s with (Ok a, s') => f a s' | (Err e, s') => (Err e, s') end.
Proof. reflexivity. Qed.

(** The monad laws, pointwise. *)
Lemma SE_bind_assoc {S E A B C} (m : SE S E A) (f : A → SE S E B) (g : B → SE S E C) s :
  ((m ≫= f) ≫= g) s = (m ≫= (λ a, f a ≫= g)) s.
Proof. rewrite !SE_bind_unfold. by destruct (m s) as [[]]. Qed.

(** ** A small Hoare logic for [SE]

    [triple P m Q R]: started in a state satisfying [P], a success satisfies
    [Q] and a failure satisfies [R].  Every computation of the monad is a total
    Rocq function, so no termination clause is needed. *)

Definition triple {S E A} (P : S → Prop) (m : SE S E A)
    (Q : A → S → Prop) (R : E → S → Prop) : Prop :=
  ∀ s, P s → match m s with
             | (Ok a, s') => Q a s'
             | (Err e, s') => R e s'
             end.

Lemma triple_ret {S E A} (P : S → Prop) (a : A) (Q : A → S → Prop) (R : E → S → Prop) :
  (∀ s, P s → Q a s) → triple P (mret a) Q R.
Proof. intros H s Hs. by apply H. Qed.

Lemma triple_throw {S E A} (P : S → Prop) (e : E) (Q : A → S → Prop) (R : E → S → Prop) :
  (∀ s, P s → R e s) → triple P (throw e) Q R.
Proof. intros H s Hs. by apply H. Qed.

Lemma triple_bind {S E A B} (P : S → Prop) (m : SE S E A) (f : A → SE S E B)
    (M : A → S → Prop) (Q : B → S → Prop) (R : E → S → Prop) :
  triple P m M R → (∀ a, triple (M a) (f a) Q R) → triple P (m ≫= f) Q R.
Proof.
  intros Hm Hf s Hs. rewrite SE_bind_unfold. specialize (Hm s Hs).
  destruct (m s) as [[a|e] s']; [by apply Hf | done].
Qed.

Lemma triple_weaken {S E A} (P P' : S → Prop) (m : SE S E A)
    (Q Q' : A → S → Prop) (R R' : E → S → Prop) :
  triple P' m Q' R' →
  (∀ s, P s → P' s) → (∀ a s, Q' a s → Q a s) → (∀ e s, R' e s → R e s) →
  triple P m Q R.
Proof.
  intros Hm HP HQ HR s Hs. specialize (Hm s (HP s Hs)).
  destruct (m s) as [[a|e] s']; eauto.
Qed.

(** Facts about a run, read off a triple. *)
Lemma triple_ok {S E A} (P : S → Prop) (m : SE S E A) Q (R : E → S → Prop) s a s' :
  triple P m Q R → P s → m s = (Ok a, s') → Q a s'.
Proof. intros Ht Hs Hm. specialize (Ht s Hs). by rewrite Hm in Ht. Qed.

Lemma triple_err {S E A} (P : S → Prop) (m : SE S E A) Q (R : E → S → Prop) s e s' :
  triple P m Q R → P s → m s = (Err e, s') → R e s'.
Proof. intros Ht Hs Hm. specialize (Ht s Hs). by rewrite Hm in Ht. Qed.

(** ** Integer sums over lists (Go's [int64] totals) *)

Definition sum_Z (l : list Z) : Z := foldr Z.add 0%Z l.

Lemma sum_Z_nil : sum_Z [] = 0%Z.
Proof. reflexivity. Qed.
Lemma sum_Z_cons x l : sum_Z (x :: l) = (x + sum_Z l)%Z.
Proof. reflexivity. Qed.
Lemma sum_Z_app l k : sum_Z (l ++ k) = (sum_Z l + sum_Z k)%Z.
Proof. induction l as [|x l IH]; simpl in *; [done | rewrite IH; lia]. Qed.
Lemma sum_Z_nonneg l : Forall (λ x, 0 ≤ x)%Z l → (0 ≤ sum_Z l)%Z.
Proof. induction 1; simpl; lia. Qed.
Lemma sum_Z_take_drop n l : (sum_Z (take n l) + sum_Z (drop n l))%Z = sum_Z l.
Proof. by rewrite <- sum_Z_app, take_drop. Qed.

(** ** The length of a Go string or byte slice *)

Definition blen (s : string) : Z := Z.of_nat (String.length s).

Lemma blen_nonneg s : (0 ≤ blen s)%Z.
Proof. unfold blen. lia. Qed.

Create HintDb agent discriminated.
#[export] Hint Resolve blen_nonneg sum_Z_nonneg : agent.
Create Rewrite HintDb agent.
#[export] Hint Rewrite sum_Z_nil sum_Z_cons sum_Z_app : agent.

(** ** Lists *)

Lemma list_filter_all {A} (P : A → Prop) `{!∀ x, Decision (P x)} l :
  Forall P l → filter P l = l.
Proof. induction 1; [done|]. rewrite filter_cons_True by done. by f_equal. Qed.

Lemma list_filter_none {A} (P : A → Prop) `{!∀ x, Decision (P x)} l :
  Forall (λ x, ¬ P x) l → filter P l = [].
Proof. induction 1; [done|]. by rewrite filter_cons_False. Qed.

Lemma elem_of_take_in {A} (x : A) n l : x ∈ take n l → x ∈ l.
Proof. intros Hx. rewrite <- (firstn_skipn n l). apply elem_of_app. by left. Qed.
