(* ===== verification/GoStrings.v ===== *)
(** * Go's [strings] package, as far as the agent uses it

    A Go string is a byte sequence: [ascii] is the byte type and [string] the
    sequence.  Positions are byte offsets. *)
From S2P Require Import Prelude.
From Stdlib Require Export Ascii.
From stdpp Require Export pretty.

Fixpoint str_take (n : nat) (s : string) : string :=
  match n, s with
  | S n, String a s => String a (str_take n s)
  | _, _ => ""
  end.

Fixpoint str_drop (n : nat) (s : string) : string :=
  match n, s with
  | S n, String _ s => str_drop n s
  | _, _ => s
  end.

Fixpoint HasPrefix (s prefix : string) {struct prefix} : bool :=
  match prefix, s with
  | "", _ => true
  | String a p, String b s => bool_decide (a = b) && HasPrefix s p
  | _, _ => false
  end.

Definition HasSuffix (s suffix : string) : bool :=
  bool_decide (String.length suffix ≤ String.length s ∧
               str_drop (String.length s - String.length suffix) s = suffix).

Definition TrimPrefix (s prefix : string) : string :=
  if HasPrefix s prefix then str_drop (String.length prefix) s else s.

Definition TrimSuffix (s suffix : string) : string :=
  if HasSuffix s suffix then str_take (String.length s - String.length suffix) s else s.

(** The offset of the first occurrence of [sub]. *)
Fixpoint Index (s sub : string) : option nat :=
  if HasPrefix s sub then Some 0
  else match s with
       | "" => None
       | String _ s => S <$> Index s sub
       end.

Definition Contains (s sub : string) : bool := bool_decide (is_Some (Index s sub)).

Fixpoint LastIndexByte (s : string) (c : ascii) : option nat :=
  match s with
  | "" => None
  | String a s =>
      match LastIndexByte s c with
      | Some i => Some (S i)
      | None => if decide (a = c) then Some 0 else None
      end
  end.

(** [strings.Cut]: around the first separator, [None] when there is none. *)
Definition Cut (s sep : string) : option (string * string) :=
  match Index s sep with
  | Some i => Some (str_take i s, str_drop (i + String.length sep) s)
  | None => None
  end.

(** [strings.Split] by a one-byte separator. *)
Fixpoint SplitByte (s : string) (sep : ascii) : list string :=
  match s with
  | "" => [""]
  | String a s =>
      if decide (a = sep) then "" :: SplitByte s sep
      else match SplitByte s sep with
           | [] => [String a ""]
           | w :: ws => String a w :: ws
           end
  end.

(** [strings.SplitN] by a one-byte separator: at most [n] pieces, the last one
    unsplit ([n ≥ 1]). *)
Fixpoint SplitNByte (n : nat) (s : string) (sep : ascii) : list string :=
  match n with
  | 0 | 1 => [s]
  | S n =>
      match Cut s (String sep "") with
      | Some (w, rest) => w :: SplitNByte n rest sep
      | None => [s]
      end
  end.

Fixpoint Join (l : list string) (sep : string) : string :=
  match l with
  | [] => ""
  | [w] => w
  | w :: rest => w +:+ sep +:+ Join rest sep
  end.

(** [strings.ReplaceAll] for a non-empty [old]; [skip] counts the bytes of a
    replaced occurrence still to be passed over. *)
Fixpoint replace_skip (skip : nat) (s old new : string) : string :=
  match s with
  | "" => ""
  | String a s' =>
      match skip with
      | S k => replace_skip k s' old new
      | 0 => if HasPrefix s old
             then new +:+ replace_skip (String.length old - 1) s' old new
             else String a (replace_skip 0 s' old new)
      end
  end.

Definition ReplaceAll (s old new : string) : string := replace_skip 0 s old new.

(** [bytes.Replace] with a count of one. *)
Definition ReplaceOne (s old new : string) : string :=
  match Index s old with
  | Some i => str_take i s +:+ new +:+ str_drop (i + String.length old) s
  | None => s
  end.

(** ** Case folding

    Byte by byte on ASCII.  Of the other runes only those matter whose lower
    case is an ASCII letter (U+212A KELVIN SIGN, U+0130 I WITH DOT ABOVE): the
    agent only searches lower-cased text for ASCII words, or compares it with
    one.  The remaining runes are left as they are. *)
Definition byte_of (n : nat) : ascii := ascii_of_nat n.

(** [strconv.Quote], which [%q] prints: what stands for a byte.  Bytes beyond
    ASCII are taken to be printable UTF-8 text, which is copied. *)
Definition lower_hex (n : nat) : ascii := default "0"%char (String.get n "0123456789abcdef").

Definition quote_byte (a : ascii) : string :=
  let n := nat_of_ascii a in
  let esc (c : ascii) := String "\"%char (String c "") in
  if decide (n = 34 ∨ n = 92) then esc a
  else if decide (32 ≤ n ∧ n ≠ 127) then String a ""
  else if decide (n = 7) then esc "a"%char
  else if decide (n = 8) then esc "b"%char
  else if decide (n = 12) then esc "f"%char
  else if decide (n = 10) then esc "n"%char
  else if decide (n = 13) then esc "r"%char
  else if decide (n = 9) then esc "t"%char
  else if decide (n = 11) then esc "v"%char
  else String "\"%char (String "x"%char (String (lower_hex (n / 16)) (String (lower_hex (n mod 16)) ""))).

Fixpoint quote_body (s : string) : string :=
  match s with
  | "" => ""
  | String a s => quote_byte a +:+ quote_body s
  end.

Definition Quote (s : string) : string := String (byte_of 34) "" +:+ quote_body s +:+ String (byte_of 34) "".

Example Quote_escapes : Quote (String "a" (String (byte_of 34) (String (byte_of 10) (String (byte_of 127) "")))) =
  String (byte_of 34) "" +:+ "a\" +:+ String (byte_of 34) "" +:+ "\n\x7f" +:+ String (byte_of 34) "".
Proof. reflexivity. Qed.

Definition lower_byte (a : ascii) : ascii :=
  let n := nat_of_ascii a in
  if decide (65 ≤ n ∧ n ≤ 90) then byte_of (n + 32) else a.

Definition kelvin : string := String (byte_of 226) (String (byte_of 132) (String (byte_of 170) "")).
Definition dotted_I : string := String (byte_of 196) (String (byte_of 176) "").
Definition long_s : string := String (byte_of 197) (String (byte_of 191) "").

Fixpoint map_bytes (f : ascii → ascii) (s : string) : string :=
  match s with
  | "" => ""
  | String a s => String (f a) (map_bytes f s)
  end.

Definition ToLower (s : string) : string :=
  map_bytes lower_byte (ReplaceAll (ReplaceAll s kelvin "k") dotted_I "i").

(** [strings.EqualFold] when one side is ASCII: simple folding puts U+212A with
    [k] and U+017F with [s]. *)
Definition fold_case (s : string) : string :=
  map_bytes lower_byte (ReplaceAll (ReplaceAll s kelvin "k") long_s "s").

Definition EqualFold (s t : string) : bool := bool_decide (fold_case s = fold_case t).

(** ** [strings.TrimSpace]

    The white space of [unicode.IsSpace], each rune as its UTF-8 bytes. *)
Definition utf8 (l : list nat) : string := String.string_of_list_ascii (byte_of <$> l).

Definition spaces : list string :=
  utf8 <$> ([[9]; [10]; [11]; [12]; [13]; [32]; [194; 133]; [194; 160]; [225; 154; 128];
             [226; 128; 168]; [226; 128; 169]; [226; 128; 175]; [226; 129; 159]; [227; 128; 128]]
            ++ ((λ n, [226; 128; n]) <$> seq 128 11)).

Fixpoint trim_left (fuel : nat) (s : string) : string :=
  match fuel with
  | 0 => s
  | S fuel =>
      match list_find (λ w, HasPrefix s w = true) spaces with
      | Some (_, w) => trim_left fuel (str_drop (String.length w) s)
      | None => s
      end
  end.

Fixpoint trim_right (fuel : nat) (s : string) : string :=
  match fuel with
  | 0 => s
  | S fuel =>
      match list_find (λ w, HasSuffix s w = true) spaces with
      | Some (_, w) => trim_right fuel (str_take (String.length s - String.length w) s)
      | None => s
      end
  end.

(** Each round removes at least one byte, so the length is fuel enough. *)
Definition TrimSpace (s : string) : string :=
  let s := trim_left (String.length s) s in trim_right (String.length s) s.

(** [strings.TrimRight(s, c)] for a single byte. *)
Fixpoint TrimRightByte (s : string) (c : ascii) : string :=
  match s with
  | "" => ""
  | String a t =>
      match TrimRightByte t c with
      | "" => if decide (a = c) then "" else String a ""
      | t' => String a t'
      end
  end.

Lemma TrimRightByte_spec s c : ∀ t, TrimRightByte s c ≠ t +:+ String c "".
Proof.
  induction s as [|a s IH]; intros t; simpl; [by destruct t|].
  destruct (TrimRightByte s c) as [|a' s'] eqn:Hs.
  - case_decide as Ha; [by destruct t|]. intros Heq. destruct t as [|x [|y t]]; simpl in Heq; by injection Heq.
  - destruct t as [|x t]; simpl; [done|intros [= _ Heq]; by apply (IH t)].
Qed.

(** [filepath.Base] of a path that does not end in a slash. *)
Definition Base (path : string) : string :=
  match LastIndexByte path "/" with
  | Some i => str_drop (S i) path
  | None => path
  end.

(** ** Lemmas *)

Lemma str_app_nil_r s : s +:+ "" = s.
Proof. induction s as [|a s IH]; [done|]. change (String a (s +:+ "") = String a s). by rewrite IH. Qed.

Lemma str_app_assoc s t u : (s +:+ t) +:+ u = s +:+ t +:+ u.
Proof. induction s as [|a s IH]; [done|]. change (String a ((s +:+ t) +:+ u) = String a (s +:+ t +:+ u)). by rewrite IH. Qed.

Lemma str_app_cons a s t : String a s +:+ t = String a (s +:+ t).
Proof. done. Qed.

Lemma str_length_app s t : String.length (s +:+ t) = String.length s + String.length t.
Proof. induction s as [|a s IH]; [done|]. rewrite str_app_cons. simpl. by rewrite IH. Qed.

Lemma str_drop_app s t : str_drop (String.length s) (s +:+ t) = t.
Proof. induction s as [|a s IH]; [by destruct t|]. rewrite str_app_cons. exact IH. Qed.

Lemma str_take_app s t : str_take (String.length s) (s +:+ t) = s.
Proof. induction s as [|a s IH]; [by destruct t|]. rewrite str_app_cons. simpl. by rewrite IH. Qed.

Lemma str_drop_app_plus s t n : str_drop (String.length s + n) (s +:+ t) = str_drop n t.
Proof. induction s as [|a s IH]; [done|]. rewrite str_app_cons. exact IH. Qed.

Lemma HasPrefix_app s t : HasPrefix (s +:+ t) s = true.
Proof.
  induction s as [|a s IH]; [by destruct t|]. rewrite str_app_cons. simpl.
  by rewrite bool_decide_true.
Qed.

Lemma HasPrefix_inv s p : HasPrefix s p = true → ∃ t, s = p +:+ t.
Proof.
  revert s. induction p as [|a p IH]; intros s H; [by exists s|].
  destruct s as [|b s]; [done|]. cbn [HasPrefix] in H.
  apply andb_true_iff in H as [Hab H]. apply bool_decide_eq_true in Hab as ->.
  destruct (IH s H) as [t ->]. by exists t.
Qed.

Lemma HasSuffix_app s t : HasSuffix (s +:+ t) t = true.
Proof.
  unfold HasSuffix. apply bool_decide_eq_true. rewrite str_length_app. split; [lia|].
  replace (String.length s + String.length t - String.length t) with (String.length s) by lia.
  apply str_drop_app.
Qed.

Lemma TrimPrefix_app s t : TrimPrefix (s +:+ t) s = t.
Proof. unfold TrimPrefix. rewrite HasPrefix_app. apply str_drop_app. Qed.

Lemma TrimSuffix_app s t : TrimSuffix (s +:+ t) t = s.
Proof.
  unfold TrimSuffix. rewrite HasSuffix_app, str_length_app.
  replace (String.length s + String.length t - String.length t) with (String.length s) by lia.
  apply str_take_app.
Qed.

(** [no_byte c s]: the byte [c] does not occur in [s]. *)
Fixpoint no_byte (c : ascii) (s : string) : bool :=
  match s with
  | "" => true
  | String a s => bool_decide (a ≠ c) && no_byte c s
  end.

Lemma no_byte_cons c a s : no_byte c (String a s) = true ↔ a ≠ c ∧ no_byte c s = true.
Proof. simpl. rewrite andb_true_iff, bool_decide_eq_true. done. Qed.

Lemma no_byte_app c s t : no_byte c (s +:+ t) = no_byte c s && no_byte c t.
Proof.
  induction s as [|a s IH]; [done|]. rewrite str_app_cons. simpl. by rewrite IH, andb_assoc.
Qed.

Lemma Index_byte_app c s t : no_byte c s = true → Index (s +:+ String c t) (String c "") = Some (String.length s).
Proof.
  induction s as [|a s IH]; intros H.
  - change ("" +:+ String c t) with (String c t). simpl. by rewrite bool_decide_true.
  - apply no_byte_cons in H as [Hne H]. rewrite str_app_cons.
    simpl. rewrite bool_decide_false by congruence. simpl. by rewrite IH.
Qed.

Lemma Cut_app c s t : no_byte c s = true → Cut (s +:+ String c t) (String c "") = Some (s, t).
Proof.
  intros H. unfold Cut. rewrite Index_byte_app by done. rewrite str_take_app.
  by rewrite str_drop_app_plus.
Qed.

Lemma LastIndexByte_none c s : no_byte c s = true → LastIndexByte s c = None.
Proof.
  induction s as [|a s IH]; [done|]. intros [Hne H]%no_byte_cons. simpl.
  rewrite IH by done. by rewrite decide_False.
Qed.

Lemma LastIndexByte_app c s t :
  no_byte c t = true → LastIndexByte (s +:+ String c t) c = Some (String.length s).
Proof.
  intros Ht. induction s as [|a s IH].
  - change ("" +:+ String c t) with (String c t). simpl.
    rewrite LastIndexByte_none by done. by rewrite decide_True.
  - rewrite str_app_cons. simpl. by rewrite IH.
Qed.

(** Splitting at a byte that the left parts do not contain is unambiguous. *)
Lemma str_split_unique c s s' t t' :
  no_byte c s = true → no_byte c s' = true →
  s +:+ String c t = s' +:+ String c t' → s = s' ∧ t = t'.
Proof.
  revert s'. induction s as [|a s IH]; intros [|a' s'] Hs Hs' Heq.
  - change ("" +:+ String c t) with (String c t) in Heq.
    change ("" +:+ String c t') with (String c t') in Heq. by simplify_eq.
  - apply no_byte_cons in Hs' as [Hne _]. rewrite str_app_cons in Heq.
    change ("" +:+ String c t) with (String c t) in Heq. congruence.
  - apply no_byte_cons in Hs as [Hne _]. rewrite str_app_cons in Heq.
    change ("" +:+ String c t') with (String c t') in Heq. congruence.
  - apply no_byte_cons in Hs as [_ Hs]. apply no_byte_cons in Hs' as [_ Hs'].
    rewrite !str_app_cons in Heq. simplify_eq.
    destruct (IH s' Hs Hs') as [-> ->]; done.
Qed.

(** ** Decimal numbers: [%d] *)

(** [digit_free c]: the byte is neither a digit nor the minus sign. *)
Definition digit_free (c : ascii) : Prop := ∀ n, pretty_N_char n ≠ c.

Lemma pretty_N_go_no_byte c x s :
  digit_free c → no_byte c s = true → no_byte c (pretty_N_go x s) = true.
Proof.
  intros Hc. revert s. induction (N.lt_wf_0 x) as [x _ IH]; intros s Hs.
  destruct (decide (x = 0%N)) as [->|Hx]; [by rewrite pretty_N_go_0|].
  rewrite pretty_N_go_step by lia. apply IH; [apply N.div_lt; lia|].
  apply no_byte_cons. split; [apply Hc | done].
Qed.

Lemma pretty_N_no_byte c (x : N) : digit_free c → no_byte c (pretty x) = true.
Proof.
  intros Hc. unfold pretty, pretty_N. case_decide; [|by apply pretty_N_go_no_byte].
  apply no_byte_cons. split; [apply (Hc 0%N) | done].
Qed.

Lemma pretty_Z_no_byte c (x : Z) : digit_free c → c ≠ "-"%char → no_byte c (pretty x) = true.
Proof.
  intros Hc Hd. destruct x as [|p|p]; [apply (pretty_N_no_byte c 0 Hc)|by apply (pretty_N_no_byte c (Npos p))|].
  change (no_byte c (String "-" (pretty (Npos p))) = true). apply no_byte_cons.
  split; [done | by apply pretty_N_no_byte].
Qed.

Lemma digit_free_of c : (forallb (λ d, bool_decide (d ≠ c)) ["0"; "1"; "2"; "3"; "4"; "5"; "6"; "7"; "8"; "9"])%char = true →
  digit_free c.
Proof.
  intros H n. rewrite forallb_forall in H.
  assert (Hin : In (pretty_N_char n) ["0"; "1"; "2"; "3"; "4"; "5"; "6"; "7"; "8"; "9"]%char).
  { unfold pretty_N_char. repeat case_match; simpl; tauto. }
  by apply H, bool_decide_eq_true in Hin.
Qed.

Lemma HasPrefix_app_long s t p : String.length p ≤ String.length s → HasPrefix (s +:+ t) p = HasPrefix s p.
Proof.
  revert s. induction p as [|a p IH]; intros s Hl; [by destruct (s +:+ t), s|].
  destruct s as [|b s]; simpl in Hl; [lia|]. rewrite str_app_cons. cbn [HasPrefix]. by rewrite IH by lia.
Qed.

(** ** Trimming and splitting text without white space or separators *)

(** A visible ASCII byte. *)
Definition visible (a : ascii) : bool := bool_decide (33 ≤ nat_of_ascii a ∧ nat_of_ascii a ≤ 126).

Definition starts_visible (s : string) : bool := match s with String a _ => visible a | "" => false end.
Fixpoint ends_visible (s : string) : bool :=
  match s with
  | "" => false
  | String a "" => visible a
  | String _ s => ends_visible s
  end.

Lemma spaces_invisible : forallb (λ w, negb (starts_visible w) && negb (ends_visible w) && bool_decide (w ≠ "")) spaces = true.
Proof. vm_compute. reflexivity. Qed.

Lemma space_spec w : w ∈ spaces → starts_visible w = false ∧ ends_visible w = false ∧ w ≠ "".
Proof.
  intros Hw. pose proof (proj1 (forallb_forall _ _) spaces_invisible w) as H.
  specialize (H (proj1 (list_elem_of_In _ _) Hw)). apply andb_true_iff in H as [H Hne%bool_decide_eq_true].
  apply andb_true_iff in H as [H1 H2]. split_and!; [by destruct (starts_visible w)|by destruct (ends_visible w)|done].
Qed.

Lemma ends_visible_app s t : t ≠ "" → ends_visible (s +:+ t) = ends_visible t.
Proof.
  intros Ht. induction s as [|a s IH]; [done|]. rewrite str_app_cons. simpl. rewrite <- IH.
  destruct (s +:+ t) eqn:Hst; [|done]. destruct s, t; done.
Qed.

Lemma str_take_drop n s : str_take n s +:+ str_drop n s = s.
Proof. revert s. induction n as [|n IH]; intros [|a s]; simpl; try done. by rewrite str_app_cons, IH. Qed.

Lemma no_space_prefix s : starts_visible s = true → list_find (λ w, HasPrefix s w = true) spaces = None.
Proof.
  intros Hs. apply list_find_None, Forall_forall. intros w Hw Hp. apply space_spec in Hw as (Hf & _ & Hne).
  apply HasPrefix_inv in Hp as [t ->]. destruct w as [|a w]; [done|]. rewrite str_app_cons in Hs. simpl in *. congruence.
Qed.

Lemma no_space_suffix s : ends_visible s = true → list_find (λ w, HasSuffix s w = true) spaces = None.
Proof.
  intros Hs. apply list_find_None, Forall_forall. intros w Hw Hp. apply space_spec in Hw as (_ & Hf & Hne).
  unfold HasSuffix in Hp. apply bool_decide_eq_true in Hp as [_ Hp].
  rewrite <- (str_take_drop (String.length s - String.length w) s), Hp, ends_visible_app in Hs by done. congruence.
Qed.

Lemma trim_left_visible fuel s : starts_visible s = true → trim_left fuel s = s.
Proof. destruct fuel; [done|]. intros Hs. cbn [trim_left]. by rewrite no_space_prefix. Qed.

Lemma trim_right_visible fuel s : ends_visible s = true → trim_right fuel s = s.
Proof. destruct fuel; [done|]. intros Hs. cbn [trim_right]. by rewrite no_space_suffix. Qed.

Lemma TrimSpace_visible s : starts_visible s = true → ends_visible s = true → TrimSpace s = s.
Proof. intros H1 H2. unfold TrimSpace. by rewrite trim_left_visible, trim_right_visible. Qed.

Lemma TrimSpace_leading s : starts_visible s = true → ends_visible s = true → TrimSpace (" " +:+ s) = s.
Proof.
  intros H1 H2. unfold TrimSpace. change (String.length (" " +:+ s)) with (S (String.length s)).
  assert (Hf : list_find (λ w, HasPrefix (" " +:+ s) w = true) spaces = Some (5, " ")) by reflexivity.
  cbn [trim_left]. rewrite Hf. change (str_drop (String.length " ") (" " +:+ s)) with s.
  by rewrite trim_left_visible, trim_right_visible.
Qed.

Lemma SplitByte_none c s : no_byte c s = true → SplitByte s c = [s].
Proof.
  induction s as [|a s IH]; [done|]. intros [Hne H]%no_byte_cons. simpl. by rewrite decide_False, IH.
Qed.

Lemma SplitByte_app c s t : no_byte c s = true → SplitByte (s +:+ String c t) c = s :: SplitByte t c.
Proof.
  induction s as [|a s IH]; intros H.
  - change ("" +:+ String c t) with (String c t). simpl. by rewrite decide_True.
  - apply no_byte_cons in H as [Hne H]. rewrite str_app_cons. simpl. rewrite decide_False by done. by rewrite IH.
Qed.

(** ** Predicates on all bytes *)

Fixpoint all_bytes (f : ascii → bool) (s : string) : bool :=
  match s with
  | "" => true
  | String a s => f a && all_bytes f s
  end.

Lemma all_bytes_app f s t : all_bytes f (s +:+ t) = all_bytes f s && all_bytes f t.
Proof. induction s as [|a s IH]; [done|]. rewrite str_app_cons. simpl. by rewrite IH, andb_assoc. Qed.

Lemma all_bytes_no_byte f c s : f c = false → all_bytes f s = true → no_byte c s = true.
Proof.
  intros Hc. induction s as [|a s IH]; [done|]. intros [Ha Hs]%andb_true_iff. apply no_byte_cons.
  split; [|by apply IH]. intros ->. congruence.
Qed.

Lemma all_bytes_impl (f g : ascii → bool) s :
  (∀ a, f a = true → g a = true) → all_bytes f s = true → all_bytes g s = true.
Proof.
  intros Hfg. induction s as [|a s IH]; [done|]. intros [Ha Hs]%andb_true_iff. simpl. by rewrite (Hfg a Ha), IH.
Qed.

Lemma digit_char_visible n : visible (pretty_N_char n) = true.
Proof. unfold pretty_N_char. repeat case_match; reflexivity. Qed.

(** The bytes of a decimal number. *)
Lemma pretty_N_all (f : ascii → bool) (n : N) : (∀ x, f (pretty_N_char x) = true) → all_bytes f (pretty n) = true.
Proof.
  intros Hf. assert (Hgo : ∀ (x : N) s, all_bytes f s = true → all_bytes f (pretty_N_go x s) = true).
  { intros x. induction (N.lt_wf_0 x) as [x _ IH]; intros s Hs.
    destruct (decide (x = 0%N)) as [->|Hx]; [by rewrite pretty_N_go_0|].
    rewrite pretty_N_go_step by lia. apply IH; [apply N.div_lt; lia|]. cbn [all_bytes]. by rewrite Hf, Hs. }
  unfold pretty, pretty_N. case_decide; [|by apply Hgo]. cbn [all_bytes]. pose proof (Hf 0%N) as H0. cbn in H0. by rewrite H0.
Qed.

Lemma pretty_Z_all (f : ascii → bool) (z : Z) : (∀ x, f (pretty_N_char x) = true) → (0 ≤ z)%Z ∨ f "-"%char = true →
  all_bytes f (pretty z) = true.
Proof.
  intros Hf Hm. pose proof (λ n, pretty_N_all f n Hf) as HN. destruct z as [|p|p]; [exact (HN 0%N)|exact (HN (Npos p))|].
  change (f "-"%char && all_bytes f (pretty (Npos p)) = true). rewrite HN. destruct Hm as [?|Hm]; [lia|by rewrite Hm].
Qed.

Lemma str_app_inj_l s t u : s +:+ t = s +:+ u → t = u.
Proof. induction s as [|a s IH]; [done|]. rewrite !str_app_cons. intros [=]. by apply IH. Qed.

Lemma Index_app_none s t sub : sub ≠ "" → (∀ c, no_byte c sub = false → no_byte c s = true) →
  is_Some (Index (s +:+ t) sub) ↔ is_Some (Index t sub).
Proof.
  intros Hne Hs. induction s as [|a s IH]; [done|]. destruct sub as [|b sub]; [done|].
  rewrite str_app_cons. cbn [Index HasPrefix].
  assert (Hb : b ≠ a).
  { intros ->. assert (H : no_byte a (String a sub) = false) by (simpl; rewrite bool_decide_false; [done | by intros []]).
    specialize (Hs _ H). apply no_byte_cons in Hs as [Hs _]. by apply Hs. }
  rewrite bool_decide_false by done. cbn [andb]. rewrite fmap_is_Some. apply IH.
  intros c Hc. specialize (Hs c Hc). by apply no_byte_cons in Hs as [_ Hs].
Qed.

(** ** Searching and lower-casing around a part without the searched bytes *)

Lemma HasPrefix_stop s c t sub : no_byte c sub = true → HasPrefix (s +:+ String c t) sub = HasPrefix s sub.
Proof.
  revert sub. induction s as [|a s IH]; intros sub Hc.
  - destruct sub as [|b sub]; [done|]. apply no_byte_cons in Hc as [Hb _]. cbn [HasPrefix].
    change ("" +:+ String c t) with (String c t). cbn [HasPrefix]. by rewrite bool_decide_false.
  - destruct sub as [|b sub]; [done|]. apply no_byte_cons in Hc as [_ Hc]. rewrite str_app_cons.
    cbn [HasPrefix]. by rewrite IH.
Qed.

Lemma Index_stop s c t sub : no_byte c sub = true → sub ≠ "" →
  is_Some (Index (s +:+ String c t) sub) ↔ is_Some (Index s sub) ∨ is_Some (Index t sub).
Proof.
  intros Hc Hne. induction s as [|a s IH].
  - change ("" +:+ String c t) with (String c t). destruct sub as [|b sub]; [done|].
    cbn [Index HasPrefix]. apply no_byte_cons in Hc as [Hb Hc]. rewrite bool_decide_false by done. cbn [andb].
    rewrite fmap_is_Some. split; [by right|]. intros [[? [=]]|?]; done.
  - rewrite str_app_cons. destruct sub as [|b sub]; [done|]. cbn [Index].
    assert (Hp : HasPrefix (String a (s +:+ String c t)) (String b sub) = HasPrefix (String a s) (String b sub)).
    { rewrite <- str_app_cons. by apply HasPrefix_stop. }
    rewrite Hp. destruct (HasPrefix (String a s) (String b sub)).
    + split; [|by eexists]. intros _. left. by eexists.
    + rewrite !fmap_is_Some. exact IH.
Qed.

(** A part [m] that shares no byte with [sub] separates what is before it from
    what is after it. *)
Lemma Contains_around s m t sub : sub ≠ "" → m ≠ "" → (∀ c, no_byte c sub = false → no_byte c m = true) →
  Contains (s +:+ m +:+ t) sub = Contains s sub || Contains t sub.
Proof.
  intros Hne Hm Hs. destruct m as [|c m]; [done|]. unfold Contains.
  assert (Hc : no_byte c sub = true).
  { destruct (no_byte c sub) eqn:Hc; [done|]. specialize (Hs c Hc). by apply no_byte_cons in Hs as [? _]. }
  assert (Hm' : ∀ d, no_byte d sub = false → no_byte d m = true).
  { intros d Hd. specialize (Hs d Hd). by apply no_byte_cons in Hs as [_ ?]. }
  rewrite <- bool_decide_or. apply bool_decide_ext. rewrite str_app_cons, Index_stop by done.
  by rewrite Index_app_none.
Qed.

Definition ascii_byte (a : ascii) : bool := bool_decide (nat_of_ascii a < 128).

Lemma ReplaceAll_ascii s a old new : ascii_byte a = false → all_bytes ascii_byte s = true → ReplaceAll s (String a old) new = s.
Proof.
  intros Ha. unfold ReplaceAll. induction s as [|b s IH]; [done|]. intros [Hb Hs]%andb_true_iff.
  cbn [replace_skip HasPrefix]. rewrite bool_decide_false by congruence. cbn [andb]. by rewrite IH.
Qed.

Lemma ToLower_ascii s : all_bytes ascii_byte s = true → ToLower s = map_bytes lower_byte s.
Proof.
  intros Hs. unfold ToLower, kelvin, dotted_I. rewrite (ReplaceAll_ascii s) by first [reflexivity|done].
  by rewrite (ReplaceAll_ascii s) by first [reflexivity|done].
Qed.

Lemma map_bytes_app f s t : map_bytes f (s +:+ t) = map_bytes f s +:+ map_bytes f t.
Proof. induction s as [|a s IH]; [done|]. rewrite !str_app_cons. cbn [map_bytes]. by rewrite IH. Qed.
