(* ===== verification/DeviceId.v ===== *)
(** * The canonical device id (goagent/internal/cwmp/deviceid.go)

    One string names a device everywhere: SQLite keys, session keys, the cloud's
    [cwmp_id].  It joins the three components of the Inform's DeviceID by ["-"]
    after escaping the hyphens inside each. *)
From S2P Require Import Prelude GoStrings.

Definition enc (s : string) : string := ReplaceAll s "-" "%2D".

Definition CanonicalID (oui productClass serial : string) : string :=
  enc oui +:+ "-" +:+ enc productClass +:+ "-" +:+ enc serial.

(** ** Lemmas *)

Lemma enc_cons a s : enc (String a s) = if decide (a = "-"%char) then "%2D" +:+ enc s else String a (enc s).
Proof.
  unfold enc, ReplaceAll. simpl. destruct (decide (a = "-"%char)) as [->|Hne].
  - by rewrite bool_decide_true.
  - by rewrite bool_decide_false by congruence.
Qed.

Lemma enc_no_hyphen s : no_byte "-" (enc s) = true.
Proof.
  induction s as [|a s IH]; [done|]. rewrite enc_cons. case_decide.
  - rewrite no_byte_app, IH. done.
  - apply no_byte_cons. done.
Qed.

(** Escaping is reversible on text without [%]. *)
Lemma enc_inj s t : no_byte "%" s = true → no_byte "%" t = true → enc s = enc t → s = t.
Proof.
  revert t. induction s as [|a s IH]; intros [|b t] Hs Ht; [done| | |].
  - rewrite enc_cons. by case_decide.
  - rewrite enc_cons. by case_decide.
  - apply no_byte_cons in Hs as [Ha Hs]. apply no_byte_cons in Ht as [Hb Ht].
    rewrite !enc_cons. repeat case_decide; subst; simpl; intros [=]; try done.
    + f_equal. by apply IH.
    + subst. f_equal. by apply IH.
Qed.

Lemma CanonicalID_split o p s o' p' s' :
  CanonicalID o p s = CanonicalID o' p' s' → enc o = enc o' ∧ enc p = enc p' ∧ enc s = enc s'.
Proof.
  unfold CanonicalID. intros Heq.
  apply (str_split_unique "-"%char) in Heq as [Ho Heq]; auto using enc_no_hyphen.
  apply (str_split_unique "-"%char) in Heq as [Hp Hs]; auto using enc_no_hyphen.
Qed.

(** The delimiter-bound prefix test of the upload resolver sees exactly the
    OUI component. *)
Lemma CanonicalID_prefix o p s oui :
  no_byte "-" oui = true → HasPrefix (CanonicalID o p s) (oui +:+ "-") = true ↔ enc o = oui.
Proof.
  intros Houi. split.
  - intros [t Ht]%HasPrefix_inv. rewrite str_app_assoc in Ht. unfold CanonicalID in Ht.
    apply (str_split_unique "-"%char) in Ht as [Ho _]; auto using enc_no_hyphen.
  - intros <-. unfold CanonicalID.
    replace (enc o +:+ "-" +:+ enc p +:+ "-" +:+ enc s)
      with ((enc o +:+ "-") +:+ enc p +:+ "-" +:+ enc s) by apply str_app_assoc.
    apply HasPrefix_app.
Qed.

Lemma enc_id s : no_byte "-" s = true → enc s = s.
Proof.
  induction s as [|a s IH]; [done|]. intros [Hne H]%no_byte_cons.
  rewrite enc_cons, decide_False by done. by rewrite IH.
Qed.

(** ** Properties *)

(** C36: Two devices share a canonical id only if they agree in all three
    components, as long as no component contains the escape byte [%]; with one,
    they can collide ([CanonicalID] escapes ["-"] but not ["%"]). *)
Theorem CanonicalID_injective o p s o' p' s' :
  Forall (λ w, no_byte "%" w = true) [o; p; s; o'; p'; s'] →
  CanonicalID o p s = CanonicalID o' p' s' → (o, p, s) = (o', p', s').
Proof.
  intros H. rewrite !Forall_cons in H. destruct H as (Ho & Hp & Hs & Ho' & Hp' & Hs' & _).
  intros (Heo & Hep & Hes)%CanonicalID_split.
  by rewrite (enc_inj o o'), (enc_inj p p'), (enc_inj s s').
Qed.

(** The escape byte itself is not escaped, so a product class that contains
    the text ["%2D"] gets the id of the one that has a hyphen there. *)
Theorem CanonicalID_collision :
  CanonicalID "8C1F64" "A-B" "1" = CanonicalID "8C1F64" "A%2DB" "1" ∧ "A-B" ≠ "A%2DB".
Proof. by split. Qed.

Example CanonicalID_doc :
  CanonicalID "8C1F64" "ENB-N03002-B3" "2205609999" = "8C1F64-ENB%2DN03002%2DB3-2205609999".
Proof. reflexivity. Qed.

Lemma CanonicalID_injective_witness :
  ("8C1F64", "A-B", "1") = ("8C1F64", "A-B", "1").
Proof.
  apply (CanonicalID_injective "8C1F64" "A-B" "1" "8C1F64" "A-B" "1").
  - repeat constructor.
  - reflexivity.
Defined.
