(* ===== verification/GoHash.v ===== *)
(** * SHA-1, SHA-256 and MD5, as the agent uses them

    The digests behind the dedup keys (rules/engine.go, worker/worker.go) and
    the digest authentication of connection requests (cwmp/connrequest.go), on
    32-bit words as integers modulo 2^32. *)
From S2P Require Import Prelude GoStrings.
Local Open Scope Z_scope.

Definition w32 (x : Z) : Z := x mod 2 ^ 32.
Definition add32 (x y : Z) : Z := w32 (x + y).
Definition not32 (x : Z) : Z := Z.lxor x (2 ^ 32 - 1).
Definition rotl (n x : Z) : Z := Z.lor (w32 (Z.shiftl x n)) (Z.shiftr x (32 - n)).
Definition rotr (n x : Z) : Z := rotl (32 - n) x.

(** ** Bytes, blocks and padding *)

Fixpoint bytes (s : string) : list Z :=
  match s with
  | "" => []
  | String a s => Z.of_nat (nat_of_ascii a) :: bytes s
  end.

Definition be_bytes (n : nat) (x : Z) : list Z :=
  (λ i, Z.shiftr x (8 * Z.of_nat (n - 1 - i)) mod 256) <$> seq 0 n.
Definition le_bytes (n : nat) (x : Z) : list Z := reverse (be_bytes n x).

Fixpoint chunks (fuel n : nat) (l : list Z) : list (list Z) :=
  match fuel, l with
  | S fuel, _ :: _ => take n l :: chunks fuel n (drop n l)
  | _, _ => []
  end.

Definition be_word (l : list Z) : Z := foldl (λ acc b, acc * 256 + b) 0 l.
Definition le_word (l : list Z) : Z := be_word (reverse l).

(** The message, a one bit, zeros up to eight bytes short of a block, and the
    length in bits. *)
Definition pad (length_bytes : Z → list Z) (m : list Z) : list Z :=
  let zeros := Z.to_nat ((55 - Z.of_nat (length m)) mod 64) in
  m ++ [128] ++ repeat 0 zeros ++ length_bytes (8 * Z.of_nat (length m)).

(** The 16 words of each block. *)
Definition blocks (word : list Z → Z) (m : list Z) : list (list Z) :=
  (λ b, word <$> chunks 16 4 b) <$> chunks (length m) 64 m.

Definition nth_word (l : list Z) (i : nat) : Z := nth i l 0.

(** ** SHA-1 *)

(** The message schedule, built backwards: word 0 last. *)
Fixpoint sha1_extend (n : nat) (rev_w : list Z) : list Z :=
  match n with
  | O => rev_w
  | S n =>
      let x := Z.lxor (Z.lxor (nth_word rev_w 2) (nth_word rev_w 7))
                      (Z.lxor (nth_word rev_w 13) (nth_word rev_w 15)) in
      sha1_extend n (rotl 1 x :: rev_w)
  end.

Definition sha1_round (st : Z * Z * Z * Z * Z) (tw : nat * Z) : Z * Z * Z * Z * Z :=
  let '(a, b, c, d, e) := st in
  let '(t, w) := tw in
  let '(f, k) :=
    if decide (t < 20)%nat then (Z.lor (Z.land b c) (Z.land (not32 b) d), 0x5A827999)
    else if decide (t < 40)%nat then (Z.lxor (Z.lxor b c) d, 0x6ED9EBA1)
    else if decide (t < 60)%nat then (Z.lor (Z.lor (Z.land b c) (Z.land b d)) (Z.land c d), 0x8F1BBCDC)
    else (Z.lxor (Z.lxor b c) d, 0xCA62C1D6) in
  (w32 (rotl 5 a + f + e + w + k), a, rotl 30 b, c, d).

Definition sha1_block (st : Z * Z * Z * Z * Z) (w : list Z) : Z * Z * Z * Z * Z :=
  let ws := reverse (sha1_extend 64 (reverse w)) in
  let '(a, b, c, d, e) := foldl sha1_round st (zip (seq 0 80) ws) in
  let '(h0, h1, h2, h3, h4) := st in
  (add32 h0 a, add32 h1 b, add32 h2 c, add32 h3 d, add32 h4 e).

Definition sha1 (m : string) : list Z :=
  let '(h0, h1, h2, h3, h4) :=
    foldl sha1_block (0x67452301, 0xEFCDAB89, 0x98BADCFE, 0x10325476, 0xC3D2E1F0)
      (blocks be_word (pad (be_bytes 8) (bytes m))) in
  [h0; h1; h2; h3; h4] ≫= be_bytes 4.

(** ** SHA-256 *)

(** The constants are the first 32 fractional bits of the cube roots of the first
    64 primes, and the start state those of the square roots of the first 8. *)
Definition divides_none (n : Z) (ps : list Z) : bool := forallb (λ p, negb (n mod p =? 0)) ps.
Definition primes_below (n : nat) : list Z :=
  foldl (λ ps i, let x := Z.of_nat i + 2 in if divides_none x ps then ps ++ [x] else ps) [] (seq 0 (n - 2)).

(** The cube root of [n], bit by bit from bit [k] down. *)
Fixpoint cbrt_bits (k : nat) (n acc : Z) : Z :=
  let acc' := Z.lor acc (Z.shiftl 1 (Z.of_nat k)) in
  let acc := if acc' * acc' * acc' <=? n then acc' else acc in
  match k with
  | O => acc
  | S k => cbrt_bits k n acc
  end.

Definition sha256_k : list Z := Eval vm_compute in
  (λ p, w32 (cbrt_bits 36 (Z.shiftl p 96) 0)) <$> take 64 (primes_below 312).
Definition sha256_init : list Z := Eval vm_compute in
  (λ p, w32 (Z.sqrt (Z.shiftl p 64))) <$> take 8 (primes_below 20).

Fixpoint sha256_extend (n : nat) (rev_w : list Z) : list Z :=
  match n with
  | O => rev_w
  | S n =>
      let x15 := nth_word rev_w 14 in
      let x2 := nth_word rev_w 1 in
      let s0 := Z.lxor (Z.lxor (rotr 7 x15) (rotr 18 x15)) (Z.shiftr x15 3) in
      let s1 := Z.lxor (Z.lxor (rotr 17 x2) (rotr 19 x2)) (Z.shiftr x2 10) in
      sha256_extend n (w32 (nth_word rev_w 15 + s0 + nth_word rev_w 6 + s1) :: rev_w)
  end.

Definition sha256_round (st : list Z) (kw : Z * Z) : list Z :=
  match st with
  | [a; b; c; d; e; f; g; h] =>
      let s1 := Z.lxor (Z.lxor (rotr 6 e) (rotr 11 e)) (rotr 25 e) in
      let ch := Z.lxor (Z.land e f) (Z.land (not32 e) g) in
      let t1 := w32 (h + s1 + ch + kw.1 + kw.2) in
      let s0 := Z.lxor (Z.lxor (rotr 2 a) (rotr 13 a)) (rotr 22 a) in
      let maj := Z.lxor (Z.lxor (Z.land a b) (Z.land a c)) (Z.land b c) in
      [add32 t1 (add32 s0 maj); a; b; c; add32 d t1; e; f; g]
  | _ => st
  end.

Definition sha256_block (st : list Z) (w : list Z) : list Z :=
  let ws := reverse (sha256_extend 48 (reverse w)) in
  zip_with add32 st (foldl sha256_round st (zip sha256_k ws)).

Definition sha256 (m : string) : list Z :=
  foldl sha256_block sha256_init
    (blocks be_word (pad (be_bytes 8) (bytes m))) ≫= be_bytes 4.

(** ** MD5 *)

Definition md5_k : list Z :=
  [0xd76aa478; 0xe8c7b756; 0x242070db; 0xc1bdceee; 0xf57c0faf; 0x4787c62a; 0xa8304613; 0xfd469501;
   0x698098d8; 0x8b44f7af; 0xffff5bb1; 0x895cd7be; 0x6b901122; 0xfd987193; 0xa679438e; 0x49b40821;
   0xf61e2562; 0xc040b340; 0x265e5a51; 0xe9b6c7aa; 0xd62f105d; 0x02441453; 0xd8a1e681; 0xe7d3fbc8;
   0x21e1cde6; 0xc33707d6; 0xf4d50d87; 0x455a14ed; 0xa9e3e905; 0xfcefa3f8; 0x676f02d9; 0x8d2a4c8a;
   0xfffa3942; 0x8771f681; 0x6d9d6122; 0xfde5380c; 0xa4beea44; 0x4bdecfa9; 0xf6bb4b60; 0xbebfbc70;
   0x289b7ec6; 0xeaa127fa; 0xd4ef3085; 0x04881d05; 0xd9d4d039; 0xe6db99e5; 0x1fa27cf8; 0xc4ac5665;
   0xf4292244; 0x432aff97; 0xab9423a7; 0xfc93a039; 0x655b59c3; 0x8f0ccc92; 0xffeff47d; 0x85845dd1;
   0x6fa87e4f; 0xfe2ce6e0; 0xa3014314; 0x4e0811a1; 0xf7537e82; 0xbd3af235; 0x2ad7d2bb; 0xeb86d391].

Definition md5_s : list Z :=
  concat ((λ r, concat (repeat r 4)) <$>
    [[7; 12; 17; 22]; [5; 9; 14; 20]; [4; 11; 16; 23]; [6; 10; 15; 21]]).

Definition md5_round (ws : list Z) (st : Z * Z * Z * Z) (iks : nat * (Z * Z)) : Z * Z * Z * Z :=
  let '(a, b, c, d) := st in
  let '(i, (k, s)) := iks in
  let '(f, g) :=
    if decide (i < 16)%nat then (Z.lor (Z.land b c) (Z.land (not32 b) d), i)
    else if decide (i < 32)%nat then (Z.lor (Z.land d b) (Z.land (not32 d) c), ((5 * i + 1) mod 16)%nat)
    else if decide (i < 48)%nat then (Z.lxor (Z.lxor b c) d, ((3 * i + 5) mod 16)%nat)
    else (Z.lxor c (Z.lor b (not32 d)), ((7 * i) mod 16)%nat) in
  (d, add32 b (rotl s (w32 (a + f + k + nth_word ws g))), b, c).

Definition md5_block (st : Z * Z * Z * Z) (ws : list Z) : Z * Z * Z * Z :=
  let '(a, b, c, d) := foldl (md5_round ws) st (zip (seq 0 64) (zip md5_k md5_s)) in
  let '(a0, b0, c0, d0) := st in
  (add32 a0 a, add32 b0 b, add32 c0 c, add32 d0 d).

Definition md5 (m : string) : list Z :=
  let '(a, b, c, d) :=
    foldl md5_block (0x67452301, 0xefcdab89, 0x98badcfe, 0x10325476)
      (blocks le_word (pad (le_bytes 8) (bytes m))) in
  [a; b; c; d] ≫= le_bytes 4.

(** ** Hexadecimal *)

Definition hex_digit (n : Z) : ascii :=
  match String.get (Z.to_nat n) "0123456789abcdef" with Some c => c | None => "0"%char end.

Fixpoint hex (l : list Z) : string :=
  match l with
  | [] => ""
  | b :: rest => String (hex_digit (b / 16)) (String (hex_digit (b mod 16)) (hex rest))
  end.

(** ** A digest has its 32 bytes *)

Lemma sha256_round_length st kw : length st = 8%nat → length (sha256_round st kw) = 8%nat.
Proof. intros Hl. unfold sha256_round. by repeat case_match. Qed.

Lemma sha256_block_length st w : length st = 8%nat → length (sha256_block st w) = 8%nat.
Proof.
  intros Hl. unfold sha256_block. rewrite length_zip_with, Hl.
  assert (Hr : ∀ kws st, length st = 8%nat → length (foldl sha256_round st kws) = 8%nat).
  { induction kws as [|kw kws IH]; intros st' Hst; [done|]. by apply IH, sha256_round_length. }
  by rewrite Hr.
Qed.

Lemma be_bytes_length n x : length (be_bytes n x) = n.
Proof. unfold be_bytes. by rewrite length_fmap, length_seq. Qed.

Lemma sha256_length m : length (sha256 m) = 32%nat.
Proof.
  unfold sha256. generalize (blocks be_word (pad (be_bytes 8) (bytes m))). intros ws.
  assert (Hs : ∀ st, length st = 8%nat → length (foldl sha256_block st ws) = 8%nat).
  { induction ws as [|w ws IH]; intros st Hst; [done|]. by apply IH, sha256_block_length. }
  specialize (Hs sha256_init eq_refl). revert Hs. generalize (foldl sha256_block sha256_init ws). intros st Hst.
  do 8 (destruct st as [|? st]; [done|]). destruct st; [|done]. cbn [mbind list_bind].
  by rewrite !length_app, !be_bytes_length.
Qed.

Lemma hex_length l : String.length (hex l) = (2 * length l)%nat.
Proof. induction l as [|b l IH]; [done|]. cbn [hex String.length length]. rewrite IH. lia. Qed.

(** ** Published test vectors *)

Example sha1_abc : hex (sha1 "abc") = "a9993e364706816aba3e25717850c26c9cd0d89d".
Proof. vm_compute. reflexivity. Qed.

Example sha1_two_blocks :
  hex (sha1 "abcdbcdecdefdefgefghfghighijhijkijkljklmklmnlmnomnopnopq") =
  "84983e441c3bd26ebaae4aa1f95129e5e54670f1".
Proof. vm_compute. reflexivity. Qed.

Example sha256_abc :
  hex (sha256 "abc") = "ba7816bf8f01cfea414140de5dae2223b00361a396177a9cb410ff61f20015ad".
Proof. vm_compute. reflexivity. Qed.

Example sha256_empty :
  hex (sha256 "") = "e3b0c44298fc1c149afbf4c8996fb92427ae41e4649b934ca495991b7852b855".
Proof. vm_compute. reflexivity. Qed.

Example md5_abc : hex (md5 "abc") = "900150983cd24fb0d6963f7d28e17f72".
Proof. vm_compute. reflexivity. Qed.

Example md5_long :
  hex (md5 "12345678901234567890123456789012345678901234567890123456789012345678901234567890") =
  "57edf4a22be3c955ac49da2e2107b67a".
Proof. vm_compute. reflexivity. Qed.
