(* ===== verification/Regexp.v ===== *)
(** * Regular expressions (Go's [regexp]), as the rule engine uses them

    Rules are matched anywhere in a line.  Expressions are data, matched by
    derivatives; [in_lang] is the language they denote and [MatchString_iff]
    says that the matcher decides it. *)
From S2P Require Import Prelude GoStrings.

Inductive regex : Type :=
| RNone
| REmpty
| RByte (f : ascii → bool)
| RSeq (a b : regex)
| RAlt (a b : regex)
| RStar (a : regex).

Inductive in_lang : regex → list ascii → Prop :=
| in_empty : in_lang REmpty []
| in_byte f c : f c = true → in_lang (RByte f) [c]
| in_seq a b s t : in_lang a s → in_lang b t → in_lang (RSeq a b) (s ++ t)
| in_alt_l a b s : in_lang a s → in_lang (RAlt a b) s
| in_alt_r a b s : in_lang b s → in_lang (RAlt a b) s
| in_star_nil a : in_lang (RStar a) []
| in_star_app a s t : s ≠ [] → in_lang a s → in_lang (RStar a) t → in_lang (RStar a) (s ++ t).

Fixpoint nullable (r : regex) : bool :=
  match r with
  | RNone | RByte _ => false
  | REmpty | RStar _ => true
  | RSeq a b => nullable a && nullable b
  | RAlt a b => nullable a || nullable b
  end.

(** Smart constructors keep the derivatives small. *)
Definition seq_ (a b : regex) : regex :=
  match a with RNone => RNone | REmpty => b | _ => RSeq a b end.
Definition alt_ (a b : regex) : regex :=
  match a, b with RNone, _ => b | _, RNone => a | _, _ => RAlt a b end.

Fixpoint deriv (c : ascii) (r : regex) : regex :=
  match r with
  | RNone | REmpty => RNone
  | RByte f => if f c then REmpty else RNone
  | RSeq a b => if nullable a then alt_ (seq_ (deriv c a) b) (deriv c b) else seq_ (deriv c a) b
  | RAlt a b => alt_ (deriv c a) (deriv c b)
  | RStar a => seq_ (deriv c a) (RStar a)
  end.

(** Does a prefix of [s] match? *)
Fixpoint match_prefix (r : regex) (s : string) : bool :=
  nullable r || match s with
                | "" => false
                | String c s => match_prefix (deriv c r) s
                end.

(** [MatchString]: a match starting anywhere. *)
Fixpoint MatchString (r : regex) (s : string) : bool :=
  match_prefix r s || match s with
                      | "" => false
                      | String _ s => MatchString r s
                      end.

(** ** Literals *)

Fixpoint lit (s : string) : regex :=
  match s with
  | "" => REmpty
  | String a s => RSeq (RByte (λ c, bool_decide (c = a))) (lit s)
  end.

Fixpoint alts (l : list regex) : regex :=
  match l with
  | [] => RNone
  | [r] => r
  | r :: rest => RAlt r (alts rest)
  end.

(** A literal under [(?i)]: simple folding puts U+017F with [s] and U+212A with
    [k]. *)
Fixpoint lit_fold (s : string) : regex :=
  match s with
  | "" => REmpty
  | String a s =>
      let one := RByte (λ c, bool_decide (lower_byte c = lower_byte a)) in
      RSeq (if decide (lower_byte a = "s"%char) then RAlt one (lit long_s)
            else if decide (lower_byte a = "k"%char) then RAlt one (lit kelvin)
            else one) (lit_fold s)
  end.

(** ** The matcher decides the language *)

Lemma nullable_iff r : nullable r = true ↔ in_lang r [].
Proof.
  split.
  - induction r; simpl; intros H; try done; try (by constructor).
    + apply andb_true_iff in H as [? ?]. apply (in_seq _ _ [] []); auto.
    + apply orb_true_iff in H as [?|?]; [apply in_alt_l | apply in_alt_r]; auto.
  - remember [] as s eqn:Hs. induction 1; simpl; try done; subst.
    + apply app_nil in Hs as [-> ->]. by rewrite IHin_lang1, IHin_lang2.
    + by rewrite IHin_lang.
    + rewrite IHin_lang by done. apply orb_true_r.
Qed.

Lemma in_seq_ a b s : in_lang (seq_ a b) s ↔ in_lang (RSeq a b) s.
Proof.
  destruct a; simpl; try done; split.
  - by inversion 1.
  - inversion 1 as [| |? ? s1 t1 Ha Hb| | | |]; subst. by inversion Ha.
  - intros H. by apply (in_seq _ _ []); [constructor|].
  - inversion 1 as [| |? ? s1 t1 Ha Hb| | | |]; subst. by inversion Ha; subst.
Qed.

Lemma in_alt_ a b s : in_lang (alt_ a b) s ↔ in_lang (RAlt a b) s.
Proof.
  assert (Hn : ∀ s, ¬ in_lang RNone s) by (intros t; by inversion 1).
  split.
  - destruct a, b; simpl; intros H; try done; try (by apply in_alt_l); by apply in_alt_r.
  - destruct a, b; simpl; try done; (inversion 1; subst; [|]); try done; try (by exfalso; eapply Hn).
Qed.

Lemma deriv_iff r c s : in_lang (deriv c r) s ↔ in_lang r (c :: s).
Proof.
  revert s. induction r as [| |f|a IHa b IHb|a IHa b IHb|a IHa]; intros s; simpl.
  - split; by inversion 1.
  - split; by inversion 1.
  - destruct (f c) eqn:Hf; split; inversion 1; subst; by constructor || congruence.
  - assert (Hsplit : in_lang (RSeq a b) (c :: s) ↔
      in_lang (RSeq (deriv c a) b) s ∨ (nullable a = true ∧ in_lang b (c :: s))).
    { split.
      - inversion 1 as [| |? ? s1 t1 Ha Hb Heq| | | |]; subst. destruct s1 as [|c1 s1]; simplify_eq/=.
        + right. by rewrite nullable_iff.
        + left. apply in_seq; [by apply IHa|done].
      - intros [H|[Hn Hb]].
        + inversion H as [| |? ? s1 t1 Ha Hb| | | |]; subst.
          apply (in_seq _ _ (c :: s1)); [by apply IHa|done].
        + by apply (in_seq _ _ []); [apply nullable_iff|]. }
    rewrite Hsplit. destruct (nullable a).
    + rewrite in_alt_. split.
      * inversion 1; subst; [left; by apply in_seq_ | right; split; [done|by apply IHb]].
      * intros [H|[_ H]]; [apply in_alt_l; by apply in_seq_|apply in_alt_r; by apply IHb].
    + rewrite in_seq_. naive_solver.
  - rewrite in_alt_. split; inversion 1; subst; by (apply in_alt_l + apply in_alt_r; (apply IHa || apply IHb)).
  - rewrite in_seq_. split.
    + inversion 1 as [| |? ? s1 t1 Ha Hb| | | |]; subst. by apply (in_star_app _ (c :: s1)); [|apply IHa|].
    + inversion 1 as [| | | | | |? s1 t1 Hne Ha Hb Heq]; subst. destruct s1 as [|c1 s1]; simplify_eq/=.
      apply in_seq; [by apply IHa|done].
Qed.

Lemma match_prefix_iff r s :
  match_prefix r s = true ↔ ∃ p t, String.list_ascii_of_string s = p ++ t ∧ in_lang r p.
Proof.
  revert r. induction s as [|c s IH]; intros r; simpl.
  - rewrite orb_false_r, nullable_iff. split; [by exists [], []|]. intros (p & t & Hpt & H).
    symmetry in Hpt. by apply app_nil in Hpt as [-> ->].
  - rewrite orb_true_iff, nullable_iff, IH. split.
    + intros [H|(p & t & Hpt & H)]; [by eexists [], _|]. exists (c :: p), t. simpl. rewrite Hpt.
      split; [done|by apply deriv_iff].
    + intros ([|c1 p] & t & Hpt & H); [by left|]. right. simplify_eq/=. exists p, t.
      split; [done|by apply deriv_iff].
Qed.

Lemma MatchString_iff r s :
  MatchString r s = true ↔
  ∃ a p t, String.list_ascii_of_string s = a ++ p ++ t ∧ in_lang r p.
Proof.
  induction s as [|c s IH]; cbn [MatchString]; rewrite orb_true_iff, match_prefix_iff.
  - split.
    + intros [(p & t & H)|H]; [by exists [], p, t|done].
    + intros (a & p & t & Hpt & H). left. simpl in *. symmetry in Hpt.
      apply app_nil in Hpt as [-> [-> ->]%app_nil]. by exists [], [].
  - rewrite IH. split.
    + intros [(p & t & H & Hl)|(a & p & t & H & Hl)]; [by exists [], p, t|].
      exists (c :: a), p, t. simpl. by rewrite H.
    + intros ([|c1 a] & p & t & Hpt & H); [left; by exists p, t|]. right. simplify_eq/=. by exists a, p, t.
Qed.
