(* ===== verification/GoTime.v ===== *)
(** * Formatting instants ([time.Time.Format])

    Instants are Unix seconds, formatted in UTC: RFC 3339, the eight-digit date
    and the minute stamp of a log file, the millisecond stamp of a log line.
    [time.Parse] reads the minute stamp back.  [days_from_civil] is the calendar
    the parser uses, and the inverse of the formatter's. *)
From S2P Require Import Prelude GoStrings.
Local Open Scope Z_scope.

Record civil := mkCivil { year : Z; month : Z; day : Z }.

(** The proleptic Gregorian date of a day counted from 1970-01-01, by the
    400-year cycle starting on 1 March: the year of the cycle and the day of that
    year, counted from March. *)
Definition yoe_of (doe : Z) : Z := (doe - doe / 1460 + doe / 36524 - doe / 146096) / 365.
Definition doy_of (doe : Z) : Z := doe - (365 * yoe_of doe + yoe_of doe / 4 - yoe_of doe / 100).

Definition civil_of (era doe : Z) : civil :=
  let doy := doy_of doe in
  let mp := (5 * doy + 2) / 153 in
  let m := if decide (mp < 10) then mp + 3 else mp - 9 in
  mkCivil (yoe_of doe + era * 400 + (if decide (m ≤ 2) then 1 else 0)) m (doy - (153 * mp + 2) / 5 + 1).

Definition civil_from_days (n : Z) : civil := civil_of ((n + 719468) / 146097) ((n + 719468) mod 146097).

Definition days_from_civil (c : civil) : Z :=
  let y := if decide (month c ≤ 2) then year c - 1 else year c in
  let era := y / 400 in
  let yoe := y mod 400 in
  let mp := if decide (2 < month c) then month c - 3 else month c + 9 in
  let doy := (153 * mp + 2) / 5 + day c - 1 in
  era * 146097 + (yoe * 365 + yoe / 4 - yoe / 100 + doy) - 719468.

Definition digit (n : Z) : ascii := pretty_N_char (Z.to_N (n mod 10)).

Definition two (n : Z) : string := String (digit (n / 10)) (String (digit n) "").
Definition four (n : Z) : string := two (n / 100) +:+ two (n mod 100).

(** Layout [2006-01-02T15:04:05Z07:00] of a UTC instant. *)
Definition RFC3339 (unix : Z) : string :=
  let c := civil_from_days (unix / 86400) in
  let sec := unix mod 86400 in
  four (year c) +:+ "-" +:+ two (month c) +:+ "-" +:+ two (day c) +:+ "T" +:+
  two (sec / 3600) +:+ ":" +:+ two (sec / 60 mod 60) +:+ ":" +:+ two (sec mod 60) +:+ "Z".

(** Layout [20060102]. *)
Definition date8 (unix : Z) : string :=
  let c := civil_from_days (unix / 86400) in
  four (year c) +:+ two (month c) +:+ two (day c).

Example RFC3339_epoch : RFC3339 0 = "1970-01-01T00:00:00Z".
Proof. vm_compute. reflexivity. Qed.
Example RFC3339_billion : RFC3339 1000000000 = "2001-09-09T01:46:40Z".
Proof. vm_compute. reflexivity. Qed.
Example RFC3339_leap : RFC3339 1709210096 = "2024-02-29T12:34:56Z".
Proof. vm_compute. reflexivity. Qed.
Example date8_2026 : date8 1782864000 = "20260701".
Proof. vm_compute. reflexivity. Qed.

Lemma date8_length unix : String.length (date8 unix) = 8%nat.
Proof. reflexivity. Qed.

(** ** The stamps of log files and log lines *)

Definition hhmm (unix : Z) : string := two (unix mod 86400 / 3600) +:+ two (unix mod 86400 / 60 mod 60).

(** Layout [20060102.1504-0700] of a UTC instant. *)
Definition minute_stamp (unix : Z) : string := date8 unix +:+ "." +:+ hhmm unix +:+ "+0000".

(** Layout [2006-01-02 15:04:05.000] of a UTC instant in nanoseconds. *)
Definition milli_stamp (ns : Z) : string :=
  let unix := ns / 1000000000 in
  let c := civil_from_days (unix / 86400) in
  let sec := unix mod 86400 in
  let ms := ns mod 1000000000 / 1000000 in
  four (year c) +:+ "-" +:+ two (month c) +:+ "-" +:+ two (day c) +:+ " " +:+
  two (sec / 3600) +:+ ":" +:+ two (sec / 60 mod 60) +:+ ":" +:+ two (sec mod 60) +:+ "." +:+
  String (digit (ms / 100)) (two (ms mod 100)).

(** ** [time.Parse] with layout [20060102.1504-0700] *)

Definition digit_val (a : ascii) : option Z :=
  let n := Z.of_nat (nat_of_ascii a) in
  if decide (48 ≤ n ∧ n ≤ 57) then Some (n - 48) else None.

(** [getnum]: one or two digits, [fixed] requires two. *)
Definition getnum (s : string) (fixed : bool) : option (Z * string) :=
  match s with
  | String a s1 =>
      d ← digit_val a;
      match s1 with
      | String b s2 =>
          match digit_val b with
          | Some e => Some (d * 10 + e, s2)
          | None => if fixed then None else Some (d, s1)
          end
      | "" => if fixed then None else Some (d, s1)
      end
  | "" => None
  end.

(** The four digits of [2006]. *)
Definition getyear (s : string) : option (Z * string) :=
  '(c, s) ← getnum s true;
  '(y, s) ← getnum s true;
  Some (c * 100 + y, s).

Definition isLeap (y : Z) : bool := bool_decide (y mod 4 = 0 ∧ (y mod 100 ≠ 0 ∨ y mod 400 = 0)).

Definition daysIn (m y : Z) : Z :=
  if decide (m = 2) then (if isLeap y then 29 else 28)
  else if decide (m = 4 ∨ m = 6 ∨ m = 9 ∨ m = 11) then 30 else 31.

(** The zone [-0700] in seconds east of UTC; hour 24 and minute 60 pass. *)
Definition getzone (s : string) : option (Z * string) :=
  match s with
  | String sign s =>
      '(h, s) ← getnum s true;
      '(m, s) ← getnum s true;
      if decide (24 < h ∨ 60 < m) then None
      else if decide (sign = "+"%char) then Some ((h * 60 + m) * 60, s)
      else if decide (sign = "-"%char) then Some (- ((h * 60 + m) * 60), s)
      else None
  | "" => None
  end.

Definition Parse_minute_stamp (s : string) : option Z :=
  '(y, s) ← getyear s;
  '(m, s) ← getnum s true;
  if decide (m ≤ 0 ∨ 12 < m) then None else
  '(d, s) ← getnum s true;
  match s with
  | String "." s =>
      '(hour, s) ← getnum s false;
      if decide (24 ≤ hour) then None else
      '(minute, s) ← getnum s true;
      if decide (60 ≤ minute) then None else
      '(zone, s) ← getzone s;
      if decide (s ≠ "" ∨ d < 1 ∨ daysIn m y < d) then None
      else Some (days_from_civil (mkCivil y m d) * 86400 + hour * 3600 + minute * 60 - zone)
  | _ => None
  end.

Example Parse_minute : Parse_minute_stamp "20240229.1234+0000" = Some 1709210040.
Proof. vm_compute. reflexivity. Qed.
Example Parse_minute_zone : Parse_minute_stamp "20240229.1234-0130" = Some 1709215440.
Proof. vm_compute. reflexivity. Qed.
Example Parse_minute_short_hour : Parse_minute_stamp "20240229.9" = None ∧ Parse_minute_stamp "20230229.0900+0000" = None.
Proof. by vm_compute. Qed.

(** ** The calendar is inverted *)

Lemma yoe_range doe : 0 ≤ doe < 146097 → 0 ≤ yoe_of doe < 400.
Proof. unfold yoe_of. intros. Z.div_mod_to_equations. lia. Qed.

Lemma doy_range doe : 0 ≤ doe < 146097 → 0 ≤ doy_of doe ≤ 365.
Proof. unfold doy_of, yoe_of. intros. Z.div_mod_to_equations. lia. Qed.

(** The 366th day, counted from March, only exists before a leap day. *)
Lemma doy_leap doe : 0 ≤ doe < 146097 → doy_of doe = 365 → isLeap (yoe_of doe + 1) = true.
Proof.
  unfold isLeap. intros. apply bool_decide_eq_true. unfold doy_of, yoe_of in *. Z.div_mod_to_equations. lia.
Qed.

Lemma isLeap_era y k : isLeap (y + k * 400) = isLeap y.
Proof. unfold isLeap. apply bool_decide_ext. Z.div_mod_to_equations. lia. Qed.

(** The months of the year that starts in March. *)
Lemma month_split doy : 0 ≤ doy ≤ 365 →
  let mp := (5 * doy + 2) / 153 in
  0 ≤ mp ≤ 11 ∧ 1 ≤ doy - (153 * mp + 2) / 5 + 1 ≤ 31 ∧
  (mp ∈ [1; 3; 6; 8] → doy - (153 * mp + 2) / 5 + 1 ≤ 30) ∧
  (mp = 11 → doy - (153 * mp + 2) / 5 + 1 = doy - 336).
Proof.
  intros H mp. assert (Hmp : 0 ≤ mp ≤ 11) by (subst mp; Z.div_mod_to_equations; lia).
  split; [done|]. split; [subst mp; Z.div_mod_to_equations; lia|]. split.
  - rewrite !elem_of_cons, elem_of_nil. subst mp. Z.div_mod_to_equations. lia.
  - intros ->. change ((153 * 11 + 2) / 5) with 337. lia.
Qed.

Lemma civil_of_valid era doe : 0 ≤ doe < 146097 → let c := civil_of era doe in
  1 ≤ month c ≤ 12 ∧ 1 ≤ day c ≤ daysIn (month c) (year c) ∧
  days_from_civil c = era * 146097 + doe - 719468.
Proof.
  intros Hdoe c. pose proof (yoe_range doe Hdoe) as Hyoe. pose proof (doy_range doe Hdoe) as Hdoy.
  destruct (month_split (doy_of doe) Hdoy) as (Hmp & Hd & Hd30 & Hfeb).
  subst c. unfold civil_of. set (mp := (5 * doy_of doe + 2) / 153) in *.
  set (m := if decide (mp < 10) then mp + 3 else mp - 9).
  set (y := yoe_of doe + era * 400 + (if decide (m ≤ 2) then 1 else 0)).
  set (d := doy_of doe - (153 * mp + 2) / 5 + 1) in *. cbn [year month day].
  assert (Hm : 1 ≤ m ≤ 12) by (subst m; case_decide; lia).
  split; [done|]. split; [split; [lia|]|].
  - unfold daysIn. case_decide as H2.
    + assert (mp = 11) as H11 by (subst m; case_decide; lia). rewrite Hfeb by done.
      destruct (isLeap y) eqn:Hl; [lia|]. destruct (decide (doy_of doe = 365)) as [H365|]; [|lia].
      apply doy_leap in H365; [|done]. subst y. rewrite decide_True in Hl by lia.
      replace (yoe_of doe + era * 400 + 1) with (yoe_of doe + 1 + era * 400) in Hl by lia.
      rewrite isLeap_era in Hl. congruence.
    + case_decide as H30; [|lia]. apply Hd30. rewrite !elem_of_cons, elem_of_nil. subst m. case_decide; lia.
  - unfold days_from_civil. cbn [year month day].
    replace (if decide (m ≤ 2) then y - 1 else y) with (yoe_of doe + era * 400) by (subst y; case_decide; lia).
    replace (if decide (2 < m) then m - 3 else m + 9) with mp by (subst m; repeat case_decide; lia).
    assert ((yoe_of doe + era * 400) / 400 = era) as -> by (clear -Hyoe; Z.div_mod_to_equations; lia).
    assert ((yoe_of doe + era * 400) mod 400 = yoe_of doe) as -> by (clear -Hyoe; Z.div_mod_to_equations; lia).
    unfold d, doy_of. lia.
Qed.

Lemma civil_valid n : let c := civil_from_days n in
  1 ≤ month c ≤ 12 ∧ 1 ≤ day c ≤ daysIn (month c) (year c) ∧ days_from_civil c = n.
Proof.
  destruct (civil_of_valid ((n + 719468) / 146097) ((n + 719468) mod 146097)) as (Hm & Hd & Hn).
  { apply Z.mod_pos_bound. lia. }
  split; [exact Hm|]. split; [exact Hd|]. unfold civil_from_days. rewrite Hn.
  pose proof (Z.div_mod (n + 719468) 146097). lia.
Qed.

(** ** The minute stamp is read back *)

Lemma digit_val_digit n : digit_val (digit n) = Some (n mod 10).
Proof.
  unfold digit. pose proof (Z.mod_pos_bound n 10) as H. set (k := n mod 10) in *.
  assert (k ∈ [0; 1; 2; 3; 4; 5; 6; 7; 8; 9]) as Hk by (rewrite !elem_of_cons, elem_of_nil; lia).
  clearbody k. clear H. revert k Hk. apply Forall_forall. repeat constructor.
Qed.

Lemma getnum_two n s fixed : 0 ≤ n < 100 → getnum (two n +:+ s) fixed = Some (n, s).
Proof.
  intros H. change (two n +:+ s) with (String (digit (n / 10)) (String (digit n) s)). unfold getnum.
  rewrite !digit_val_digit. cbn [mbind option_bind]. do 2 f_equal.
  Z.div_mod_to_equations. lia.
Qed.

Lemma getyear_four n s : 0 ≤ n < 10000 → getyear (four n +:+ s) = Some (n, s).
Proof.
  intros H. unfold getyear, four. rewrite str_app_assoc, getnum_two by (Z.div_mod_to_equations; lia).
  cbn [mbind option_bind]. rewrite getnum_two by (Z.div_mod_to_equations; lia). cbn [mbind option_bind].
  do 2 f_equal. Z.div_mod_to_equations. lia.
Qed.

Definition year_of (unix : Z) : Z := year (civil_from_days (unix / 86400)).

(** A stamp of a year with four digits is read back to its minute. *)
Lemma Parse_minute_stamp_roundtrip unix : 0 ≤ year_of unix < 10000 →
  Parse_minute_stamp (minute_stamp unix) = Some (unix - unix mod 60).
Proof.
  intros Hy. unfold Parse_minute_stamp, minute_stamp, date8, hhmm. rewrite !str_app_assoc.
  destruct (civil_valid (unix / 86400)) as (Hm & Hd & Hn).
  set (c := civil_from_days (unix / 86400)) in *. change (year_of unix) with (year c) in Hy.
  assert (Hd31 : daysIn (month c) (year c) ≤ 31).
  { unfold daysIn. repeat case_decide; try destruct (isLeap _); lia. }
  rewrite getyear_four by done. cbn [mbind option_bind]. rewrite (getnum_two (month c)) by lia. cbn [mbind option_bind].
  rewrite decide_False by lia. rewrite (getnum_two (day c)) by lia. cbn [mbind option_bind].
  change ("." +:+ ?x) with (String "." x). cbv iota beta.
  rewrite getnum_two by (Z.div_mod_to_equations; lia). cbn [mbind option_bind].
  rewrite decide_False by (Z.div_mod_to_equations; lia).
  rewrite getnum_two by (Z.div_mod_to_equations; lia). cbn [mbind option_bind].
  rewrite decide_False by (Z.div_mod_to_equations; lia).
  change (getzone "+0000") with (Some (0, "")). cbn [mbind option_bind].
  rewrite (decide_False (P := _ ∨ _)) by (intros [?|[?|?]]; [done|lia|lia]). f_equal.
  change (mkCivil (year c) (month c) (day c)) with c. destruct c as [cy cm cd] eqn:Hc.
  cbn [year month day]. rewrite Hn. Z.div_mod_to_equations. lia.
Qed.
