(* ===== verification/CloudTypes.v ===== *)
(** * Northbound DTOs (goagent/internal/cloud/client.go)

    The requests and commands the agent exchanges with the cloud. *)
From Stdlib Require Export SpecFloat.
From S2P Require Import Prelude GoStrings.
#[local] Set Warnings "-register-all".

(** Go's [any], as far as JSON decoding and the agent produce it.  A float64 is
    an IEEE 754 value of the Standard Library's [spec_float]; a map is listed in
    the order of its keys. *)
Inductive any : Type :=
| ANil
| AString (s : string)
| ABool (b : bool)
| AFloat (f : spec_float)
| AList (l : list any)
| AMap (l : list (string * any)).

Section Sprint.
(** [%v] of a float64. *)
Variable SprintFloat : spec_float → string.

(** [fmt.Sprint]. *)
Fixpoint Sprint (v : any) : string :=
  match v with
  | ANil => "<nil>"
  | AString s => s
  | ABool b => if b then "true" else "false"
  | AFloat f => SprintFloat f
  | AList l => "[" +:+ Join ((fix go l := match l with [] => [] | v :: l => Sprint v :: go l end) l) " " +:+ "]"
  | AMap l =>
      "map[" +:+ Join ((fix go l := match l with [] => [] | (k, v) :: l => (k +:+ ":" +:+ Sprint v) :: go l end) l) " "
      +:+ "]"
  end.
End Sprint.

Record InventoryItem := mkItem {
  it_CWMPID : string;
  it_SerialNumber : string;
  it_ProductClass : string;
  it_AdminLANIP : string;
  it_WANIP : string;
  it_SWVersion : string;
  it_RFTxStatus : option bool;
  it_OpState : option bool;
  it_LastInformAt : string }.

Record MetricSample := mkSample {
  ms_CWMPID : string;
  ms_Timestamp : string;
  ms_Tier : Z;
  ms_Metrics : gmap string any }.

(** Whether JSON can express a value: every float in it is finite. *)
Fixpoint any_finite (v : any) : bool :=
  match v with
  | AFloat (S754_infinity _) | AFloat S754_nan => false
  | AList l => (fix go l := match l with [] => true | v :: l => any_finite v && go l end) l
  | AMap l => (fix go l := match l with [] => true | (_, v) :: l => any_finite v && go l end) l
  | _ => true
  end.
Definition sample_finite (m : MetricSample) : bool :=
  forallb (λ kv, any_finite kv.2) (map_to_list (ms_Metrics m)).

Record EventItem := mkEvent {
  ev_CWMPID : string;
  ev_Timestamp : string;
  ev_Module : string;
  ev_EventType : string;
  ev_Severity : string;
  ev_Message : string;
  ev_Attrs : gmap string string;
  ev_DedupKey : string }.

Record AlarmItem := mkAlarm {
  al_CWMPID : string;
  al_Timestamp : string;
  al_Severity : string;
  al_AlarmType : string;
  al_Message : string;
  al_Active : bool }.

Record TelemetryRequest := mkTelemetry {
  tq_Metrics : list MetricSample;
  tq_Events : list EventItem;
  tq_Alarms : list AlarmItem }.

Record RegisterRequest := mkRegister { AgentVersion : string; Meta : gmap string any }.

Record HeartbeatRequest := mkHeartbeat { hb_Devices : list InventoryItem }.

Record SnapshotRequest := mkSnapshot { sn_Params : gmap string any; sn_Source : string }.

Record Write := mkWrite {
  wr_Path : string;
  wr_Value : any;
  wr_XSDType : string }.

Record CommandPayload := mkPayload {
  cp_Writes : list Write;
  cp_Verify : gmap string any;
  cp_RollbackOnFail : bool;
  cp_ReadPaths : list string }.

Record Command := mkCommand {
  cmd_ID : string;
  cmd_DeviceID : string;
  cmd_CWMPID : string;
  cmd_Type : string;
  cmd_Payload : CommandPayload }.

Record PollData := mkPoll { pd_ServerTime : string; pd_Commands : list Command }.

(** One entry of the mismatch list of a verified write. *)
Record Mismatch := mkMismatch {
  mm_path : string;
  mm_expected : any;
  mm_actual : any;
  mm_missing : bool }.

Record AckResult := mkAckResult {
  ar_Readback : gmap string any;
  ar_Mismatch : list Mismatch;
  ar_TaskID : string;
  ar_Detail : string }.

Record AckRequest := mkAck {
  ack_Status : string;
  ack_Result : AckResult }.

Definition empty_result : AckResult := mkAckResult ∅ [] "" "".

#[export] Instance EventItem_eq_dec : EqDecision EventItem.
Proof. solve_decision. Defined.
#[export] Instance AlarmItem_eq_dec : EqDecision AlarmItem.
Proof. solve_decision. Defined.
#[export] Instance InventoryItem_eq_dec : EqDecision InventoryItem.
Proof. solve_decision. Defined.
