(* ===== verification/Rules.v ===== *)
(** * The rule engine (goagent/internal/rules/engine.go)

    Log lines of an upload become events: the first rule whose module is the
    line's inline tag and whose expression matches names the event; a line that
    no rule knows but that reads like an alarm is reported unclassified. *)
From S2P Require Import Prelude GoStrings GoHash Regexp GoTime CloudTypes.

(** ** Definitions *)

(** [re] is the compiled expression of [match]. *)
Record Rule := mkRule {
  r_Module : string;
  r_Match : string;
  r_EventType : string;
  r_Severity : string;
  r_Message : string;
  r_re : regex }.

Definition Engine : Type := list Rule.

Definition rulesVersion : Z := 2.

(** [compile], with [regexp.Compile] as a parameter: [None] is its error. *)
Section Compile.
Variable regexp_Compile : string → option regex.

Fixpoint compile (rules : list Rule) : option Engine :=
  match rules with
  | [] => Some []
  | r :: rest =>
      re ← regexp_Compile (r_Match r);
      e ← compile rest;
      Some (mkRule (r_Module r) (r_Match r) (r_EventType r) (r_Severity r) (r_Message r) re :: e)
  end.

(** [Load] after reading and decoding the file. *)
Definition Load (version : Z) (rules : list Rule) : option Engine :=
  if decide (version ≠ rulesVersion) then None else compile rules.
End Compile.

Definition DefaultEngine : Engine :=
  [mkRule "TR69" "ACS (Connect Status = 2|connect failed|Disconnect with error)"
     "vendor_acs_unreachable" "major" "Vendor ACS unreachable"
     (RSeq (lit "ACS ") (alts [lit "Connect Status = 2"; lit "connect failed"; lit "Disconnect with error"]));
   mkRule "TR69" "RPC Unknown received from ACS" "atc_fault_loop" "major" "ACS returned Fault to ATC"
     (lit "RPC Unknown received from ACS");
   mkRule "FILE_TRANS" "File upload success, curl code=\(0\)" "ftp_upload_ok" "info" "FTP upload succeeded"
     (lit "File upload success, curl code=(0)");
   mkRule "FILE_TRANS" "curl code=\(7\)" "ftp_conn_fail" "major" "FTP connection failed"
     (lit "curl code=(7)");
   mkRule "FILE_TRANS" "curl code=\(25\)" "ftp_upload_path_reject" "minor" "FTP upload path rejected"
     (lit "curl code=(25)");
   mkRule "FILE_TRANS" "curl code=\(28\)" "ftp_upload_timeout" "major" "FTP upload timed out"
     (lit "curl code=(28)");
   mkRule "FILE_TRANS" "curl code=\(67\)" "ftp_auth_fail" "major" "FTP authentication failed"
     (lit "curl code=(67)");
   mkRule "FM" "(?i)reboot|restart" "device_reboot" "critical" "Device reboot detected"
     (alts [lit_fold "reboot"; lit_fold "restart"])].

(** The class [[A-Za-z0-9_]]. *)
Definition word_byte (a : ascii) : bool :=
  let n := nat_of_ascii a in
  bool_decide ((65 ≤ n ∧ n ≤ 90) ∨ (97 ≤ n ∧ n ≤ 122) ∨ (48 ≤ n ∧ n ≤ 57) ∨ n = 95).

(** The word up to a closing bracket, if it is not empty. *)
Fixpoint tag_word (s : string) : option string :=
  match s with
  | "" => None
  | String a s =>
      if decide (a = "]"%char) then Some ""
      else if word_byte a then String a <$> tag_word s else None
  end.

(** [moduleTagRe.FindStringSubmatch]: the first place where the whole of
    "[word]" fits. *)
Fixpoint find_tag (s : string) : option string :=
  match s with
  | "" => None
  | String a s' =>
      match (if decide (a = "["%char) then tag_word s' else None) with
      | Some (String c w) => Some (String c w)
      | _ => find_tag s'
      end
  end.

Definition moduleFromLine (line : string) : string := default "" (find_tag line).

Definition dedup_content (device eventType bucket raw : string) : string :=
  device +:+ "|" +:+ eventType +:+ "|" +:+ bucket +:+ "|" +:+ hex (sha1 raw).

Definition dedup (device eventType bucket raw : string) : string :=
  hex (sha256 (dedup_content device eventType bucket raw)).

Definition event (device ts module eventType severity message raw bucket : string) : EventItem :=
  let device := if decide (device = "") then "unknown" else device in
  mkEvent device ts module eventType severity message {["raw" := raw]}
    (dedup device eventType bucket raw).

Definition alarmy (line : string) : bool :=
  let l := ToLower line in
  Contains l "alarm" || Contains l "fault" || Contains l "fail" || Contains l "error".

(** The loop over the rules, with its [break]. *)
Fixpoint match_rules (rules : list Rule) (module line : string) : option Rule :=
  match rules with
  | [] => None
  | r :: rest =>
      if negb (EqualFold (r_Module r) module) || negb (MatchString (r_re r) line)
      then match_rules rest module line
      else Some r
  end.

(** The body of the loop over the lines. *)
Definition apply_line (e : Engine) (now deviceHint bucket line : string) : list EventItem :=
  let line := TrimSpace line in
  if decide (line = "") then []
  else
    let module := moduleFromLine line in
    match match_rules e module line with
    | Some r => [event deviceHint now module (r_EventType r) (r_Severity r) (r_Message r) line bucket]
    | None => if alarmy line then [event deviceHint now module "unclassified" "warning" "" line bucket] else []
    end.

Fixpoint apply_lines (e : Engine) (now deviceHint bucket : string) (lines : list string) : list EventItem :=
  match lines with
  | [] => []
  | line :: rest => apply_line e now deviceHint bucket line ++ apply_lines e now deviceHint bucket rest
  end.

Definition Apply (e : Engine) (now : Z) (lines : list string) (deviceHint bucket : string) : list EventItem :=
  apply_lines e (RFC3339 now) deviceHint bucket lines.

(** ** Lemmas *)

Definition rule_hits (module line : string) (r : Rule) : Prop :=
  EqualFold (r_Module r) module = true ∧ MatchString (r_re r) line = true.

Lemma match_rules_spec rules module line :
  match match_rules rules module line with
  | Some r => ∃ l k, rules = l ++ r :: k ∧ rule_hits module line r ∧ Forall (λ r', ¬ rule_hits module line r') l
  | None => Forall (λ r', ¬ rule_hits module line r') rules
  end.
Proof.
  induction rules as [|r rules IH]; simpl; [done|]. unfold rule_hits in *.
  destruct (EqualFold (r_Module r) module) eqn:Hm, (MatchString (r_re r) line) eqn:Hl; simpl.
  1: { by exists [], rules. }
  all: destruct (match_rules rules module line) as [r'|];
    [destruct IH as (l & k & -> & Hhit & Hall); exists (r :: l), k; split; [done|split; [done|]]|];
    constructor; try done; rewrite Hm, Hl; naive_solver.
Qed.

Lemma apply_line_length e now d b line : length (apply_line e now d b line) ≤ 1.
Proof. unfold apply_line. case_decide; [simpl; lia|]. destruct (match_rules _ _ _); [simpl; lia|]. case_match; simpl; lia. Qed.

Lemma apply_line_event e now d b line ev :
  ev ∈ apply_line e now d b line →
  ev_CWMPID ev = (if decide (d = "") then "unknown" else d) ∧
  ev_Attrs ev = {["raw" := TrimSpace line]} ∧
  ev_DedupKey ev = dedup (ev_CWMPID ev) (ev_EventType ev) b (TrimSpace line) ∧
  ev_Module ev = moduleFromLine (TrimSpace line) ∧ TrimSpace line ≠ "".
Proof.
  unfold apply_line. case_decide; [set_solver|].
  destruct (match_rules _ _ _) as [r|]; [intros ->%list_elem_of_singleton; done|].
  case_match; [intros ->%list_elem_of_singleton; done | set_solver].
Qed.

Lemma apply_lines_app e now d b l k :
  apply_lines e now d b (l ++ k) = apply_lines e now d b l ++ apply_lines e now d b k.
Proof. induction l as [|x l IH]; [done|]. simpl. by rewrite IH, app_assoc. Qed.

Lemma apply_lines_elem e now d b lines ev :
  ev ∈ apply_lines e now d b lines ↔ ∃ line, line ∈ lines ∧ ev ∈ apply_line e now d b line.
Proof.
  induction lines as [|x l IH]; simpl; [set_solver|]. rewrite elem_of_app, IH. set_solver.
Qed.

Lemma dedup_nonempty d ty b raw : dedup d ty b raw ≠ "".
Proof.
  intros Hd. apply (f_equal String.length) in Hd. unfold dedup in Hd. by rewrite hex_length, sha256_length in Hd.
Qed.

(** ** The dedup content determines its parts *)

Lemma hex_no_pipe l : no_byte "|" (hex l) = true.
Proof.
  assert (Hd : ∀ n, hex_digit n ≠ "|"%char).
  { intros n. unfold hex_digit. generalize (Z.to_nat n). intros k.
    do 16 (destruct k as [|k]; [done|]). by destruct k. }
  induction l as [|b l IH]; [done|]. cbn [hex]. by rewrite !no_byte_cons.
Qed.

(** Splitting at the last occurrence of a byte is unambiguous too. *)
Lemma str_split_last c s s' t t' :
  no_byte c t = true → no_byte c t' = true →
  s +:+ String c t = s' +:+ String c t' → s = s' ∧ t = t'.
Proof.
  intros Ht Ht' Heq.
  assert (Hl : String.length s = String.length s').
  { pose proof (LastIndexByte_app c s t Ht) as H1. rewrite Heq, LastIndexByte_app in H1 by done. congruence. }
  assert (Hs : s = s').
  { rewrite <- (str_take_app s (String c t)), <- (str_take_app s' (String c t')), Heq. by rewrite Hl. }
  subst s'. split; [done|]. apply (f_equal (str_drop (String.length s))) in Heq.
  rewrite !str_drop_app in Heq. by simplify_eq.
Qed.

Lemma dedup_content_inj d ty b raw d' ty' b' raw' :
  no_byte "|" ty = true → no_byte "|" b = true → no_byte "|" ty' = true → no_byte "|" b' = true →
  dedup_content d ty b raw = dedup_content d' ty' b' raw' →
  d = d' ∧ ty = ty' ∧ b = b' ∧ hex (sha1 raw) = hex (sha1 raw').
Proof.
  intros Hty Hb Hty' Hb' Heq. unfold dedup_content in Heq.
  assert (Hre : ∀ a x y z, a +:+ "|" +:+ x +:+ "|" +:+ y +:+ "|" +:+ z =
    (a +:+ "|" +:+ x +:+ "|" +:+ y) +:+ String "|" z) by (intros; by rewrite !str_app_assoc).
  assert (Hre2 : ∀ a x y, a +:+ "|" +:+ x +:+ "|" +:+ y = (a +:+ "|" +:+ x) +:+ String "|" y)
    by (intros; by rewrite !str_app_assoc).
  rewrite !Hre in Heq. apply str_split_last in Heq as [Heq Hh]; auto using hex_no_pipe.
  rewrite !Hre2 in Heq. apply str_split_last in Heq as [Heq ->]; [|done..].
  apply (str_split_last "|" d d' ty ty') in Heq as [-> ->]; [|done..]. done.
Qed.

(** ** What a line yields *)

Inductive line_outcome (e : Engine) (now : Z) (device bucket line : string) : list EventItem → Prop :=
| outcome_blank : TrimSpace line = "" → line_outcome e now device bucket line []
| outcome_rule l r k :
    let raw := TrimSpace line in
    raw ≠ "" → e = l ++ r :: k → rule_hits (moduleFromLine raw) raw r →
    Forall (λ r', ¬ rule_hits (moduleFromLine raw) raw r') l →
    line_outcome e now device bucket line
      [event device (RFC3339 now) (moduleFromLine raw) (r_EventType r) (r_Severity r) (r_Message r) raw bucket]
| outcome_unclassified :
    let raw := TrimSpace line in
    raw ≠ "" → Forall (λ r, ¬ rule_hits (moduleFromLine raw) raw r) e → alarmy raw = true →
    line_outcome e now device bucket line
      [event device (RFC3339 now) (moduleFromLine raw) "unclassified" "warning" "" raw bucket]
| outcome_quiet :
    let raw := TrimSpace line in
    raw ≠ "" → Forall (λ r, ¬ rule_hits (moduleFromLine raw) raw r) e → alarmy raw = false →
    line_outcome e now device bucket line [].

Lemma apply_line_outcome e now d b line : line_outcome e now d b line (apply_line e (RFC3339 now) d b line).
Proof.
  unfold apply_line. case_decide as Hb; [by constructor|].
  pose proof (match_rules_spec e (moduleFromLine (TrimSpace line)) (TrimSpace line)) as Hm.
  destruct (match_rules _ _ _) as [r|].
  - destruct Hm as (l & k & He & Hh & Hall). by eapply outcome_rule.
  - destruct (alarmy (TrimSpace line)) eqn:Ha; [by apply outcome_unclassified | by apply outcome_quiet].
Qed.

Lemma apply_line_keys e now now' d b line :
  ev_DedupKey <$> apply_line e now d b line = ev_DedupKey <$> apply_line e now' d b line.
Proof. unfold apply_line. case_decide; [done|]. destruct (match_rules _ _ _); [done|]. by case_match. Qed.

(** ** Properties *)

(** C35: An upload's events are those of its lines, in order, and a line yields
    exactly what its first matching rule says, an unclassified warning if no
    rule matches but it reads like an alarm, and nothing otherwise. *)
Theorem Apply_classifies e now lines device bucket :
  ∃ outs, Forall2 (line_outcome e now device bucket) lines outs ∧
          Apply e now lines device bucket = concat outs.
Proof.
  exists (apply_line e (RFC3339 now) device bucket <$> lines). split.
  - induction lines as [|line lines IH]; [constructor|]. rewrite fmap_cons.
    constructor; [apply apply_line_outcome|done].
  - unfold Apply. induction lines as [|line lines IH]; [done|]. rewrite fmap_cons. simpl. by rewrite IH.
Qed.

(** Parsing an upload again, at any other time, yields events with the same
    dedup keys in the same order, so re-ingestion is absorbed by the cloud. *)
Theorem reparse_same_keys e now now' lines device bucket :
  ev_DedupKey <$> Apply e now lines device bucket = ev_DedupKey <$> Apply e now' lines device bucket.
Proof.
  unfold Apply. induction lines as [|line lines IH]; [done|]. simpl.
  rewrite !fmap_app, IH. f_equal. apply apply_line_keys.
Qed.

(** Two events with one dedup key are the same occurrence (same device, type,
    day and line), unless the two concrete texts hashed collide under SHA-1 or
    SHA-256. *)
Theorem dedup_key_distinguishes d ty b raw d' ty' b' raw' :
  no_byte "|" ty = true → no_byte "|" b = true → no_byte "|" ty' = true → no_byte "|" b' = true →
  dedup d ty b raw = dedup d' ty' b' raw' →
  (d, ty, b, raw) = (d', ty', b', raw') ∨
  (raw ≠ raw' ∧ hex (sha1 raw) = hex (sha1 raw')) ∨
  (dedup_content d ty b raw ≠ dedup_content d' ty' b' raw' ∧
   hex (sha256 (dedup_content d ty b raw)) = hex (sha256 (dedup_content d' ty' b' raw'))).
Proof.
  intros Hty Hb Hty' Hb' Hk.
  destruct (decide (dedup_content d ty b raw = dedup_content d' ty' b' raw')) as [Heq|Hne];
    [|right; right; by split].
  apply dedup_content_inj in Heq as (-> & -> & -> & Hh); [|done..].
  destruct (decide (raw = raw')) as [->|]; [by left|]. right. left. by split.
Qed.

(** ** Witnesses *)

Definition ex_line : string := "12 2026-07-01 10:00:00 [FILE_TRANS] upload failed, curl code=(7)".

Example ex_apply :
  (λ ev, (ev_EventType ev, ev_Severity ev)) <$>
    Apply DefaultEngine 0 [ex_line; ""; "13 [FM] System Reboot"; "14 [X] link alarm"; "15 [X] ok"] "d" "20260701" =
  [("ftp_conn_fail", "major"); ("device_reboot", "critical"); ("unclassified", "warning")].
Proof. vm_compute. reflexivity. Qed.

Lemma dedup_key_distinguishes_witness : ("d", "t", "20260701", "x") = ("d", "t", "20260701", "x").
Proof.
  destruct (dedup_key_distinguishes "d" "t" "20260701" "x" "d" "t" "20260701" "x" eq_refl eq_refl eq_refl eq_refl eq_refl)
    as [H|[[H _]|[H _]]].
  - exact H.
  - destruct (H eq_refl).
  - destruct (H eq_refl).
Defined.
