(* ===== verification/LogGen.v ===== *)
(** * The log generator of the test suite (testsuite/loggen/loggen.go)

    Each cycle the simulated device uploads a gzip-compressed log slice: the
    scenario's line, the operational lines of a corpus with fresh stamps, some
    synthetic lines and, inside an incident window, the corpus' error lines
    verbatim, which are then uploaded a second time as an ErrorLog. *)
From S2P Require Import Prelude GoStrings Regexp GoTime CloudTypes Rules.

(** ** Formatting *)

(** [%0wd]: the sign counts towards the width. *)
Fixpoint zeros (n : nat) : string := match n with 0 => "" | S n => String "0" (zeros n) end.
Definition pad_left (w : nat) (s : string) : string := zeros (w - String.length s) +:+ s.

Definition fmt_0d (w : nat) (n : Z) : string :=
  if decide (n < 0)%Z then "-" +:+ pad_left (w - 1) (pretty (- n)%Z) else pad_left w (pretty n).

(** An [int64]. *)
Definition int64 (n : Z) : Z := ((n + 2 ^ 63) mod 2 ^ 64 - 2 ^ 63)%Z.

(** ** The corpus' identity and the incident schedule *)

Definition corpusOUI : string := "8C1F64".
Definition corpusSerial : string := "2205609999".
Definition corpusProductClass : string := "ENB-N03002-B3".

Definition incidentFirstCycle : Z := 1.
Definition incidentWindowLen : Z := 2.
Definition incidentPeriod : Z := 7.

Definition IsIncidentCycle (cycle : Z) : bool :=
  if decide (cycle < incidentFirstCycle)%Z then false
  else bool_decide (Z.rem (cycle - incidentFirstCycle) incidentPeriod < incidentWindowLen)%Z.

(** ** Scenarios: a Go string type *)

Definition Scenario : Type := string.
Definition ScenarioHappy : Scenario := "happy".
Definition ScenarioFTPPathReject : Scenario := "ftp-path-reject".
Definition ScenarioFTPAuthFail : Scenario := "ftp-auth-fail".
Definition ScenarioFTPConnFail : Scenario := "ftp-conn-fail".
Definition ScenarioFTPTimeout : Scenario := "ftp-timeout".
Definition ScenarioATCFault : Scenario := "atc-fault".
Definition ScenarioReboot : Scenario := "reboot".

(** A missing key of a Go map reads as the empty string. *)
Definition scenarioLines (s : Scenario) : string :=
  default "" ((list_to_map
    [(ScenarioHappy, "[FILE_TRANS] File upload success, curl code=(0), command (curl -T ... -u nybsys:*** ftp://192.168.8.100/)");
     (ScenarioFTPPathReject, "[FILE_TRANS] File upload failure, curl code=(25), command (curl -T ... -u nybsys:*** ftp://192.168.8.100/uploads)");
     (ScenarioFTPAuthFail, "[FILE_TRANS] File upload failure, curl code=(67), command (curl -T ... -u nybsys:*** ftp://192.168.8.100/)");
     (ScenarioFTPConnFail, "[FILE_TRANS] File upload failure, curl code=(7), command (curl -T ... -u nybsys:*** ftp://192.168.8.100/)");
     (ScenarioFTPTimeout, "[FILE_TRANS] File upload failure, curl code=(28), command (curl -T ... -u nybsys:*** ftp://192.168.8.100/)");
     (ScenarioATCFault, "[TR69] RPC Unknown received from ACS");
     (ScenarioReboot, "[FM] Critical alarm 0x16010400 raised, system reboot will be taken to recover it after 90s.")]
    : gmap string string) !! s).

(** ** One slice *)

(** [At] is in nanoseconds. *)
Record Config := mkConfig {
  OUI : string;
  Serial : string;
  ProductClass : string;
  At : Z;
  cfg_Scenario : Scenario;
  Cycle : Z }.

Definition At_unix (c : Config) : Z := (At c / 1000000000)%Z.

Definition name_tail (c : Config) : string := minute_stamp (At_unix c) +:+ "_" +:+ OUI c +:+ "." +:+ Serial c +:+ ".gz".
Definition LogName (c : Config) : string := "Log_" +:+ name_tail c.
Definition ErrorLogName (c : Config) : string := "ErrorLog_" +:+ name_tail c.

Definition syntheticLines (c : Config) : list string :=
  let ts := milli_stamp (At c) in
  ["0000000002 " +:+ ts +:+ " [NCM] Neighbor cell list updated, count=6";
   "0000000004 " +:+ ts +:+ " [SM] Session established, imsi=***, bearer=5";
   "0000000006 " +:+ ts +:+ " [SCM] Process(pid=1900) ps_l3 started"].

Definition replace_unless (cfg_value corpus_value l : string) : string :=
  if decide (cfg_value ≠ "") then ReplaceAll l corpus_value cfg_value else l.

Definition rewriteIdentity (lines : list string) (c : Config) : list string :=
  (λ l, replace_unless (ProductClass c) corpusProductClass
          (replace_unless (Serial c) corpusSerial
             (replace_unless (OUI c) corpusOUI l))) <$> lines.

Definition isErrorLine (l : string) : bool :=
  let s := ToLower l in
  Contains s "alarm" || Contains s "fault" || Contains s "fail" || Contains s "error".

Fixpoint splitCorpus (lines : list string) : list string * list string :=
  match lines with
  | [] => ([], [])
  | l :: rest =>
      let '(operational, incident) := splitCorpus rest in
      if isErrorLine l then (operational, l :: incident) else (l :: operational, incident)
  end.

(** ** The embedded file name *)

Definition in_class (ranges : list (nat * nat)) : regex :=
  RByte (λ a, existsb (λ r, bool_decide (r.1 ≤ nat_of_ascii a ∧ nat_of_ascii a ≤ r.2)) ranges).
Definition digit_re : regex := in_class [(48, 57)].
Fixpoint times (n : nat) (r : regex) : regex := match n with 0 => REmpty | S n => RSeq r (times n r) end.
Definition plus (r : regex) : regex := RSeq r (RStar r).
Fixpoint seqs (l : list regex) : regex := match l with [] => REmpty | r :: l => RSeq r (seqs l) end.

Definition embeddedLogNameRe : regex :=
  seqs [lit "/tmp/Log_"; times 8 digit_re; lit "."; times 4 digit_re; alts [lit "+"; lit "-"]; times 4 digit_re;
        lit "_"; plus (in_class [(48, 57); (65, 70); (97, 102)]); lit "."; plus digit_re; lit ".gz"].

(** The length of the longest match at the start of [s]; an expression whose
    matches at one place all have the same length has it as its match. *)
Fixpoint match_len (r : regex) (s : string) : option nat :=
  match s with
  | "" => if nullable r then Some 0 else None
  | String a s' =>
      match match_len (deriv a r) s' with
      | Some n => Some (S n)
      | None => if nullable r then Some 0 else None
      end
  end.

Section Generate.
(** [regexp.Expand] of a replacement template for a match: the template itself
    when it holds no dollar sign. *)
Variable Expand : string → string → string.
(** [gzip.Writer] over a buffer in memory, which does not fail. *)
Variable gzip : string → string.

(** [ReplaceAllString] for an expression without empty matches; [skip] counts
    the bytes of a match still to be passed over. *)
Fixpoint replace_re (skip : nat) (r : regex) (s template : string) : string :=
  match s with
  | "" => ""
  | String a s' =>
      match skip with
      | S k => replace_re k r s' template
      | 0 => match match_len r s with
             | Some (S n) => Expand template (str_take (S n) s) +:+ replace_re n r s' template
             | _ => String a (replace_re 0 r s' template)
             end
      end
  end.

Definition refreshEmbeddedLogName (line name : string) : string :=
  replace_re 0 embeddedLogNameRe line ("/tmp/" +:+ name).

Definition restamp (line : string) (seq : Z) (at_ : Z) : string :=
  match SplitNByte 4 line " " with
  | [_; _; _; rest] => fmt_0d 10 seq +:+ " " +:+ milli_stamp at_ +:+ " " +:+ rest
  | _ => line
  end.

Definition newline : string := String (byte_of 10) "".

(** The text that [buildGzipLog] compresses. *)
Fixpoint log_text (lines : list string) : string :=
  match lines with
  | [] => ""
  | l :: rest => l +:+ newline +:+ log_text rest
  end.

Definition buildGzipLog (lines : list string) : string := gzip (log_text lines).

Fixpoint restamp_all (i seqBase : Z) (c : Config) (operational : list string) : list string :=
  match operational with
  | [] => []
  | l :: rest =>
      restamp (refreshEmbeddedLogName l (LogName c)) (int64 (seqBase + i)) (At c)
      :: restamp_all (i + 1) seqBase c rest
  end.

Definition scenario_of (c : Config) : Scenario :=
  if decide (cfg_Scenario c = "") then ScenarioHappy else cfg_Scenario c.

Definition scenarioLine (c : Config) : string :=
  fmt_0d 10 1 +:+ " " +:+ milli_stamp (At c) +:+ " " +:+ scenarioLines (scenario_of c).

(** The lines of the Log and of the ErrorLog. *)
Definition slices (c : Config) (sampleLines : list string) : list string * list string :=
  let '(operational, incident) := splitCorpus (rewriteIdentity sampleLines c) in
  let seqBase := int64 (100 + Cycle c * 100) in
  let lines := scenarioLine c :: restamp_all 0 seqBase c operational ++ syntheticLines c in
  if IsIncidentCycle (Cycle c) then
    (lines ++ incident, incident ++ (if isErrorLine (scenarioLine c) then [scenarioLine c] else []))
  else (lines, []).

(** The error results cannot occur. *)
Definition Generate (c : Config) (sampleLines : list string) : string * option string :=
  let '(lines, errLines) := slices c sampleLines in
  (buildGzipLog lines, match errLines with [] => None | _ => Some (buildGzipLog errLines) end).
End Generate.

(** ** The stamp before a line is inert

    Whatever the time, the sequence number and stamp of a line hold no byte a
    rule's expression can start with, so the message alone decides. *)

Definition stamp_bytes : list ascii := ["0"; "1"; "2"; "3"; "4"; "5"; "6"; "7"; "8"; "9"; "-"; " "; ":"; "."]%char.
Definition stamp_byte (a : ascii) : bool := bool_decide (a ∈ stamp_bytes).

Definition inert (r : regex) : bool :=
  negb (nullable r) && forallb (λ b, match deriv b r with RNone => true | _ => false end) stamp_bytes.

Lemma match_prefix_RNone s : match_prefix RNone s = false.
Proof. by induction s. Qed.

Lemma MatchString_skip r s t :
  inert r = true → all_bytes stamp_byte s = true → MatchString r (s +:+ t) = MatchString r t.
Proof.
  intros Hr. induction s as [|a s IH]; [done|]. intros [Ha Hs]%andb_true_iff. rewrite str_app_cons.
  cbn [MatchString match_prefix]. unfold inert in Hr. apply andb_true_iff in Hr as [Hn%negb_true_iff Hd].
  rewrite forallb_forall in Hd. apply bool_decide_eq_true in Ha. specialize (Hd a (proj1 (list_elem_of_In _ _) Ha)).
  rewrite Hn. destruct (deriv a r); try done. rewrite match_prefix_RNone. by apply IH.
Qed.

Lemma match_rules_skip rules module s t :
  forallb (λ r, inert (r_re r)) rules = true → all_bytes stamp_byte s = true →
  match_rules rules module (s +:+ t) = match_rules rules module t.
Proof.
  intros Hr Hs. induction rules as [|r rules IH]; [done|]. apply andb_true_iff in Hr as [Hr Hrest].
  cbn [match_rules]. by rewrite MatchString_skip, IH.
Qed.

Lemma moduleFromLine_skip s t : no_byte "[" s = true → moduleFromLine (s +:+ t) = moduleFromLine t.
Proof.
  intros Hs. unfold moduleFromLine. f_equal. induction s as [|a s IH]; [done|].
  apply no_byte_cons in Hs as [Ha Hs]. rewrite str_app_cons. cbn [find_tag]. rewrite decide_False by done. by apply IH.
Qed.

Lemma stamp_digit n : stamp_byte (pretty_N_char n) = true.
Proof. unfold pretty_N_char. repeat case_match; reflexivity. Qed.

Lemma milli_stamp_bytes ns : all_bytes stamp_byte (milli_stamp ns) = true.
Proof.
  unfold milli_stamp, four, two, digit. rewrite !all_bytes_app. cbn [all_bytes]. rewrite !stamp_digit. reflexivity.
Qed.

Definition line_stamp (c : Config) : string := fmt_0d 10 1 +:+ " " +:+ milli_stamp (At c) +:+ " ".

Lemma line_stamp_bytes c : all_bytes stamp_byte (line_stamp c) = true.
Proof. unfold line_stamp. rewrite !all_bytes_app, milli_stamp_bytes. reflexivity. Qed.

Lemma scenarioLine_eq c : scenarioLine c = line_stamp c +:+ scenarioLines (scenario_of c).
Proof. unfold scenarioLine, line_stamp. by rewrite !str_app_assoc. Qed.

Definition known_scenarios : list Scenario :=
  [ScenarioHappy; ScenarioFTPPathReject; ScenarioFTPAuthFail; ScenarioFTPConnFail; ScenarioFTPTimeout;
   ScenarioATCFault; ScenarioReboot].

Lemma DefaultEngine_inert : forallb (λ r, inert (r_re r)) DefaultEngine = true.
Proof. vm_compute. reflexivity. Qed.

(** The rule of a scenario, decided on its text alone. *)
Definition scenario_rule (s : Scenario) : option Rule :=
  match_rules DefaultEngine (moduleFromLine (scenarioLines s)) (scenarioLines s).

(** The staged line becomes exactly one event, by the rule of its scenario. *)
Lemma scenarioLine_event now dev bucket c r :
  ends_visible (scenarioLines (scenario_of c)) = true → scenario_rule (scenario_of c) = Some r →
  apply_line DefaultEngine now dev bucket (scenarioLine c) =
    [event dev now (moduleFromLine (scenarioLine c)) (r_EventType r) (r_Severity r) (r_Message r) (scenarioLine c) bucket].
Proof.
  intros Hv Hr. unfold scenario_rule in Hr. set (line := scenarioLine c).
  assert (Htrim : TrimSpace line = line).
  { subst line. rewrite scenarioLine_eq. apply TrimSpace_visible; [done|].
    rewrite ends_visible_app; [done|]. by destruct (scenarioLines _). }
  assert (Hm : moduleFromLine line = moduleFromLine (scenarioLines (scenario_of c))).
  { subst line. rewrite scenarioLine_eq. apply moduleFromLine_skip.
    apply (all_bytes_no_byte stamp_byte); [reflexivity | apply line_stamp_bytes]. }
  assert (Hmatch : match_rules DefaultEngine (moduleFromLine line) line = Some r).
  { rewrite Hm. subst line. rewrite scenarioLine_eq, match_rules_skip; [done|apply DefaultEngine_inert|].
    apply line_stamp_bytes. }
  assert (Hne : line ≠ "") by (subst line; by rewrite scenarioLine_eq).
  clearbody line. unfold apply_line. rewrite Htrim. case_decide; [done|]. by rewrite Hmatch.
Qed.

(** ** What the agent reads from a slice *)

Lemma SplitByte_ne s c : SplitByte s c ≠ [].
Proof. destruct s as [|a s]; simpl; [done|]. case_decide; [done|]. by destruct (SplitByte s c). Qed.

Lemma SplitByte_join c s t : SplitByte (s +:+ String c t) c = SplitByte s c ++ SplitByte t c.
Proof.
  induction s as [|a s IH].
  - change ("" +:+ String c t) with (String c t). simpl. by rewrite decide_True.
  - rewrite str_app_cons. simpl. rewrite IH. case_decide; [done|].
    pose proof (SplitByte_ne s c). by destruct (SplitByte s c).
Qed.

(** The lines of the uncompressed text, as the agent splits it. *)
Definition agent_lines (text : string) : list string := SplitByte text (byte_of 10).

Lemma agent_lines_text lines : agent_lines (log_text lines) = (lines ≫= agent_lines) ++ [""].
Proof.
  unfold agent_lines. induction lines as [|l lines IH]; [done|]. cbn [log_text].
  change (newline +:+ log_text lines) with (String (byte_of 10) (log_text lines)).
  rewrite SplitByte_join, IH. simpl. by rewrite app_assoc.
Qed.

Definition log_events (e : Engine) (now : Z) (dev bucket : string) (lines : list string) : list EventItem :=
  Apply e now (agent_lines (log_text lines)) dev bucket.

Lemma log_events_elem e now dev bucket lines ev :
  ev ∈ log_events e now dev bucket lines ↔
  ∃ l w, l ∈ lines ∧ w ∈ agent_lines l ∧ ev ∈ apply_line e (RFC3339 now) dev bucket w.
Proof.
  unfold log_events, Apply. rewrite agent_lines_text, apply_lines_elem.
  setoid_rewrite elem_of_app. setoid_rewrite list_elem_of_bind. split.
  - intros (w & [(l & Hw & Hl)|Hw] & Hev); [by exists l, w|].
    apply list_elem_of_singleton in Hw as ->. by apply elem_of_nil in Hev.
  - intros (l & w & Hl & Hw & Hev). exists w. split; [left; by exists l|done].
Qed.

Lemma slices_overlap Expand c sampleLines : (slices Expand c sampleLines).2 ⊆ (slices Expand c sampleLines).1.
Proof.
  unfold slices. destruct (splitCorpus _) as [operational incident]. destruct (IsIncidentCycle _); [|set_solver].
  cbn [fst snd]. intros l. rewrite !elem_of_app, !elem_of_cons. intros [Hl|Hl]; [by right|].
  destruct (isErrorLine (scenarioLine c)); [|by apply elem_of_nil in Hl].
  apply list_elem_of_singleton in Hl as ->. by left; left.
Qed.

(** Any two readings of a line give events with the same dedup key. *)
Lemma apply_line_same_key e now now' dev bucket l ev :
  ev ∈ apply_line e now dev bucket l →
  ∃ ev', ev' ∈ apply_line e now' dev bucket l ∧ ev_DedupKey ev' = ev_DedupKey ev.
Proof.
  unfold apply_line. case_decide; [by intros ?%elem_of_nil|]. destruct (match_rules _ _ _) as [r|].
  - intros ->%list_elem_of_singleton. eexists. split; [by apply list_elem_of_singleton|done].
  - destruct (alarmy _); [|by intros ?%elem_of_nil].
    intros ->%list_elem_of_singleton. eexists. split; [by apply list_elem_of_singleton|done].
Qed.

(** ** Properties *)

(** The ErrorLog of a cycle adds nothing to the cloud: each of its events
    has the dedup key of an event of the same cycle's Log, whatever the corpus,
    the rules and the times at which the two are read, since the incident lines
    are the same bytes in both.  Outside an incident window there is none. *)
Theorem errorlog_adds_nothing Expand gzip e now now' dev bucket c sampleLines :
  (∀ ev, ev ∈ log_events e now dev bucket (slices Expand c sampleLines).2 →
     ∃ ev', ev' ∈ log_events e now' dev bucket (slices Expand c sampleLines).1 ∧
            ev_DedupKey ev' = ev_DedupKey ev) ∧
  (IsIncidentCycle (Cycle c) = false → (Generate Expand gzip c sampleLines).2 = None).
Proof.
  split.
  - intros ev (l & w & Hl & Hw & Hev)%log_events_elem.
    apply (apply_line_same_key _ _ (RFC3339 now')) in Hev as (ev' & Hev' & Hk). exists ev'.
    split; [|done]. apply log_events_elem. exists l, w. split_and!; [|done|done].
    by apply slices_overlap in Hl.
  - intros Hc. unfold Generate, slices. destruct (splitCorpus _). by rewrite Hc.
Qed.

(** A window of two cycles opens every seven, from cycle 1 on. *)
Lemma IsIncidentCycle_spec cycle : IsIncidentCycle cycle = true ↔ (1 ≤ cycle ∧ (cycle - 1) mod 7 < 2)%Z.
Proof.
  unfold IsIncidentCycle, incidentFirstCycle, incidentPeriod, incidentWindowLen. case_decide; [lia|].
  rewrite bool_decide_eq_true, Z.rem_mod_nonneg by lia. lia.
Qed.

(** The agent's fallback for lines without a rule keys on the same markers. *)
Lemma isErrorLine_alarmy l : isErrorLine l = alarmy l.
Proof. reflexivity. Qed.
