(* ===== verification/SimHttp.v ===== *)
(** * HTTP handlers of the test suite: requests, JSON replies

    What the handlers of testsuite/cloud.go and device.go read from a request and
    write to a response. *)
From S2P Require Import Prelude GoStrings.
#[local] Set Warnings "-register-all".

(** A reply before encoding; an object lists its members, which the encoder
    sorts by key. *)
Inductive json : Type :=
| JBool (b : bool)
| JInt (n : Z)
| JString (s : string)
| JList (l : list json)
| JObject (m : list (string * json)).

(** [Query] lists the values of each query parameter in order; [URLPath] is
    decoded. *)
Record request := mkRequest {
  Method : string;
  URLPath : string;
  Query : gmap string (list string);
  ReqBody : string }.

Inductive reply : Type :=
| ReplyJSON (status : Z) (body : json)
| ReplyError (status : Z) (text : string)
| ReplyStatus (status : Z).

Definition query_all (r : request) (k : string) : list string := default [] (Query r !! k).
Definition query_get (r : request) (k : string) : string := default "" (head (query_all r k)).

Definition writeJSON (status : Z) (body : json) : reply := ReplyJSON status body.

(** [envelope], but for the time stamp. *)
Definition envelope (timestamp : string) (data : json) : reply :=
  writeJSON 200 (JObject [("data", data); ("errors", JList []); ("success", JBool true); ("timestamp", JString timestamp)]).

(** A [map[string]string] as the encoder writes it. *)
Definition json_strings (m : gmap string string) : json :=
  JObject ((λ kv, (kv.1, JString kv.2)) <$> map_to_list m).

Definition reply_status (r : reply) : Z :=
  match r with ReplyJSON s _ | ReplyError s _ | ReplyStatus s => s end.

(** A member of an object. *)
Fixpoint field (k : string) (m : list (string * json)) : option json :=
  match m with
  | [] => None
  | (k', v) :: rest => if String.eqb k k' then Some v else field k rest
  end.
