(* ===== verification/NanoConfig.v ===== *)
(** * Configuration of the simulated fleet (testsuite/config.go)

    One device described by the environment, or a fleet described by the
    configuration file; resolved into one specification per device. *)
From S2P Require Import Prelude GoStrings DeviceId LogGen.

(** ** Data *)

Record identity := mkIdentity {
  id_OUI : string;
  id_ProductClass : string;
  id_Serial : string }.

Record ftpConfig := mkFTP {
  ftp_Host : string;
  ftp_User : string;
  ftp_Pass : string;
  ftp_UploadInterval : Z;
  ftp_Retention : Z }.

Record deviceConfig := mkDeviceConfig {
  dc_Serial : string;
  dc_OUI : string;
  dc_ProductClass : string;
  dc_Params : gmap string string }.

Record nanolinkConfig := mkNanolink {
  Identity : identity;
  FTP : ftpConfig;
  nc_Scenario : string;
  Devices : list deviceConfig }.

Record deviceSpec := mkSpec {
  ds_Index : Z;
  ds_OUI : string;
  ds_ProductClass : string;
  ds_Serial : string;
  ds_CWMPID : string;
  ds_CRPort : Z;
  ds_CRURL : string;
  ds_Params : gmap string string }.

(** ** Operations *)

(** Durations are nanoseconds. *)
Definition defaultFTPRetention : Z := 6 * 3600 * 1000000000.

Definition defaultNanolinkConfig : nanolinkConfig :=
  mkNanolink (mkIdentity "8C1F64" "ENB-N03002-B3" "2205609999")
    (mkFTP "ftp" "nybsys" "" (60 * 1000000000) defaultFTPRetention) ScenarioHappy [].

Section Load.
(** [yaml.Unmarshal] into a configuration already filled in, and
    [time.ParseDuration]. *)
Variable yaml_Unmarshal : string → nanolinkConfig → option nanolinkConfig.
Variable ParseDuration : string → option Z.

Inductive conf_file := ConfAbsent | ConfUnreadable | ConfBytes (s : string).

Definition loadNanolinkConfig (file : conf_file) : option nanolinkConfig :=
  match file with
  | ConfAbsent => Some defaultNanolinkConfig
  | ConfUnreadable => None
  | ConfBytes b => yaml_Unmarshal b defaultNanolinkConfig
  end.

Definition env_override (v old : string) : string := if decide (v = "") then old else v.

Definition withEnvOverrides (env : string → string) (c : nanolinkConfig) : nanolinkConfig :=
  let i := Identity c in
  let f := FTP c in
  let v := TrimSpace (env "NANOLINK_FTP_RETENTION") in
  mkNanolink
    (mkIdentity (env_override (env "NANOLINK_OUI") (id_OUI i))
       (env_override (env "NANOLINK_PRODUCT_CLASS") (id_ProductClass i))
       (env_override (env "NANOLINK_SERIAL") (id_Serial i)))
    (mkFTP (env_override (env "FTP_HOST") (ftp_Host f)) (env_override (env "FTP_USER") (ftp_User f))
       (env_override (env "FTP_PASS") (ftp_Pass f)) (ftp_UploadInterval f)
       (if decide (v = "") then ftp_Retention f else default (ftp_Retention f) (ParseDuration v)))
    (env_override (env "NANOLINK_SCENARIO") (nc_Scenario c)) (Devices c).
End Load.

(** The test suite's own copy of the agent's encoding. *)
Definition canonicalID (oui productClass serial : string) : string :=
  let enc s := ReplaceAll s "-" "%2D" in
  enc oui +:+ "-" +:+ enc productClass +:+ "-" +:+ enc serial.

Definition crPortBase : Z := 30005.
Definition crPortFor (index : Z) : Z := crPortBase + index.
Definition startStagger : Z := 700 * 1000000.
Definition startDelay (index : Z) : Z := index * startStagger.

Inductive spec_error := SerialRequired (i : nat) | DuplicateSerial (i : nat) (serial : string).

(** The loop over the devices; [seen] are the serials before index [i]. *)
Fixpoint fleetSpecs (base : identity) (i : nat) (seen : gset string) (l : list deviceConfig) :
    result spec_error (list deviceSpec) :=
  match l with
  | [] => Ok []
  | d :: rest =>
      let serial := TrimSpace (dc_Serial d) in
      if decide (serial = "") then Err (SerialRequired i)
      else if decide (serial ∈ seen) then Err (DuplicateSerial i serial)
      else
        let oui := if decide (dc_OUI d = "") then id_OUI base else dc_OUI d in
        let productClass := if decide (dc_ProductClass d = "") then id_ProductClass base else dc_ProductClass d in
        match fleetSpecs base (S i) ({[serial]} ∪ seen) rest with
        | Err e => Err e
        | Ok specs =>
            Ok (mkSpec (Z.of_nat i) oui productClass serial (canonicalID oui productClass serial)
                  (crPortFor (Z.of_nat i)) "" (dc_Params d) :: specs)
        end
  end.

Definition deviceSpecs (c : nanolinkConfig) : result spec_error (list deviceSpec) :=
  match Devices c with
  | [] =>
      let i := Identity c in
      Ok [mkSpec 0 (id_OUI i) (id_ProductClass i) (id_Serial i)
            (canonicalID (id_OUI i) (id_ProductClass i) (id_Serial i)) (crPortFor 0) "" ∅]
  | l => fleetSpecs (Identity c) 0 ∅ l
  end.

(** ** Lemmas *)

Lemma canonicalID_CanonicalID o p s : canonicalID o p s = CanonicalID o p s.
Proof. reflexivity. Qed.

(** The specification of one fleet entry at index [i]. *)
Definition spec_for (base : identity) (i : nat) (d : deviceConfig) (s : deviceSpec) : Prop :=
  ds_Index s = Z.of_nat i ∧ ds_CRPort s = (30005 + Z.of_nat i)%Z ∧
  ds_Serial s = TrimSpace (dc_Serial d) ∧ ds_Serial s ≠ "" ∧ ds_Params s = dc_Params d ∧
  ds_OUI s = (if decide (dc_OUI d = "") then id_OUI base else dc_OUI d) ∧
  ds_ProductClass s = (if decide (dc_ProductClass d = "") then id_ProductClass base else dc_ProductClass d) ∧
  ds_CWMPID s = CanonicalID (ds_OUI s) (ds_ProductClass s) (ds_Serial s).

Lemma fleetSpecs_ok base l : ∀ i seen specs, fleetSpecs base i seen l = Ok specs →
  length specs = length l ∧ NoDup (ds_Serial <$> specs) ∧ Forall (λ s, ds_Serial s ∉ seen) specs ∧
  ∀ k d s, l !! k = Some d → specs !! k = Some s → spec_for base (i + k) d s.
Proof.
  induction l as [|d l IH]; intros i seen specs; cbn [fleetSpecs].
  { intros [= <-]. split_and!; try done; constructor. }
  case_decide as Hne; [done|]. case_decide as Hseen; [done|].
  destruct (fleetSpecs _ _ _ l) as [specs'|e] eqn:Hf; [|done]. intros [= <-].
  apply IH in Hf as (Hl & Hnd & Hfresh & Hspec). cbn [fmap list_fmap]. split_and!.
  - simpl. by rewrite Hl.
  - constructor; [|done]. intros (s & Heq & Hs)%list_elem_of_fmap.
    apply (proj1 (Forall_forall _ _) Hfresh) in Hs. cbn [ds_Serial] in Heq. rewrite <- Heq in Hs.
      by apply Hs, elem_of_union_l, elem_of_singleton_2.
  - constructor; [done|]. eapply Forall_impl; [apply Hfresh|]. intros s Hs Hin. by apply Hs, elem_of_union_r.
  - intros [|k] d' s; cbn [lookup list_lookup].
    + intros [= <-] [= <-]. rewrite Nat.add_0_r. by split_and!.
    + intros Hd Hs. replace (i + S k) with (S i + k) by lia. by apply Hspec.
Qed.

Lemma fleetSpecs_err base l : ∀ i seen e, fleetSpecs base i seen l = Err e →
  ∃ k d, l !! k = Some d ∧
    ((TrimSpace (dc_Serial d) = "" ∧ e = SerialRequired (i + k)) ∨
     (e = DuplicateSerial (i + k) (TrimSpace (dc_Serial d)) ∧
      (TrimSpace (dc_Serial d) ∈ seen ∨
       ∃ j d', j < k ∧ l !! j = Some d' ∧ TrimSpace (dc_Serial d') = TrimSpace (dc_Serial d)))).
Proof.
  induction l as [|d l IH]; intros i seen e; cbn [fleetSpecs]; [done|].
  case_decide as Hne.
  { intros [= <-]. exists 0, d. split; [done|]. left. by rewrite Nat.add_0_r. }
  case_decide as Hseen.
  { intros [= <-]. exists 0, d. split; [done|]. right. rewrite Nat.add_0_r. auto. }
  destruct (fleetSpecs _ _ _ l) as [specs'|e'] eqn:Hf; [done|]. intros [= <-].
  apply IH in Hf as (k & d' & Hd & Hcase). exists (S k), d'. split; [done|].
  replace (i + S k) with (S i + k) by lia. destruct Hcase as [?|[-> [Hin|(j & d2 & Hj & Hd2 & Heq)]]]; [by left| |].
  - right. split; [done|]. apply elem_of_union in Hin as [->%elem_of_singleton|Hin]; [|by left].
    right. exists 0, d. split_and!; [lia|done|done].
  - right. split; [done|]. right. exists (S j), d2. split_and!; [lia|done|done].
Qed.

Definition percent_free (s : deviceSpec) : Prop :=
  Forall (λ w, no_byte "%" w = true) [ds_OUI s; ds_ProductClass s; ds_Serial s].

Lemma cwmp_ids_distinct specs :
  Forall percent_free specs → NoDup (ds_Serial <$> specs) →
  Forall (λ s, ds_CWMPID s = CanonicalID (ds_OUI s) (ds_ProductClass s) (ds_Serial s)) specs →
  NoDup (ds_CWMPID <$> specs).
Proof.
  intros Hp Hnd Hid. induction specs as [|s specs IH]; [constructor|]. cbn [fmap list_fmap] in *.
  apply NoDup_cons in Hnd as [Hs Hnd]. apply Forall_cons in Hp as [Hps Hp]. apply Forall_cons in Hid as [Hids Hid].
  constructor; [|by apply IH]. intros (s' & Heq & Hin)%list_elem_of_fmap. apply Hs, list_elem_of_fmap.
  exists s'. split; [|done]. rewrite Hids, (proj1 (Forall_forall _ _) Hid s' Hin) in Heq.
  apply CanonicalID_split in Heq as (_ & _ & Heq). unfold percent_free in *.
  pose proof (proj1 (Forall_forall _ _) Hp s' Hin) as Hps'. rewrite !Forall_cons in Hps, Hps'.
  apply enc_inj; naive_solver.
Qed.

(** A configuration that resolves gives each device of the fleet its own
    serial, port and agent-side id: one specification per entry in order, with a
    distinct non-empty serial, port 30005 + index and the canonical id under which the agent
    will know it, distinct too unless an identity holds a percent sign.  One that does not
    resolve names an entry whose serial is blank or that of an earlier entry. *)
Lemma deviceSpecs_fleet c : Devices c ≠ [] →
  match deviceSpecs c with
  | Ok specs =>
      length specs = length (Devices c) ∧ NoDup (ds_Serial <$> specs) ∧
      (∀ i d s, Devices c !! i = Some d → specs !! i = Some s → spec_for (Identity c) i d s) ∧
      (Forall percent_free specs → NoDup (ds_CWMPID <$> specs))
  | Err e =>
      ∃ i d, Devices c !! i = Some d ∧
        ((TrimSpace (dc_Serial d) = "" ∧ e = SerialRequired i) ∨
         (e = DuplicateSerial i (TrimSpace (dc_Serial d)) ∧
          ∃ j d', j < i ∧ Devices c !! j = Some d' ∧ TrimSpace (dc_Serial d') = TrimSpace (dc_Serial d)))
  end.
Proof.
  intros Hne. unfold deviceSpecs. destruct (Devices c) as [|d0 l0] eqn:Hd; [done|]. clear Hne.
  destruct (fleetSpecs (Identity c) 0 ∅ (d0 :: l0)) as [specs|e] eqn:Hf.
  - apply fleetSpecs_ok in Hf as (Hl & Hnd & _ & Hspec). split_and!; [done|done|exact Hspec|].
    intros Hp. apply cwmp_ids_distinct; [done|done|]. apply Forall_lookup. intros k s Hs.
    destruct (lookup_lt_is_Some_2 (d0 :: l0) k) as [d Hk].
    { rewrite <- Hl. by eapply lookup_lt_Some. }
    apply (Hspec k d s Hk Hs).
  - apply fleetSpecs_err in Hf as (k & d & Hk & [?|[-> [Hin|?]]]); exists k, d; (split; [done|]); [by left|set_solver|].
    right. by split.
Qed.

(** Two cells; the first one's serial is padded. *)
Definition ex_fleet : nanolinkConfig :=
  mkNanolink (Identity defaultNanolinkConfig) (FTP defaultNanolinkConfig) "happy"
    [mkDeviceConfig " 101 " "" "" ∅; mkDeviceConfig "102" "AABBCC" "" ∅].
