(* ===== verification/Config.v ===== *)
(** * Configuration (goagent/internal/config/config.go)

    Defaults, overridden by the YAML file, overridden by the environment; the
    enrollment token is decoded last.  Durations are nanoseconds. *)
From S2P Require Import Prelude GoStrings.
Local Open Scope Z_scope.

(** ** Data *)

Record Enrollment := mkEnrollment {
  en_Version : Z;
  en_TenantID : string;
  en_EdgeID : string;
  en_BaseURL : string;
  en_APIKey : string }.

Record CWMPConfig := mkCWMP {
  Listen : string;
  CRUser : string;
  CRPass : string;
  CRURLOverride : string;
  FullSnapshotOnFirstContact : bool }.

Record Config := mkConfig {
  EnrollmentToken : string;
  PollInterval : Z;
  HeartbeatInterval : Z;
  TelemetryT1Interval : Z;
  TelemetryT2Interval : Z;
  TelemetryT3Interval : Z;
  SnapshotInterval : Z;
  CommandVerifyDelay : Z;
  CommandVerifyTimeout : Z;
  CWMP : CWMPConfig;
  FTPWatchDir : string;
  RulesFile : string;
  BufferDB : string;
  BufferMaxBytes : Z;
  cfg_Enrollment : Enrollment }.

Record rawCWMP := mkRawCWMP {
  raw_Listen : string;
  raw_CRUser : string;
  raw_CRPass : string;
  raw_CRURLOverride : string;
  raw_FullSnapshot : option bool }.

Record rawConfig := mkRaw {
  raw_EnrollmentToken : string;
  raw_PollInterval : string;
  raw_HeartbeatInterval : string;
  raw_TelemetryT1Interval : string;
  raw_TelemetryT2Interval : string;
  raw_TelemetryT3Interval : string;
  raw_SnapshotInterval : string;
  raw_CommandVerifyDelay : string;
  raw_CommandVerifyTimeout : string;
  raw_CWMP : rawCWMP;
  raw_FTPWatchDir : string;
  raw_RulesFile : string;
  raw_BufferDB : string;
  raw_BufferMaxBytes : Z }.

Definition second : Z := 1000000000.
Definition minute : Z := 60 * second.

Definition no_enrollment : Enrollment := mkEnrollment 0 "" "" "" "".

Definition defaultConfig : Config :=
  mkConfig "" (10 * second) (30 * second) (30 * second) minute (5 * minute) (5 * minute) (2 * second) (15 * second)
    (mkCWMP "0.0.0.0:7547" "" "" "" true)
    "/srv/nybsys-ftp/nybsysftp/uploads" "/etc/cloudlynet-agent/rules.yaml" "/var/lib/cloudlynet-agent/buffer.sqlite"
    104857600 no_enrollment.

(** ** Operations *)

Section Load.
(** [time.ParseDuration]; the two base64 URL encodings; [encoding/json] on an
    [Enrollment]. *)
Variable ParseDuration : string → option Z.
Variable base64_RawURL base64_URL : string → option string.
Variable base64_RawURL_encode : string → string.
Variable json_Unmarshal : string → option Enrollment.
Variable json_Marshal : Enrollment → string.

(** A value of the file, unless it is empty. *)
Definition raw_or (v old : string) : string := if decide (v = "") then old else v.

Definition setDuration (v : string) (dst : Z) : Z :=
  if decide (v = "") then dst else default dst (ParseDuration v).

Definition applyRaw (cfg : Config) (raw : rawConfig) : Config :=
  mkConfig
    (raw_or (raw_EnrollmentToken raw) (EnrollmentToken cfg))
    (setDuration (raw_PollInterval raw) (PollInterval cfg))
    (setDuration (raw_HeartbeatInterval raw) (HeartbeatInterval cfg))
    (setDuration (raw_TelemetryT1Interval raw) (TelemetryT1Interval cfg))
    (setDuration (raw_TelemetryT2Interval raw) (TelemetryT2Interval cfg))
    (setDuration (raw_TelemetryT3Interval raw) (TelemetryT3Interval cfg))
    (setDuration (raw_SnapshotInterval raw) (SnapshotInterval cfg))
    (setDuration (raw_CommandVerifyDelay raw) (CommandVerifyDelay cfg))
    (setDuration (raw_CommandVerifyTimeout raw) (CommandVerifyTimeout cfg))
    (mkCWMP
       (raw_or (raw_Listen (raw_CWMP raw)) (Listen (CWMP cfg)))
       (raw_or (raw_CRUser (raw_CWMP raw)) (CRUser (CWMP cfg)))
       (raw_or (raw_CRPass (raw_CWMP raw)) (CRPass (CWMP cfg)))
       (raw_or (raw_CRURLOverride (raw_CWMP raw)) (CRURLOverride (CWMP cfg)))
       (default (FullSnapshotOnFirstContact (CWMP cfg)) (raw_FullSnapshot (raw_CWMP raw))))
    (raw_or (raw_FTPWatchDir raw) (FTPWatchDir cfg))
    (raw_or (raw_RulesFile raw) (RulesFile cfg))
    (raw_or (raw_BufferDB raw) (BufferDB cfg))
    (if decide (0 < raw_BufferMaxBytes raw) then raw_BufferMaxBytes raw else BufferMaxBytes cfg)
    (cfg_Enrollment cfg).

Inductive token_error := TokenRequired | TokenDecode | TokenParse | TokenMissing.

Definition DecodeEnrollmentToken (token : string) : result token_error Enrollment :=
  let token := TrimSpace token in
  if decide (token = "") then Err TokenRequired
  else
    match (match base64_RawURL token with Some b => Some b | None => base64_URL token end) with
    | None => Err TokenDecode
    | Some b =>
        match json_Unmarshal b with
        | None => Err TokenParse
        | Some e =>
            if decide (en_TenantID e = "" ∨ en_EdgeID e = "" ∨ en_BaseURL e = "" ∨ en_APIKey e = "") then Err TokenMissing
            else Ok (mkEnrollment (en_Version e) (en_TenantID e) (en_EdgeID e) (TrimRightByte (en_BaseURL e) "/") (en_APIKey e))
        end
    end.

(** A variable of the environment, unless it is blank. *)
Definition env_or (v old : string) : string := let v := TrimSpace v in if decide (v = "") then old else v.

(** [CLOUDLYNET_BASE_URL] replaces the base URL inside the token. *)
Definition override_base_url (v token : string) : string :=
  if decide (TrimSpace v = "") then token
  else
    match DecodeEnrollmentToken token with
    | Ok e =>
        base64_RawURL_encode (json_Marshal (mkEnrollment (en_Version e) (en_TenantID e) (en_EdgeID e)
          (TrimRightByte (TrimSpace v) "/") (en_APIKey e)))
    | Err _ => token
    end.

Definition applyEnv (env : string → string) (cfg : Config) : Config :=
  let token := env_or (env "CLOUDLYNET_ENROLLMENT_TOKEN") (EnrollmentToken cfg) in
  let token := override_base_url (env "CLOUDLYNET_BASE_URL") token in
  mkConfig token (PollInterval cfg) (HeartbeatInterval cfg) (TelemetryT1Interval cfg) (TelemetryT2Interval cfg)
    (TelemetryT3Interval cfg) (SnapshotInterval cfg) (CommandVerifyDelay cfg) (CommandVerifyTimeout cfg)
    (mkCWMP
       (env_or (env "CWMP_LISTEN") (Listen (CWMP cfg)))
       (env_or (env "CWMP_CR_USER") (CRUser (CWMP cfg)))
       (env_or (env "CWMP_CR_PASS") (CRPass (CWMP cfg)))
       (env_or (env "CWMP_CR_URL_OVERRIDE") (CRURLOverride (CWMP cfg)))
       (FullSnapshotOnFirstContact (CWMP cfg)))
    (env_or (env "FTP_WATCH_DIR") (FTPWatchDir cfg))
    (RulesFile cfg)
    (env_or (env "BUFFER_DB") (BufferDB cfg))
    (BufferMaxBytes cfg) (cfg_Enrollment cfg).

(** What [os.ReadFile] and [yaml.Unmarshal] make of the file. *)
Inductive config_file :=
| FileMissing
| FileUnreadable
| FileMalformed
| FileRead (raw : rawConfig).

Inductive config_error := ErrFile | ErrYAML | ErrToken (e : token_error).

Definition set_enrollment (e : Enrollment) (cfg : Config) : Config :=
  mkConfig (EnrollmentToken cfg) (PollInterval cfg) (HeartbeatInterval cfg) (TelemetryT1Interval cfg)
    (TelemetryT2Interval cfg) (TelemetryT3Interval cfg) (SnapshotInterval cfg) (CommandVerifyDelay cfg)
    (CommandVerifyTimeout cfg) (CWMP cfg) (FTPWatchDir cfg) (RulesFile cfg) (BufferDB cfg) (BufferMaxBytes cfg) e.

Definition Load (file : config_file) (env : string → string) : result config_error Config :=
  let finish (cfg : Config) :=
    let cfg := applyEnv env cfg in
    match DecodeEnrollmentToken (EnrollmentToken cfg) with
    | Err e => Err (ErrToken e)
    | Ok e => Ok (set_enrollment e cfg)
    end in
  match file with
  | FileRead raw => finish (applyRaw defaultConfig raw)
  | FileMalformed => Err ErrYAML
  | FileMissing => finish defaultConfig
  | FileUnreadable => Err ErrFile
  end.

(** ** Lemmas *)

Definition file_raw (file : config_file) : option rawConfig :=
  match file with FileRead raw => Some raw | _ => None end.

(** The first that is not empty. *)
Fixpoint first_of (l : list string) : string :=
  match l with
  | [] => ""
  | v :: l => if decide (v = "") then first_of l else v
  end.

Lemma layered_setting env v dflt : env_or env (raw_or v dflt) = first_of [TrimSpace env; v; dflt].
Proof. unfold env_or, raw_or. cbn. repeat case_decide; congruence. Qed.

Lemma first_of_default l : first_of (l ++ [""]) = first_of l.
Proof. induction l as [|v l IH]; [done|]. cbn. by rewrite IH. Qed.

Lemma Load_ok file env cfg : Load file env = Ok cfg →
  ∃ base e, (base = defaultConfig ∧ file = FileMissing ∨ ∃ raw, file = FileRead raw ∧ base = applyRaw defaultConfig raw) ∧
    DecodeEnrollmentToken (EnrollmentToken (applyEnv env base)) = Ok e ∧ cfg = set_enrollment e (applyEnv env base).
Proof.
  unfold Load. destruct file as [| | |raw]; try done; cbv zeta; intros H.
  - destruct (DecodeEnrollmentToken _) as [e|] eqn:He; [|done]. injection H as <-. exists defaultConfig, e. auto.
  - destruct (DecodeEnrollmentToken _) as [e|] eqn:He; [|done]. injection H as <-. exists (applyRaw defaultConfig raw), e.
    split; [right; by exists raw|auto].
Qed.

Lemma TrimRightByte_id s c : (∀ t, s ≠ t +:+ String c "") → TrimRightByte s c = s.
Proof.
  induction s as [|a s IH]; intros Hs; [done|]. cbn. rewrite IH by (intros t Ht; apply (Hs (String a t)); by rewrite Ht).
  destruct s as [|b s]; [|done]. case_decide as Ha; [|done]. exfalso. apply (Hs ""). by subst.
Qed.

Lemma DecodeEnrollmentToken_ok token e : DecodeEnrollmentToken token = Ok e →
  en_TenantID e ≠ "" ∧ en_EdgeID e ≠ "" ∧ en_APIKey e ≠ "" ∧ (∀ t, en_BaseURL e ≠ t +:+ "/").
Proof.
  unfold DecodeEnrollmentToken. case_decide; [done|]. destruct (match base64_RawURL _ with Some _ => _ | None => _ end) as [b|]; [|done].
  destruct (json_Unmarshal b) as [e0|]; [|done]. case_decide as Hm; [done|]. intros [= <-]. simpl.
  split_and!; try (intros H0; apply Hm; tauto). apply TrimRightByte_spec.
Qed.

(** What the base URL of the environment does to the enrollment. *)
Lemma enrollment_layers env base en :
  DecodeEnrollmentToken (EnrollmentToken (applyEnv env base)) = Ok en →
  ∃ e, DecodeEnrollmentToken (env_or (env "CLOUDLYNET_ENROLLMENT_TOKEN") (EnrollmentToken base)) = Ok e ∧
     en_TenantID e ≠ "" ∧ en_EdgeID e ≠ "" ∧ en_APIKey e ≠ "" ∧ (∀ t, en_BaseURL e ≠ t +:+ "/") ∧
     if decide (TrimSpace (env "CLOUDLYNET_BASE_URL") = "") then en = e
     else
       let e' := mkEnrollment (en_Version e) (en_TenantID e) (en_EdgeID e)
                   (TrimRightByte (TrimSpace (env "CLOUDLYNET_BASE_URL")) "/") (en_APIKey e) in
       let token := base64_RawURL_encode (json_Marshal e') in
       TrimSpace token = token → base64_RawURL token = Some (json_Marshal e') → json_Unmarshal (json_Marshal e') = Some e' →
       en = e' ∧ en_BaseURL e' ≠ "".
Proof.
  cbn [EnrollmentToken applyEnv]. set (token := env_or _ _). unfold override_base_url.
  destruct (DecodeEnrollmentToken token) as [e|] eqn:He.
  2: { destruct (decide _); congruence. }
  intros Hen. exists e. split; [done|]. destruct (DecodeEnrollmentToken_ok token e He) as (? & ? & ? & ?).
  split_and!; [done..|]. case_decide; [congruence|]. cbv zeta.
  set (e' := mkEnrollment _ _ _ _ _) in *. set (tk := base64_RawURL_encode _) in *. intros Htrim Hraw Hjson.
  unfold DecodeEnrollmentToken in Hen. rewrite Htrim, Hraw, Hjson in Hen. case_decide; [done|]. case_decide as Hm; [done|].
  injection Hen as <-. split; [|intros Hb; apply Hm; tauto].
  unfold e'. cbn. by rewrite (TrimRightByte_id _ _ (TrimRightByte_spec _ _)).
Qed.
End Load.

(** ** Properties *)

(** C38: Which source wins, for every setting of a configuration that loads.  The
    strings of the environment and the file are the environment's unless blank,
    else the file's unless empty, else the default; a duration is the file's if it
    parses.  The enrollment is the one of the token so chosen, complete and without
    a slash at the end of its base URL, and a base URL of the environment replaces
    the token's, provided that the codecs read back what they write. *)
Theorem Load_layers ParseDuration base64_RawURL base64_URL encode json_Unmarshal json_Marshal file env cfg :
  Load ParseDuration base64_RawURL base64_URL encode json_Unmarshal json_Marshal file env = Ok cfg →
  let raw (f : rawConfig → string) := match file with FileRead r => f r | _ => "" end in
  let duration (f : rawConfig → string) (dflt : Z) := if decide (raw f = "") then dflt else default dflt (ParseDuration (raw f)) in
  let decode := DecodeEnrollmentToken base64_RawURL base64_URL json_Unmarshal in
  (∃ e, decode (first_of [TrimSpace (env "CLOUDLYNET_ENROLLMENT_TOKEN"); raw raw_EnrollmentToken]) = Ok e ∧
     en_TenantID e ≠ "" ∧ en_EdgeID e ≠ "" ∧ en_APIKey e ≠ "" ∧ (∀ t, en_BaseURL e ≠ t +:+ "/") ∧
     if decide (TrimSpace (env "CLOUDLYNET_BASE_URL") = "") then cfg_Enrollment cfg = e
     else
       let e' := mkEnrollment (en_Version e) (en_TenantID e) (en_EdgeID e)
                   (TrimRightByte (TrimSpace (env "CLOUDLYNET_BASE_URL")) "/") (en_APIKey e) in
       let token := encode (json_Marshal e') in
       TrimSpace token = token → base64_RawURL token = Some (json_Marshal e') → json_Unmarshal (json_Marshal e') = Some e' →
       cfg_Enrollment cfg = e' ∧ en_BaseURL e' ≠ "") ∧
  Listen (CWMP cfg) = first_of [TrimSpace (env "CWMP_LISTEN"); raw (raw_Listen ∘ raw_CWMP); "0.0.0.0:7547"] ∧
  CRUser (CWMP cfg) = first_of [TrimSpace (env "CWMP_CR_USER"); raw (raw_CRUser ∘ raw_CWMP)] ∧
  CRPass (CWMP cfg) = first_of [TrimSpace (env "CWMP_CR_PASS"); raw (raw_CRPass ∘ raw_CWMP)] ∧
  CRURLOverride (CWMP cfg) = first_of [TrimSpace (env "CWMP_CR_URL_OVERRIDE"); raw (raw_CRURLOverride ∘ raw_CWMP)] ∧
  FTPWatchDir cfg = first_of [TrimSpace (env "FTP_WATCH_DIR"); raw raw_FTPWatchDir; "/srv/nybsys-ftp/nybsysftp/uploads"] ∧
  BufferDB cfg = first_of [TrimSpace (env "BUFFER_DB"); raw raw_BufferDB; "/var/lib/cloudlynet-agent/buffer.sqlite"] ∧
  RulesFile cfg = first_of [raw raw_RulesFile; "/etc/cloudlynet-agent/rules.yaml"] ∧
  FullSnapshotOnFirstContact (CWMP cfg) = default true (match file with FileRead r => raw_FullSnapshot (raw_CWMP r) | _ => None end) ∧
  BufferMaxBytes cfg = (let n := match file with FileRead r => raw_BufferMaxBytes r | _ => 0 end in
                        if decide (0 < n) then n else 100 * 1024 * 1024) ∧
  PollInterval cfg = duration raw_PollInterval (10 * second) ∧
  HeartbeatInterval cfg = duration raw_HeartbeatInterval (30 * second) ∧
  TelemetryT1Interval cfg = duration raw_TelemetryT1Interval (30 * second) ∧
  TelemetryT2Interval cfg = duration raw_TelemetryT2Interval (60 * second) ∧
  TelemetryT3Interval cfg = duration raw_TelemetryT3Interval (300 * second) ∧
  SnapshotInterval cfg = duration raw_SnapshotInterval (300 * second) ∧
  CommandVerifyDelay cfg = duration raw_CommandVerifyDelay (2 * second) ∧
  CommandVerifyTimeout cfg = duration raw_CommandVerifyTimeout (15 * second).
Proof.
  intros Hload raw duration decode. apply Load_ok in Hload as (base & en & Hbase & Hen & ->).
  assert (Htok : env_or (env "CLOUDLYNET_ENROLLMENT_TOKEN") (EnrollmentToken base) =
    first_of [TrimSpace (env "CLOUDLYNET_ENROLLMENT_TOKEN"); raw raw_EnrollmentToken]).
  { destruct Hbase as [[-> ->]|(r & -> & ->)]; [by rewrite (layered_setting _ "" "")|].
    unfold raw. cbn [EnrollmentToken applyRaw defaultConfig]. rewrite layered_setting. by apply (first_of_default [_; _]). }
  split.
  - rewrite <- Htok. by apply enrollment_layers.
  - clear Hen Htok. assert (Htwo : ∀ e v, env_or e (raw_or v "") = first_of [TrimSpace e; v]).
    { intros e v. rewrite layered_setting. apply (first_of_default [_; _]). }
    destruct Hbase as [[-> ->]|(r & -> & ->)]; cbn [set_enrollment applyEnv]; split_and!; try reflexivity;
      first [apply layered_setting|apply Htwo|apply (layered_setting _ "")|apply (Htwo _ "")].
Qed.

(** A zero or negative interval in the file is taken as it is. *)
Lemma interval_unchecked ParseDuration cfg raw v :
  raw_PollInterval raw = "0s" → ParseDuration "0s" = Some v → PollInterval (applyRaw ParseDuration cfg raw) = v.
Proof. intros Hr Hp. simpl. by rewrite Hr; unfold setDuration; simpl; rewrite Hp. Qed.

(** ** Witnesses *)

(** A codec for one tenant and edge: the base URL, a bar, the key. *)
Definition ex_decode (s : string) : option Enrollment :=
  x ← Cut s "|"; Some (mkEnrollment 1 "t1" "e1" x.1 x.2).
Definition ex_token (e : Enrollment) : string := en_BaseURL e +:+ "|" +:+ en_APIKey e.
Definition ex_raw : rawConfig :=
  mkRaw "https://file.example/|key" "" "" "" "" "" "" "" "" (mkRawCWMP "10.0.0.1:7547" "" "" "" None) "/data/ftp" "" "" 0.
Definition ex_env (name : string) : string :=
  if decide (name = "FTP_WATCH_DIR") then " /env/ftp "
  else if decide (name = "CLOUDLYNET_BASE_URL") then " https://env.example/ " else "".

Lemma Load_layers_witness :
  match Load (λ _, None) Some (λ _, None) id ex_decode ex_token (FileRead ex_raw) ex_env with
  | Ok cfg => FTPWatchDir cfg = "/env/ftp" ∧ Listen (CWMP cfg) = "10.0.0.1:7547" ∧
      cfg_Enrollment cfg = mkEnrollment 1 "t1" "e1" "https://env.example" "key"
  | Err _ => False
  end.
Proof.
  destruct (Load (λ _, None) Some (λ _, None) id ex_decode ex_token (FileRead ex_raw) ex_env) as [cfg|] eqn:Hl.
  - destruct (Load_layers _ _ _ _ _ _ _ _ _ Hl) as ((e & He & _ & _ & _ & _ & Hen) & Hlisten & _ & _ & _ & Hftp & _).
    vm_compute in He. injection He as <-. split; [rewrite Hftp; vm_compute; reflexivity|]. split; [rewrite Hlisten; vm_compute; reflexivity|].
    vm_compute in Hen. exact (proj1 (Hen eq_refl eq_refl eq_refl)).
  - vm_compute in Hl. discriminate.
Defined.
