(* ===== verification/Db.v ===== *)
(** * The SQLite database behind [buffer.Buffer]

    The tables that [Buffer.init] creates (goagent/internal/buffer/sqlite.go) as
    Rocq data, and the way Go code runs statements on them: every statement or
    query may fail, a transaction applies all of its statements or none.

    SQLite itself is third-party code.  What is fixed here is the documented
    meaning of the few statements the agent issues; which of them fail, and
    when, is left open: a connection carries an arbitrary list of outcomes
    ([faults]) and every theorem quantifies over it. *)
From S2P Require Import Prelude.

(** ** Errors *)

Inductive go_error : Type :=
| ErrPayloadTooLarge (len : Z) (kind : string) (maxBytes : Z)
| ErrDB (msg : string)
| ErrRows (n : nat) (* the row iteration breaks off after n rows *)
| ErrSend (msg : string).

#[export] Instance go_error_eq_dec : EqDecision go_error.
Proof. solve_decision. Defined.

(** ** Rows *)

Record outbox_row := OutboxRow {
  ob_id : Z;
  ob_kind : string;
  ob_body : string;
  ob_created_at : Z }.

Record applied_row := AppliedRow {
  ap_status : string;
  ap_result : string;
  ap_applied_at : Z }.

Record device_row := DeviceRow {
  dv_ip : string;
  dv_manufacturer : string;
  dv_product_class : string;
  dv_serial_number : string;
  dv_sw_version : string;
  dv_last_inform_at : Z;
  dv_writability_loaded : Z }.

Record param_row := ParamRow {
  pr_value : option string;
  pr_writable : option Z;
  pr_cached_at : Z }.

Record event_row := EventRow {
  er_id : Z;
  er_device_id : string;
  er_module : string;
  er_event_type : string;
  er_severity : string;
  er_message : string;
  er_ts : Z;
  er_uploaded : Z }.

Record ledger_row := LedgerRow {
  lr_size : Z;
  lr_mtime_ns : Z;
  lr_ingested_at : Z }.

(** ** The database

    Tables with an [INTEGER PRIMARY KEY] are lists in id order (the order the
    b-tree keeps and [ORDER BY id] reads); the [*_seq] fields are the
    AUTOINCREMENT counters.  Tables keyed by text are finite maps. *)
Record db := Db {
  outbox : list outbox_row;
  outbox_seq : Z;
  applied : gmap string applied_row;
  cwmp_devices : gmap string device_row;
  cwmp_params : gmap (string * string) param_row;
  cwmp_events : list event_row;
  cwmp_events_seq : Z;
  ftp_ingested : gmap string ledger_row }.

Definition empty_db : db := Db [] 0 ∅ ∅ ∅ [] 0 ∅.

Definition set_outbox (o : list outbox_row) (n : Z) (d : db) : db :=
  Db o n (applied d) (cwmp_devices d) (cwmp_params d) (cwmp_events d)
     (cwmp_events_seq d) (ftp_ingested d).
Definition set_applied (m : gmap string applied_row) (d : db) : db :=
  Db (outbox d) (outbox_seq d) m (cwmp_devices d) (cwmp_params d) (cwmp_events d)
     (cwmp_events_seq d) (ftp_ingested d).
Definition set_devices (m : gmap string device_row) (d : db) : db :=
  Db (outbox d) (outbox_seq d) (applied d) m (cwmp_params d) (cwmp_events d)
     (cwmp_events_seq d) (ftp_ingested d).
Definition set_params (m : gmap (string * string) param_row) (d : db) : db :=
  Db (outbox d) (outbox_seq d) (applied d) (cwmp_devices d) m (cwmp_events d)
     (cwmp_events_seq d) (ftp_ingested d).
Definition set_events (l : list event_row) (n : Z) (d : db) : db :=
  Db (outbox d) (outbox_seq d) (applied d) (cwmp_devices d) (cwmp_params d) l n
     (ftp_ingested d).
Definition set_ledger (m : gmap string ledger_row) (d : db) : db :=
  Db (outbox d) (outbox_seq d) (applied d) (cwmp_devices d) (cwmp_params d)
     (cwmp_events d) (cwmp_events_seq d) m.

(** ** A connection

    [faults] is what will happen to the next statements: [Some e] makes one
    fail with [e], [None] lets it run, and past the end of the list every
    statement runs.  [freelist_count] and [page_size] are the engine's answers
    to the PRAGMA queries of the same names; [vacuums] counts the
    [PRAGMA incremental_vacuum] runs, the only trace a vacuum leaves here (it
    changes the file, not the tables). *)
Record sql := Sql {
  sdb : db;
  faults : list (option go_error);
  freelist_count : Z;
  page_size : Z;
  vacuums : nat }.

Definition set_sdb (d : db) (s : sql) : sql :=
  Sql d (faults s) (freelist_count s) (page_size s) (vacuums s).

Abbreviation DB := (SE sql go_error).

(** One statement or query. *)
Definition stmt {A} (f : db → A * db) : DB A := λ s,
  match faults s with
  | Some e :: fs => (Err e, Sql (sdb s) fs (freelist_count s) (page_size s) (vacuums s))
  | fs => let '(a, d) := f (sdb s) in
          (Ok a, Sql d (tail fs) (freelist_count s) (page_size s) (vacuums s))
  end.

Definition query {A} (f : db → A) : DB A := stmt (λ d, (f d, d)).
Definition exec (f : db → db) : DB unit := stmt (λ d, (tt, f d)).

(** A [for rows.Next()] loop whose [rows.Err] the caller does not look at: when
    the iteration fails, the rows read so far are taken for all of them. *)
Definition read_rows {A} (rows : list A) : DB (list A) := λ s,
  match stmt (λ d, (rows, d)) s with
  | (Err (ErrRows n), s) => (Ok (take n rows), s)
  | (Err _, s) => (Ok [], s)
  | r => r
  end.

(** [BeginTx], the body, [Commit], with the deferred [Rollback]. *)
Definition in_tx {A} (body : DB A) : DB A := λ s,
  match exec id s with
  | (Err e, s1) => (Err e, s1)
  | (Ok _, s1) =>
      match body s1 with
      | (Err e, s2) => (Err e, set_sdb (sdb s1) s2)
      | (Ok a, s2) =>
          match exec id s2 with
          | (Err e, s3) => (Err e, set_sdb (sdb s1) s3)
          | (Ok _, s3) => (Ok a, s3)
          end
      end
  end.

(** Handling an error instead of returning it. *)
Definition recover {A} (m : DB A) (h : go_error → DB A) : DB A := λ s,
  match m s with
  | (Err e, s') => h e s'
  | r => r
  end.

(** Statements that loop over the rows of a Go slice. *)
Fixpoint for_each {A} (l : list A) (f : A → DB unit) : DB unit :=
  match l with
  | [] => mret tt
  | x :: rest => _ ← f x; for_each rest f
  end.

(** ** Reasoning about statements

    [at_db d] fixes the tables and leaves the outcomes free. *)
Definition at_db (d : db) (s : sql) : Prop := sdb s = d.

(** A connection none of whose next statements fails. *)
Definition healthy (s : sql) : Prop := Forall (eq None) (faults s).

Lemma sdb_set_sdb d s : sdb (set_sdb d s) = d.
Proof. reflexivity. Qed.

Lemma triple_stmt {A} (f : db → A * db) d (Q : A → sql → Prop) (R : go_error → sql → Prop) :
  (∀ s, at_db (f d).2 s → Q (f d).1 s) → (∀ e s, at_db d s → R e s) →
  triple (at_db d) (stmt f) Q R.
Proof.
  intros HQ HR s Hs. unfold at_db, stmt in *. subst d.
  destruct (faults s) as [|[e|] fs]; destruct (f (sdb s)) eqn:Hf;
    simpl in *; try (by apply HR); by apply HQ.
Qed.

Lemma triple_query {A} (f : db → A) d (Q : A → sql → Prop) (R : go_error → sql → Prop) :
  (∀ s, at_db d s → Q (f d) s) → (∀ e s, at_db d s → R e s) →
  triple (at_db d) (query f) Q R.
Proof. intros. by apply triple_stmt. Qed.

Lemma triple_exec (f : db → db) d (Q : unit → sql → Prop) (R : go_error → sql → Prop) :
  (∀ s, at_db (f d) s → Q tt s) → (∀ e s, at_db d s → R e s) →
  triple (at_db d) (exec f) Q R.
Proof. intros. by apply triple_stmt. Qed.

(** The same, as equations about one run. *)
Lemma exec_sdb f s r s' :
  exec f s = (r, s') → sdb s' = match r with Ok _ => f (sdb s) | Err _ => sdb s end.
Proof.
  intros H. pose proof (triple_exec f (sdb s) (λ _ s1, sdb s1 = f (sdb s)) (λ _ s1, sdb s1 = sdb s)
    (λ _ H, H) (λ _ _ H, H) s eq_refl) as Ht.
  rewrite H in Ht. by destruct r.
Qed.

Lemma query_sdb {A} (f : db → A) s r s' :
  query f s = (r, s') → sdb s' = sdb s ∧ ∀ a, r = Ok a → a = f (sdb s).
Proof.
  intros H. pose proof (triple_query f (sdb s) (λ a s1, sdb s1 = sdb s ∧ a = f (sdb s))
    (λ _ s1, sdb s1 = sdb s) (λ _ H, conj H eq_refl) (λ _ _ H, H) s eq_refl) as Ht.
  rewrite H in Ht. destruct r as [a|e]; [|by split].
  destruct Ht as [-> ->]. split; [done | by intros ? [= <-]].
Qed.

Lemma read_rows_sdb {A} (rows : list A) s r s' :
  read_rows rows s = (r, s') → sdb s' = sdb s ∧ ∃ n, r = Ok (take n rows).
Proof.
  unfold read_rows. intros H.
  pose proof (triple_stmt (λ d, (rows, d)) (sdb s) (λ a s1, sdb s1 = sdb s ∧ a = rows)
    (λ _ s1, sdb s1 = sdb s) (λ _ H, conj H eq_refl) (λ _ _ H, H) s eq_refl) as Ht.
  destruct (stmt _ s) as [[a|e] s1].
  - destruct Ht as [? ->]. simplify_eq. split; [done|]. exists (length rows). by rewrite firstn_all.
  - destruct e; simplify_eq; split; try done; by (exists 0%nat + eexists).
Qed.

(** The transaction rule: whatever the body does before failing, a failed
    transaction leaves the tables as they were. *)
Lemma triple_in_tx {A} (body : DB A) d (Q : A → db → Prop) :
  triple (at_db d) body (λ a s, Q a (sdb s)) (λ _ _, True) →
  triple (at_db d) (in_tx body) (λ a s, Q a (sdb s)) (λ _ s, at_db d s).
Proof.
  intros Hbody s Hs. unfold in_tx.
  pose proof (triple_exec id d (λ _ s1, at_db d s1) (λ _ s1, at_db d s1)
                (λ s1 H, H) (λ _ s1 H, H) s Hs) as H1.
  destruct (exec id s) as [[[]|e] s1]; [|done].
  specialize (Hbody s1 H1). destruct (body s1) as [[a|e] s2]; [|done].
  pose proof (triple_exec id (sdb s2) (λ _ s3, at_db (sdb s2) s3) (λ _ s3, True)
                (λ s3 H, H) (λ _ _ _, I) s2 eq_refl) as H3.
  destruct (exec id s2) as [[[]|e] s3]; [by rewrite H3 | done].
Qed.

Lemma triple_recover {A} (P : sql → Prop) (m : DB A) h Q R M :
  triple P m Q M → (∀ e, triple (M e) (h e) Q R) → triple P (recover m h) Q R.
Proof.
  intros Hm Hh s Hs. unfold recover. specialize (Hm s Hs).
  destruct (m s) as [[a|e] s']; [done | by apply Hh].
Qed.

(** A loop of statements that never fails half-way unnoticed: on success every
    step ran, on failure a prefix of them did. *)
Lemma triple_for_each {A} (f : A → DB unit) (g : A → db → db) :
  (∀ x d, triple (at_db d) (f x) (λ _ s, at_db (g x d) s) (λ _ s, at_db d s)) →
  ∀ (l : list A) (d : db),
    triple (at_db d) (for_each l f)
      (λ _ s, at_db (foldl (flip g) d l) s)
      (λ _ s, ∃ n, n < length l ∧ at_db (foldl (flip g) d (take n l)) s).
Proof.
  intros Hf l. induction l as [|x l IH]; intros d; simpl.
  { by apply triple_ret. }
  apply (triple_bind _ _ _ (λ _, at_db (g x d))).
  - eapply triple_weaken; [apply (Hf x d) | done | done | ].
    intros e s H. exists 0. simpl. split; [lia | done].
  - intros []. eapply triple_weaken; [apply (IH (g x d)) | done | done | ].
    intros e s (n & Hn & H). exists (S n). simpl. split; [lia | done].
Qed.

(** Without faults nothing fails. *)
Definition runs {A} (m : DB A) : Prop :=
  ∀ s, healthy s → ∃ a s', m s = (Ok a, s') ∧ healthy s'.

Lemma runs_ret {A} (a : A) : runs (mret a).
Proof. intros s Hs. by exists a, s. Qed.

Lemma runs_bind {A B} (m : DB A) (f : A → DB B) :
  runs m → (∀ a, runs (f a)) → runs (m ≫= f).
Proof.
  intros Hm Hf s Hs. destruct (Hm s Hs) as (a & s1 & Heq & Hs1).
  rewrite SE_bind_unfold, Heq. by apply Hf.
Qed.

Lemma runs_stmt {A} (f : db → A * db) : runs (stmt f).
Proof.
  intros s Hs. unfold stmt, healthy in *.
  destruct (faults s) as [|o fs]; simpl.
  - destruct (f (sdb s)) as [a d]. eexists _, _. split; [done|]. constructor.
  - apply Forall_cons in Hs as [<- Hs].
    destruct (f (sdb s)) as [a d]. by eexists _, _.
Qed.

Lemma runs_query {A} (f : db → A) : runs (query f).
Proof. apply runs_stmt. Qed.
Lemma runs_exec f : runs (exec f).
Proof. apply runs_stmt. Qed.

Lemma read_rows_healthy {A} (rows : list A) s :
  healthy s → ∃ s', read_rows rows s = (Ok rows, s') ∧ healthy s' ∧ sdb s' = sdb s.
Proof.
  intros Hs. unfold read_rows. unfold stmt, healthy in *.
  destruct (faults s) as [|o fs]; simpl.
  - eexists. split_and!; [done|constructor|done].
  - apply Forall_cons in Hs as [<- Hs]. by eexists.
Qed.

Lemma runs_in_tx {A} (body : DB A) : runs body → runs (in_tx body).
Proof.
  intros Hb s Hs. unfold in_tx.
  destruct (runs_exec id s Hs) as (? & s1 & -> & Hs1).
  destruct (Hb s1 Hs1) as (a & s2 & -> & Hs2).
  destruct (runs_exec id s2 Hs2) as (? & s3 & -> & Hs3). by exists a, s3.
Qed.

Lemma runs_for_each {A} (l : list A) f : (∀ x, runs (f x)) → runs (for_each l f).
Proof. intros Hf. induction l; simpl; auto using runs_ret, runs_bind. Qed.

(** *** Errors of the engine

    The engine reports its own errors and never the sentinel the buffer itself
    returns for an oversized payload. *)
Definition engine_error (e : go_error) : Prop :=
  match e with ErrPayloadTooLarge _ _ _ => False | _ => True end.

Definition engine_faults (s : sql) : Prop :=
  Forall (λ o, match o with Some e => engine_error e | None => True end) (faults s).

(** A computation whose errors all come from the engine. *)
Definition engine_only {A} (m : DB A) : Prop :=
  triple engine_faults m (λ _, engine_faults) (λ e s, engine_faults s ∧ engine_error e).

Lemma engine_ret {A} (a : A) : engine_only (mret a).
Proof. by apply triple_ret. Qed.

Lemma engine_bind {A B} (m : DB A) (f : A → DB B) :
  engine_only m → (∀ a, engine_only (f a)) → engine_only (m ≫= f).
Proof. intros Hm Hf. eapply triple_bind; [apply Hm|]. intros a. apply Hf. Qed.

Lemma engine_stmt {A} (f : db → A * db) : engine_only (stmt f).
Proof.
  intros s Hs. unfold stmt, engine_faults in *. destruct (faults s) as [|[e|] fs]; simpl.
  - destruct (f (sdb s)). constructor.
  - apply Forall_cons in Hs as [He Hs]. done.
  - apply Forall_cons in Hs as [_ Hs]. by destruct (f (sdb s)).
Qed.

Lemma engine_query {A} (f : db → A) : engine_only (query f).
Proof. apply engine_stmt. Qed.
Lemma engine_exec f : engine_only (exec f).
Proof. apply engine_stmt. Qed.

Lemma engine_in_tx {A} (body : DB A) : engine_only body → engine_only (in_tx body).
Proof.
  intros Hb s Hs. unfold in_tx. pose proof (engine_exec id s Hs) as H1.
  destruct (exec id s) as [[[]|e] s1]; [|done]. specialize (Hb s1 H1).
  destruct (body s1) as [[x|e] s2]; [|done]. pose proof (engine_exec id s2 Hb) as H3.
  by destruct (exec id s2) as [[[]|e] s3].
Qed.

Lemma engine_for_each {A} (l : list A) f : (∀ x, engine_only (f x)) → engine_only (for_each l f).
Proof. intros Hf. induction l; simpl; auto using engine_ret, engine_bind. Qed.

Lemma engine_recover {A} (m : DB A) h : engine_only m → (∀ e, engine_only (h e)) → engine_only (recover m h).
Proof.
  intros Hm Hh. eapply triple_recover; [apply Hm|]. intros e s [Hs _]. by apply Hh.
Qed.

#[export] Hint Resolve engine_ret engine_query engine_exec engine_stmt engine_in_tx engine_for_each : agent.
#[export] Hint Resolve runs_ret runs_query runs_exec runs_stmt : agent.
#[export] Hint Resolve runs_in_tx runs_for_each : agent.
