(* ===== verification/Ledger.v ===== *)
(** * The FTP ingest ledger (goagent/internal/buffer/ftp_ledger.go)

    Which uploads of the watch directory are done with, persisted in the table
    [ftp_ingested] so that a restart resumes instead of parsing everything
    again. *)
From S2P Require Import Prelude Db.

(** [FTPStamp] identifies one version of an uploaded file. *)
Record FTPStamp := mkStamp {
  Size : Z;
  ModTime : Z }.

(** [FTPMark]: the upload at [Path], as it was at [Stamp], is done with. *)
Record FTPMark := mkMark {
  Path : string;
  Stamp : FTPStamp }.

#[export] Instance FTPStamp_eq_dec : EqDecision FTPStamp.
Proof. solve_decision. Defined.
#[export] Instance FTPMark_eq_dec : EqDecision FTPMark.
Proof. solve_decision. Defined.

(** Go's [l[start:end]]. *)
Definition slice {A} (start end_ : nat) (l : list A) : list A :=
  take (end_ - start) (drop start l).

Definition ledgerChunk : nat := Z.to_nat 5000.

(** [INSERT ... ON CONFLICT(path) DO UPDATE]: a rewritten path replaces its
    old stamp. *)
Definition upsert_mark (now : Z) (m : FTPMark) (d : db) : db :=
  set_ledger (<[Path m := LedgerRow (Size (Stamp m)) (ModTime (Stamp m)) now]> (ftp_ingested d)) d.

Definition forget_path (p : string) (d : db) : db :=
  set_ledger (delete p (ftp_ingested d)) d.

Definition upsertMarks (marks : list FTPMark) (start end_ : nat) (now : Z) : DB unit :=
  if decide (end_ ≤ start) then mret tt
  else _ ← exec id; (* PrepareContext *)
       for_each (slice start end_ marks) (λ m, exec (upsert_mark now m)).

(** [inChunks]: the loop over [start], one transaction per range.  [fuel] bounds
    the iterations; [start] grows by [ledgerChunk] each time, so [n] is enough
    ([inChunks_fuel]). *)
Fixpoint inChunks_loop (fuel start n : nat) (write : nat → nat → DB unit) : DB unit :=
  match fuel with
  | 0 => mret tt
  | S fuel =>
      if decide (start < n) then
        _ ← in_tx (write start (min (start + ledgerChunk) n));
        inChunks_loop fuel (start + ledgerChunk) n write
      else mret tt
  end.

Definition inChunks (n : nat) (write : nat → nat → DB unit) : DB unit :=
  inChunks_loop n 0 n write.

Definition MarkFTPIngested (now : Z) (marks : list FTPMark) : DB unit :=
  inChunks (length marks) (λ start end_, upsertMarks marks start end_ now).

Definition ForgetFTPIngested (paths : list string) : DB unit :=
  inChunks (length paths) (λ start end_,
    _ ← exec id; (* Prepare *)
    for_each (slice start end_ paths) (λ p, exec (forget_path p))).

(** The stamps the ledger holds, as [LoadFTPIngested] scans them. *)
Definition ledger_stamps (d : db) : gmap string FTPStamp :=
  (λ r, mkStamp (lr_size r) (lr_mtime_ns r)) <$> ftp_ingested d.

Definition LoadFTPIngested : DB (gmap string FTPStamp) :=
  out ← query ledger_stamps;
  _ ← exec id; (* rows.Scan / rows.Err *)
  mret out.

(** ** Chunked writes *)

Definition upsert_marks_db (now : Z) (l : list FTPMark) (d : db) : db :=
  foldl (flip (upsert_mark now)) d l.
Definition forget_paths_db (l : list string) (d : db) : db :=
  foldl (flip forget_path) d l.

Lemma ledgerChunk_pos : 0 < ledgerChunk.
Proof. apply Nat.ltb_lt. reflexivity. Qed.

Lemma take_slice {A} (l : list A) start end_ :
  start ≤ end_ → take start l ++ slice start end_ l = take end_ l.
Proof.
  intros H. unfold slice. rewrite <- (take_drop start (take end_ l)).
  rewrite take_take, skipn_firstn_comm. by rewrite Nat.min_l by lia.
Qed.

(** Running out of fuel cannot happen: more fuel changes nothing. *)
Lemma inChunks_fuel n write fuel start :
  n - start ≤ fuel → inChunks_loop (S fuel) start n write = inChunks_loop fuel start n write.
Proof.
  pose proof ledgerChunk_pos as Hc. revert start.
  induction fuel as [|fuel IH]; intros start H; simpl.
  - by rewrite decide_False by lia.
  - case_decide; [|done]. simpl in IH. by rewrite IH by lia.
Qed.

Lemma triple_upsertMarks marks start end_ now d :
  triple (at_db d) (upsertMarks marks start end_ now)
    (λ _ s, at_db (upsert_marks_db now (slice start end_ marks) d) s) (λ _ _, True).
Proof.
  unfold upsertMarks. case_decide as Hse.
  - apply triple_ret. intros s Hs. unfold slice.
    by replace (end_ - start) with 0 by lia.
  - apply (triple_bind _ _ _ (λ _, at_db d)); [by apply triple_exec|]. intros _.
    eapply triple_weaken; [apply (triple_for_each _ (upsert_mark now)) | done | done | done].
    intros x d'. by apply triple_exec.
Qed.

Lemma triple_forget_slice paths start end_ d :
  triple (at_db d)
    (_ ← exec id; for_each (slice start end_ paths) (λ p, exec (forget_path p)))
    (λ _ s, at_db (forget_paths_db (slice start end_ paths) d) s) (λ _ _, True).
Proof.
  apply (triple_bind _ _ _ (λ _, at_db d)); [by apply triple_exec|]. intros _.
  eapply triple_weaken; [apply (triple_for_each _ forget_path) | done | done | done].
  intros x d'. by apply triple_exec.
Qed.

(** A chunked write that fails has applied a whole number of chunks. *)
Lemma triple_inChunks {A} (l : list A) (g : A → db → db) write d0 :
  (∀ start end_ d, triple (at_db d) (write start end_)
     (λ _ s, at_db (foldl (flip g) d (slice start end_ l)) s) (λ _ _, True)) →
  triple (at_db d0) (inChunks (length l) write)
    (λ _ s, at_db (foldl (flip g) d0 l) s)
    (λ _ s, ∃ k, k * ledgerChunk < length l ∧
                 at_db (foldl (flip g) d0 (take (k * ledgerChunk) l)) s).
Proof.
  pose proof ledgerChunk_pos as Hc.
  intros Hw. unfold inChunks.
  cut (∀ fuel k, length l - k * ledgerChunk ≤ fuel →
    triple (at_db (foldl (flip g) d0 (take (k * ledgerChunk) l)))
      (inChunks_loop fuel (k * ledgerChunk) (length l) write)
      (λ _ s, at_db (foldl (flip g) d0 l) s)
      (λ _ s, ∃ k, k * ledgerChunk < length l ∧
                   at_db (foldl (flip g) d0 (take (k * ledgerChunk) l)) s)).
  { intros H. apply (H (length l) 0). lia. }
  induction fuel as [|fuel IH]; intros k Hk; simpl.
  { apply triple_ret. intros s. by rewrite take_ge by lia. }
  case_decide as Hlt; [|apply triple_ret; intros s; by rewrite take_ge by lia].
  set (d := foldl (flip g) d0 (take (k * ledgerChunk) l)).
  set (e := min (k * ledgerChunk + ledgerChunk) (length l)).
  apply (triple_bind _ _ _ (λ _, at_db (foldl (flip g) d (slice (k * ledgerChunk) e l)))).
  - eapply triple_weaken;
      [apply (triple_in_tx _ d (λ _ d', d' = foldl (flip g) d (slice (k * ledgerChunk) e l)));
       apply Hw | done | done | ].
    intros err s Hs. by exists k.
  - intros _. replace (foldl (flip g) d (slice (k * ledgerChunk) e l))
      with (foldl (flip g) d0 (take (S k * ledgerChunk) l)).
    + replace (k * ledgerChunk + ledgerChunk) with (S k * ledgerChunk) by lia.
      apply IH. lia.
    + unfold d. rewrite <- foldl_app, take_slice by lia. f_equal.
      unfold e. destruct (Nat.min_spec (k * ledgerChunk + ledgerChunk) (length l)) as [[? ->]|[? ->]].
      * f_equal. lia.
      * rewrite firstn_all. apply take_ge. lia.
Qed.

Lemma triple_MarkFTPIngested now marks d :
  triple (at_db d) (MarkFTPIngested now marks)
    (λ _ s, at_db (upsert_marks_db now marks d) s)
    (λ _ s, ∃ k, k * ledgerChunk < length marks ∧
                 at_db (upsert_marks_db now (take (k * ledgerChunk) marks) d) s).
Proof. apply triple_inChunks. intros. apply triple_upsertMarks. Qed.

Lemma triple_ForgetFTPIngested paths d :
  triple (at_db d) (ForgetFTPIngested paths)
    (λ _ s, at_db (forget_paths_db paths d) s)
    (λ _ s, ∃ k, k * ledgerChunk < length paths ∧
                 at_db (forget_paths_db (take (k * ledgerChunk) paths) d) s).
Proof. apply triple_inChunks. intros. apply triple_forget_slice. Qed.

Lemma triple_LoadFTPIngested d :
  triple (at_db d) LoadFTPIngested
    (λ m s, at_db d s ∧ m = ledger_stamps d) (λ _ s, at_db d s).
Proof.
  apply (triple_bind _ _ _ (λ m s, at_db d s ∧ m = ledger_stamps d)).
  - by apply triple_query.
  - intros m s [Hs ->]. revert s Hs.
    apply (triple_bind _ _ _ (λ _, at_db d)); [by apply triple_exec|].
    intros _. by apply triple_ret.
Qed.

(** Without faults, ledger writes succeed. *)
Lemma runs_upsertMarks marks start end_ now : runs (upsertMarks marks start end_ now).
Proof. unfold upsertMarks. case_decide; auto 10 using runs_bind, runs_ret, runs_exec, runs_for_each. Qed.

Lemma runs_inChunks n write : (∀ a b, runs (write a b)) → runs (inChunks n write).
Proof.
  intros Hw. unfold inChunks. generalize n at 1. intros fuel. generalize 0.
  induction fuel as [|fuel IH]; intros start; simpl; [apply runs_ret|].
  case_decide; [|apply runs_ret].
  apply runs_bind; [by apply runs_in_tx | intros; apply IH].
Qed.

Lemma runs_MarkFTPIngested now marks : runs (MarkFTPIngested now marks).
Proof. apply runs_inChunks. intros. apply runs_upsertMarks. Qed.

Lemma runs_ForgetFTPIngested paths : runs (ForgetFTPIngested paths).
Proof. apply runs_inChunks. intros. auto 10 using runs_bind, runs_exec, runs_for_each. Qed.

#[export] Hint Resolve runs_ForgetFTPIngested runs_upsertMarks runs_MarkFTPIngested : agent.

Lemma engine_upsertMarks marks start end_ now : engine_only (upsertMarks marks start end_ now).
Proof. unfold upsertMarks. case_decide; auto 10 using engine_bind with agent. Qed.

Lemma engine_inChunks n write : (∀ a b, engine_only (write a b)) → engine_only (inChunks n write).
Proof.
  intros Hw. unfold inChunks. generalize n at 1. intros fuel. generalize 0.
  induction fuel as [|fuel IH]; intros start; simpl; [auto with agent|].
  case_decide; [|auto with agent]. apply engine_bind; auto with agent.
Qed.

Lemma engine_MarkFTPIngested now marks : engine_only (MarkFTPIngested now marks).
Proof. apply engine_inChunks. intros. apply engine_upsertMarks. Qed.

Lemma engine_ForgetFTPIngested paths : engine_only (ForgetFTPIngested paths).
Proof. apply engine_inChunks. intros. auto 10 using engine_bind with agent. Qed.

#[export] Hint Resolve engine_upsertMarks engine_MarkFTPIngested engine_ForgetFTPIngested : agent.

(** ** What the ledger holds after an upsert *)

(** The last stamp a list of marks records for a path. *)
Definition last_stamp (p : string) (marks : list FTPMark) : option FTPStamp :=
  foldl (λ o m, if decide (Path m = p) then Some (Stamp m) else o) None marks.

Lemma last_stamp_app p l k :
  last_stamp p (l ++ k) = match last_stamp p k with Some st => Some st | None => last_stamp p l end.
Proof.
  unfold last_stamp. rewrite foldl_app. generalize (foldl (λ o m, if decide (Path m = p) then Some (Stamp m) else o) None l).
  induction k as [|m k IH] using rev_ind; intros o; [done|].
  rewrite !foldl_snoc. case_decide; [done | apply IH].
Qed.

Lemma last_stamp_Some p l st : last_stamp p l = Some st → mkMark p st ∈ l.
Proof.
  induction l as [|m l IH] using rev_ind; [done|].
  rewrite last_stamp_app. unfold last_stamp at 1. simpl. case_decide as Hp.
  - intros [= <-]. apply elem_of_app. right. subst p. destruct m. by apply list_elem_of_singleton.
  - intros H. apply elem_of_app. left. by apply IH.
Qed.

Lemma upsert_marks_other now l d :
  outbox (upsert_marks_db now l d) = outbox d ∧ outbox_seq (upsert_marks_db now l d) = outbox_seq d ∧
  applied (upsert_marks_db now l d) = applied d ∧ cwmp_devices (upsert_marks_db now l d) = cwmp_devices d ∧
  cwmp_params (upsert_marks_db now l d) = cwmp_params d ∧ cwmp_events (upsert_marks_db now l d) = cwmp_events d.
Proof. revert d. induction l as [|m l IH]; intros d; [done|]. simpl. apply (IH (upsert_mark now m d)). Qed.

Lemma upsert_marks_lookup now l d p :
  ledger_stamps (upsert_marks_db now l d) !! p =
  match last_stamp p l with Some st => Some st | None => ledger_stamps d !! p end.
Proof.
  induction l as [|m l IH] using rev_ind; [done|].
  unfold upsert_marks_db in *. rewrite foldl_snoc, last_stamp_app. unfold last_stamp at 1. simpl.
  unfold ledger_stamps in *. simpl. rewrite lookup_fmap.
  case_decide as Hp.
  - subst p. rewrite lookup_insert_eq. simpl. by destruct m as [? []].
  - rewrite lookup_insert_ne by done. rewrite <- lookup_fmap. apply IH.
Qed.

Lemma forget_paths_lookup l d p :
  ledger_stamps (forget_paths_db l d) !! p = if decide (p ∈ l) then None else ledger_stamps d !! p.
Proof.
  unfold forget_paths_db, ledger_stamps.
  induction l as [|q l IH] using rev_ind; [by case_decide; [set_solver|]|].
  rewrite foldl_snoc. simpl. rewrite fmap_delete. destruct (decide (p = q)) as [->|Hne].
  - rewrite lookup_delete_eq, decide_True; [done|set_solver].
  - rewrite lookup_delete_ne by done. rewrite IH.
    destruct (decide (p ∈ l)) as [Hin|Hin]; [rewrite decide_True | rewrite decide_False]; try done;
      rewrite elem_of_app, list_elem_of_singleton; tauto.
Qed.

Lemma forget_paths_other l d :
  outbox (forget_paths_db l d) = outbox d ∧ outbox_seq (forget_paths_db l d) = outbox_seq d ∧
  applied (forget_paths_db l d) = applied d ∧ cwmp_devices (forget_paths_db l d) = cwmp_devices d.
Proof. revert d. induction l as [|m l IH]; intros d; [done|]. simpl. apply (IH (forget_path m d)). Qed.

(** ** Properties *)

(** Marking uploads writes whole transactions of 5000 marks: whatever fails,
    the ledger holds the last stamp of every marked path of some prefix of the
    marks (all of them on success), and loading it back returns just that. *)
Theorem mark_ftp_load now marks s r s' :
  MarkFTPIngested now marks s = (r, s') →
  ∃ n, (r = Ok tt → n = length marks) ∧
       (n = length marks ∨ ∃ k, n = k * ledgerChunk ∧ n < length marks) ∧
       ∀ m s'', LoadFTPIngested s' = (Ok m, s'') →
         ∀ p, m !! p = match last_stamp p (take n marks) with
                       | Some st => Some st
                       | None => ledger_stamps (sdb s) !! p
                       end.
Proof.
  intros Hrun.
  assert (Hload : ∀ m s'', LoadFTPIngested s' = (Ok m, s'') → m = ledger_stamps (sdb s')).
  { intros m s'' H. pose proof (triple_LoadFTPIngested (sdb s') s' eq_refl) as Ht.
    rewrite H in Ht. apply Ht. }
  pose proof (triple_MarkFTPIngested now marks (sdb s) s eq_refl) as Ht. rewrite Hrun in Ht.
  destruct r as [[]|e]; [|destruct Ht as (k & Hk & Ht)]; unfold at_db in Ht.
  - exists (length marks). split_and!; [done|by left|]. intros m s'' H p.
    rewrite (Hload m s'' H), Ht, firstn_all. apply upsert_marks_lookup.
  - exists (k * ledgerChunk). split_and!; [done|right; by exists k|]. intros m s'' H p.
    rewrite (Hload m s'' H), Ht. apply upsert_marks_lookup.
Qed.

(** ** Witnesses *)

Lemma mark_ftp_load_witness :
  let marks := [mkMark "/up/a" (mkStamp 1 2); mkMark "/up/a" (mkStamp 3 4)] in
  match (MarkFTPIngested 9 marks ≫= λ _, LoadFTPIngested) (Sql empty_db [] 0 0 0) with
  | (Ok m, _) => m !! "/up/a" = Some (mkStamp 3 4)
  | _ => False
  end.
Proof.
  intros marks. rewrite SE_bind_unfold.
  destruct (MarkFTPIngested 9 marks (Sql empty_db [] 0 0 0)) as [r s'] eqn:Hrun.
  destruct (mark_ftp_load 9 marks (Sql empty_db [] 0 0 0) r s' Hrun) as (n & Hn & _ & Hm).
  destruct r as [[]|e]; [|vm_compute in Hrun; discriminate].
  destruct (LoadFTPIngested s') as [[m|e] s''] eqn:Hl.
  - rewrite (Hm m s'' eq_refl "/up/a"), (Hn eq_refl). reflexivity.
  - vm_compute in Hrun. injection Hrun as <-. vm_compute in Hl. discriminate.
Defined.
