(* ===== verification/Outbox.v ===== *)
(** * The telemetry outbox and the applied-command table
    (goagent/internal/buffer/sqlite.go) *)
From S2P Require Import Prelude Db Ledger.
Local Open Scope Z_scope.

(** ** Definitions *)

Definition reclaimThresholdBytes : Z := 4 * 2 ^ 20.

Record Buffer := mkBuffer {
  b_path : string;
  b_maxBytes : Z }.

Definition body_len (r : outbox_row) : Z := blen (ob_body r).

(** [SELECT COALESCE(SUM(length(body)), 0) FROM outbox]. *)
Definition payload (rows : list outbox_row) : Z := sum_Z (body_len <$> rows).

(** [INSERT INTO outbox]. *)
Definition insert_outbox (kind body : string) (now : Z) (d : db) : db :=
  set_outbox (outbox d ++ [OutboxRow (outbox_seq d + 1) kind body now]) (outbox_seq d + 1) d.

(** [DELETE FROM outbox WHERE id <= ?], with the number of rows it removed. *)
Definition delete_upto (last : Z) (d : db) : Z * db :=
  let kept := filter (λ r, last < ob_id r) (outbox d) in
  (Z.of_nat (length (outbox d)) - Z.of_nat (length kept), set_outbox kept (outbox_seq d) d).

(** [DELETE FROM outbox WHERE id = ?]. *)
Definition delete_outbox (id : Z) (d : db) : db :=
  set_outbox (filter (λ r, ob_id r ≠ id) (outbox d)) (outbox_seq d) d.

(** The loop over [(id, length(body))] rows: it stops as soon as enough is
    freed, or with the rows. *)
Fixpoint walk_rows (excess freed lastID : Z) (rows : list (Z * Z)) : Z :=
  if decide (freed < excess) then
    match rows with
    | [] => lastID
    | (id, n) :: rest => walk_rows excess (freed + n) id rest
    end
  else lastID.

Definition evictOldest (incoming maxBytes : Z) : DB Z :=
  queued ← query (λ d, payload (outbox d));
  let excess := queued + incoming - maxBytes in
  if decide (excess ≤ 0) then mret 0
  else
    rows ← query (λ d, (λ r, (ob_id r, body_len r)) <$> outbox d);
    _ ← exec id; (* rows.Scan, rows.Err, rows.Close *)
    let lastID := walk_rows excess 0 0 rows in
    stmt (delete_upto lastID).

(** PRAGMA queries, and [PRAGMA incremental_vacuum]. *)
Definition pragma (answer : sql → Z) : DB Z := λ s, query (λ _, answer s) s.

Definition incremental_vacuum : DB unit := λ s,
  match exec id s with
  | (Ok _, s) => (Ok tt, Sql (sdb s) (faults s) 0 (page_size s) (S (vacuums s)))
  | r => r
  end.

(** [reclaimFreePages] only touches free pages of the file, and swallows its
    errors. *)
Definition reclaimFreePages (b : Buffer) : DB unit :=
  if decide (b_path b = ":memory:") then mret tt
  else
    recover
      (free ← pragma freelist_count;
       pageSize ← pragma page_size;
       if decide (free * pageSize < reclaimThresholdBytes) then mret tt
       else incremental_vacuum)
      (λ _, mret tt).

(** [EnqueueWithMarks]: size guard, then one transaction with the eviction, the
    insert and the ingest marks. *)
Definition EnqueueWithMarks (b : Buffer) (now : Z) (kind body : string)
    (marks : list FTPMark) : DB unit :=
  if decide (0 < b_maxBytes b ∧ b_maxBytes b < blen body) then
    throw (ErrPayloadTooLarge (blen body) kind (b_maxBytes b))
  else
    evicted ← in_tx (
      evicted ← (if decide (0 < b_maxBytes b)
                 then evictOldest (blen body) (b_maxBytes b) else mret 0);
      _ ← exec (insert_outbox kind body now);
      _ ← upsertMarks marks 0 (length marks) now;
      mret evicted);
    if decide (0 < evicted) then reclaimFreePages b else mret tt.

Definition Enqueue (b : Buffer) (now : Z) (kind body : string) : DB unit :=
  EnqueueWithMarks b now kind body [].

Definition PayloadBytes : DB Z := query (λ d, payload (outbox d)).
Definition Count : DB Z := query (λ d, Z.of_nat (length (outbox d))).

(** [Drain]: [send] is the caller's callback on its own state [C] (the cloud, in
    [flushOutbox]); it returns the error it fails with, if any. *)
Section Drain.
Context {C : Type} (send : string → string → C → option go_error * C).

Definition drain_limit : nat := 100.

(** The loop over the batch, with [deleted] counting the rows it removed. *)
Fixpoint drain_loop (batch : list outbox_row) (deleted : nat) (s : sql) (c : C) :
    result go_error unit * nat * sql * C :=
  match batch with
  | [] => (Ok tt, deleted, s, c)
  | it :: rest =>
      match send (ob_kind it) (ob_body it) c with
      | (Some e, c) => (Err e, deleted, s, c)
      | (None, c) =>
          match exec (delete_outbox (ob_id it)) s with
          | (Err e, s) => (Err e, deleted, s, c)
          | (Ok _, s) => drain_loop rest (S deleted) s c
          end
      end
  end.

Definition Drain (b : Buffer) (s : sql) (c : C) : result go_error unit * sql * C :=
  match (batch ← query (λ d, take drain_limit (outbox d));
         _ ← exec id; (* rows.Scan, rows.Err, rows.Close *)
         mret batch) s with
  | (Err e, s) => (Err e, s, c)
  | (Ok batch, s) =>
      let '(r, deleted, s, c) := drain_loop batch 0 s c in
      (r, if decide (0 < deleted)%nat then ignore_err (reclaimFreePages b) s else s, c)
  end.
End Drain.

(** The applied-command table. *)
Definition AlreadyApplied (commandID : string) : DB (option (string * string)) :=
  query (λ d, (λ r, (ap_status r, ap_result r)) <$> applied d !! commandID).

Definition MarkApplied (now : Z) (commandID status result : string) : DB unit :=
  exec (λ d, set_applied (<[commandID := AppliedRow status result now]> (applied d)) d).

(** ** Well-formed outboxes: ids ascend strictly and stay below the counter *)

Fixpoint ids_from (lo : Z) (rows : list outbox_row) : Prop :=
  match rows with
  | [] => True
  | r :: rest => lo < ob_id r ∧ ids_from (ob_id r) rest
  end.

Definition outbox_wf (d : db) : Prop :=
  0 ≤ outbox_seq d ∧ ids_from 0 (outbox d) ∧ Forall (λ r, ob_id r ≤ outbox_seq d) (outbox d).

(** The reference for an eviction: the least number of oldest rows that frees
    [excess] bytes, or all of them. *)
Fixpoint evict_count (excess : Z) (rows : list outbox_row) : nat :=
  if decide (0 < excess) then
    match rows with
    | [] => 0
    | r :: rest => S (evict_count (excess - body_len r) rest)
    end
  else 0.

(** ** Lemmas *)

Lemma payload_app l k : payload (l ++ k) = payload l + payload k.
Proof. unfold payload. by rewrite fmap_app, sum_Z_app. Qed.
Lemma payload_cons r l : payload (r :: l) = body_len r + payload l.
Proof. reflexivity. Qed.
Lemma payload_nonneg l : 0 ≤ payload l.
Proof. apply sum_Z_nonneg, Forall_fmap, Forall_true. intros r. apply blen_nonneg. Qed.
Lemma body_len_nonneg r : 0 ≤ body_len r.
Proof. apply blen_nonneg. Qed.
#[export] Hint Resolve payload_nonneg body_len_nonneg : agent.

Lemma evict_count_le excess rows : (evict_count excess rows ≤ length rows)%nat.
Proof. revert excess. induction rows as [|r rows IH]; intros; simpl; case_decide; [lia..| |lia]. specialize (IH (excess - body_len r)). lia. Qed.

(** The rows the reference evicts are enough... *)
Lemma evict_count_frees excess rows :
  excess ≤ payload (take (evict_count excess rows) rows) ∨ evict_count excess rows = length rows.
Proof.
  revert excess. induction rows as [|r rows IH]; intros; simpl; case_decide; simpl; auto.
  - rewrite payload_cons. destruct (IH (excess - body_len r)) as [|H']; [left; lia|].
    right. by rewrite H'.
  - left. unfold payload. simpl. lia.
Qed.

(** ... and no fewer would be. *)
Lemma evict_count_least excess rows m :
  (m < evict_count excess rows)%nat → payload (take m rows) < excess.
Proof.
  revert excess m. induction rows as [|r rows IH]; intros excess m; simpl; case_decide; simpl; try lia.
  intros Hm. destruct m as [|m]; [done|]. simpl. rewrite payload_cons.
  assert (payload (take m rows) < excess - body_len r) by (apply IH; lia). lia.
Qed.

Lemma ids_from_weaken lo lo' rows : lo' ≤ lo → ids_from lo rows → ids_from lo' rows.
Proof. destruct rows; simpl; intuition lia. Qed.

Lemma ids_from_lt lo rows r : ids_from lo rows → r ∈ rows → lo < ob_id r.
Proof.
  revert lo. induction rows as [|r' rows IH]; intros lo; [set_solver|].
  intros [Hlt Hids] [->|Hr]%elem_of_cons; [done|].
  assert (ob_id r' < ob_id r) by auto. lia.
Qed.

Lemma ids_from_snoc lo rows r :
  ids_from lo rows → Forall (λ r', ob_id r' < ob_id r) rows → lo < ob_id r →
  ids_from lo (rows ++ [r]).
Proof.
  revert lo. induction rows as [|r' rows IH]; intros lo; simpl; [done|].
  intros [? ?] Hall ?. apply Forall_cons in Hall as [? ?]. split; auto.
Qed.

Lemma ids_from_sublist lo rows rows' : rows' `sublist_of` rows → ids_from lo rows → ids_from lo rows'.
Proof.
  intros Hsub. revert lo. induction Hsub as [|x l k Hsub IH|x l k Hsub IH]; intros lo; simpl; [done| |].
  - intros [? ?]. auto.
  - intros [? H]. eapply ids_from_weaken, IH, H. lia.
Qed.

Lemma ids_from_filter_ge lo x rows :
  ids_from lo rows → x ≤ lo → filter (λ r, x < ob_id r) rows = rows.
Proof.
  intros Hids Hx. apply list_filter_all. apply Forall_forall. intros r Hr.
  eapply ids_from_lt in Hids; [|done]. lia.
Qed.

Lemma walk_rows_ge excess freed lo rows :
  ids_from lo rows →
  lo ≤ walk_rows excess freed lo ((λ r, (ob_id r, body_len r)) <$> rows).
Proof.
  revert freed lo. induction rows as [|r rows IH]; intros freed lo; simpl.
  - case_decide; lia.
  - intros [? ?]. case_decide; [|lia]. etrans; [|by apply IH]. lia.
Qed.

(** Walking the rows finds the last id of the reference eviction, and deleting
    up to it removes exactly those rows. *)
Lemma walk_rows_filter excess freed lo rows :
  ids_from lo rows →
  filter (λ r, walk_rows excess freed lo ((λ r, (ob_id r, body_len r)) <$> rows) < ob_id r) rows
  = drop (evict_count (excess - freed) rows) rows.
Proof.
  revert freed lo. induction rows as [|r rows IH]; intros freed lo; simpl.
  { repeat case_decide; done. }
  intros [Hlo Hids].
  destruct (decide (freed < excess)); [rewrite decide_True by lia | rewrite decide_False by lia]; simpl.
  - specialize (IH (freed + body_len r) (ob_id r) Hids).
    replace (excess - (freed + body_len r)) with (excess - freed - body_len r) in IH by lia.
    rewrite <- IH. rewrite filter_cons_False; [done|].
    by apply Z.le_ngt, walk_rows_ge.
  - apply (ids_from_filter_ge lo lo); [done | lia].
Qed.

Lemma outbox_wf_filter P `{!∀ r, Decision (P r)} d :
  outbox_wf d → outbox_wf (set_outbox (filter P (outbox d)) (outbox_seq d) d).
Proof.
  intros (H0 & Hids & Hle). split; [done|]. simpl. split.
  - eapply ids_from_sublist, Hids. apply sublist_filter.
  - rewrite Forall_forall in *. intros r [_ Hr]%list_elem_of_filter. by apply Hle.
Qed.

Lemma outbox_wf_insert kind body now d : outbox_wf d → outbox_wf (insert_outbox kind body now d).
Proof.
  intros (H0 & Hids & Hle). split; simpl; [lia|]. split.
  - apply ids_from_snoc; simpl; [done | | lia].
    eapply Forall_impl; [done|]. intros r; simpl; lia.
  - apply Forall_app. split; [|by constructor].
    eapply Forall_impl; [done|]. intros r; simpl; lia.
Qed.

(** ** What an enqueue does to the database *)

Definition over_cap (b : Buffer) (body : string) : Prop :=
  0 < b_maxBytes b ∧ b_maxBytes b < blen body.

Definition evicted_rows (b : Buffer) (body : string) (d : db) : nat :=
  if decide (0 < b_maxBytes b)
  then evict_count (payload (outbox d) + blen body - b_maxBytes b) (outbox d) else 0.

Definition enqueue_db (b : Buffer) (now : Z) (kind body : string) (marks : list FTPMark)
    (d : db) : db :=
  upsert_marks_db now marks
    (insert_outbox kind body now
      (set_outbox (drop (evicted_rows b body d) (outbox d)) (outbox_seq d) d)).

Lemma set_outbox_same d : set_outbox (outbox d) (outbox_seq d) d = d.
Proof. by destruct d. Qed.

Lemma slice_full {A} (l : list A) : slice 0 (length l) l = l.
Proof. unfold slice. rewrite drop_0, Nat.sub_0_r. apply firstn_all. Qed.

Lemma triple_evictOldest incoming maxBytes d :
  outbox_wf d →
  triple (at_db d) (evictOldest incoming maxBytes)
    (λ _ s, at_db (set_outbox
       (drop (evict_count (payload (outbox d) + incoming - maxBytes) (outbox d)) (outbox d))
       (outbox_seq d) d) s)
    (λ _ s, at_db d s).
Proof.
  intros (_ & Hids & _). unfold evictOldest.
  apply (triple_bind _ _ _ (λ q s, at_db d s ∧ q = payload (outbox d))); [by apply triple_query|].
  intros q s [Hs ->]. revert s Hs. case_decide as Hx.
  - apply triple_ret. intros s Hs.
    replace (evict_count _ (outbox d)) with 0%nat
      by (destruct (outbox d); simpl; by rewrite decide_False by lia).
    by rewrite drop_0, set_outbox_same.
  - apply (triple_bind _ _ _ (λ rows s, at_db d s ∧ rows = (λ r, (ob_id r, body_len r)) <$> outbox d)).
    { by apply triple_query. }
    intros rows s [Hs ->]. revert s Hs.
    apply (triple_bind _ _ _ (λ _, at_db d)); [by apply triple_exec|]. intros _.
    apply triple_stmt; [|done]. intros s Hs. unfold delete_upto in Hs. simpl in Hs.
    rewrite (walk_rows_filter _ 0 0) in Hs by done. by rewrite Z.sub_0_r in Hs.
Qed.

Lemma triple_reclaimFreePages b d :
  triple (at_db d) (reclaimFreePages b) (λ _, at_db d) (λ _ _, False).
Proof.
  unfold reclaimFreePages. case_decide; [by apply triple_ret|].
  apply (triple_recover _ _ _ _ _ (λ _, at_db d)); [|intros e; by apply triple_ret].
  assert (Hp : ∀ f, triple (at_db d) (pragma f) (λ _, at_db d) (λ _, at_db d)).
  { intros f s Hs. by apply (triple_query (λ _, f s) d (λ _, at_db d) (λ _, at_db d)). }
  apply (triple_bind _ _ _ (λ _, at_db d)); [done|]. intros free.
  apply (triple_bind _ _ _ (λ _, at_db d)); [done|]. intros pageSize.
  case_decide; [by apply triple_ret|].
  intros s Hs. unfold incremental_vacuum.
  pose proof (triple_exec id d (λ _, at_db d) (λ _, at_db d) (λ s H, H) (λ _ s H, H) s Hs) as H1.
  by destruct (exec id s) as [[[]|e] s1].
Qed.

Lemma triple_EnqueueWithMarks b now kind body marks d :
  outbox_wf d →
  triple (at_db d) (EnqueueWithMarks b now kind body marks)
    (λ _ s, at_db (enqueue_db b now kind body marks d) s ∧ ¬ over_cap b body)
    (λ e s, at_db d s ∧ (over_cap b body → e = ErrPayloadTooLarge (blen body) kind (b_maxBytes b))).
Proof.
  intros Hwf. unfold EnqueueWithMarks, over_cap. case_decide as Hover; [by apply triple_throw|].
  set (d1 := set_outbox (drop (evicted_rows b body d) (outbox d)) (outbox_seq d) d).
  apply (triple_bind _ _ _ (λ _, at_db (enqueue_db b now kind body marks d))).
  - eapply triple_weaken;
      [apply (triple_in_tx _ d (λ _ d', d' = enqueue_db b now kind body marks d)) | done | done | ];
      [|by intros e s Hs].
    apply (triple_bind _ _ _ (λ _, at_db d1)).
    { unfold d1, evicted_rows. case_decide.
      - by eapply triple_weaken; [apply triple_evictOldest | ..].
      - apply triple_ret. by rewrite drop_0, set_outbox_same. }
    intros evicted.
    apply (triple_bind _ _ _ (λ _, at_db (insert_outbox kind body now d1))); [by apply triple_exec|].
    intros _. eapply triple_bind; [apply triple_upsertMarks|].
    intros []. apply triple_ret. by rewrite slice_full.
  - intros evicted. case_decide; [|by apply triple_ret].
    by eapply triple_weaken; [apply triple_reclaimFreePages | | | ].
Qed.

Lemma oversized_refused b now kind body marks s : over_cap b body →
  EnqueueWithMarks b now kind body marks s = (Err (ErrPayloadTooLarge (blen body) kind (b_maxBytes b)), s).
Proof. intros Hover. unfold EnqueueWithMarks. by rewrite decide_True. Qed.

(** Within the cap, the errors of an enqueue are the engine's. *)
Lemma engine_EnqueueWithMarks b now kind body marks :
  ¬ over_cap b body → engine_only (EnqueueWithMarks b now kind body marks).
Proof.
  intros Hover. unfold EnqueueWithMarks. rewrite decide_False by done. apply engine_bind.
  - apply engine_in_tx, engine_bind.
    + case_decide; [|auto with agent]. unfold evictOldest. apply engine_bind; [auto with agent|]. intros q.
      case_decide; auto 10 using engine_bind with agent.
    + intros ev. auto 10 using engine_bind with agent.
  - intros ev. case_decide; [|auto with agent]. unfold reclaimFreePages. case_decide; [auto with agent|].
    apply engine_recover; [|auto with agent].
    assert (Hp : ∀ f, engine_only (pragma f)) by (intros f s Hs; by apply engine_query).
    apply engine_bind; [done|]. intros free. apply engine_bind; [done|]. intros sz. case_decide; [auto with agent|].
    intros s Hs. unfold incremental_vacuum. pose proof (engine_exec id s Hs) as Hex. by destruct (exec id s) as [[[]|e] s1].
Qed.

Lemma runs_reclaimFreePages b : runs (reclaimFreePages b).
Proof.
  intros s1 Hs1. unfold reclaimFreePages. case_decide; [by eexists _, _|]. unfold recover.
  assert (Hp : ∀ f, runs (pragma f)) by (intros f s2 Hs2; by apply runs_query).
  edestruct (runs_bind (pragma freelist_count) (λ free, pageSize ← pragma page_size;
    if decide (free * pageSize < reclaimThresholdBytes) then mret tt else incremental_vacuum))
    as (a & s2 & -> & Hs2); [apply Hp| |exact Hs1|by eexists _, _].
  intros free. apply runs_bind; [apply Hp|]. intros sz. case_decide; [apply runs_ret|].
  intros s2 Hs2. unfold incremental_vacuum.
  destruct (runs_exec id s2 Hs2) as (? & s3 & -> & Hs3). by eexists _, _.
Qed.

(** A fitting payload is accepted by a buffer without faults. *)
Lemma runs_EnqueueWithMarks b now kind body marks : ¬ over_cap b body → runs (EnqueueWithMarks b now kind body marks).
Proof.
  intros Hover. unfold EnqueueWithMarks. rewrite decide_False by done. apply runs_bind.
  - apply runs_in_tx, runs_bind; [|auto with agent].
    + case_decide; [|apply runs_ret]. unfold evictOldest.
      apply runs_bind; [apply runs_query|]. intros q. case_decide; [apply runs_ret|].
      apply runs_bind; [apply runs_query|]. intros rows.
      apply runs_bind; [apply runs_exec|]. intros []. apply runs_stmt.
    + intros ev. apply runs_bind; [apply runs_exec|]. intros [].
      apply runs_bind; [apply runs_upsertMarks|]. intros []. apply runs_ret.
  - intros ev. case_decide; [apply runs_reclaimFreePages|apply runs_ret].
Qed.

Lemma enqueue_runs b now kind body marks s : ¬ over_cap b body → healthy s →
  ∃ s', EnqueueWithMarks b now kind body marks s = (Ok tt, s').
Proof.
  intros Hover Hs. destruct (runs_EnqueueWithMarks b now kind body marks Hover s Hs) as ([] & s' & ? & _). by exists s'.
Qed.

Lemma enqueue_db_outbox b now kind body marks d :
  outbox (enqueue_db b now kind body marks d) =
    drop (evicted_rows b body d) (outbox d) ++ [OutboxRow (outbox_seq d + 1) kind body now].
Proof. unfold enqueue_db. by destruct (upsert_marks_other now marks (insert_outbox kind body now
         (set_outbox (drop (evicted_rows b body d) (outbox d)) (outbox_seq d) d))) as [-> _]. Qed.

Lemma enqueue_db_ledger b now kind body marks d p :
  ledger_stamps (enqueue_db b now kind body marks d) !! p =
  match last_stamp p marks with Some st => Some st | None => ledger_stamps d !! p end.
Proof. unfold enqueue_db. by rewrite upsert_marks_lookup. Qed.

(** Deleting the first rows of a well-formed outbox is dropping them. *)
Lemma outbox_wf_drop n d : outbox_wf d → outbox_wf (set_outbox (drop n (outbox d)) (outbox_seq d) d).
Proof.
  intros (H0 & Hids & Hle). split; [done|]. simpl. split.
  - eapply ids_from_sublist, Hids. apply sublist_drop.
  - by apply Forall_drop.
Qed.

Lemma upsert_marks_wf now marks d : outbox_wf d → outbox_wf (upsert_marks_db now marks d).
Proof.
  unfold outbox_wf. by destruct (upsert_marks_other now marks d) as (-> & -> & _).
Qed.

Lemma enqueue_db_wf b now kind body marks d : outbox_wf d → outbox_wf (enqueue_db b now kind body marks d).
Proof. intros. by apply upsert_marks_wf, outbox_wf_insert, outbox_wf_drop. Qed.

(** The queued payload never exceeds the cap after an enqueue. *)
Lemma enqueue_db_cap b now kind body marks d :
  0 < b_maxBytes b → blen body ≤ b_maxBytes b →
  payload (outbox (enqueue_db b now kind body marks d)) ≤ b_maxBytes b.
Proof.
  intros Hmax Hbody. rewrite enqueue_db_outbox, payload_app, payload_cons.
  unfold evicted_rows. rewrite decide_True by done.
  set (ex := payload (outbox d) + blen body - b_maxBytes b).
  assert (Hsplit : payload (take (evict_count ex (outbox d)) (outbox d)) +
    payload (drop (evict_count ex (outbox d)) (outbox d)) = payload (outbox d)).
  { by rewrite <- payload_app, take_drop. }
  change (body_len (OutboxRow _ kind body now)) with (blen body).
  change (payload []) with 0.
  destruct (evict_count_frees ex (outbox d)) as [Hf|Hf]; [lia|].
  rewrite Hf, drop_all. change (payload []) with 0. lia.
Qed.

(** ** Draining *)

Section DrainLemmas.
Context {C : Type} (send : string → string → C → option go_error * C).

(** The cloud's state after sending the bodies of [rows] in order. *)
Fixpoint run_sends (c : C) (rows : list outbox_row) : C :=
  match rows with
  | [] => c
  | r :: rest => run_sends (send (ob_kind r) (ob_body r) c).2 rest
  end.

(** Each of them was accepted. *)
Fixpoint sends_ok (c : C) (rows : list outbox_row) : Prop :=
  match rows with
  | [] => True
  | r :: rest => (send (ob_kind r) (ob_body r) c).1 = None ∧
                 sends_ok (send (ob_kind r) (ob_body r) c).2 rest
  end.

Lemma delete_head d r rest :
  outbox_wf d → outbox d = r :: rest →
  delete_outbox (ob_id r) d = set_outbox (drop 1 (outbox d)) (outbox_seq d) d.
Proof.
  intros (_ & Hids & _) Ho. unfold delete_outbox. rewrite Ho. simpl.
  rewrite filter_cons_False by (intros H; by apply H). f_equal. rewrite drop_0.
  apply list_filter_all, Forall_forall. intros r' Hr'.
  rewrite Ho in Hids. destruct Hids as [_ Hids].
  eapply ids_from_lt in Hr'; [|done]. lia.
Qed.

Lemma drain_loop_spec batch : ∀ tail deleted s c r n s' c',
  outbox_wf (sdb s) → outbox (sdb s) = batch ++ tail →
  drain_loop send batch deleted s c = (r, n, s', c') →
  ∃ k j, (k ≤ j ≤ S k ∧ j ≤ length batch)%nat ∧
    sdb s' = set_outbox (drop k (outbox (sdb s))) (outbox_seq (sdb s)) (sdb s) ∧
    c' = run_sends c (take j batch) ∧ sends_ok c (take k batch) ∧
    n = (deleted + k)%nat ∧ (r = Ok tt → k = length batch) ∧
    (∀ e, r = Err e → j = S k).
Proof.
  induction batch as [|it rest IH]; intros tail deleted s c r n s' c' Hwf Ho Hrun; simpl in Hrun.
  { simplify_eq. exists 0%nat, 0%nat. simpl. rewrite drop_0, set_outbox_same.
    split_and!; try done; lia. }
  destruct (send (ob_kind it) (ob_body it) c) as [[e|] c1] eqn:Hsend.
  { simplify_eq. exists 0%nat, 1%nat. simpl. rewrite drop_0, set_outbox_same, Hsend.
    split_and!; try done; lia. }
  pose proof (triple_exec (delete_outbox (ob_id it)) (sdb s)
    (λ _, at_db (delete_outbox (ob_id it) (sdb s))) (λ _, at_db (sdb s))
    (λ _ H, H) (λ _ _ H, H) s eq_refl) as Hdel.
  destruct (exec (delete_outbox (ob_id it)) s) as [[[]|e] s1]; simpl in Hrun.
  - unfold at_db in Hdel. rewrite (delete_head _ _ (rest ++ tail)) in Hdel by done.
    destruct (IH tail (S deleted) s1 c1 r n s' c') as (k & j & Hkj & Hs' & Hc' & Hok & Hn & Hr & He);
      [by rewrite Hdel; apply outbox_wf_drop | by rewrite Hdel; simpl; rewrite Ho | done |].
    exists (S k), (S j). simpl. rewrite Hsend. simpl.
    rewrite Hdel in Hs'. simpl in Hs'. rewrite drop_drop in Hs'. simpl in Hs'.
    split_and!; [lia | lia | lia | done | done | done | done | lia | | ].
    + intros H. by rewrite (Hr H).
    + intros e H. by rewrite (He e H).
  - simplify_eq. exists 0%nat, 1%nat. simpl. rewrite drop_0, Hdel, set_outbox_same, Hsend.
    split_and!; try done; lia.
Qed.
End DrainLemmas.

Lemma Drain_spec {C} (send : string → string → C → option go_error * C) b s c r s' c' :
  outbox_wf (sdb s) → Drain send b s c = (r, s', c') →
  ∃ k j, (k ≤ j ≤ S k ∧ j ≤ drain_limit)%nat ∧
    sdb s' = set_outbox (drop k (outbox (sdb s))) (outbox_seq (sdb s)) (sdb s) ∧
    c' = run_sends send c (take j (outbox (sdb s))) ∧
    sends_ok send c (take k (outbox (sdb s))) ∧
    (r = Ok tt → k = min drain_limit (length (outbox (sdb s)))).
Proof.
  intros Hwf Hrun. unfold Drain in Hrun.
  set (q := (batch ← query (λ d, take drain_limit (outbox d)); _ ← exec id; mret batch) : DB _) in Hrun.
  assert (Hq : triple (at_db (sdb s)) q
    (λ l s1, at_db (sdb s) s1 ∧ l = take drain_limit (outbox (sdb s))) (λ _, at_db (sdb s))).
  { apply (triple_bind _ _ _ (λ l s1, at_db (sdb s) s1 ∧ l = take drain_limit (outbox (sdb s)))).
    - by apply triple_query.
    - intros l s1 [H1 ->]. revert s1 H1.
      apply (triple_bind _ _ _ (λ _, at_db (sdb s))); [by apply triple_exec|].
      intros []. by apply triple_ret. }
  specialize (Hq s eq_refl). destruct (q s) as [[batch|e] s1].
  - destruct Hq as [Hs1 ->]. unfold at_db in Hs1.
    destruct (drain_loop send _ 0 s1 c) as [[[r2 n] s2] c2] eqn:Hloop. simplify_eq.
    eapply (drain_loop_spec send _ (drop drain_limit (outbox (sdb s)))) in Hloop
      as (k & j & (Hkj & Hj) & Hs2 & -> & Hok & -> & Hr & _); [| by rewrite Hs1 | by rewrite Hs1, take_drop].
    rewrite length_take in Hj, Hr. rewrite Hs1 in Hs2.
    exists k, j. rewrite !take_take in Hok |- *. rewrite !Nat.min_l in * by lia.
    split_and!; try done; try lia.
    case_decide; [|done]. unfold ignore_err.
    pose proof (triple_reclaimFreePages b _ s2 eq_refl) as Hrec.
    destruct (reclaimFreePages b s2) as [[]]; [by rewrite <- Hs2 | done].
  - simplify_eq. exists 0%nat, 0%nat. simpl. rewrite drop_0, Hq, set_outbox_same.
    split_and!; try done; unfold drain_limit; lia.
Qed.

(** On a healthy connection, sends that succeed empty the batch. *)
Section DrainRuns.
Context {C : Type} (send : string → string → C → option go_error * C) (up : C → Prop).
Hypothesis send_up : ∀ kind body c, up c → (send kind body c).1 = None ∧ up (send kind body c).2.

Lemma drain_loop_runs batch : ∀ deleted s c, healthy s → up c →
  ∃ n s' c', drain_loop send batch deleted s c = (Ok tt, n, s', c') ∧ healthy s' ∧ up c'.
Proof.
  induction batch as [|it rest IH]; intros deleted s c Hs Hc; cbn [drain_loop]; [by eexists _, _, _|].
  destruct (send_up (ob_kind it) (ob_body it) c Hc) as [Hsend Hup].
  destruct (send (ob_kind it) (ob_body it) c) as [e c1]. cbn [fst snd] in *. subst e.
  destruct (runs_exec (delete_outbox (ob_id it)) s Hs) as ([] & s1 & -> & Hs1). by apply IH.
Qed.

Lemma Drain_runs b s c : healthy s → up c →
  ∃ s' c', Drain send b s c = (Ok tt, s', c') ∧ healthy s' ∧ up c'.
Proof.
  intros Hs Hc. unfold Drain.
  assert (Hq : runs (batch ← query (λ d, take drain_limit (outbox d)); _ ← exec id; mret batch)).
  { apply runs_bind; [apply runs_query|]. intros l. apply runs_bind; [apply runs_exec|]. intros []. apply runs_ret. }
  destruct (Hq s Hs) as (batch & s1 & -> & Hs1).
  destruct (drain_loop_runs batch 0 s1 c Hs1 Hc) as (n & s2 & c2 & -> & Hs2 & Hc2).
  case_decide; [|by eexists _, _]. unfold ignore_err.
  destruct (runs_reclaimFreePages b s2 Hs2) as ([] & s3 & -> & Hs3). by eexists _, _.
Qed.
End DrainRuns.

(** ** The life of the outbox: any sequence of buffer operations *)

Inductive outbox_step (b : Buffer) : db → db → Prop :=
| step_enqueue s s' r now kind body marks :
    EnqueueWithMarks b now kind body marks s = (r, s') → outbox_step b (sdb s) (sdb s')
| step_drain {C} (send : string → string → C → option go_error * C) s s' c c' r :
    Drain send b s c = (r, s', c') → outbox_step b (sdb s) (sdb s')
| step_mark_applied s s' r now id status res :
    MarkApplied now id status res s = (r, s') → outbox_step b (sdb s) (sdb s')
| step_mark_ftp s s' r now marks :
    MarkFTPIngested now marks s = (r, s') → outbox_step b (sdb s) (sdb s')
| step_forget_ftp s s' r paths :
    ForgetFTPIngested paths s = (r, s') → outbox_step b (sdb s) (sdb s').

Definition outbox_inv (b : Buffer) (d : db) : Prop :=
  outbox_wf d ∧ (0 < b_maxBytes b → payload (outbox d) ≤ b_maxBytes b).

Lemma outbox_inv_eq b d d' :
  outbox d' = outbox d → outbox_seq d' = outbox_seq d → outbox_inv b d → outbox_inv b d'.
Proof. unfold outbox_inv, outbox_wf. by intros -> ->. Qed.

Lemma payload_drop_le n l : payload (drop n l) ≤ payload l.
Proof.
  rewrite <- (take_drop n l) at 2. rewrite payload_app.
  pose proof (payload_nonneg (take n l)). lia.
Qed.

(** A ledger write, complete or cut short, leaves the outbox alone. *)
Lemma ledger_write_outbox_inv {A} b (m : DB unit) (f : list A → db → db) (l : list A) s s' r :
  (∀ l d, outbox (f l d) = outbox d ∧ outbox_seq (f l d) = outbox_seq d) →
  triple (at_db (sdb s)) m (λ _ s1, at_db (f l (sdb s)) s1)
    (λ _ s1, ∃ k, k * ledgerChunk < length l ∧ at_db (f (take (k * ledgerChunk) l) (sdb s)) s1)%nat →
  m s = (r, s') → outbox_inv b (sdb s) → outbox_inv b (sdb s').
Proof.
  intros Hf Ht Hm. specialize (Ht s eq_refl). rewrite Hm in Ht. destruct r as [[]|e].
  - rewrite Ht. apply outbox_inv_eq; apply Hf.
  - destruct Ht as (k & _ & ->). apply outbox_inv_eq; apply Hf.
Qed.

Lemma outbox_step_inv b d d' : outbox_step b d d' → outbox_inv b d → outbox_inv b d'.
Proof.
  intros Hstep. destruct Hstep as
    [s s' r now kind body marks H|C send s s' c c' r H|s s' r now id status res H
    |s s' r now marks H|s s' r paths H]; intros [Hwf Hcap].
  - pose proof (triple_EnqueueWithMarks b now kind body marks (sdb s) Hwf s eq_refl) as Ht.
    rewrite H in Ht. destruct r as [[]|e]; destruct Ht as [-> Hover]; [|done].
    split; [by apply enqueue_db_wf|]. intros Hmax.
    apply enqueue_db_cap; [done|]. unfold over_cap in Hover. lia.
  - destruct (Drain_spec _ _ _ _ _ _ _ Hwf H) as (k & j & _ & -> & _).
    split; [by apply outbox_wf_drop|]. intros Hmax. simpl.
    pose proof (payload_drop_le k (outbox (sdb s))). specialize (Hcap Hmax). lia.
  - apply exec_sdb in H. rewrite H. by destruct r.
  - eapply (ledger_write_outbox_inv _ _ (upsert_marks_db now)); [|apply triple_MarkFTPIngested|done|done].
    intros l d. by destruct (upsert_marks_other now l d) as (-> & -> & _).
  - eapply (ledger_write_outbox_inv _ _ forget_paths_db); [|apply triple_ForgetFTPIngested|done|done].
    intros l d. by destruct (forget_paths_other l d) as (-> & -> & _).
Qed.

(** ** Properties *)

(** C13: An enqueue is one transaction, whatever statements fail: on success the
    new body is appended under a fresh id, the fewest oldest rows that make room
    are evicted, and every ingest mark is recorded; on failure the tables are
    untouched, so no upload is ever marked without its events being queued. *)
Theorem enqueue_with_marks_atomic b now kind body marks s r s' :
  outbox_wf (sdb s) → EnqueueWithMarks b now kind body marks s = (r, s') →
  match r with
  | Ok _ =>
      let d := sdb s in
      let n := evicted_rows b body d in
      outbox (sdb s') = drop n (outbox d) ++ [OutboxRow (outbox_seq d + 1) kind body now] ∧
      (∀ m, (m < n)%nat → b_maxBytes b < payload (drop m (outbox d)) + blen body) ∧
      (∀ p, ledger_stamps (sdb s') !! p =
              match last_stamp p marks with Some st => Some st | None => ledger_stamps d !! p end) ∧
      applied (sdb s') = applied d
  | Err _ => sdb s' = sdb s
  end.
Proof.
  intros Hwf Hrun. pose proof (triple_EnqueueWithMarks b now kind body marks (sdb s) Hwf s eq_refl) as Ht.
  rewrite Hrun in Ht. destruct r as [[]|e]; [|apply Ht]. destruct Ht as [Hs' _]. cbv zeta.
  unfold at_db in Hs'. rewrite Hs'. split_and!.
  - apply enqueue_db_outbox.
  - intros m. unfold evicted_rows. case_decide; [|lia]. intros Hm.
    apply evict_count_least in Hm. pose proof (payload_app (take m (outbox (sdb s))) (drop m (outbox (sdb s)))) as Hp.
    rewrite take_drop in Hp. lia.
  - intros p. apply enqueue_db_ledger.
  - unfold enqueue_db. by destruct (upsert_marks_other now marks (insert_outbox kind body now
      (set_outbox (drop (evicted_rows b body (sdb s)) (outbox (sdb s))) (outbox_seq (sdb s)) (sdb s))))
      as (_ & _ & -> & _).
Qed.

(** C21: In every reachable buffer the queued payload is within the cap, and the
    rows are in strictly ascending id order below the AUTOINCREMENT counter. *)
Theorem outbox_reachable_capped b d :
  rtc (outbox_step b) empty_db d → 0 < b_maxBytes b →
  payload (outbox d) ≤ b_maxBytes b ∧ outbox_wf d.
Proof.
  intros Hrtc Hmax.
  assert (outbox_inv b d) as [Hwf Hcap]; [|by auto].
  assert (H0 : outbox_inv b empty_db) by (split; [repeat split; simpl; done || constructor|]; intros; change (payload (outbox empty_db)) with 0; lia).
  induction Hrtc; eauto using outbox_step_inv.
Qed.

(** C22: A drain delivers a prefix of the queue in order and deletes exactly the
    rows that were delivered and deleted: what is left is a suffix of the queue,
    at most the one row whose delete failed (or whose send was refused) is sent
    and kept, and a drain that reports success delivered a full batch. *)
Theorem drain_fifo_at_least_once {C} (send : string → string → C → option go_error * C) b s c r s' c' :
  outbox_wf (sdb s) → Drain send b s c = (r, s', c') →
  ∃ k j, (k ≤ j ≤ S k ∧ j ≤ drain_limit)%nat ∧
    outbox (sdb s') = drop k (outbox (sdb s)) ∧
    c' = run_sends send c (take j (outbox (sdb s))) ∧
    sends_ok send c (take k (outbox (sdb s))) ∧
    (r = Ok tt → k = min drain_limit (length (outbox (sdb s)))) ∧
    ftp_ingested (sdb s') = ftp_ingested (sdb s) ∧ applied (sdb s') = applied (sdb s).
Proof.
  intros Hwf Hrun. destruct (Drain_spec _ _ _ _ _ _ _ Hwf Hrun) as (k & j & Hkj & -> & Hc & Hok & Hr).
  exists k, j. destruct Hkj as [[? ?] ?]. split_and!; done.
Qed.

(** A payload larger than the whole cap is refused before anything is
    evicted or written; one that fits is accepted by a buffer without faults. *)
Theorem oversized_refused_fitting_accepted b now kind body marks s :
  outbox_wf (sdb s) →
  (over_cap b body →
     EnqueueWithMarks b now kind body marks s =
       (Err (ErrPayloadTooLarge (blen body) kind (b_maxBytes b)), s)) ∧
  (¬ over_cap b body → healthy s →
     ∃ s', EnqueueWithMarks b now kind body marks s = (Ok tt, s')).
Proof.
  intros Hwf. split; intros Hover; [by apply oversized_refused|]. by apply enqueue_runs.
Qed.

(** A recorded command is found again with its outcome, and recording one
    command neither forgets nor changes another. *)
Theorem applied_roundtrip now id status res s s' r s1 :
  MarkApplied now id status res s = (Ok tt, s') → AlreadyApplied id s' = (Ok r, s1) →
  r = Some (status, res) ∧
  (∀ id', id' ≠ id → applied (sdb s') !! id' = applied (sdb s) !! id').
Proof.
  intros Hm Ha. apply exec_sdb in Hm. apply query_sdb in Ha as [_ Ha]. rewrite (Ha _ eq_refl), Hm. simpl.
  rewrite lookup_insert_eq. split; [done|]. intros id' Hne. by rewrite lookup_insert_ne.
Qed.

(** ** Witnesses *)

Definition ex_buffer : Buffer := mkBuffer ":memory:" 10.
Definition ex_mark : FTPMark := mkMark "/up/a" (mkStamp 3 7).
Definition ex_sql : sql :=
  Sql (set_outbox [OutboxRow 1 "telemetry" "aaaaaa" 5; OutboxRow 2 "telemetry" "bbb" 6] 2 empty_db)
    [] 0 4096 0.

Lemma ex_sql_wf : outbox_wf (sdb ex_sql).
Proof. split; [done|]. split; [by simpl|]. by repeat constructor. Qed.

Example ex_enqueue :
  outbox (sdb (EnqueueWithMarks ex_buffer 9 "telemetry" "cccc" [ex_mark] ex_sql).2) =
    [OutboxRow 2 "telemetry" "bbb" 6; OutboxRow 3 "telemetry" "cccc" 9].
Proof. vm_compute. reflexivity. Qed.

Lemma enqueue_with_marks_atomic_witness :
  ledger_stamps (sdb (EnqueueWithMarks ex_buffer 9 "telemetry" "cccc" [ex_mark] ex_sql).2) !! "/up/a"
    = Some (mkStamp 3 7).
Proof.
  destruct (EnqueueWithMarks ex_buffer 9 "telemetry" "cccc" [ex_mark] ex_sql) as [r s'] eqn:H.
  pose proof (enqueue_with_marks_atomic ex_buffer 9 "telemetry" "cccc" [ex_mark] ex_sql r s' ex_sql_wf H) as Ht.
  destruct r as [[]|e]; [|vm_compute in H; discriminate].
  destruct Ht as (_ & _ & Hl & _). simpl. rewrite Hl. reflexivity.
Defined.

Lemma outbox_reachable_capped_witness :
  payload (outbox (sdb (EnqueueWithMarks ex_buffer 9 "t" "cccc" [] (Sql empty_db [] 0 0 0)).2)) ≤ 10.
Proof.
  destruct (EnqueueWithMarks ex_buffer 9 "t" "cccc" [] (Sql empty_db [] 0 0 0)) as [r s'] eqn:H.
  destruct (outbox_reachable_capped ex_buffer (sdb s')) as [Hp _]; [|reflexivity|exact Hp].
  eapply rtc_once. exact (step_enqueue ex_buffer (Sql empty_db [] 0 0 0) s' r 9 "t" "cccc" [] H).
Defined.

(** A cloud that accepts everything and keeps what it got. *)
Definition ex_send (kind body : string) (c : list string) : option go_error * list string :=
  (None, c ++ [body]).

Lemma drain_fifo_at_least_once_witness :
  (Drain ex_send ex_buffer ex_sql []).2 = ["aaaaaa"; "bbb"] ∧
  ∃ k j, (k ≤ j ≤ S k ∧ j ≤ drain_limit)%nat.
Proof.
  split; [vm_compute; reflexivity|].
  destruct (Drain ex_send ex_buffer ex_sql []) as [[r s'] c'] eqn:H.
  destruct (drain_fifo_at_least_once ex_send ex_buffer ex_sql [] r s' c' ex_sql_wf H) as (k & j & Hkj & _).
  exists k, j. exact Hkj.
Defined.

Lemma oversized_refused_fitting_accepted_witness :
  EnqueueWithMarks ex_buffer 9 "telemetry" "a body of more than ten bytes" [] ex_sql =
    (Err (ErrPayloadTooLarge 29 "telemetry" 10), ex_sql).
Proof.
  apply (proj1 (oversized_refused_fitting_accepted ex_buffer 9 "telemetry"
    "a body of more than ten bytes" [] ex_sql ex_sql_wf)).
  split; reflexivity.
Defined.

Lemma applied_roundtrip_witness :
  (AlreadyApplied "c1" (MarkApplied 1 "c1" "completed" "{}" ex_sql).2).1 = Ok (Some ("completed", "{}")).
Proof.
  destruct (MarkApplied 1 "c1" "completed" "{}" ex_sql) as [[[]|e] s'] eqn:Hm;
    [|vm_compute in Hm; discriminate].
  destruct (AlreadyApplied "c1" s') as [[r|e] s1] eqn:Ha; simpl.
  - destruct (applied_roundtrip 1 "c1" "completed" "{}" ex_sql s' r s1 Hm Ha) as [-> _]. rewrite Ha. reflexivity.
  - vm_compute in Hm. injection Hm as <-. vm_compute in Ha. discriminate.
Defined.
