(* ===== verification/CwmpTypes.v ===== *)
(** * CWMP messages, tasks and the store interface
    (goagent/internal/cwmp/rpc.go, store.go, deviceid.go) *)
From S2P Require Import Prelude.

(** ** Messages the device sends (rpc.go) *)

Record DeviceID := mkDeviceID {
  di_Manufacturer : string;
  di_OUI : string;
  di_ProductClass : string;
  di_SerialNumber : string }.

Record EventStruct := mkEventStruct {
  es_EventCode : string;
  es_CommandKey : string }.

Record ValueNode := mkValue {
  v_Type : string;
  v_Text : string }.

Record ParameterValueStruct := mkPV {
  pv_Name : string;
  pv_Value : ValueNode }.

Record ParameterInfoStruct := mkPI {
  pi_Name : string;
  pi_Writable : bool }.

Record Inform := mkInform {
  inf_DeviceID : DeviceID;
  inf_Event : list EventStruct;
  inf_MaxEnvelopes : Z;
  inf_CurrentTime : string;
  inf_RetryCount : Z;
  inf_ParameterList : list ParameterValueStruct }.

Record FaultStruct := mkFaultStruct {
  fs_FaultCode : Z;
  fs_FaultString : string }.

Record TransferComplete := mkTransferComplete {
  tc_CommandKey : string;
  tc_FaultStruct : FaultStruct;
  tc_StartTime : string;
  tc_CompleteTime : string }.

Record AutonomousTransferComplete := mkATC {
  atc_AnnounceURL : string;
  atc_TransferURL : string;
  atc_IsDownload : bool;
  atc_FileType : string;
  atc_FileSize : Z;
  atc_TargetFileName : string;
  atc_FaultStruct : FaultStruct;
  atc_StartTime : string;
  atc_CompleteTime : string }.

Record CWMPFault := mkCWMPFault {
  cf_FaultCode : string;
  cf_FaultString : string }.

Record Fault := mkFault {
  f_FaultCode : string;
  f_FaultString : string;
  f_Detail : CWMPFault }.

(** The members of the SOAP body that the agent decodes: Go's nil-able
    pointers, so several may be present at once. *)
Record Body := mkBody {
  b_Inform : option Inform;
  b_GetRPCMethods : option unit;
  b_TransferComplete : option TransferComplete;
  b_AutonomousTransferComplete : option AutonomousTransferComplete;
  b_Fault : option Fault;
  b_GetParameterValuesResponse : option (list ParameterValueStruct);
  b_SetParameterValuesResponse : option Z;
  b_GetParameterNamesResponse : option (list ParameterInfoStruct);
  b_RebootResponse : option unit }.

Record Envelope := mkEnvelope {
  e_ID : string;
  e_Body : Body }.

Definition empty_body : Body := mkBody None None None None None None None None None.

(** ** What the ACS answers (rpc.go); Go's nil body is [None] *)

Inductive Response : Type :=
| InformResponse (MaxEnvelopes : Z)
| GetRPCMethodsResponse (MethodList : list string)
| TransferCompleteResponse
| AutonomousTransferCompleteResponse
| GetParameterValues (ParameterNames : list string)
| SetParameterValues (ParameterList : list ParameterValueStruct) (ParameterKey : string)
| GetParameterNames (ParameterPath : string) (NextLevel : bool)
| Reboot (CommandKey : string).

(** ** Tasks (store.go) *)

(** [TaskType] is a Go string type; [TaskOther] stands for any other string. *)
Inductive TaskType : Type :=
| TaskGPV | TaskSPV | TaskGPN | TaskReboot | TaskOther (s : string).

#[export] Instance TaskType_eq_dec : EqDecision TaskType.
Proof. solve_decision. Defined.
#[export] Instance ValueNode_eq_dec : EqDecision ValueNode.
Proof. solve_decision. Defined.
#[export] Instance ParameterValueStruct_eq_dec : EqDecision ParameterValueStruct.
Proof. solve_decision. Defined.
#[export] Instance ParameterInfoStruct_eq_dec : EqDecision ParameterInfoStruct.
Proof. solve_decision. Defined.
#[export] Instance Response_eq_dec : EqDecision Response.
Proof. solve_decision. Defined.

Record Task := mkTask {
  t_Type : TaskType;
  t_Paths : list string;
  t_Writes : list ParameterValueStruct;
  t_CmdKey : string;
  t_CommandID : string }.

#[export] Instance Task_eq_dec : EqDecision Task.
Proof. solve_decision. Defined.

Record TaskResult := mkResult {
  tr_CommandID : string;
  tr_Type : TaskType;
  tr_Params : gmap string string;
  tr_Names : list ParameterInfoStruct;
  tr_Status : Z;
  tr_Err : string }.

#[export] Instance TaskResult_eq_dec : EqDecision TaskResult.
Proof. solve_decision. Defined.

Record DeviceRecord := mkDevice {
  d_DeviceID : string;
  d_IP : string;
  d_Manufacturer : string;
  d_ProductClass : string;
  d_SerialNumber : string;
  d_SWVersion : string;
  d_LastInformAt : Z (* unix seconds, 0 for Go's zero time *) }.

Record StoredEvent := mkStoredEvent {
  se_DeviceID : string;
  se_Module : string;
  se_EventType : string;
  se_Severity : string;
  se_Message : string;
  se_TS : Z }.

(** ** The [Store] interface

    The persistence that the CWMP session and server rely on.  Its methods
    return no error: a store that cannot perform an operation drops it, so what
    a client may count on is stated relative to [store_ok], a store whose
    operations do not fail. *)
Class Store (S : Type) := {
  UpsertDevice : DeviceRecord → S → S;
  CacheParam : Z → string → string → string → S → S;
  SaveWritability : Z → string → list ParameterInfoStruct → S → S;
  HasWritabilityMap : string → S → bool * S;
  GetParams : string → list string → S → gmap string string * S;
  ListDevices : S → list DeviceRecord * S;
  StoreDeviceIP : string → S → string * S;
  EmitEvent : Z → string → string → string → string → string → S → S;
  DrainEvents : S → list StoredEvent * S;
  store_ok : S → Prop;
  (** What the store holds, observed without asking it. *)
  writability_loaded : string → S → bool;
  cached_param : string → string → S → option string;
  pending_events : S → list StoredEvent }.

(** What a store promises.  The first three laws hold even when operations
    fail; the others are for a store that works. *)
Class StoreLaws (S : Type) `{Store S} := {
  UpsertDevice_keeps_writability d dev s :
    writability_loaded dev s = true →
    writability_loaded dev (UpsertDevice d s) = true;
  CacheParam_keeps_writability now d p v dev s :
    writability_loaded dev (CacheParam now d p v s) = writability_loaded dev s;
  EmitEvent_keeps_writability now d m ty sev msg dev s :
    writability_loaded dev (EmitEvent now d m ty sev msg s) = writability_loaded dev s;
  CacheParam_other now d p v d' p' s :
    (d, p) ≠ (d', p') → cached_param d' p' (CacheParam now d p v s) = cached_param d' p' s;
  HasWritabilityMap_spec dev s :
    store_ok s → (HasWritabilityMap dev s).1 = writability_loaded dev s;
  CacheParam_spec now d p v s :
    store_ok s → cached_param d p (CacheParam now d p v s) = Some v;
  EmitEvent_spec now d m ty sev msg s :
    store_ok s →
    pending_events (EmitEvent now d m ty sev msg s) =
      pending_events s ++ [mkStoredEvent d m ty sev msg now];
  UpsertDevice_ok d s : store_ok s → store_ok (UpsertDevice d s);
  CacheParam_ok now d p v s : store_ok s → store_ok (CacheParam now d p v s);
  EmitEvent_ok now d m ty sev msg s : store_ok s → store_ok (EmitEvent now d m ty sev msg s);
  UpsertDevice_params d dev p s : cached_param dev p (UpsertDevice d s) = cached_param dev p s }.
