(* ===== verification/CwmpStore.v ===== *)
(** * The buffer as the CWMP store (goagent/internal/buffer/cwmp_store.go)

    [*Buffer] implements the [cwmp.Store] interface on the same SQLite
    connection as the outbox.  Every method swallows its errors. *)
From S2P Require Import Prelude Db CwmpTypes.
Local Open Scope Z_scope.

Definition boolToInt (b : bool) : Z := if b then 1 else 0.

(** ** The statements *)

(** [writability_loaded] is not in the update set. *)
Definition upsert_device (d : DeviceRecord) (x : db) : db :=
  let loaded := match cwmp_devices x !! d_DeviceID d with
                | Some r => dv_writability_loaded r
                | None => 0
                end in
  set_devices (<[d_DeviceID d := DeviceRow (d_IP d) (d_Manufacturer d) (d_ProductClass d)
    (d_SerialNumber d) (d_SWVersion d) (d_LastInformAt d) loaded]> (cwmp_devices x)) x.

Definition cache_param (now : Z) (dev path value : string) (x : db) : db :=
  let writable := match cwmp_params x !! (dev, path) with
                  | Some r => pr_writable r
                  | None => None
                  end in
  set_params (<[(dev, path) := ParamRow (Some value) writable now]> (cwmp_params x)) x.

Definition save_writable (now : Z) (dev : string) (n : ParameterInfoStruct) (x : db) : db :=
  let w := Some (boolToInt (pi_Writable n)) in
  let row := match cwmp_params x !! (dev, pi_Name n) with
             | Some r => ParamRow (pr_value r) w (pr_cached_at r)
             | None => ParamRow None w now
             end in
  set_params (<[(dev, pi_Name n) := row]> (cwmp_params x)) x.

(** [UPDATE cwmp_devices SET writability_loaded=1 WHERE device_id=?]. *)
Definition set_loaded (dev : string) (x : db) : db :=
  set_devices (alter (λ r, DeviceRow (dv_ip r) (dv_manufacturer r) (dv_product_class r)
    (dv_serial_number r) (dv_sw_version r) (dv_last_inform_at r) 1) dev (cwmp_devices x)) x.

Definition insert_event (now : Z) (dev module ty sev msg : string) (x : db) : db :=
  set_events (cwmp_events x ++
    [EventRow (cwmp_events_seq x + 1) dev module ty sev msg now 0]) (cwmp_events_seq x + 1) x.

(** [UPDATE cwmp_events SET uploaded=1 WHERE id=?]. *)
Definition mark_row (id : Z) (r : event_row) : event_row :=
  if decide (er_id r = id)
  then EventRow (er_id r) (er_device_id r) (er_module r) (er_event_type r)
         (er_severity r) (er_message r) (er_ts r) 1
  else r.

Definition set_uploaded (id : Z) (x : db) : db :=
  set_events (mark_row id <$> cwmp_events x) (cwmp_events_seq x) x.

Definition device_record (kv : string * device_row) : DeviceRecord :=
  let r := kv.2 in
  mkDevice kv.1 (dv_ip r) (dv_manufacturer r) (dv_product_class r) (dv_serial_number r)
    (dv_sw_version r) (if decide (0 < dv_last_inform_at r) then dv_last_inform_at r else 0).

(** [ORDER BY device_id]: SQLite's BINARY collation is the byte order. *)
Definition by_id (a b : string * device_row) : Prop := String.le a.1 b.1.
#[export] Instance by_id_dec : RelDecision by_id := λ a b, _ : Decision (String.le a.1 b.1).

Definition devices_in_order (x : db) : list DeviceRecord :=
  device_record <$> merge_sort by_id (map_to_list (cwmp_devices x)).

Definition stored_event (r : event_row) : StoredEvent :=
  mkStoredEvent (er_device_id r) (er_module r) (er_event_type r) (er_severity r)
    (er_message r) (er_ts r).

Definition unsent_events (x : db) : list event_row :=
  filter (λ r, er_uploaded r = 0) (cwmp_events x).

(** ** The methods *)

Definition Buffer_UpsertDevice (d : DeviceRecord) : sql → sql :=
  ignore_err (exec (upsert_device d)).

Definition Buffer_CacheParam (now : Z) (dev path value : string) : sql → sql :=
  ignore_err (exec (cache_param now dev path value)).

Definition Buffer_SaveWritability (now : Z) (dev : string) (names : list ParameterInfoStruct) :
    sql → sql :=
  ignore_err (in_tx (
    _ ← for_each names (λ n, exec (save_writable now dev n));
    exec (set_loaded dev))).

Definition Buffer_HasWritabilityMap (dev : string) (s : sql) : bool * sql :=
  match query (λ x, cwmp_devices x !! dev) s with
  | (Ok (Some r), s) => (bool_decide (dv_writability_loaded r = 1), s)
  | (_, s) => (false, s)
  end.

Definition Buffer_GetParams (dev : string) (paths : list string) (s : sql) :
    gmap string string * sql :=
  match paths with
  | [] => (∅, s)
  | _ =>
      match (rows ← query (λ x, omap (λ p, r ← cwmp_params x !! (dev, p);
                                           v ← pr_value r; Some (p, v)) paths);
             read_rows rows) s with
      | (Ok rows, s) => (list_to_map rows, s)
      | (Err _, s) => (∅, s)
      end
  end.

Definition Buffer_ListDevices (s : sql) : list DeviceRecord * sql :=
  match (rows ← query devices_in_order; read_rows rows) s with
  | (Ok out, s) => (out, s)
  | (Err _, s) => ([], s)
  end.

Definition Buffer_DeviceIP (dev : string) (s : sql) : string * sql :=
  match query (λ x, cwmp_devices x !! dev) s with
  | (Ok (Some r), s) => (dv_ip r, s)
  | (_, s) => ("", s)
  end.

Definition Buffer_EmitEvent (now : Z) (dev module ty sev msg : string) : sql → sql :=
  ignore_err (exec (insert_event now dev module ty sev msg)).

Definition drain_events_limit : nat := 500.

(** The loop that marks each row uploaded and hands out the ones it could mark. *)
Fixpoint mark_uploaded (batch : list event_row) (s : sql) : list StoredEvent * sql :=
  match batch with
  | [] => ([], s)
  | r :: rest =>
      match exec (set_uploaded (er_id r)) s with
      | (Err _, s) => mark_uploaded rest s
      | (Ok _, s) => let '(out, s) := mark_uploaded rest s in (stored_event r :: out, s)
      end
  end.

Definition Buffer_DrainEvents (s : sql) : list StoredEvent * sql :=
  match (batch ← query (λ x, take drain_events_limit (unsent_events x));
         _ ← exec id; (* rows.Scan, rows.Err *)
         mret batch) s with
  | (Ok batch, s) => mark_uploaded batch s
  | (Err _, s) => ([], s)
  end.

#[export] Instance Buffer_Store : Store sql := {
  UpsertDevice := Buffer_UpsertDevice;
  CacheParam := Buffer_CacheParam;
  SaveWritability := Buffer_SaveWritability;
  HasWritabilityMap := Buffer_HasWritabilityMap;
  GetParams := Buffer_GetParams;
  ListDevices := Buffer_ListDevices;
  StoreDeviceIP := Buffer_DeviceIP;
  EmitEvent := Buffer_EmitEvent;
  DrainEvents := Buffer_DrainEvents;
  store_ok := healthy;
  writability_loaded dev s :=
    match cwmp_devices (sdb s) !! dev with
    | Some r => bool_decide (dv_writability_loaded r = 1)
    | None => false
    end;
  cached_param dev p s := r ← cwmp_params (sdb s) !! (dev, p); pr_value r;
  pending_events s := stored_event <$> unsent_events (sdb s) }.

(** ** The buffer keeps the interface's promises *)

Lemma ignore_exec_sdb f s : sdb (ignore_err (exec f) s) = f (sdb s) ∨ sdb (ignore_err (exec f) s) = sdb s.
Proof.
  unfold ignore_err. destruct (exec f s) as [r s'] eqn:H. apply exec_sdb in H. simpl.
  destruct r; auto.
Qed.

Lemma ignore_exec_healthy f s :
  healthy s → sdb (ignore_err (exec f) s) = f (sdb s) ∧ healthy (ignore_err (exec f) s).
Proof.
  intros Hs. unfold ignore_err. destruct (runs_exec f s Hs) as (a & s' & H & Hs'). rewrite H.
  apply exec_sdb in H. done.
Qed.

Lemma unsent_app x l : filter (λ r, er_uploaded r = 0) (cwmp_events x ++ l) =
  unsent_events x ++ filter (λ r, er_uploaded r = 0) l.
Proof. apply filter_app. Qed.

#[export] Instance Buffer_StoreLaws : StoreLaws sql.
Proof.
  split; simpl.
  - intros d dev s Hl. unfold Buffer_UpsertDevice.
    destruct (ignore_exec_sdb (upsert_device d) s) as [->| ->]; [|done]. simpl.
    destruct (decide (d_DeviceID d = dev)) as [<-|Hne].
    + rewrite lookup_insert_eq. by destruct (cwmp_devices (sdb s) !! d_DeviceID d).
    + by rewrite lookup_insert_ne.
  - intros now d p v dev s. unfold Buffer_CacheParam.
    by destruct (ignore_exec_sdb (cache_param now d p v) s) as [->| ->].
  - intros now d m ty sev msg dev s. unfold Buffer_EmitEvent.
    by destruct (ignore_exec_sdb (insert_event now d m ty sev msg) s) as [->| ->].
  - intros now d p v d' p' s Hne. unfold Buffer_CacheParam.
    destruct (ignore_exec_sdb (cache_param now d p v) s) as [->| ->]; [|done].
    simpl. by rewrite lookup_insert_ne.
  - intros dev s Hs. unfold Buffer_HasWritabilityMap.
    destruct (runs_query (λ x, cwmp_devices x !! dev) s Hs) as (a & s' & H & _). rewrite H.
    apply query_sdb in H as [_ H]. rewrite (H a eq_refl).
    by destruct (cwmp_devices (sdb s) !! dev).
  - intros now d p v s Hs. unfold Buffer_CacheParam.
    destruct (ignore_exec_healthy (cache_param now d p v) s Hs) as [-> _].
    simpl. by rewrite lookup_insert_eq.
  - intros now d m ty sev msg s Hs. unfold Buffer_EmitEvent, unsent_events.
    destruct (ignore_exec_healthy (insert_event now d m ty sev msg) s Hs) as [-> _].
    simpl. by rewrite unsent_app, fmap_app.
  - intros d s Hs. by apply ignore_exec_healthy.
  - intros now d p v s Hs. by apply ignore_exec_healthy.
  - intros now d m ty sev msg s Hs. by apply ignore_exec_healthy.
  - intros d dev p s. unfold Buffer_UpsertDevice.
    by destruct (ignore_exec_sdb (upsert_device d) s) as [->| ->].
Qed.

(** ** Draining events loses and duplicates nothing *)

(** Event ids are distinct and stay below the AUTOINCREMENT counter. *)
Definition events_wf (x : db) : Prop :=
  NoDup (er_id <$> cwmp_events x) ∧ Forall (λ r, er_id r ≤ cwmp_events_seq x) (cwmp_events x).

Lemma insert_event_wf now dev m ty sev msg x :
  events_wf x → events_wf (insert_event now dev m ty sev msg x).
Proof.
  intros [Hnd Hle]. split; simpl.
  - rewrite fmap_app. apply NoDup_app. split_and!; [done| |apply NoDup_singleton].
    intros id Hin [= ->]%list_elem_of_singleton.
    apply list_elem_of_fmap in Hin as (r & Hr & Hin).
    rewrite Forall_forall in Hle. specialize (Hle r Hin). lia.
  - apply Forall_app. split; [|by constructor].
    eapply Forall_impl; [done|]. intros r; simpl; lia.
Qed.

Lemma set_uploaded_ids id x : er_id <$> cwmp_events (set_uploaded id x) = er_id <$> cwmp_events x.
Proof.
  simpl. rewrite <- list_fmap_compose. apply list_fmap_ext. intros i r _.
  unfold compose, mark_row. by case_decide.
Qed.

Lemma set_uploaded_wf id x : events_wf x → events_wf (set_uploaded id x).
Proof.
  intros [Hnd Hle]. split; [by rewrite set_uploaded_ids|]. simpl.
  apply Forall_fmap. eapply Forall_impl; [done|]. intros r. unfold mark_row. simpl. by case_decide.
Qed.

Lemma mark_row_absent id (l : list event_row) : id ∉ er_id <$> l → mark_row id <$> l = l.
Proof.
  induction l as [|r l IH]; [done|]. rewrite !fmap_cons. intros Hid.
  apply not_elem_of_cons in Hid as [Hne Hid]. rewrite IH by done.
  unfold mark_row. by rewrite decide_False.
Qed.

(** Marking one unsent event takes exactly that event off the unsent ones. *)
Lemma unsent_set_uploaded r x :
  events_wf x → r ∈ unsent_events x →
  ∃ l1 l2, unsent_events x = l1 ++ r :: l2 ∧ unsent_events (set_uploaded (er_id r) x) = l1 ++ l2.
Proof.
  intros [Hnd _] [Hup Hin]%list_elem_of_filter.
  apply list_elem_of_split in Hin as (k1 & k2 & Hk). unfold unsent_events, set_uploaded. simpl.
  rewrite Hk in Hnd |- *. rewrite fmap_app, fmap_cons in Hnd.
  apply NoDup_app in Hnd as (_ & Hd1 & [Hd2 _]%NoDup_cons).
  rewrite fmap_app, fmap_cons, (mark_row_absent _ k2) by done.
  rewrite mark_row_absent by (intros H; apply (Hd1 _ H); by left).
  unfold mark_row. rewrite decide_True by done.
  rewrite !filter_app, filter_cons_True, filter_cons_False by done.
  by eexists _, _.
Qed.

Lemma unsent_NoDup x : events_wf x → NoDup (er_id <$> unsent_events x).
Proof.
  intros [Hnd _]. eapply sublist_NoDup; [exact Hnd|]. apply fmap_sublist, sublist_filter.
Qed.

Lemma mark_uploaded_spec batch s out s' :
  events_wf (sdb s) → batch ⊆ unsent_events (sdb s) → NoDup (er_id <$> batch) →
  mark_uploaded batch s = (out, s') →
  stored_event <$> unsent_events (sdb s) ≡ₚ out ++ (stored_event <$> unsent_events (sdb s')) ∧
  out `sublist_of` stored_event <$> batch ∧ events_wf (sdb s').
Proof.
  revert s out s'. induction batch as [|r batch IH]; intros s out s' Hwf Hsub Hnd Hrun; simpl in Hrun.
  { simplify_eq. done. }
  apply NoDup_cons in Hnd as [Hr Hnd].
  destruct (exec (set_uploaded (er_id r)) s) as [res s1] eqn:He. apply exec_sdb in He.
  destruct res as [[]|e].
  - destruct (mark_uploaded batch s1) as [out1 s2] eqn:Hrest. simplify_eq.
    destruct (unsent_set_uploaded r (sdb s)) as (l1 & l2 & Hl & Hl'); [done|set_solver|].
    destruct (IH s1 out1 s') as (Hp & Hs & Hwf'); [by rewrite He; apply set_uploaded_wf| |done|done|].
    + intros r' Hr'. rewrite He, Hl'. specialize (Hsub r' (list_elem_of_further _ _ _ Hr')).
      rewrite Hl in Hsub. apply elem_of_app in Hsub as [?|[->|?]%elem_of_cons]; [set_solver| |set_solver].
      destruct Hr. by apply list_elem_of_fmap_2.
    + split_and!; [|by apply sublist_skip|done].
      rewrite He, Hl', fmap_app in Hp. rewrite Hl, fmap_app, fmap_cons.
      rewrite <- Permutation_middle. simpl. by rewrite Hp.
  - simplify_eq. destruct (IH s1 out s') as (Hp & Hs & Hwf'); try done.
    + rewrite He. done.
    + rewrite He. set_solver.
    + rewrite He in Hp. split_and!; [done | by apply sublist_cons | done].
Qed.

Lemma DrainEvents_spec s out s' :
  events_wf (sdb s) → Buffer_DrainEvents s = (out, s') →
  stored_event <$> unsent_events (sdb s) ≡ₚ out ++ (stored_event <$> unsent_events (sdb s')) ∧
  out `sublist_of` take drain_events_limit (stored_event <$> unsent_events (sdb s)) ∧
  events_wf (sdb s').
Proof.
  intros Hwf Hrun. unfold Buffer_DrainEvents in Hrun. rewrite SE_bind_unfold in Hrun.
  destruct (query _ s) as [r s1] eqn:Hq. apply query_sdb in Hq as [Hs1 Hb].
  assert (Hnil : ∀ s2, sdb s2 = sdb s →
    stored_event <$> unsent_events (sdb s) ≡ₚ [] ++ (stored_event <$> unsent_events (sdb s2)) ∧
    [] `sublist_of` take drain_events_limit (stored_event <$> unsent_events (sdb s)) ∧
    events_wf (sdb s2)).
  { intros s2 ->. split_and!; [done|apply sublist_nil_l|done]. }
  destruct r as [batch|e]; [|simplify_eq; by apply Hnil].
  specialize (Hb batch eq_refl). subst batch.
  rewrite SE_bind_unfold in Hrun. destruct (exec id s1) as [r2 s2] eqn:He. apply exec_sdb in He.
  assert (Hs2 : sdb s2 = sdb s) by (by destruct r2; rewrite He, <- Hs1).
  destruct r2 as [[]|e]; [|simplify_eq; by apply Hnil].
  rewrite SE_ret_unfold in Hrun. rewrite <- fmap_take.
  eapply mark_uploaded_spec in Hrun.
  - by rewrite Hs2 in Hrun.
  - by rewrite Hs2.
  - rewrite Hs2. apply subseteq_take.
  - rewrite fmap_take. eapply sublist_NoDup; [apply unsent_NoDup, Hwf | apply sublist_take].
Qed.

(** ** Saving a writability map is all or nothing *)

Definition save_writability_db (now : Z) (dev : string) (names : list ParameterInfoStruct)
    (x : db) : db :=
  set_loaded dev (foldl (flip (save_writable now dev)) x names).

Lemma SaveWritability_cases now dev names s :
  sdb (Buffer_SaveWritability now dev names s) = save_writability_db now dev names (sdb s) ∨
  sdb (Buffer_SaveWritability now dev names s) = sdb s.
Proof.
  assert (Ht : triple (at_db (sdb s))
    (in_tx (_ ← for_each names (λ n, exec (save_writable now dev n)); exec (set_loaded dev)))
    (λ _ s', sdb s' = save_writability_db now dev names (sdb s)) (λ _ s', at_db (sdb s) s')).
  { apply (triple_in_tx _ _ (λ _ x, x = save_writability_db now dev names (sdb s))).
    eapply triple_bind.
    - eapply triple_weaken; [apply (triple_for_each _ (save_writable now dev)) | done | done | done].
      intros x d. by apply triple_exec.
    - intros []. by apply triple_exec. }
  specialize (Ht s eq_refl). unfold Buffer_SaveWritability, ignore_err.
  destruct (in_tx _ s) as [[[]|e] s']; [by left | by right].
Qed.

(** The writable bit the last entry of a name list gives to a path. *)
Definition last_writable (p : string) (names : list ParameterInfoStruct) : option Z :=
  foldl (λ o n, if decide (pi_Name n = p) then Some (boolToInt (pi_Writable n)) else o) None names.

Lemma save_writable_fold now dev names x p :
  pr_value <$> cwmp_params (foldl (flip (save_writable now dev)) x names) !! (dev, p) =
    match cwmp_params x !! (dev, p), last_writable p names with
    | None, None => None
    | None, Some _ => Some None
    | Some r, _ => Some (pr_value r)
    end ∧
  (cwmp_params (foldl (flip (save_writable now dev)) x names) !! (dev, p) ≫= pr_writable) =
    match last_writable p names with
    | Some w => Some w
    | None => cwmp_params x !! (dev, p) ≫= pr_writable
    end ∧
  cwmp_devices (foldl (flip (save_writable now dev)) x names) = cwmp_devices x.
Proof.
  induction names as [|n names (IHv & IHw & IHd)] using rev_ind.
  { unfold last_writable. simpl. by destruct (cwmp_params x !! (dev, p)). }
  unfold last_writable in *. rewrite !foldl_snoc. simpl.
  destruct (decide (pi_Name n = p)) as [->|Hne]; [|rewrite !lookup_insert_ne by congruence; by split_and!].
  rewrite lookup_insert_eq. split_and!; [| |done].
  - destruct (cwmp_params (foldl _ _ _) !! (dev, p)) as [r|]; simpl in *.
    + rewrite IHv. destruct (cwmp_params x !! (dev, p)); [done|]. by destruct (foldl _ None names).
    + destruct (cwmp_params x !! (dev, p)); done.
  - by destruct (cwmp_params (foldl _ _ _) !! (dev, p)).
Qed.

(** ** Properties *)

(** C23: Draining device events neither loses nor duplicates one, whatever
    statements fail: the events pending before are those handed out together
    with those still pending, and at most the 500 oldest are handed out, in
    order. *)
Theorem drain_events_conserves s out s' :
  events_wf (sdb s) → DrainEvents s = (out, s') →
  pending_events s ≡ₚ out ++ pending_events s' ∧
  out `sublist_of` take drain_events_limit (pending_events s) ∧
  events_wf (sdb s').
Proof. apply DrainEvents_spec. Qed.

(** Saving a writability map is all or nothing: either every named
    parameter has its last writable bit, no cached value changes and the device
    counts as learned, or the tables are as they were. *)
Theorem save_writability_atomic now dev names s :
  let s' := SaveWritability now dev names s in
  (sdb s' = sdb s) ∨
  (∀ p, (cwmp_params (sdb s') !! (dev, p) ≫= pr_writable) =
          match last_writable p names with
          | Some w => Some w
          | None => cwmp_params (sdb s) !! (dev, p) ≫= pr_writable
          end ∧ cached_param dev p s' = cached_param dev p s) ∧
  (is_Some (cwmp_devices (sdb s) !! dev) → writability_loaded dev s' = true).
Proof.
  cbv zeta. change (SaveWritability now dev names s) with (Buffer_SaveWritability now dev names s).
  destruct (SaveWritability_cases now dev names s) as [Hs|Hs]; [right|by left].
  split.
  - intros p. destruct (save_writable_fold now dev names (sdb s) p) as (Hv & Hw & _).
    split; [by rewrite Hs|]. simpl. rewrite Hs. unfold save_writability_db. simpl.
    destruct (cwmp_params (foldl _ (sdb s) names) !! (dev, p)) as [r|], (cwmp_params (sdb s) !! (dev, p)) as [r0|];
      simpl in *; destruct (last_writable p names); congruence.
  - intros [r Hr]. simpl. rewrite Hs. unfold save_writability_db. simpl.
    rewrite lookup_alter_eq.
    destruct (save_writable_fold now dev names (sdb s) "") as (_ & _ & ->). by rewrite Hr.
Qed.

(** ** Witnesses *)

Definition ex_events_sql : sql :=
  Buffer_EmitEvent 5 "dev" "TR69" "boot" "info" "m2"
    (Buffer_EmitEvent 4 "dev" "TR69" "boot" "info" "m1" (Sql empty_db [None; None; None; None; Some (ErrDB "busy")] 0 0 0)).

Lemma drain_events_conserves_witness :
  (DrainEvents ex_events_sql).1 = [mkStoredEvent "dev" "TR69" "boot" "info" "m2" 5] ∧
  length (pending_events (DrainEvents ex_events_sql).2) = 1%nat.
Proof.
  destruct (DrainEvents ex_events_sql) as [out s'] eqn:H.
  destruct (drain_events_conserves ex_events_sql out s') as (Hp & _); [|exact H|].
  - split; [apply (bool_decide_unpack (NoDup _)); vm_compute; exact I|]. by repeat constructor.
  - assert (Ho : out = (DrainEvents ex_events_sql).1) by (by rewrite H). vm_compute in Ho. subst out.
    split; [reflexivity|]. apply Permutation_length in Hp. rewrite length_app in Hp. simpl in *.
    change (length (pending_events ex_events_sql)) with 2%nat in Hp. simpl in Hp. injection Hp as <-. reflexivity.
Defined.
