(* ===== verification/Session.v ===== *)
(** * The per-device CWMP session (goagent/internal/cwmp/session.go)

    A [Session] is the ACS side of one device's conversation: a bounded queue of
    tasks for the device, the task in flight, and the channels on which results
    go back to the callers that wait for them.  The store it writes to is any
    implementation of the [Store] interface. *)
From S2P Require Import Prelude GoStrings DeviceId Db CwmpTypes CwmpStore.

(** ** State

    [taskQueue] and [results] are Go channels of capacity 256: lists with a
    bound.  A waiter's private channel (capacity one) is a cell of [chans], and
    [waiters] maps a CommandID to the index of the channel registered for it, so
    that two registrations under one id are two channels.  [slog] collects the
    lines written with [log.Printf]. *)
Record Session := mkSession {
  s_IP : string;
  s_DeviceID : string;
  s_MsgID : string;
  taskQueue : list Task;
  results : list TaskResult;
  waiters : gmap string nat;
  chans : list (option TaskResult);
  inflight : option Task;
  firstContactGPV : list string;
  slog : list string }.

Definition chan_cap : nat := 256.

Definition set_IP v s := mkSession v (s_DeviceID s) (s_MsgID s) (taskQueue s) (results s)
  (waiters s) (chans s) (inflight s) (firstContactGPV s) (slog s).
Definition set_DeviceID v s := mkSession (s_IP s) v (s_MsgID s) (taskQueue s) (results s)
  (waiters s) (chans s) (inflight s) (firstContactGPV s) (slog s).
Definition set_MsgID v s := mkSession (s_IP s) (s_DeviceID s) v (taskQueue s) (results s)
  (waiters s) (chans s) (inflight s) (firstContactGPV s) (slog s).
Definition set_taskQueue v s := mkSession (s_IP s) (s_DeviceID s) (s_MsgID s) v (results s)
  (waiters s) (chans s) (inflight s) (firstContactGPV s) (slog s).
Definition set_results v s := mkSession (s_IP s) (s_DeviceID s) (s_MsgID s) (taskQueue s) v
  (waiters s) (chans s) (inflight s) (firstContactGPV s) (slog s).
Definition set_waiters v s := mkSession (s_IP s) (s_DeviceID s) (s_MsgID s) (taskQueue s)
  (results s) v (chans s) (inflight s) (firstContactGPV s) (slog s).
Definition set_chans v s := mkSession (s_IP s) (s_DeviceID s) (s_MsgID s) (taskQueue s)
  (results s) (waiters s) v (inflight s) (firstContactGPV s) (slog s).
Definition set_inflight v s := mkSession (s_IP s) (s_DeviceID s) (s_MsgID s) (taskQueue s)
  (results s) (waiters s) (chans s) v (firstContactGPV s) (slog s).
Definition set_slog v s := mkSession (s_IP s) (s_DeviceID s) (s_MsgID s) (taskQueue s)
  (results s) (waiters s) (chans s) (inflight s) (firstContactGPV s) v.

(** ** Log lines *)

Definition TaskType_string (t : TaskType) : string :=
  match t with
  | TaskGPV => "gpv" | TaskSPV => "spv" | TaskGPN => "gpn" | TaskReboot => "reboot"
  | TaskOther s => s
  end.

(** [%v] of a [[]string]. *)
Definition fmt_strings (l : list string) : string := "[" +:+ Join l " " +:+ "]".

(** [log.Printf("[CWMP][%s] ...", s.DeviceID, ...)]. *)
Definition logf (msg : string) (s : Session) : Session :=
  set_slog (slog s ++ ["[CWMP][" +:+ s_DeviceID s +:+ "] " +:+ msg]) s.

(** A parameter path that carries a credential. *)
Definition isSecretParam (name : string) : bool :=
  let n := ToLower name in
  Contains n "password" || Contains n "passphrase" || Contains n "presharedkey" ||
  Contains n "wepkey" || Contains n "secret".

Definition formatWrite (w : ParameterValueStruct) : string :=
  let v := if isSecretParam (pv_Name w) then "<redacted>" else v_Text (pv_Value w) in
  pv_Name w +:+ "=" +:+ v.

Definition formatWrites (writes : list ParameterValueStruct) : string :=
  Join (formatWrite <$> writes) ", ".

Definition eventCodes (ev : list EventStruct) : list string := es_EventCode <$> ev.

Fixpoint swVersion (params : list ParameterValueStruct) : string :=
  match params with
  | [] => ""
  | pv :: rest =>
      if decide (pv_Name pv = "Device.DeviceInfo.SoftwareVersion") then v_Text (pv_Value pv)
      else swVersion rest
  end.

(** ** Queue operations *)

(** A non-blocking send: a full queue drops the task. *)
Definition enqueue (t : Task) (s : Session) : Session :=
  if decide (length (taskQueue s) < chan_cap)
  then set_taskQueue (taskQueue s ++ [t]) s
  else logf ("task queue full; dropping " +:+ TaskType_string (t_Type t) +:+ " task") s.

(** [nextTask]: pop one task and turn it into the request for the device. *)
Definition nextTask (s : Session) : option Response * Session :=
  match taskQueue s with
  | [] => (None, s)
  | t :: rest =>
      let s := set_inflight (Some t) (set_taskQueue rest s) in
      match t_Type t with
      | TaskGPV =>
          let hint := if HasSuffix (t_CommandID t) ":rb" then " (read-back)" else "" in
          (Some (GetParameterValues (t_Paths t)),
           logf ("-> GPV " +:+ fmt_strings (t_Paths t) +:+ hint) s)
      | TaskSPV =>
          (Some (SetParameterValues (t_Writes t) (t_CmdKey t)),
           logf ("-> SPV " +:+ formatWrites (t_Writes t) +:+ " key=" +:+ t_CmdKey t) s)
      | TaskGPN =>
          let path := match t_Paths t with [] => "Device." | p :: _ => p end in
          (Some (GetParameterNames path false), logf ("-> GPN " +:+ path) s)
      | TaskReboot =>
          (Some (Reboot (t_CmdKey t)), logf ("-> Reboot key=" +:+ t_CmdKey t) s)
      | TaskOther _ => (None, s)
      end
  end.

(** [deliver] looks the waiter up under the lock, and sends without it
    ([send_result]): to the private channel it found if that has room, else to the
    shared one, else the result is dropped. *)
Definition deliver_shared (res : TaskResult) (s : Session) : Session :=
  if decide (length (results s) < chan_cap) then set_results (results s ++ [res]) s else s.

Definition send_result (target : option nat) (res : TaskResult) (s : Session) : Session :=
  match target with
  | Some ch =>
      match chans s !! ch with
      | Some None => set_chans (<[ch := Some res]> (chans s)) s
      | _ => deliver_shared res s
      end
  | None => deliver_shared res s
  end.

(** Both halves at once; [Await] takes them apart. *)
Definition deliver (res : TaskResult) (s : Session) : Session :=
  send_result (waiters s !! tr_CommandID res) res s.

(** [waitFor] allocates the channel; its release function only removes the
    registration. *)
Definition waitFor (commandID : string) (s : Session) : nat * Session :=
  let ch := length (chans s) in
  (ch, set_waiters (<[commandID := ch]> (waiters s)) (set_chans (chans s ++ [None]) s)).

Definition release (commandID : string) (s : Session) : Session :=
  set_waiters (delete commandID (waiters s)) s.

Definition with_CommandID (c : string) (r : TaskResult) : TaskResult :=
  mkResult c (tr_Type r) (tr_Params r) (tr_Names r) (tr_Status r) (tr_Err r).

(** The publishing half of [finishInflight]. *)
Definition publish (res : TaskResult) (s : Session) : Session :=
  match inflight s with
  | Some t =>
      let s := if decide (t_CommandID t ≠ "") then deliver (with_CommandID (t_CommandID t) res) s
               else s in
      set_inflight None s
  | None => s
  end.

Definition finishInflight (res : TaskResult) (s : Session) : option Response * Session :=
  nextTask (publish res s).

(** [requeueOrphanedTask]: what an Inform does with a task that was never
    answered. *)
Definition requeueOrphanedTask (s : Session) : Session :=
  let t := inflight s in
  let s := set_inflight None s in
  match t with
  | None => s
  | Some t =>
      if decide (t_CommandID t = "" ∨ t_Type t = TaskReboot) then s
      else if decide (length (taskQueue s) < chan_cap)
      then logf ("re-queued unanswered " +:+ TaskType_string (t_Type t) +:+ " task key=" +:+ t_CmdKey t)
             (set_taskQueue (taskQueue s ++ [t]) s)
      else logf ("task queue full; dropping unanswered " +:+ TaskType_string (t_Type t) +:+ " task") s
  end.

(** ** Handlers *)

Section Handlers.
Context {S : Type} `{Store S}.

(** The session with the store it shares. *)
Abbreviation st := (Session * S)%type.

Definition task (ty : TaskType) (paths : list string) : Task := mkTask ty paths [] "" "".
Definition empty_result (ty : TaskType) : TaskResult := mkResult "" ty ∅ [] 0 "".

Definition onInform (now : Z) (inf : Inform) (x : st) : option Response * st :=
  let '(s, store) := x in
  let id := inf_DeviceID inf in
  let dev := CanonicalID (di_OUI id) (di_ProductClass id) (di_SerialNumber id) in
  let s := set_DeviceID dev s in
  let store := UpsertDevice (mkDevice dev (s_IP s) (di_Manufacturer id) (di_ProductClass id)
    (di_SerialNumber id) (swVersion (inf_ParameterList inf)) now) store in
  let store := foldl (λ st pv, CacheParam now dev (pv_Name pv) (v_Text (pv_Value pv)) st)
    store (inf_ParameterList inf) in
  let s := logf ("Inform events=" +:+ fmt_strings (eventCodes (inf_Event inf))) s in
  let '(has, store) := HasWritabilityMap dev store in
  let s := if has then s
           else
             let s := enqueue (task TaskGPN ["Device."]) s in
             match firstContactGPV s with
             | [] => s
             | paths => enqueue (task TaskGPV paths) s
             end in
  (Some (InformResponse 1), (s, store)).

Definition onGetRPCMethods (x : st) : option Response * st :=
  (Some (GetRPCMethodsResponse
    ["GetRPCMethods"; "Inform"; "TransferComplete"; "AutonomousTransferComplete"]), x).

Definition onATC (now : Z) (atc : AutonomousTransferComplete) (x : st) : option Response * st :=
  let '(s, store) := x in
  let size := pretty (atc_FileSize atc) in
  let code := fs_FaultCode (atc_FaultStruct atc) in
  let s := logf ("ATC file=" +:+ atc_TargetFileName atc +:+ " size=" +:+ size +:+
                 " fault=" +:+ pretty code) s in
  let severity := if decide (code ≠ 0%Z) then "major" else "info" in
  let store := EmitEvent now (s_DeviceID s) "TR69" "autonomous_transfer_complete" severity
    ("ATC " +:+ atc_TargetFileName atc +:+ " (" +:+ size +:+ "B) fault=" +:+ pretty code) store in
  (Some AutonomousTransferCompleteResponse, (s, store)).

Definition onGPV (now : Z) (l : list ParameterValueStruct) (x : st) : option Response * st :=
  let '(s, store) := x in
  let '(params, store) := foldl
    (λ a pv, (<[pv_Name pv := v_Text (pv_Value pv)]> a.1,
              CacheParam now (s_DeviceID s) (pv_Name pv) (v_Text (pv_Value pv)) a.2))
    (∅, store) l in
  let s := logf ("<- GPV " +:+ pretty (Z.of_nat (length l)) +:+ " param(s)") s in
  let '(resp, s) := finishInflight (mkResult "" TaskGPV params [] 0 "") s in
  (resp, (s, store)).

Definition onSPV (status : Z) (x : st) : option Response * st :=
  let '(s, store) := x in
  let label := if decide (status = 1%Z) then "applied-after-reboot" else "applied" in
  let s := logf ("<- SPV status=" +:+ pretty status +:+ " (" +:+ label +:+ ")") s in
  let '(resp, s) := finishInflight (mkResult "" TaskSPV ∅ [] status "") s in
  (resp, (s, store)).

Definition onGPN (now : Z) (l : list ParameterInfoStruct) (x : st) : option Response * st :=
  let '(s, store) := x in
  let store := SaveWritability now (s_DeviceID s) l store in
  let s := logf ("<- GPN " +:+ pretty (Z.of_nat (length l)) +:+ " name(s)") s in
  let '(resp, s) := finishInflight (mkResult "" TaskGPN ∅ l 0 "") s in
  (resp, (s, store)).

Definition onFault (f : Fault) (x : st) : option Response * st :=
  let '(s, store) := x in
  let s := logf ("CPE Fault " +:+ cf_FaultCode (f_Detail f) +:+ ": " +:+ cf_FaultString (f_Detail f)) s in
  match inflight s with
  | Some t =>
      let '(resp, s) := finishInflight
        (mkResult "" (t_Type t) ∅ [] 0 (cf_FaultString (f_Detail f))) s in
      (resp, (s, store))
  | None => (None, (s, store))
  end.

(** [Handle]: the members of the body in the order the switch tests them. *)
Definition Handle (now : Z) (env : Envelope) (x : st) : option Response * st :=
  let '(s, store) := x in
  let s := set_MsgID (e_ID env) s in
  let b := e_Body env in
  match b_Inform b with
  | Some inf => onInform now inf (requeueOrphanedTask s, store)
  | None =>
  match b_GetRPCMethods b with
  | Some _ => onGetRPCMethods (s, store)
  | None =>
  match b_AutonomousTransferComplete b with
  | Some atc => onATC now atc (s, store)
  | None =>
  match b_TransferComplete b with
  | Some _ => (Some TransferCompleteResponse, (s, store))
  | None =>
  match b_GetParameterValuesResponse b with
  | Some l => onGPV now l (s, store)
  | None =>
  match b_SetParameterValuesResponse b with
  | Some status => onSPV status (s, store)
  | None =>
  match b_GetParameterNamesResponse b with
  | Some l => onGPN now l (s, store)
  | None =>
  match b_RebootResponse b with
  | Some _ =>
      let '(resp, s) := finishInflight (empty_result TaskReboot) (logf "<- Reboot ack" s) in
      (resp, (s, store))
  | None =>
  match b_Fault b with
  | Some f => onFault f (s, store)
  | None => let '(resp, s) := nextTask s in (resp, (s, store))
  end end end end end end end end end.

(** One HTTP request of the device, as [ServeHTTP] dispatches it: an empty POST
    is the device's "your turn". *)
Definition request (now : Z) (env : option Envelope) (x : st) : option Response * st :=
  match env with
  | None => let '(resp, s) := nextTask x.1 in (resp, (s, x.2))
  | Some env => Handle now env x
  end.
End Handlers.

(** ** The queue automaton

    What a request means for the tasks alone: the abstract state is the queue
    and the task in flight, the abstract input says which of five kinds of
    message arrived. *)
Inductive kind : Type :=
| KInform (learn : list Task) (* the tasks first contact adds *)
| KOwnRPC (* the CPE's own RPC turn *)
| KAnswer (* a response to the task in flight *)
| KFault
| KReady. (* empty POST or unmodelled message *)

Definition put (t : Task) (q : list Task) : list Task :=
  if decide (length q < chan_cap) then q ++ [t] else q.

Definition orphan (o : option Task) : list Task :=
  match o with
  | Some t => if decide (t_CommandID t = "" ∨ t_Type t = TaskReboot) then [] else [t]
  | None => []
  end.

(** Pop, or stay idle; [idle] is what is in flight when the queue is empty. *)
Definition pop (idle : option Task) (q : list Task) : list Task * option Task :=
  match q with
  | [] => ([], idle)
  | t :: rest => (rest, Some t)
  end.

Definition spec_step (k : kind) (x : list Task * option Task) : list Task * option Task :=
  let '(q, fl) := x in
  match k with
  | KInform learn => (foldl (flip put) q (orphan fl ++ learn), None)
  | KOwnRPC => (q, fl)
  | KAnswer => pop None q
  | KFault => if fl is Some _ then pop None q else (q, None)
  | KReady => pop fl q
  end.

(** The request a task turns into. *)
Definition request_of (t : Task) : option Response :=
  match t_Type t with
  | TaskGPV => Some (GetParameterValues (t_Paths t))
  | TaskSPV => Some (SetParameterValues (t_Writes t) (t_CmdKey t))
  | TaskGPN => Some (GetParameterNames (default "Device." (head (t_Paths t))) false)
  | TaskReboot => Some (Reboot (t_CmdKey t))
  | TaskOther _ => None
  end.

Definition queues (s : Session) : list Task * option Task := (taskQueue s, inflight s).

(** ** Lemmas on the operations *)

Lemma enqueue_queues t s : queues (enqueue t s) = (put t (taskQueue s), inflight s).
Proof. unfold enqueue, put. by case_decide. Qed.

Lemma deliver_queues r s : queues (deliver r s) = queues s.
Proof.
  unfold deliver, send_result, deliver_shared.
  destruct (waiters s !! tr_CommandID r) as [ch|]; [destruct (chans s !! ch) as [[]|]|]; simpl;
    try case_decide; done.
Qed.

Lemma publish_queues r s : queues (publish r s) = (taskQueue s, None).
Proof.
  unfold publish. destruct (inflight s) as [t|] eqn:Hfl; [|by unfold queues; rewrite Hfl].
  unfold queues. simpl. case_decide; [|done].
  pose proof (deliver_queues (with_CommandID (t_CommandID t) r) s) as [= -> _]. done.
Qed.

Lemma requeue_queues s :
  queues (requeueOrphanedTask s) = (foldl (flip put) (taskQueue s) (orphan (inflight s)), None).
Proof.
  unfold requeueOrphanedTask, orphan. destruct (inflight s) as [t|]; [|done].
  case_decide; [done|]. simpl. unfold put. by case_decide.
Qed.

Lemma nextTask_queues s : queues (nextTask s).2 = pop (inflight s) (taskQueue s).
Proof.
  unfold nextTask. destruct (taskQueue s) as [|t rest] eqn:Hq.
  - unfold queues. simpl. by rewrite Hq.
  - by destruct (t_Type t).
Qed.

Lemma nextTask_resp s : (nextTask s).1 = head (taskQueue s) ≫= request_of.
Proof.
  unfold nextTask, request_of. destruct (taskQueue s) as [|t rest]; [done|]. simpl.
  destruct (t_Type t); try done. by destruct (t_Paths t).
Qed.

Lemma finishInflight_queues r s : queues (finishInflight r s).2 = pop None (taskQueue s).
Proof.
  unfold finishInflight. rewrite nextTask_queues.
  pose proof (publish_queues r s) as [= -> ->]. done.
Qed.

Lemma finishInflight_resp r s : (finishInflight r s).1 = head (taskQueue s) ≫= request_of.
Proof.
  unfold finishInflight. rewrite nextTask_resp.
  pose proof (publish_queues r s) as [= -> _]. done.
Qed.

Lemma logf_queues m s : queues (logf m s) = queues s.
Proof. done. Qed.

Section RequestLemmas.
Context {S : Type} `{Store S}.

(** The kind of a request, in the switch's order. *)
Definition first_contact (fc : list string) : list Task :=
  task TaskGPN ["Device."] :: match fc with [] => [] | _ => [task TaskGPV fc] end.

(** Whether the Inform finds the writability map of the device. *)
Definition inform_store (now : Z) (ip : string) (inf : Inform) (store : S) : S :=
  let id := inf_DeviceID inf in
  let dev := CanonicalID (di_OUI id) (di_ProductClass id) (di_SerialNumber id) in
  foldl (λ st pv, CacheParam now dev (pv_Name pv) (v_Text (pv_Value pv)) st)
    (UpsertDevice (mkDevice dev ip (di_Manufacturer id) (di_ProductClass id)
       (di_SerialNumber id) (swVersion (inf_ParameterList inf)) now) store)
    (inf_ParameterList inf).

Definition inform_id (inf : Inform) : string :=
  let id := inf_DeviceID inf in
  CanonicalID (di_OUI id) (di_ProductClass id) (di_SerialNumber id).

Definition kind_of (now : Z) (env : option Envelope) (s : Session) (store : S) : kind :=
  match env with
  | None => KReady
  | Some env =>
      let b := e_Body env in
      match b_Inform b with
      | Some inf =>
          KInform (if (HasWritabilityMap (inform_id inf) (inform_store now (s_IP s) inf store)).1
                   then [] else first_contact (firstContactGPV s))
      | None =>
      if b_GetRPCMethods b is Some _ then KOwnRPC
      else if b_AutonomousTransferComplete b is Some _ then KOwnRPC
      else if b_TransferComplete b is Some _ then KOwnRPC
      else if b_GetParameterValuesResponse b is Some _ then KAnswer
      else if b_SetParameterValuesResponse b is Some _ then KAnswer
      else if b_GetParameterNamesResponse b is Some _ then KAnswer
      else if b_RebootResponse b is Some _ then KAnswer
      else if b_Fault b is Some _ then KFault else KReady
      end
  end.

Lemma onInform_queues now inf s store :
  queues (onInform now inf (s, store)).2.1 =
  (foldl (flip put) (taskQueue s)
     (if (HasWritabilityMap (inform_id inf) (inform_store now (s_IP s) inf store)).1
      then [] else first_contact (firstContactGPV s)), inflight s) ∧
  (onInform now inf (s, store)).1 = Some (InformResponse 1).
Proof.
  unfold onInform. fold (inform_id inf). cbv zeta.
  change (foldl _ _ (inf_ParameterList inf)) with (inform_store now (s_IP s) inf store).
  destruct (HasWritabilityMap (inform_id inf) (inform_store now (s_IP s) inf store)) as [has store'].
  split; [|done]. destruct has; simpl; [done|].
  set (s1 := logf _ _).
  assert (Hfc : firstContactGPV (enqueue (task TaskGPN ["Device."]) s1) = firstContactGPV s).
  { unfold enqueue. by case_decide. }
  rewrite Hfc. unfold first_contact.
  pose proof (enqueue_queues (task TaskGPN ["Device."]) s1) as Hq.
  destruct (firstContactGPV s) as [|p fc]; [exact Hq|].
  rewrite enqueue_queues. injection Hq as -> ->. done.
Qed.

Lemma foldl_GPV_fst now dev l (params : gmap string string) (store : S) :
  (foldl (λ (a : gmap string string * S) pv, (<[pv_Name pv := v_Text (pv_Value pv)]> a.1,
              CacheParam now dev (pv_Name pv) (v_Text (pv_Value pv)) a.2)) (params, store) l).1 =
  foldl (λ (m : gmap string string) pv, <[pv_Name pv := v_Text (pv_Value pv)]> m) params l.
Proof. revert params store. induction l as [|pv l IH]; intros; [done|]. simpl. apply IH. Qed.

#[local] Arguments onInform : simpl never.

(** Every request refines the queue automaton, and what the device is sent is
    the popped task, or a fixed acknowledgement. *)
Lemma request_refines now env s store :
  let '(resp, (s', _)) := request now env (s, store) in
  queues s' = spec_step (kind_of now env s store) (queues s) ∧
  (match kind_of now env s store with
   | KAnswer | KReady => resp = head (taskQueue s) ≫= request_of
   | KFault => resp = if inflight s is Some _ then head (taskQueue s) ≫= request_of else None
   | KInform _ => resp = Some (InformResponse 1)
   | KOwnRPC => ∃ r, resp = Some r ∧ r ∈ [TransferCompleteResponse; AutonomousTransferCompleteResponse;
       GetRPCMethodsResponse ["GetRPCMethods"; "Inform"; "TransferComplete"; "AutonomousTransferComplete"]]
   end).
Proof.
  assert (Hfin : ∀ r s0, queues s0 = queues s →
    queues (finishInflight r s0).2 = pop None (taskQueue s) ∧
    (finishInflight r s0).1 = head (taskQueue s) ≫= request_of).
  { intros r s0 [= Hq _]. by rewrite finishInflight_queues, finishInflight_resp, Hq. }
  assert (Hnext : ∀ s0, queues s0 = queues s →
    queues (nextTask s0).2 = pop (inflight s) (taskQueue s) ∧
    (nextTask s0).1 = head (taskQueue s) ≫= request_of).
  { intros s0 [= Hq Hfl]. by rewrite nextTask_queues, nextTask_resp, Hq, Hfl. }
  destruct env as [env|]; unfold request, Handle, kind_of; simpl.
  2: { pose proof (Hnext s eq_refl). by destruct (nextTask s). }
  destruct (b_Inform (e_Body env)) as [inf|].
  { pose proof (onInform_queues now inf (requeueOrphanedTask (set_MsgID (e_ID env) s)) store) as [Hq Hr].
    destruct (onInform _ _ _) as [resp [s' store']]. simpl in Hq, Hr. subst resp. split; [|done].
    pose proof (requeue_queues (set_MsgID (e_ID env) s)) as [= Hrq Hrf]. rewrite Hq, Hrq, Hrf.
    assert (s_IP (requeueOrphanedTask (set_MsgID (e_ID env) s)) = s_IP s ∧
            firstContactGPV (requeueOrphanedTask (set_MsgID (e_ID env) s)) = firstContactGPV s) as [-> ->].
    { unfold requeueOrphanedTask. simpl. destruct (inflight s); [|done]. by repeat case_decide. }
    simpl. by rewrite foldl_app. }
  destruct (b_GetRPCMethods (e_Body env)); simpl.
  { split; [done|]. eexists. split; [done|]. set_solver. }
  destruct (b_AutonomousTransferComplete (e_Body env)); simpl.
  { split; [done|]. eexists. split; [done|]. set_solver. }
  destruct (b_TransferComplete (e_Body env)); simpl.
  { split; [done|]. eexists. split; [done|]. set_solver. }
  destruct (b_GetParameterValuesResponse (e_Body env)) as [l|]; simpl.
  { unfold onGPV. destruct (foldl _ _ l) as [params store']. simpl.
    set (s0 := logf _ _). set (r := mkResult _ _ _ _ _ _).
    destruct (Hfin r s0 eq_refl). by destruct (finishInflight r s0). }
  destruct (b_SetParameterValuesResponse (e_Body env)) as [status|]; simpl.
  { set (s0 := logf _ _). set (r := mkResult _ _ _ _ _ _).
    destruct (Hfin r s0 eq_refl). by destruct (finishInflight r s0). }
  destruct (b_GetParameterNamesResponse (e_Body env)) as [l|]; simpl.
  { set (s0 := logf _ _). set (r := mkResult _ _ _ _ _ _).
    destruct (Hfin r s0 eq_refl). by destruct (finishInflight r s0). }
  destruct (b_RebootResponse (e_Body env)); simpl.
  { set (s0 := logf _ _). destruct (Hfin (empty_result TaskReboot) s0 eq_refl).
    by destruct (finishInflight _ s0). }
  destruct (b_Fault (e_Body env)) as [f|]; simpl.
  - destruct (inflight s) as [t|] eqn:Hfl; simpl.
    + set (s0 := logf _ _). set (r := mkResult _ _ _ _ _ _).
      destruct (Hfin r s0 eq_refl). by destruct (finishInflight r s0).
    + unfold queues. simpl. by rewrite Hfl.
  - destruct (Hnext (set_MsgID (e_ID env) s) eq_refl). by destruct (nextTask _).
Qed.
End RequestLemmas.

(** ** Runs of a session

    [step_other] stands for everything else that happens to the session between
    requests (callers registering, receiving and releasing, other devices
    changing the store): it leaves the task queue and the task in flight alone. *)
Inductive label : Type :=
| LEnqueue (t : Task)
| LRequest (resp : option Response)
| LOther.
#[export] Instance label_eq_dec : EqDecision label.
Proof. solve_decision. Defined.

Section Runs.
Context {S : Type} `{Store S}.

Inductive sess_step : Session * S → label → Session * S → Prop :=
| step_enqueue t s store : sess_step (s, store) (LEnqueue t) (enqueue t s, store)
| step_request now env x resp x' :
    request now env x = (resp, x') → sess_step x (LRequest resp) x'
| step_other s s' store store' :
    queues s' = queues s → sess_step (s, store) LOther (s', store').

Inductive sess_run : Session * S → list label → Session * S → Prop :=
| run_nil x : sess_run x [] x
| run_cons x l y tr z : sess_step x l y → sess_run y tr z → sess_run x (l :: tr) z.

(** Counting the reboots with a given command key. *)
Definition is_reboot (k : string) (t : Task) : Prop := t_Type t = TaskReboot ∧ t_CmdKey t = k.
#[local] Instance is_reboot_dec k t : Decision (is_reboot k t) := _.

Definition queued (k : string) (q : list Task) : nat := length (filter (is_reboot k) q).
Definition asked (k : string) (tr : list label) : nat :=
  queued k (omap (λ l, match l with LEnqueue t => Some t | _ => None end) tr).
Definition issued (k : string) (tr : list label) : nat :=
  length (filter (eq (LRequest (Some (Reboot k)))) tr).

Lemma queued_app k q q' : queued k (q ++ q') = queued k q + queued k q'.
Proof. unfold queued. by rewrite filter_app, length_app. Qed.

Lemma queued_put k t q : queued k (put t q) ≤ queued k q + queued k [t].
Proof. unfold put. case_decide; [by rewrite queued_app | lia]. Qed.

Lemma queued_puts k l q : queued k (foldl (flip put) q l) ≤ queued k q + queued k l.
Proof.
  revert q. induction l as [|t l IH]; intros q; simpl; [unfold queued; simpl; lia|].
  pose proof (IH (flip put q t)) as H1. pose proof (queued_put k t q) as H2.
  change (t :: l) with ([t] ++ l). rewrite queued_app. unfold flip in *. lia.
Qed.

Lemma queued_orphan k o : queued k (orphan o) = 0.
Proof.
  unfold orphan. destruct o as [t|]; [|done]. case_decide; [done|]. unfold queued.
  rewrite filter_cons_False; [done|]. intros [? _]. tauto.
Qed.

Lemma queued_first_contact k fc : queued k (first_contact fc) = 0.
Proof.
  unfold first_contact, queued. rewrite filter_cons_False by (by intros []).
  destruct fc; [done|]. rewrite filter_cons_False by (by intros []). done.
Qed.

Lemma pop_reboot k idle q :
  queued k (pop idle q).1 + (if decide (head q ≫= request_of = Some (Reboot k)) then 1 else 0) ≤ queued k q.
Proof.
  destruct q as [|t rest]; [by vm_compute; lia|]. simpl. unfold queued, request_of.
  case_decide as Hr.
  - rewrite filter_cons_True; [simpl; lia|]. unfold is_reboot. destruct (t_Type t); simplify_eq; done.
  - rewrite filter_cons. case_decide; simpl; lia.
Qed.

Lemma sess_step_reboots x l y k :
  sess_step x l y →
  issued k [l] + queued k (taskQueue y.1) ≤ asked k [l] + queued k (taskQueue x.1).
Proof.
  intros Hstep. destruct Hstep as [t s store|now env [s store] resp [s' store'] Hreq|s s' store store' [= Heq _]].
  - unfold issued, asked. rewrite filter_cons_False by done. simpl.
    pose proof (enqueue_queues t s) as [= -> _]. pose proof (queued_put k t (taskQueue s)). lia.
  - pose proof (request_refines now env s store) as Hq. rewrite Hreq in Hq.
    destruct Hq as [Hq Hresp]. simpl. unfold asked. simpl.
    replace (issued k [LRequest resp]) with (if decide (resp = Some (Reboot k)) then 1 else 0).
    2: { unfold issued. rewrite filter_cons. repeat case_decide; simplify_eq; done. }
    replace (taskQueue s') with (spec_step (kind_of now env s store) (queues s)).1 by by rewrite <- Hq.
    destruct (kind_of now env s store) as [learn| | | |] eqn:Hk; simpl in *.
    + subst resp. rewrite decide_False by done.
      pose proof (queued_puts k (orphan (inflight s) ++ learn) (taskQueue s)) as Hp.
      rewrite queued_app, queued_orphan in Hp.
      assert (queued k learn = 0); [|lia].
      unfold kind_of in Hk. destruct env as [env|]; [|done].
      destruct (b_Inform (e_Body env)); [|by repeat case_match].
      injection Hk as <-. case_match; [done | apply queued_first_contact].
    + destruct Hresp as (r & -> & Hr). rewrite decide_False; [lia|]. set_solver.
    + subst resp. pose proof (pop_reboot k None (taskQueue s)). lia.
    + destruct (inflight s) as [t|].
      * subst resp. pose proof (pop_reboot k None (taskQueue s)). lia.
      * subst resp. rewrite decide_False by done. simpl. lia.
    + subst resp. pose proof (pop_reboot k (inflight s) (taskQueue s)). lia.
  - assert (issued k [LOther] = 0) as -> by (unfold issued; by rewrite filter_cons_False).
    assert (asked k [LOther] = 0) as -> by done. simpl. by rewrite Heq.
Qed.

Lemma sess_step_bound x l y :
  sess_step x l y → length (taskQueue x.1) ≤ chan_cap → length (taskQueue y.1) ≤ chan_cap.
Proof.
  assert (Hput : ∀ t q, length q ≤ chan_cap → length (put t q) ≤ chan_cap).
  { intros t q Hq. unfold put. case_decide; [rewrite length_app; simpl; lia | done]. }
  assert (Hputs : ∀ l q, length q ≤ chan_cap → length (foldl (flip put) q l) ≤ chan_cap).
  { intros l0. induction l0 as [|t l0 IH]; intros q Hq; [done|]. apply IH. by apply Hput. }
  assert (Hpop : ∀ idle q, length q ≤ chan_cap → length (pop idle q).1 ≤ chan_cap).
  { intros idle [|t q]; simpl; lia. }
  intros Hstep. destruct Hstep as [t s store|now env [s store] resp [s' store'] Hreq|s s' store store' [= Heq _]];
    simpl; intros Hle.
  - pose proof (enqueue_queues t s) as [= -> _]. by apply Hput.
  - pose proof (request_refines now env s store) as Hq. rewrite Hreq in Hq. destruct Hq as [Hq _].
    replace (taskQueue s') with (spec_step (kind_of now env s store) (queues s)).1 by by rewrite <- Hq.
    destruct (kind_of now env s store); simpl; auto. destruct (inflight s); simpl; auto.
  - by rewrite Heq.
Qed.
End Runs.

(** ** Secrets and the log

    Two writes look alike in the log when they set the same parameter, to the
    same value unless the parameter is a secret; tasks and sessions likewise. *)
Definition write_eqv (w w' : ParameterValueStruct) : Prop :=
  pv_Name w = pv_Name w' ∧ (isSecretParam (pv_Name w) = false → w = w').

Definition task_eqv (t t' : Task) : Prop :=
  t_Type t = t_Type t' ∧ t_Paths t = t_Paths t' ∧ Forall2 write_eqv (t_Writes t) (t_Writes t') ∧
  t_CmdKey t = t_CmdKey t' ∧ t_CommandID t = t_CommandID t'.

Definition sess_eqv (s s' : Session) : Prop :=
  Forall2 task_eqv (taskQueue s) (taskQueue s') ∧
  option_Forall2 task_eqv (inflight s) (inflight s') ∧
  set_taskQueue [] (set_inflight None s) = set_taskQueue [] (set_inflight None s').

#[export] Instance write_eqv_refl : Reflexive write_eqv.
Proof. by intros w. Qed.
#[export] Instance task_eqv_refl : Reflexive task_eqv.
Proof. by intros t. Qed.
#[export] Instance sess_eqv_refl : Reflexive sess_eqv.
Proof. by intros s. Qed.

Lemma formatWrites_eqv ws ws' : Forall2 write_eqv ws ws' → formatWrites ws = formatWrites ws'.
Proof.
  intros Hws. unfold formatWrites. f_equal. induction Hws as [|w w' ws ws' [Hn Hv] _ IH]; [done|].
  rewrite !fmap_cons. f_equal; [|done]. unfold formatWrite. rewrite <- Hn.
  destruct (isSecretParam (pv_Name w)); [done|]. by rewrite (Hv eq_refl).
Qed.

Lemma sess_eqv_fields s s' : sess_eqv s s' →
  s_IP s = s_IP s' ∧ s_DeviceID s = s_DeviceID s' ∧ s_MsgID s = s_MsgID s' ∧ results s = results s' ∧
  waiters s = waiters s' ∧ chans s = chans s' ∧ firstContactGPV s = firstContactGPV s' ∧ slog s = slog s' ∧
  length (taskQueue s) = length (taskQueue s').
Proof.
  intros (Hq & _ & Heq). apply Forall2_length in Hq. destruct s, s'. simpl in *. by simplify_eq.
Qed.

(** Reading one field of two equivalent sessions. *)
Ltac eqv_fields H :=
  let H' := fresh in pose proof (sess_eqv_fields _ _ H) as H';
  destruct H' as (? & ? & ? & ? & ? & ? & ? & ? & ?).

#[export] Instance logf_eqv m : Proper (sess_eqv ==> sess_eqv) (logf m).
Proof.
  intros s s' H. eqv_fields H. destruct H as (Hq & Hf & Heq). split_and!; [done..|].
  destruct s, s'. simpl in *. by simplify_eq.
Qed.

#[export] Instance set_MsgID_eqv v : Proper (sess_eqv ==> sess_eqv) (set_MsgID v).
Proof.
  intros s s' (Hq & Hf & Heq). split_and!; [done..|]. destruct s, s'. simpl in *. by simplify_eq.
Qed.
#[export] Instance set_DeviceID_eqv v : Proper (sess_eqv ==> sess_eqv) (set_DeviceID v).
Proof.
  intros s s' (Hq & Hf & Heq). split_and!; [done..|]. destruct s, s'. simpl in *. by simplify_eq.
Qed.

Lemma set_queues_eqv q q' o o' s s' :
  Forall2 task_eqv q q' → option_Forall2 task_eqv o o' → sess_eqv s s' →
  sess_eqv (set_inflight o (set_taskQueue q s)) (set_inflight o' (set_taskQueue q' s')).
Proof.
  intros Hq Ho (_ & _ & Heq). split_and!; [done..|]. destruct s, s'. simpl in *. by simplify_eq.
Qed.

Lemma set_inflight_id s : set_inflight (inflight s) s = s.
Proof. by destruct s. Qed.
Lemma set_taskQueue_id s : set_taskQueue (taskQueue s) s = s.
Proof. by destruct s. Qed.

Lemma push_eqv t t' s s' : task_eqv t t' → sess_eqv s s' →
  sess_eqv (set_taskQueue (taskQueue s ++ [t]) s) (set_taskQueue (taskQueue s' ++ [t']) s').
Proof.
  intros Ht (Hq & Hf & Heq). split_and!; [|done|destruct s, s'; simpl in *; by simplify_eq].
  apply Forall2_app; [done|]. by constructor.
Qed.

#[export] Instance enqueue_eqv : Proper (task_eqv ==> sess_eqv ==> sess_eqv) enqueue.
Proof.
  intros t t' Ht s s' H. eqv_fields H. pose proof Ht as (Hty & _).
  unfold enqueue. rewrite <- Hty. replace (length (taskQueue s')) with (length (taskQueue s)) by done.
  case_decide; [by apply push_eqv | by apply logf_eqv].
Qed.

#[export] Instance deliver_eqv r : Proper (sess_eqv ==> sess_eqv) (deliver r).
Proof.
  intros s s' (Hq & Hf & Heq). unfold deliver, send_result, deliver_shared. destruct s, s'. simpl in *. simplify_eq.
  repeat case_match; done.
Qed.

Lemma requeue_eqv s s' : sess_eqv s s' → sess_eqv (requeueOrphanedTask s) (requeueOrphanedTask s').
Proof.
  intros H. eqv_fields H. pose proof H as (Hq & Hf & _). unfold requeueOrphanedTask.
  assert (Hs : sess_eqv (set_inflight None s) (set_inflight None s')).
  { rewrite <- (set_taskQueue_id s), <- (set_taskQueue_id s'). apply set_queues_eqv; [done|constructor|done]. }
  destruct Hf as [t t' Ht|]; [|done]. pose proof Ht as (Hty & _ & _ & Hk & Hid).
  rewrite <- Hty, <- Hid, <- Hk. simpl. replace (length (taskQueue s')) with (length (taskQueue s)) by done.
  case_decide; [done|]. case_decide; [|by apply logf_eqv]. apply logf_eqv.
  by apply (push_eqv t t' (set_inflight None s) (set_inflight None s')).
Qed.

Lemma publish_eqv r s s' : sess_eqv s s' → sess_eqv (publish r s) (publish r s').
Proof.
  intros H. pose proof H as (Hq & Hf & _). unfold publish.
  destruct Hf as [t t' Ht|]; [|done]. pose proof Ht as (_ & _ & _ & _ & Hid). rewrite <- Hid.
  assert (Hs : ∀ s s', sess_eqv s s' → sess_eqv (set_inflight None s) (set_inflight None s')).
  { intros u u' Hu. rewrite <- (set_taskQueue_id u), <- (set_taskQueue_id u').
    apply set_queues_eqv; [apply Hu|constructor|done]. }
  apply Hs. case_decide; [by apply deliver_eqv | done].
Qed.

Lemma nextTask_eqv s s' : sess_eqv s s' → sess_eqv (nextTask s).2 (nextTask s').2.
Proof.
  intros H. pose proof H as (Hq & Hf & _). unfold nextTask.
  destruct Hq as [|t t' q q' Ht Hq]; [done|].
  assert (Hs : sess_eqv (set_inflight (Some t) (set_taskQueue q s)) (set_inflight (Some t') (set_taskQueue q' s'))).
  { apply set_queues_eqv; [done|by constructor|done]. }
  destruct Ht as (Hty & Hp & Hw & Hk & Hid). rewrite <- Hty. destruct (t_Type t); cbn [snd];
    rewrite <- ?Hp, <- ?Hk, <- ?Hid, <- ?(formatWrites_eqv _ _ Hw); try (by apply logf_eqv). done.
Qed.

Lemma finish_eqv r s s' : sess_eqv s s' → sess_eqv (finishInflight r s).2 (finishInflight r s').2.
Proof. intros H. by apply nextTask_eqv, publish_eqv. Qed.

Section Redaction.
Context {S : Type} `{Store S}.

Lemma request_eqv now env s s' (store : S) : sess_eqv s s' →
  sess_eqv (request now env (s, store)).2.1 (request now env (s', store)).2.1 ∧
  (request now env (s, store)).2.2 = (request now env (s', store)).2.2.
Proof.
  intros H0. destruct env as [env|]; unfold request.
  2: { pose proof (nextTask_eqv _ _ H0) as Hn. simpl. by destruct (nextTask s), (nextTask s'). }
  unfold Handle. pose proof (set_MsgID_eqv (e_ID env) _ _ H0) as H1.
  set (u := set_MsgID (e_ID env) s) in *. set (u' := set_MsgID (e_ID env) s') in *.
  assert (Hfin : ∀ r m, sess_eqv (finishInflight r (logf m u)).2 (finishInflight r (logf m u')).2).
  { intros r m. apply finish_eqv. by apply logf_eqv. }
  pose proof (sess_eqv_fields _ _ H1) as (Hip & Hid & _).
  destruct (b_Inform (e_Body env)) as [inf|].
  { pose proof (requeue_eqv _ _ H1) as H2. pose proof (sess_eqv_fields _ _ H2) as (Hip2 & _).
    unfold onInform. cbn beta iota zeta. cbn [s_IP set_DeviceID]; rewrite <- Hip2. destruct (HasWritabilityMap _ _) as [[] st']; cbn [fst snd].
    - split; [|done]. by apply logf_eqv, set_DeviceID_eqv.
    - split; [|done].
      set (v := enqueue _ (logf _ _)).
      set (v' := enqueue _ (logf _ (set_DeviceID _ (requeueOrphanedTask u')))).
      assert (Hv : sess_eqv v v') by (apply enqueue_eqv; [done|]; by apply logf_eqv, set_DeviceID_eqv).
      pose proof (sess_eqv_fields _ _ Hv) as (_ & _ & _ & _ & _ & _ & <- & _).
      destruct (firstContactGPV v); [done|]. by apply enqueue_eqv. }
  destruct (b_GetRPCMethods (e_Body env)); [by split|].
  destruct (b_AutonomousTransferComplete (e_Body env)).
  { unfold onATC. cbn [fst snd]. split; [by apply logf_eqv|]. cbn [s_DeviceID logf set_slog]. by rewrite Hid. }
  destruct (b_TransferComplete (e_Body env)); [by split|].
  destruct (b_GetParameterValuesResponse (e_Body env)) as [l|].
  { unfold onGPV. cbn beta iota zeta. rewrite <- Hid. destruct (foldl _ _ l) as [params st'].
    match goal with |- context [finishInflight ?r (logf ?m u)] => pose proof (Hfin r m) as Hf end.
    destruct (finishInflight _ (logf _ u)), (finishInflight _ (logf _ u')). by split. }
  destruct (b_SetParameterValuesResponse (e_Body env)) as [status|].
  { unfold onSPV.
    match goal with |- context [finishInflight ?r (logf ?m u)] => pose proof (Hfin r m) as Hf end.
    destruct (finishInflight _ (logf _ u)), (finishInflight _ (logf _ u')). by split. }
  destruct (b_GetParameterNamesResponse (e_Body env)) as [l|].
  { unfold onGPN. cbn beta iota zeta. rewrite <- Hid.
    match goal with |- context [finishInflight ?r (logf ?m u)] => pose proof (Hfin r m) as Hf end.
    destruct (finishInflight _ (logf _ u)), (finishInflight _ (logf _ u')). by split. }
  destruct (b_RebootResponse (e_Body env)).
  { pose proof (Hfin (empty_result TaskReboot) "<- Reboot ack") as Hf.
    destruct (finishInflight _ (logf _ u)), (finishInflight _ (logf _ u')). by split. }
  destruct (b_Fault (e_Body env)) as [f|].
  - unfold onFault. set (m := "CPE Fault " +:+ _). pose proof H1 as (_ & Hfl & _).
    cbn [inflight logf set_slog].
    destruct Hfl as [t t' Ht|]; [|split; [by apply logf_eqv|done]].
    pose proof Ht as (Hty & _). rewrite <- Hty.
    match goal with |- context [finishInflight ?r _] => pose proof (Hfin r m) as Hf end.
    destruct (finishInflight _ (logf _ u)), (finishInflight _ (logf _ u')). by split.
  - pose proof (nextTask_eqv _ _ H1) as Hn. by destruct (nextTask u), (nextTask u').
Qed.

(** What can be fed to a session. *)
Inductive input : Type :=
| IEnqueue (t : Task)
| IRequest (now : Z) (env : option Envelope).

Definition run_input (x : Session * S) (i : input) : Session * S :=
  match i with
  | IEnqueue t => (enqueue t x.1, x.2)
  | IRequest now env => (request now env x).2
  end.
Definition run_inputs : Session * S → list input → Session * S := foldl run_input.

Definition input_eqv (i j : input) : Prop :=
  match i, j with
  | IEnqueue t, IEnqueue t' => task_eqv t t'
  | IRequest now env, IRequest now' env' => now = now' ∧ env = env'
  | _, _ => False
  end.

Lemma run_input_eqv i j x y : input_eqv i j → sess_eqv x.1 y.1 → x.2 = y.2 →
  sess_eqv (run_input x i).1 (run_input y j).1 ∧ (run_input x i).2 = (run_input y j).2.
Proof.
  destruct x as [s store], y as [s' store']. destruct i, j; simpl; try done.
  - intros Ht Hs ->. split; [by apply enqueue_eqv | done].
  - intros [<- <-] Hs <-. by apply request_eqv.
Qed.
End Redaction.

(** ** Properties *)

(** C32: Whatever state a session is in, a device's AutonomousTransferComplete
    is acknowledged with AutonomousTransferCompleteResponse, tasks and results
    are untouched, and a store that works gains exactly one event, "major" if
    and only if the transfer faulted. *)
Theorem atc_acknowledged {S} `{StoreLaws S} now env atc s store :
  b_Inform (e_Body env) = None → b_GetRPCMethods (e_Body env) = None →
  b_AutonomousTransferComplete (e_Body env) = Some atc →
  let '(resp, (s', store')) := request now (Some env) (s, store) in
  resp = Some AutonomousTransferCompleteResponse ∧
  queues s' = queues s ∧ results s' = results s ∧ chans s' = chans s ∧
  (store_ok store → ∃ ev, pending_events store' = pending_events store ++ [ev] ∧
     se_DeviceID ev = s_DeviceID s ∧ se_EventType ev = "autonomous_transfer_complete" ∧
     (se_Severity ev = "major" ↔ fs_FaultCode (atc_FaultStruct atc) ≠ 0%Z)).
Proof.
  intros H1 H2 H3. unfold request, Handle. rewrite H1, H2, H3. simpl. split_and!; try done.
  intros Hok. rewrite EmitEvent_spec by done. eexists. split_and!; [done..|]. simpl.
  by case_decide.
Qed.

(** C9: On tasks, every request of a device refines the queue automaton
    [spec_step]: an Inform puts an unanswered command (never a reboot) back at the
    end of the queue and adds the first-contact reads, an answer or a fault
    retires the task in flight, and what the device is sent next is the head of
    the queue. *)
Theorem request_refines_queue {S} `{Store S} now env s (store : S) :
  let '(resp, (s', _)) := request now env (s, store) in
  queues s' = spec_step (kind_of now env s store) (queues s) ∧
  (match kind_of now env s store with
   | KAnswer | KReady => resp = head (taskQueue s) ≫= request_of
   | KFault => resp = if inflight s is Some _ then head (taskQueue s) ≫= request_of else None
   | KInform _ => resp = Some (InformResponse 1)
   | KOwnRPC => ∃ r, resp = Some r ∧ r ∈ [TransferCompleteResponse; AutonomousTransferCompleteResponse;
       GetRPCMethodsResponse ["GetRPCMethods"; "Inform"; "TransferComplete"; "AutonomousTransferComplete"]]
   end).
Proof. apply request_refines. Qed.

(** C18: A reboot is never sent twice for one command: over any run, the Reboot
    requests with a key that were issued, together with those still queued, are
    no more than the reboots with that key that were enqueued or queued before. *)
Theorem reboot_sent_at_most_once {S} `{Store S} (x y : Session * S) tr k :
  sess_run x tr y →
  issued k tr + queued k (taskQueue y.1) ≤ asked k tr + queued k (taskQueue x.1).
Proof.
  induction 1 as [x|x l y tr z Hstep _ IH]; [done|].
  apply (sess_step_reboots _ _ _ k) in Hstep.
  assert (issued k (l :: tr) = issued k [l] + issued k tr) as ->.
  { unfold issued. change (l :: tr) with ([l] ++ tr). by rewrite filter_app, length_app. }
  assert (asked k (l :: tr) = asked k [l] + asked k tr) as ->.
  { unfold asked. rewrite <- queued_app. f_equal. by destruct l. }
  lia.
Qed.

(** A task queue never grows beyond the channel's capacity. *)
Theorem task_queue_bounded {S} `{Store S} (x y : Session * S) tr :
  sess_run x tr y → length (taskQueue x.1) ≤ chan_cap → length (taskQueue y.1) ≤ chan_cap.
Proof. induction 1; eauto using sess_step_bound. Qed.

(** C33: What a CWMP session logs of the writes it pushes does not depend on
    secrets: two histories of a session that differ only in the values of secret
    parameters in the writes enqueued produce the same lines of the session's log.
    (The worker's log is not covered.) *)
Theorem log_hides_secrets {S} `{Store S} (x : Session * S) ins ins' :
  Forall2 input_eqv ins ins' → slog (run_inputs x ins).1 = slog (run_inputs x ins').1.
Proof.
  intros Hij. cut (∀ y : Session * S, sess_eqv x.1 y.1 → x.2 = y.2 →
    sess_eqv (run_inputs x ins).1 (run_inputs y ins').1).
  { intros Hy. eapply sess_eqv_fields. by apply Hy. }
  revert x. induction Hij as [|i j ins ins' Hi _ IH]; intros x y Hs Hst; [done|].
  destruct (run_input_eqv i j x y Hi Hs Hst). by apply IH.
Qed.

(** ** Witnesses *)

(** A fresh session over an empty buffer. *)
Definition ex_session : Session := mkSession "10.0.0.5" "" "" [] [] ∅ [] None [] [].
Definition ex_store : sql := Sql empty_db [] 0 4096 0.

Definition ex_envelope (b : Body) : Envelope := mkEnvelope "7" b.
Definition ex_inform : Inform :=
  mkInform (mkDeviceID "Acme" "8C1F64" "ENB-1" "42") [mkEventStruct "1 BOOT" ""] 1 "" 0
    [mkPV "Device.DeviceInfo.SoftwareVersion" (mkValue "string" "v9")].
Definition ex_inform_env : Envelope :=
  ex_envelope (mkBody (Some ex_inform) None None None None None None None None).
Definition ex_atc : AutonomousTransferComplete :=
  mkATC "" "" false "4 Vendor Log File" 12 "pm.xml" (mkFaultStruct 9000 "bad") "" "".
Definition ex_atc_env : Envelope :=
  ex_envelope (mkBody None None None (Some ex_atc) None None None None None).

Example ex_first_contact :
  taskQueue (request 5 (Some ex_inform_env) (ex_session, ex_store)).2.1 =
    [mkTask TaskGPN ["Device."] [] "" ""].
Proof. vm_compute. reflexivity. Qed.

Lemma atc_acknowledged_witness :
  (request 5 (Some ex_atc_env) (ex_session, ex_store)).1 = Some AutonomousTransferCompleteResponse.
Proof.
  pose proof (atc_acknowledged 5 ex_atc_env ex_atc ex_session ex_store eq_refl eq_refl eq_refl) as Ht.
  destruct (request 5 (Some ex_atc_env) (ex_session, ex_store)) as [resp [s' store']].
  exact (proj1 Ht).
Defined.

Definition ex_reboot : Task := mkTask TaskReboot [] [] "k" "c1".

(** The reboot is sent, not answered, and not sent again after the next Inform. *)
Lemma reboot_sent_at_most_once_witness :
  ∃ x, sess_run (ex_session, ex_store)
         [LEnqueue ex_reboot; LRequest (Some (Reboot "k")); LRequest (Some (InformResponse 1))] x ∧
       1 + queued "k" (taskQueue x.1) ≤ 1.
Proof.
  set (x1 := (enqueue ex_reboot ex_session, ex_store)).
  set (x2 := (request 5 None x1).2). set (x3 := (request 6 (Some ex_inform_env) x2).2).
  assert (Hrun : sess_run (ex_session, ex_store)
    [LEnqueue ex_reboot; LRequest (Some (Reboot "k")); LRequest (Some (InformResponse 1))] x3).
  { eapply run_cons; [apply step_enqueue|]. eapply run_cons; [by apply (step_request 5 None)|].
    eapply run_cons; [by apply (step_request 6 (Some ex_inform_env))|]. apply run_nil. }
  exists x3. split; [exact Hrun|].
  exact (reboot_sent_at_most_once _ _ _ "k" Hrun).
Defined.

Lemma task_queue_bounded_witness :
  length (taskQueue (enqueue ex_reboot ex_session)) ≤ chan_cap.
Proof.
  apply (task_queue_bounded (ex_session, ex_store) (enqueue ex_reboot ex_session, ex_store) [LEnqueue ex_reboot]).
  - eapply run_cons; [apply step_enqueue | apply run_nil].
  - simpl. unfold chan_cap. lia.
Defined.

Definition ex_spv (secret : string) : Task :=
  mkTask TaskSPV [] [mkPV "Device.ManagementServer.Password" (mkValue "string" secret)] "k" "c2".

Lemma log_hides_secrets_witness :
  slog (run_inputs (ex_session, ex_store) [IEnqueue (ex_spv "hunter2"); IRequest 5 None]).1 =
  slog (run_inputs (ex_session, ex_store) [IEnqueue (ex_spv "swordfish"); IRequest 5 None]).1.
Proof.
  apply log_hides_secrets. constructor; [|constructor; [by split|constructor]].
  split_and!; try reflexivity. constructor; [|constructor]. split; [reflexivity|].
  intros Hs. vm_compute in Hs. discriminate.
Defined.

Example ex_spv_log :
  slog (run_inputs (ex_session, ex_store) [IEnqueue (ex_spv "hunter2"); IRequest 5 None]).1 =
  ["[CWMP][] -> SPV Device.ManagementServer.Password=<redacted> key=k"].
Proof. vm_compute. reflexivity. Qed.

(** ** What a request adds to a session *)

(** The tasks a session holds. *)
Definition holds (s : Session) (t : Task) : Prop := t ∈ taskQueue s ∨ inflight s = Some t.

Lemma put_elem t t' q : t' ∈ put t q → t' = t ∨ t' ∈ q.
Proof. unfold put. case_decide; [|auto]. rewrite elem_of_app, list_elem_of_singleton. tauto. Qed.

Lemma puts_elem t' l q : t' ∈ foldl (flip put) q l → t' ∈ l ∨ t' ∈ q.
Proof.
  revert q. induction l as [|t l IH]; intros q; simpl; [auto|]. intros [Hin|Hin]%IH; [left; by right|].
  apply put_elem in Hin as [->|Hin]; [left; by left | by right].
Qed.

Lemma pop_holds idle q t : (t ∈ (pop idle q).1 ∨ (pop idle q).2 = Some t) → t ∈ q ∨ idle = Some t.
Proof. destruct q as [|t' q]; simpl; [naive_solver|]. intros [?|[= ->]]; left; [by right|by left]. Qed.

(** A handler that ends in [finishInflight]. *)
Ltac by_finish Hfin :=
  match goal with
  | |- context [finishInflight ?r ?u] => pose proof (Hfin r u); destruct (finishInflight r u)
  end; done.

Section RequestHolds.
Context {S : Type} `{Store S}.

Lemma request_holds now env s (store : S) t :
  holds (request now env (s, store)).2.1 t → holds s t ∨ t ∈ first_contact (firstContactGPV s).
Proof.
  pose proof (request_refines now env s store) as Hr.
  destruct (request now env (s, store)) as [resp [s' store']]. destruct Hr as [Hq _]. cbn [fst snd].
  unfold holds. change (taskQueue s') with (queues s').1. change (inflight s') with (queues s').2.
  rewrite Hq. clear Hq.
  destruct (kind_of now env s store) as [learn| | | |] eqn:Hk; cbn [spec_step queues fst snd].
  - intros [Hin|Hin]; [|done]. apply puts_elem in Hin as [Hin|Hin]; [|by left; left].
    apply elem_of_app in Hin as [Hin|Hin].
    + left. right. unfold orphan in Hin. destruct (inflight s); [|set_solver].
      case_decide; [set_solver|]. apply list_elem_of_singleton in Hin. by subst.
    + right. unfold kind_of in Hk. destruct env as [env|]; [|done].
      destruct (b_Inform (e_Body env)); [|by repeat case_match]. injection Hk as <-.
      case_match; [set_solver|done].
  - auto.
  - intros Hp. left. apply pop_holds in Hp as [?|?]; [by left|done].
  - destruct (inflight s) eqn:Hi; simpl.
    + intros Hp. left. apply pop_holds in Hp as [?|?]; [by left|done].
    + intros [?|?]; [by left; left|done].
  - intros Hp. left. apply pop_holds in Hp. tauto.
Qed.

(** Only an Inform changes the identity of a session, and to its own. *)
Lemma request_DeviceID now env s (store : S) :
  s_DeviceID (request now env (s, store)).2.1 =
    match env ≫= λ e, b_Inform (e_Body e) with
    | Some inf => inform_id inf
    | None => s_DeviceID s
    end ∧
  firstContactGPV (request now env (s, store)).2.1 = firstContactGPV s.
Proof.
  assert (Hnext : ∀ s, s_DeviceID (nextTask s).2 = s_DeviceID s ∧ firstContactGPV (nextTask s).2 = firstContactGPV s).
  { intros u. unfold nextTask. destruct (taskQueue u) as [|t q]; [done|]. by destruct (t_Type t). }
  assert (Hdel : ∀ r s, s_DeviceID (deliver r s) = s_DeviceID s ∧ firstContactGPV (deliver r s) = firstContactGPV s).
  { intros r u. unfold deliver, send_result, deliver_shared. repeat case_match; done. }
  assert (Hfin : ∀ r s, s_DeviceID (finishInflight r s).2 = s_DeviceID s ∧ firstContactGPV (finishInflight r s).2 = firstContactGPV s).
  { intros r u. unfold finishInflight. destruct (Hnext (publish r u)) as [-> ->]. unfold publish.
    destruct (inflight u) as [t|]; [|done]. simpl. case_decide; [apply Hdel|done]. }
  assert (Henq : ∀ t s, s_DeviceID (enqueue t s) = s_DeviceID s ∧ firstContactGPV (enqueue t s) = firstContactGPV s).
  { intros t u. unfold enqueue. by case_decide. }
  destruct env as [env|]; unfold request, Handle; simpl.
  2: { pose proof (Hnext s). by destruct (nextTask s). }
  destruct (b_Inform (e_Body env)) as [inf|].
  { unfold onInform. fold (inform_id inf).
    assert (Hrq : firstContactGPV (requeueOrphanedTask (set_MsgID (e_ID env) s)) = firstContactGPV s).
    { unfold requeueOrphanedTask. simpl. destruct (inflight s); [|done]. by repeat case_decide. }
    destruct (HasWritabilityMap _ _) as [[] st']; simpl; [done|].
    match goal with |- context [match ?f with [] => _ | _ => _ end] => destruct f end;
      rewrite ?(proj1 (Henq _ _)), ?(proj2 (Henq _ _)); done. }
  destruct (b_GetRPCMethods (e_Body env)); [done|].
  destruct (b_AutonomousTransferComplete (e_Body env)); [done|].
  destruct (b_TransferComplete (e_Body env)); [done|].
  destruct (b_GetParameterValuesResponse (e_Body env)) as [l|].
  { unfold onGPV. destruct (foldl _ _ l). 
    by_finish Hfin. }
  destruct (b_SetParameterValuesResponse (e_Body env)) as [l|].
  { unfold onSPV. by_finish Hfin. }
  destruct (b_GetParameterNamesResponse (e_Body env)) as [l|].
  { unfold onGPN. by_finish Hfin. }
  destruct (b_RebootResponse (e_Body env)).
  { by_finish Hfin. }
  destruct (b_Fault (e_Body env)) as [f|].
  - unfold onFault. simpl. destruct (inflight s) as [t|]; [|done].
    by_finish Hfin.
  - pose proof (Hnext (set_MsgID (e_ID env) s)). by destruct (nextTask _).
Qed.
(** The message id that replies carry is that of the last envelope. *)
Lemma request_MsgID now env s (store : S) :
  s_MsgID (request now env (s, store)).2.1 = match env with Some e => e_ID e | None => s_MsgID s end.
Proof.
  assert (Hnext : ∀ s, s_MsgID (nextTask s).2 = s_MsgID s).
  { intros u. unfold nextTask. destruct (taskQueue u) as [|t q]; [done|]. by destruct (t_Type t). }
  assert (Hfin : ∀ r s, s_MsgID (finishInflight r s).2 = s_MsgID s).
  { intros r u. unfold finishInflight. rewrite Hnext. unfold publish.
    destruct (inflight u) as [t|]; [|done]. simpl. case_decide; [|done].
    unfold deliver, send_result, deliver_shared. repeat case_match; done. }
  assert (Henq : ∀ t s, s_MsgID (enqueue t s) = s_MsgID s).
  { intros t u. unfold enqueue. by case_decide. }
  destruct env as [env|]; unfold request, Handle; simpl.
  2: { pose proof (Hnext s). by destruct (nextTask s). }
  destruct (b_Inform (e_Body env)) as [inf|].
  { unfold onInform.
    assert (Hrq : s_MsgID (requeueOrphanedTask (set_MsgID (e_ID env) s)) = e_ID env).
    { unfold requeueOrphanedTask. simpl. destruct (inflight s); [|done]. by repeat case_decide. }
    destruct (HasWritabilityMap _ _) as [[] st']; simpl; [done|].
    match goal with |- context [match ?f with [] => _ | _ => _ end] => destruct f end; by rewrite ?Henq. }
  set (u := set_MsgID (e_ID env) s). assert (Hu : ∀ m, s_MsgID (logf m u) = e_ID env) by done.
  repeat match goal with |- context [match ?b with Some _ => _ | None => _ end] => destruct b; try done end;
    unfold onGPV, onSPV, onGPN, onFault; try destruct (foldl _ _ _);
    simpl; try (destruct (inflight s); [|done]);
    match goal with
    | |- context [finishInflight ?r ?v] => pose proof (Hfin r v); by destruct (finishInflight r v)
    | |- context [nextTask ?v] => pose proof (Hnext v); by destruct (nextTask v)
    end.
Qed.
End RequestHolds.
