(* ===== verification/Soap.v ===== *)
(** * The SOAP framing of ACS responses (goagent/internal/cwmp/soap.go)

    [encoding/xml] marshals a response struct under its Go type name; the agent
    then renames the root element and wraps the result in an envelope. *)
From S2P Require Import Prelude GoStrings CwmpTypes.

(** ** [encoding/xml], for the structs of rpc.go *)

Definition nl : string := String (byte_of 10) "".
Definition dq : string := String (byte_of 34) "".

Local Open Scope Z_scope.

(** One rune of UTF-8 and its width; an invalid byte is U+FFFD of width 1. *)
Definition byteZ (a : ascii) : Z := Z.of_nat (nat_of_ascii a).

Definition in_range (lo hi : Z) (a : ascii) : bool :=
  bool_decide (lo ≤ byteZ a ∧ byteZ a ≤ hi).

Definition cont_bits (a : ascii) : Z := byteZ a mod 64.

(** The range of the second byte after a leading byte. *)
Definition second_byte (lead : Z) (a : ascii) : bool :=
  if decide (lead = 224) then in_range 160 191 a
  else if decide (lead = 237) then in_range 128 159 a
  else if decide (lead = 240) then in_range 144 191 a
  else if decide (lead = 244) then in_range 128 143 a
  else in_range 128 191 a.

Definition DecodeRune (s : string) : Z * nat :=
  match s with
  | "" => (65533, 0%nat)
  | String a s1 =>
      let n := byteZ a in
      if decide (n < 128) then (n, 1%nat)
      else
        match s1 with
        | String b s2 =>
            if in_range 194 223 a && in_range 128 191 b
            then ((n mod 32) * 64 + cont_bits b, 2%nat)
            else
              match s2 with
              | String c s3 =>
                  if in_range 224 239 a && second_byte n b && in_range 128 191 c
                  then ((n mod 16) * 4096 + cont_bits b * 64 + cont_bits c, 3%nat)
                  else
                    match s3 with
                    | String d _ =>
                        if in_range 240 244 a && second_byte n b && in_range 128 191 c && in_range 128 191 d
                        then ((n mod 8) * 262144 + cont_bits b * 4096 + cont_bits c * 64 + cont_bits d, 4%nat)
                        else (65533, 1%nat)
                    | "" => (65533, 1%nat)
                    end
              | "" => (65533, 1%nat)
              end
        | "" => (65533, 1%nat)
        end
  end.

Definition isInCharacterRange (r : Z) : bool :=
  bool_decide (r = 9 ∨ r = 10 ∨ r = 13 ∨ (32 ≤ r ∧ r ≤ 55295) ∨ (57344 ≤ r ∧ r ≤ 65533) ∨ 65536 ≤ r).

Definition replacement : string := utf8 [239; 191; 189]%nat.

(** The replacement of one rune, [None] when it is copied. *)
Definition escape_rune (r : Z) (width : nat) : option string :=
  if decide (r = 34) then Some "&#34;"
  else if decide (r = 39) then Some "&#39;"
  else if decide (r = 38) then Some "&amp;"
  else if decide (r = 60) then Some "&lt;"
  else if decide (r = 62) then Some "&gt;"
  else if decide (r = 9) then Some "&#x9;"
  else if decide (r = 10) then Some "&#xA;"
  else if decide (r = 13) then Some "&#xD;"
  else if isInCharacterRange r && negb (bool_decide (r = 65533 ∧ width = 1%nat)) then None
  else Some replacement.

Local Close Scope Z_scope.

(** [EscapeText]; [copy] counts the bytes of a copied rune still to come. *)
Fixpoint escape (copy : nat) (s : string) : string :=
  match s with
  | "" => ""
  | String a s' =>
      match copy with
      | S copy => String a (escape copy s')
      | 0 => let '(r, width) := DecodeRune s in
             match escape_rune r width with
             | Some e => e +:+ escape 0 s'
             | None => String a (escape (width - 1) s')
             end
      end
  end.
Definition EscapeText (s : string) : string := escape 0 s.

Definition open_tag (body : string) : string := "<" +:+ body +:+ ">".
Definition close_tag (name : string) : string := "</" +:+ name +:+ ">".
Definition element (name content : string) : string :=
  open_tag name +:+ content +:+ close_tag name.

Fixpoint concat_str (l : list string) : string :=
  match l with
  | [] => ""
  | w :: rest => w +:+ concat_str rest
  end.

Definition marshal_bool (b : bool) : string := if b then "true" else "false".

(** [ValueNode]: text content with the literal attribute [xsi:type]. *)
Definition marshal_value (v : ValueNode) : string :=
  let attr := if decide (v_Type v = "") then "" else " xsi:type=" +:+ dq +:+ EscapeText (v_Type v) +:+ dq in
  open_tag ("Value" +:+ attr) +:+ EscapeText (v_Text v) +:+ close_tag "Value".

Definition marshal_write (w : ParameterValueStruct) : string :=
  element "ParameterValueStruct" (element "Name" (EscapeText (pv_Name w)) +:+ marshal_value (pv_Value w)).

(** The type name, which is the root element, and the content below it. *)
Definition type_name (r : Response) : string :=
  match r with
  | InformResponse _ => "InformResponse"
  | GetRPCMethodsResponse _ => "GetRPCMethodsResponse"
  | TransferCompleteResponse => "TransferCompleteResponse"
  | AutonomousTransferCompleteResponse => "AutonomousTransferCompleteResponse"
  | GetParameterValues _ => "GetParameterValues"
  | SetParameterValues _ _ => "SetParameterValues"
  | GetParameterNames _ _ => "GetParameterNames"
  | Reboot _ => "Reboot"
  end.

Definition children (r : Response) : string :=
  match r with
  | InformResponse n => element "MaxEnvelopes" (pretty n)
  | GetRPCMethodsResponse l => element "MethodList" (concat_str ((λ m, element "string" (EscapeText m)) <$> l))
  | TransferCompleteResponse | AutonomousTransferCompleteResponse => ""
  | GetParameterValues l => element "ParameterNames" (concat_str ((λ p, element "string" (EscapeText p)) <$> l))
  | SetParameterValues l key =>
      element "ParameterList" (concat_str (marshal_write <$> l)) +:+ element "ParameterKey" (EscapeText key)
  | GetParameterNames path next =>
      element "ParameterPath" (EscapeText path) +:+ element "NextLevel" (marshal_bool next)
  | Reboot key => element "CommandKey" (EscapeText key)
  end.

Definition Marshal (r : Response) : string := element (type_name r) (children r).

(** ** soap.go *)


(** The two halves of [soapOpen], around its [%s]. *)
Definition soapOpen_head : string :=
  "<?xml version=" +:+ dq +:+ "1.0" +:+ dq +:+ " encoding=" +:+ dq +:+ "UTF-8" +:+ dq +:+ "?>" +:+ nl +:+
  "<soapenv:Envelope xmlns:soapenv=" +:+ dq +:+ "http://schemas.xmlsoap.org/soap/envelope/" +:+ dq +:+
  " xmlns:soap=" +:+ dq +:+ "http://schemas.xmlsoap.org/soap/encoding/" +:+ dq +:+
  " xmlns:xsd=" +:+ dq +:+ "http://www.w3.org/2001/XMLSchema" +:+ dq +:+
  " xmlns:xsi=" +:+ dq +:+ "http://www.w3.org/2001/XMLSchema-instance" +:+ dq +:+
  " xmlns:cwmp=" +:+ dq +:+ "urn:dslforum-org:cwmp-1-2" +:+ dq +:+ ">" +:+ nl +:+
  "<soapenv:Header><cwmp:ID soapenv:mustUnderstand=" +:+ dq +:+ "1" +:+ dq +:+ ">".
Definition soapOpen_tail : string := "</cwmp:ID></soapenv:Header>" +:+ nl +:+ "<soapenv:Body>".
Definition soapOpen (msgID : string) : string := soapOpen_head +:+ msgID +:+ soapOpen_tail.
Definition soapClose : string := "</soapenv:Body></soapenv:Envelope>".

Definition cwmpElement (r : Response) : string :=
  match r with
  | InformResponse _ => "cwmp:InformResponse"
  | GetRPCMethodsResponse _ => "cwmp:GetRPCMethodsResponse"
  | TransferCompleteResponse => "cwmp:TransferCompleteResponse"
  | AutonomousTransferCompleteResponse => "cwmp:AutonomousTransferCompleteResponse"
  | GetParameterValues _ => "cwmp:GetParameterValues"
  | SetParameterValues _ _ => "cwmp:SetParameterValues"
  | GetParameterNames _ _ => "cwmp:GetParameterNames"
  | Reboot _ => "cwmp:Reboot"
  end.

(** The local name of the root: everything up to the first delimiter. *)
Fixpoint until_delim (s : string) : string :=
  match s with
  | "" => ""
  | String a s =>
      if decide (a = ">"%char ∨ a = " "%char ∨ a = "/"%char) then "" else String a (until_delim s)
  end.

Definition rewriteRoot (inner el : string) : string :=
  match inner with
  | String a s =>
      if decide (a = "<"%char) then
        let local := until_delim s in
        if decide (local = "") then inner
        else
          let s := ReplaceOne inner ("<" +:+ local) ("<" +:+ el) in
          ReplaceOne s ("</" +:+ local +:+ ">") ("</" +:+ el +:+ ">")
      else inner
  | "" => inner
  end.

(** Every [Response] has an element name and marshals without error, so the two
    error returns of [EncodeResponse] cannot be taken. *)
Definition EncodeResponse (msgID : string) (r : Response) : string :=
  soapOpen msgID +:+ rewriteRoot (Marshal r) (cwmpElement r) +:+ soapClose.

(** ** Escaped text holds no markup *)

Lemma in_range_ne lo hi a : (128 ≤ lo)%Z → in_range lo hi a = true → a ≠ "<"%char.
Proof. unfold in_range. rewrite bool_decide_eq_true. intros Hlo [H _] ->. change (byteZ "<") with 60%Z in H. lia. Qed.

Lemma second_byte_ne n a : second_byte n a = true → a ≠ "<"%char.
Proof. unfold second_byte. repeat case_decide; apply in_range_ne; lia. Qed.

Fixpoint prefix_free (c : ascii) (n : nat) (s : string) : Prop :=
  match n, s with
  | S n, String a s => a ≠ c ∧ prefix_free c n s
  | _, _ => True
  end.

Lemma DecodeRune_copied s r w :
  DecodeRune s = (r, w) → escape_rune r w = None → prefix_free "<" w s.
Proof.
  destruct s as [|a s]; simpl; [by intros [= <- <-]|].
  destruct (decide (a = "<"%char)) as [->|Ha].
  { rewrite decide_True by (vm_compute; done). by intros [= <- <-]. }
  case_decide; [by intros [= <- <-] _; split|].
  assert (H1 : ∀ s', prefix_free "<" 1 (String a s')) by done.
  destruct s as [|b s2]; [by intros [= <- <-] _; split|].
  destruct (in_range 194 223 a && in_range 128 191 b) eqn:H2.
  { intros [= <- <-] _. apply andb_true_iff in H2 as [_ H2].
    cbn [prefix_free]. split_and!; [done | eapply in_range_ne, H2; lia | done]. }
  destruct s2 as [|c s3]; [by intros [= <- <-] _; split|].
  destruct (in_range 224 239 a && second_byte _ b && in_range 128 191 c) eqn:H3.
  { intros [= <- <-] _. apply andb_true_iff in H3 as [[_ H3]%andb_true_iff H3'].
    cbn [prefix_free]. split_and!; [done | by eapply second_byte_ne | eapply in_range_ne, H3'; lia | done]. }
  destruct s3 as [|d s4]; [by intros [= <- <-] _; split|].
  destruct (in_range 240 244 a && _ && _ && _) eqn:H4; [|by intros [= <- <-] _; split].
  intros [= <- <-] _. apply andb_true_iff in H4 as [[[_ H4]%andb_true_iff H4']%andb_true_iff H4''].
  cbn [prefix_free]. split_and!; [done | by eapply second_byte_ne | eapply in_range_ne, H4'; lia |
    eapply in_range_ne, H4''; lia | done].
Qed.

Lemma escape_rune_clean r w e : escape_rune r w = Some e → no_byte "<" e = true.
Proof.
  unfold escape_rune. intros Heq. repeat (case_decide; [simplify_eq; vm_compute; reflexivity|]).
  destruct (isInCharacterRange r && _); simplify_eq. vm_compute. reflexivity.
Qed.

Lemma escape_clean s : ∀ copy, prefix_free "<" copy s → no_byte "<" (escape copy s) = true.
Proof.
  induction s as [|a s IH]; [done|]. intros [|copy]; cbn [prefix_free]; [intros _|intros [Ha Hc]].
  - cbn [escape]. destruct (DecodeRune (String a s)) as [r w] eqn:Hd.
    destruct (escape_rune r w) as [e|] eqn:He.
    + rewrite no_byte_app. by rewrite (escape_rune_clean _ _ _ He), (IH 0).
    + pose proof (DecodeRune_copied _ _ _ Hd He) as Hp.
      destruct w as [|w]; [|destruct Hp as [Ha Hp]; apply no_byte_cons; split; [done|]; apply IH; simpl; by rewrite Nat.sub_0_r].
      exfalso. clear -Hd. simpl in Hd. repeat case_match; simplify_eq; case_decide; simplify_eq.
  - cbn [escape]. apply no_byte_cons. auto.
Qed.

Lemma EscapeText_clean s : no_byte "<" (EscapeText s) = true.
Proof. by apply escape_clean. Qed.

(** ** Renaming the root

    [clean old x]: whatever markup follows, the first occurrence of [old] is not
    inside [x].  Content whose text is escaped is clean for a closing tag other
    than its own. *)
Definition clean (old x : string) : Prop :=
  ∀ s new, ReplaceOne (x +:+ "<" +:+ s) old new = x +:+ ReplaceOne ("<" +:+ s) old new.

Lemma ReplaceOne_cons a s old new :
  HasPrefix (String a s) old = false → ReplaceOne (String a s) old new = String a (ReplaceOne s old new).
Proof.
  intros H. unfold ReplaceOne. cbn [Index]. rewrite H. destruct (Index s old) as [i|]; [|done].
  cbn. done.
Qed.

Lemma ReplaceOne_here p s new : p ≠ "" → ReplaceOne (p +:+ s) p new = new +:+ s.
Proof.
  intros Hp. unfold ReplaceOne. destruct p as [|a p]; [done|].
  assert (Index (String a p +:+ s) (String a p) = Some 0) as ->.
  { pose proof (HasPrefix_app (String a p) s) as H. rewrite str_app_cons in H |- *.
    cbn [Index]. by rewrite H. }
  change (str_take 0 (String a p +:+ s)) with "". change (0 + String.length (String a p)) with (String.length (String a p)).
  by rewrite str_drop_app.
Qed.

Lemma clean_app old x y : clean old x → (y = "" ∨ ∃ y', y = "<" +:+ y') → clean old y → clean old (x +:+ y).
Proof.
  intros Hx [->|[y' ->]] Hy s new; [by rewrite str_app_nil_r|].
  rewrite !str_app_assoc. rewrite (Hx (y' +:+ "<" +:+ s)). f_equal.
  rewrite <- str_app_assoc. apply Hy.
Qed.

Lemma clean_text p x : no_byte "<" x = true → clean ("<" +:+ p) x.
Proof.
  intros Hx s new. induction x as [|a x IH]; [done|].
  apply no_byte_cons in Hx as [Ha Hx]. rewrite !str_app_cons, ReplaceOne_cons.
  - f_equal. by apply IH.
  - change ("<" +:+ p) with (String "<" p). cbn [HasPrefix]. rewrite bool_decide_false; [done|congruence].
Qed.

(** A tag that does not start like the pattern. *)
Lemma clean_tag p b : no_byte "<" p = true → no_byte "<" b = true → HasPrefix b p = false →
  clean ("<" +:+ p) ("<" +:+ b).
Proof.
  intros Hp Hb Hbp s new. rewrite str_app_assoc. change ("<" +:+ b +:+ "<" +:+ s) with (String "<" (b +:+ "<" +:+ s)).
  rewrite ReplaceOne_cons.
  - by rewrite (clean_text p b Hb).
  - change ("<" +:+ p) with (String "<" p). cbn [HasPrefix]. rewrite bool_decide_true by done.
    change ("<" +:+ s) with (String "<" s). by rewrite HasPrefix_stop.
Qed.

(** Tag names of the marshalled structs: no markup, and not the root's. *)
Definition name_ok (n : string) : bool := no_byte "<" n && no_byte ">" n && negb (HasPrefix n "/").

Lemma HasPrefix_names n m : no_byte ">" n = true → no_byte ">" m = true → n ≠ m →
  HasPrefix (n +:+ ">") (m +:+ ">") = false.
Proof.
  revert m. induction n as [|a n IH]; intros [|b m] Hn Hm Hne; [done| | |].
  - apply no_byte_cons in Hm as [Hb _]. rewrite str_app_cons. change ("" +:+ ">") with ">". cbn [HasPrefix].
    by rewrite bool_decide_false.
  - apply no_byte_cons in Hn as [Ha _]. rewrite str_app_cons. change ("" +:+ ">") with ">". cbn [HasPrefix].
    rewrite bool_decide_false; [done|congruence].
  - apply no_byte_cons in Hn as [_ Hn]. apply no_byte_cons in Hm as [_ Hm]. rewrite !str_app_cons. cbn [HasPrefix].
    destruct (decide (b = a)) as [->|]; [|by rewrite bool_decide_false].
    rewrite bool_decide_true by done. simpl. apply IH; congruence.
Qed.

Definition close_pat (root : string) : string := close_tag root.

Lemma close_pat_eq root : close_pat root = "<" +:+ "/" +:+ root +:+ ">".
Proof. done. Qed.

Section Clean.
Variable root : string.
Hypothesis root_ok : name_ok root = true.

Lemma root_bytes : no_byte "<" ("/" +:+ root +:+ ">") = true ∧ no_byte ">" root = true.
Proof.
  unfold name_ok in root_ok. apply andb_true_iff in root_ok as [[H1 H2]%andb_true_iff _].
  split; [|done]. rewrite !no_byte_app, H1. done.
Qed.

(** An opening tag whose text does not begin with a slash. *)
Lemma clean_open b : no_byte "<" b = true → HasPrefix b "/" = false → clean (close_pat root) (open_tag b).
Proof.
  intros Hb Hs. apply clean_tag; [apply root_bytes | by rewrite no_byte_app, Hb |].
  destruct b as [|a b]; [done|]. cbn in Hs. rewrite andb_true_r in Hs. rewrite str_app_cons.
  change ("/" +:+ root +:+ ">") with (String "/" (root +:+ ">")). cbn [HasPrefix]. by rewrite Hs.
Qed.

Lemma clean_close n : name_ok n = true → n ≠ root → clean (close_pat root) (close_tag n).
Proof.
  intros Hn Hne. unfold name_ok in Hn. apply andb_true_iff in Hn as [[H1 H2]%andb_true_iff _].
  apply (clean_tag _ ("/" +:+ n +:+ ">")); [apply root_bytes | by rewrite !no_byte_app, H1 |].
  change (HasPrefix (String "/" (n +:+ ">")) (String "/" (root +:+ ">")) = false). cbn [HasPrefix].
  rewrite bool_decide_true by done. apply HasPrefix_names; [done|apply root_bytes|done].
Qed.

(** Markup followed by markup, or text. *)
Definition starts_tag (y : string) : Prop := y = "" ∨ ∃ y', y = "<" +:+ y'.

Lemma starts_app x y : starts_tag x → starts_tag y → starts_tag (x +:+ y).
Proof. intros [->|[x' ->]] Hy; [done|]. right. by exists (x' +:+ y). Qed.
Lemma starts_element n c : starts_tag (element n c).
Proof. right. by eexists. Qed.

Lemma clean_wrap b c n : no_byte "<" b = true → HasPrefix b "/" = false → name_ok n = true → n ≠ root →
  clean (close_pat root) c → (no_byte "<" c = true ∨ starts_tag c) →
  clean (close_pat root) (open_tag b +:+ c +:+ close_tag n).
Proof.
  intros Hb Hs Hn Hne Hc [Ht|Ht].
  - replace (open_tag b +:+ c +:+ close_tag n) with ((open_tag b +:+ c) +:+ close_tag n) by apply str_app_assoc.
    apply clean_app; [|right; by eexists|by apply clean_close].
    unfold open_tag. replace (("<" +:+ b +:+ ">") +:+ c) with ("<" +:+ (b +:+ ">" +:+ c)) by (by rewrite !str_app_assoc).
    apply clean_tag; [apply root_bytes | by rewrite !no_byte_app, Hb, Ht |].
    destruct b as [|a b]; [done|]. cbn in Hs. rewrite andb_true_r in Hs. rewrite str_app_cons.
    change ("/" +:+ root +:+ ">") with (String "/" (root +:+ ">")). cbn [HasPrefix]. by rewrite Hs.
  - apply clean_app; [by apply clean_open| |].
    + apply starts_app; [done|right; by eexists].
    + apply clean_app; [done|right; by eexists|by apply clean_close].
Qed.

Lemma clean_text_element n x : name_ok n = true → n ≠ root → no_byte "<" x = true →
  clean (close_pat root) (element n x).
Proof.
  intros Hn Hne Hx. pose proof Hn as Hn'. unfold name_ok in Hn'.
  apply andb_true_iff in Hn' as [[H1 H2]%andb_true_iff H3%negb_true_iff].
  apply clean_wrap; auto. by apply clean_text.
Qed.

Lemma clean_concat l : Forall (λ x, clean (close_pat root) x ∧ starts_tag x) l →
  clean (close_pat root) (concat_str l) ∧ starts_tag (concat_str l).
Proof.
  induction 1 as [|x l [Hx Hs] _ [IHc IHs]]; simpl.
  - split; [by intros s new|by left].
  - split; [by apply clean_app | by apply starts_app].
Qed.

Lemma clean_element n x : name_ok n = true → n ≠ root → clean (close_pat root) x → starts_tag x →
  clean (close_pat root) (element n x).
Proof.
  intros Hn Hne Hx Hs. pose proof Hn as Hn'. unfold name_ok in Hn'.
  apply andb_true_iff in Hn' as [[H1 H2]%andb_true_iff H3%negb_true_iff]. apply clean_wrap; auto.
Qed.
End Clean.

Lemma children_clean r : clean (close_pat (type_name r)) (children r) ∧ starts_tag (children r).
Proof.
  assert (Hnum : ∀ n : Z, no_byte "<" (pretty n) = true).
  { intros n. apply pretty_Z_no_byte; [by apply digit_free_of | done]. }
  assert (Hstr : ∀ root l, name_ok root = true → "string" ≠ root →
    clean (close_pat root) (concat_str ((λ m, element "string" (EscapeText m)) <$> l)) ∧
    starts_tag (concat_str ((λ m, element "string" (EscapeText m)) <$> l))).
  { intros root l Hr Hne. apply clean_concat, Forall_fmap, Forall_true. intros m.
    split; [|apply starts_element]. by apply clean_text_element; [..|apply EscapeText_clean]. }
  destruct r as [n|l| | |l|l key|path next|key]; simpl type_name; simpl children.
  - split; [by apply clean_text_element|apply starts_element].
  - destruct (Hstr "GetRPCMethodsResponse" l) as [Hc Hs]; [done..|].
    split; [by apply clean_element|apply starts_element].
  - split; [by intros s new | by left].
  - split; [by intros s new | by left].
  - destruct (Hstr "GetParameterValues" l) as [Hc Hs]; [done..|].
    split; [by apply clean_element|apply starts_element].
  - set (root := "SetParameterValues").
    assert (Hw : ∀ w, clean (close_pat root) (marshal_write w) ∧ starts_tag (marshal_write w)).
    { intros w. split; [|apply starts_element]. apply clean_element; [done..| |].
      - apply clean_app; [by apply clean_text_element; [..|apply EscapeText_clean]| right; by eexists |].
        unfold marshal_value. apply clean_wrap; [done| |done..| |].
        + case_decide; [done|]. rewrite !no_byte_app, EscapeText_clean. done.
        + apply clean_text, EscapeText_clean.
        + left. apply EscapeText_clean.
      - apply starts_app; [apply starts_element|right; by eexists]. }
    destruct (clean_concat root (marshal_write <$> l)) as [Hc Hs].
    { apply Forall_fmap, Forall_true. intros w. apply Hw. }
    split; [|apply starts_app; apply starts_element].
    apply clean_app; [by apply clean_element|apply starts_element|].
    by apply clean_text_element; [..|apply EscapeText_clean].
  - split; [|apply starts_app; apply starts_element].
    apply clean_app; [by apply clean_text_element; [..|apply EscapeText_clean]|apply starts_element|].
    apply clean_text_element; [done..|]. by destruct next.
  - split; [by apply clean_text_element; [..|apply EscapeText_clean]|apply starts_element].
Qed.

Lemma type_name_ok r : name_ok (type_name r) = true ∧ type_name r ≠ "" ∧
  ∀ s, until_delim (type_name r +:+ ">" +:+ s) = type_name r.
Proof. by destruct r. Qed.

Lemma rewriteRoot_Marshal r :
  rewriteRoot (Marshal r) (cwmpElement r) = element (cwmpElement r) (children r).
Proof.
  unfold Marshal, element, rewriteRoot, open_tag. rewrite !str_app_assoc.
  destruct (type_name_ok r) as (Hok & Hne & Hdel).
  change ("<" +:+ ?x) with (String "<" x). cbn beta iota zeta. rewrite decide_True by done.
  rewrite Hdel, decide_False by done.
  set (rest := ">" +:+ children r +:+ close_tag (type_name r)).
  assert (H1 : ReplaceOne (String "<" (type_name r +:+ rest)) (String "<" (type_name r))
    (String "<" (cwmpElement r)) = "<" +:+ cwmpElement r +:+ rest).
  { change (String "<" (type_name r +:+ rest)) with (String "<" (type_name r) +:+ rest).
    rewrite ReplaceOne_here by done. done. }
  rewrite H1. clear H1. unfold rest.
  change ("</" +:+ type_name r +:+ ">") with (close_pat (type_name r)).
  assert (Hel : clean (close_pat (type_name r)) (open_tag (cwmpElement r))).
  { apply clean_open; [done|by destruct r|by destruct r]. }
  destruct (children_clean r) as [Hc Hs].
  replace ("<" +:+ cwmpElement r +:+ ">" +:+ children r +:+ close_tag (type_name r))
    with ((open_tag (cwmpElement r) +:+ children r) +:+ close_tag (type_name r))
    by (unfold open_tag; by rewrite !str_app_assoc).
  unfold close_tag at 1. change ("</" +:+ ?x) with ("<" +:+ "/" +:+ x).
  rewrite (clean_app _ (open_tag (cwmpElement r)) (children r) Hel Hs Hc).
  change ("<" +:+ "/" +:+ type_name r +:+ ">") with (close_pat (type_name r)).
  rewrite <- (str_app_nil_r (close_pat (type_name r))) at 1. rewrite ReplaceOne_here by done.
  rewrite str_app_nil_r. unfold open_tag. by rewrite !str_app_assoc.
Qed.

(** ** Properties *)

(** Every response is one well-framed message: the envelope, the content
    under its cwmp: root element (the rename hits the root's own two tags even
    though values may contain any text), with all values escaped.  The echoed
    cwmp:ID is the exception: [soapOpen] copies it as it is. *)
Theorem response_framed msgID r :
  EncodeResponse msgID r =
    soapOpen_head +:+ msgID +:+ soapOpen_tail +:+
    element (cwmpElement r) (children r) +:+ soapClose ∧
  (∀ v, no_byte "<" (EscapeText v) = true).
Proof.
  split; [|apply EscapeText_clean]. unfold EncodeResponse, soapOpen.
  by rewrite rewriteRoot_Marshal, !str_app_assoc.
Qed.

Example ex_marshal_spv :
  Marshal (SetParameterValues [mkPV "Device.X" (mkValue "xsd:int" "a<b&c")] "k") =
  "<SetParameterValues><ParameterList><ParameterValueStruct><Name>Device.X</Name><Value xsi:type=" +:+ dq +:+
  "xsd:int" +:+ dq +:+ ">a&lt;b&amp;c</Value></ParameterValueStruct></ParameterList>" +:+
  "<ParameterKey>k</ParameterKey></SetParameterValues>".
Proof. vm_compute. reflexivity. Qed.

(** The markup of an id is echoed as markup. *)
Example ex_msgID_markup :
  Contains (EncodeResponse "</cwmp:ID><x/>" (InformResponse 1)) "</cwmp:ID><x/></cwmp:ID>" = true.
Proof. vm_compute. reflexivity. Qed.
