(* ===== verification/Xml.v ===== *)
(** * Decoding XML (Go's [encoding/xml], not strict)

    The decoder that reads SOAP messages on both sides of the wire: bytes become
    tokens, tokens a tree, as Decoder.Decode with Strict = false does it.  End
    tags close every element up to the one they name; attributes are read but
    not kept, since no decoded struct has any that matter. *)
From S2P Require Import Prelude GoStrings Soap.
#[local] Set Warnings "-register-all".

Record xname := mkName { space : string; local : string }.

Inductive token :=
| StartT (n : xname) (empty : bool)
| EndT (n : xname)
| TextT (s : string)
| OtherT. (* a comment, processing instruction or directive *)

Inductive xml :=
| El (n : string) (kids : list xml)
| Tx (s : string).

(** ** Bytes *)

Definition byte_in (lo hi : nat) (a : ascii) : bool := bool_decide (lo ≤ nat_of_ascii a ∧ nat_of_ascii a ≤ hi).
Definition is_letter (a : ascii) : bool := byte_in 65 90 a || byte_in 97 122 a.
Definition is_digit (a : ascii) : bool := byte_in 48 57 a.
Definition isNameByte (a : ascii) : bool :=
  is_letter a || is_digit a || bool_decide (a ∈ ["_"; ":"; "."; "-"]%char).
Definition is_space (a : ascii) : bool := bool_decide (a ∈ [" "%char; byte_of 13; byte_of 10; byte_of 9]).
Definition high (a : ascii) : bool := byte_in 128 255 a.

(** The longest prefix of bytes with [f], and what follows. *)
Fixpoint span (f : ascii → bool) (s : string) : string * string :=
  match s with
  | "" => ("", "")
  | String a s' => if f a then let '(w, r) := span f s' in (String a w, r) else ("", s)
  end.

Definition skip_space (s : string) : string := (span is_space s).2.

Fixpoint count_byte (c : ascii) (s : string) : nat :=
  match s with
  | "" => 0
  | String a s => (if decide (a = c) then 1 else 0) + count_byte c s
  end.

(** Every rune is valid and in the character range of XML; [copy] counts the
    bytes of a rune still to come. *)
Fixpoint valid_go (copy : nat) (s : string) : bool :=
  match s with
  | "" => true
  | String _ s' =>
      match copy with
      | S copy => valid_go copy s'
      | 0 => let '(r, width) := DecodeRune s in
             negb (bool_decide (r = 65533%Z ∧ width = 1)) && isInCharacterRange r && valid_go (width - 1) s'
      end
  end.
Definition valid_text (s : string) : bool := valid_go 0 s.

Definition CRb : ascii := byte_of 13.
Definition LFb : ascii := byte_of 10.
Definition zero : ascii := byte_of 0.

(** ** Numbers *)

Definition digit_of (base : Z) (a : ascii) : option Z :=
  let n := Z.of_nat (nat_of_ascii a) in
  if is_digit a then Some (n - 48)%Z
  else if decide (base = 16%Z) then
    (if byte_in 97 102 a then Some (n - 87)%Z else if byte_in 65 70 a then Some (n - 55)%Z else None)
  else None.

Fixpoint digits_of (base acc : Z) (s : string) : option Z :=
  match s with
  | "" => Some acc
  | String a s => d ← digit_of base a; digits_of base (acc * base + d)%Z s
  end.

(** [strconv.ParseUint] with 64 bits. *)
Definition ParseUint (base : Z) (s : string) : option Z :=
  if decide (s = "") then None
  else n ← digits_of base 0 s; if decide (n < 2 ^ 64)%Z then Some n else None.

(** [strconv.ParseInt] with base 10 and 64 bits. *)
Definition ParseInt (s : string) : option Z :=
  let '(neg, t) := match s with
                   | String "+" t => (false, t)
                   | String "-" t => (true, t)
                   | _ => (false, s)
                   end in
  if decide (t = "") then None
  else n ← digits_of 10 0 t;
       if neg then (if decide (n ≤ 2 ^ 63)%Z then Some (- n)%Z else None)
       else if decide (n < 2 ^ 63)%Z then Some n else None.

(** [string(rune(n))]: surrogates become U+FFFD. *)
Definition EncodeRune (n : Z) : string :=
  let b (k : Z) := byte_of (Z.to_nat k) in
  if decide (n < 128)%Z then String (b n) ""
  else if decide (n < 2048)%Z then String (b (192 + n / 64)%Z) (String (b (128 + n mod 64)%Z) "")
  else if decide (55296 ≤ n ≤ 57343)%Z then replacement
  else if decide (n < 65536)%Z then
    String (b (224 + n / 4096)%Z) (String (b (128 + n / 64 mod 64)%Z) (String (b (128 + n mod 64)%Z) ""))
  else String (b (240 + n / 262144)%Z) (String (b (128 + n / 4096 mod 64)%Z)
         (String (b (128 + n / 64 mod 64)%Z) (String (b (128 + n mod 64)%Z) ""))).

Section Decoder.
(** Whether a name with bytes outside ASCII is an XML name. *)
Variable unicode_name : string → bool.

Definition isName (s : string) : bool :=
  match s with
  | "" => false
  | String a s' =>
      if all_bytes (λ a, negb (high a)) s
      then (is_letter a || bool_decide (a = "_"%char ∨ a = ":"%char)) && all_bytes isNameByte s'
      else unicode_name s
  end.

Definition in_name (a : ascii) : bool := high a || isNameByte a.

(** [name]: the input may not end with it. *)
Definition name (s : string) : option (string * string) :=
  let '(w, r) := span in_name s in
  if bool_decide (r ≠ "") && isName w then Some (w, r) else None.

Definition nsname (s : string) : option (xname * string) :=
  '(w, r) ← name s;
  if decide (1 < count_byte ":" w) then None
  else match Cut w ":" with
       | Some (p, l) => if decide (p = "" ∨ l = "") then Some (mkName "" w, r) else Some (mkName p l, r)
       | None => Some (mkName "" w, r)
       end.

(** ** Text *)

Definition entity_table (n : string) : option string :=
  if decide (n = "lt") then Some "<"
  else if decide (n = "gt") then Some ">"
  else if decide (n = "amp") then Some "&"
  else if decide (n = "apos") then Some "'"
  else if decide (n = "quot") then Some dq
  else None.

(** What is written for a character reference of [digits] and the number of
    bytes read after the ampersand; [lead] is what was read before them.  A
    reference that is not understood stands for itself. *)
Definition char_ref (base : Z) (lead digits rest : string) : option (string * nat) :=
  let raw := lead +:+ digits in
  match rest with
  | "" => None
  | String b _ =>
      if decide (b = ";"%char) then
        let n := S (String.length raw) in
        match ParseUint base digits with
        | Some r => if decide (r ≤ 1114111)%Z then Some (EncodeRune r, n) else Some ("&" +:+ raw +:+ ";", n)
        | None => Some ("&" +:+ raw +:+ ";", n)
        end
      else Some ("&" +:+ raw, String.length raw)
  end.

Definition entity (s : string) : option (string * nat) :=
  match s with
  | "" => None
  | String "#" (String "x" t) =>
      let '(d, r) := span (λ a, bool_decide (is_Some (digit_of 16 a))) t in char_ref 16 "#x" d r
  | String "#" t => let '(d, r) := span is_digit t in char_ref 10 "#" d r
  | _ =>
      let '(w, r) := span in_name s in
      match r with
      | "" => None
      | String b _ =>
          if decide (b = ";"%char) then
            Some (default ("&" +:+ w +:+ ";") (if isName w then entity_table w else None), S (String.length w))
          else Some ("&" +:+ w, String.length w)
      end
  end.

(** [text] up to a [<] or the closing [quote]; [b0] and [b1] are the two bytes
    before, [skip] the bytes of a reference still to be passed over. *)
Fixpoint text_go (quote : option ascii) (skip : nat) (b0 b1 : ascii) (s : string) : option (string * string) :=
  match s with
  | "" => Some ("", "")
  | String b s' =>
      match skip with
      | S k => text_go quote k b0 b1 s'
      | 0 =>
          if bool_decide (quote = None ∧ b0 = "]"%char ∧ b1 = "]"%char ∧ b = ">"%char) then None
          else if decide (b = "<"%char) then match quote with Some _ => None | None => Some ("", s) end
          else if decide (quote = Some b) then Some ("", s')
          else if decide (b = "&"%char) then
            '(w, n) ← entity s';
            '(t, r) ← text_go quote n zero zero s';
            Some (w +:+ t, r)
          else
            '(t, r) ← text_go quote 0 b1 b s';
            Some ((if decide (b = CRb) then String LFb ""
                   else if decide (b1 = CRb ∧ b = LFb) then "" else String b "") +:+ t, r)
      end
  end.

Definition checked (x : option (string * string)) : option (string * string) :=
  '(t, r) ← x; if valid_text t then Some (t, r) else None.

Definition text (quote : option ascii) (s : string) : option (string * string) :=
  checked (text_go quote 0 zero zero s).

(** The line ends of a CDATA section. *)
Fixpoint norm_lines (b1 : ascii) (s : string) : string :=
  match s with
  | "" => ""
  | String b s =>
      if decide (b = CRb) then String LFb (norm_lines b s)
      else if decide (b1 = CRb ∧ b = LFb) then norm_lines b s
      else String b (norm_lines b s)
  end.

(** ** Markup *)

(** [procInst]: the quoted value of a pseudo attribute of the declaration. *)
Fixpoint procInst (fuel : nat) (param s : string) : string :=
  match fuel with
  | 0 => ""
  | S fuel =>
      match Index s (param +:+ "=") with
      | None => ""
      | Some k =>
          match str_drop (k + S (String.length param)) s with
          | "" => ""
          | String c t =>
              if decide (c = "'"%char ∨ String c "" = dq)
              then match Index t (String c "") with Some j => str_take j t | None => "" end
              else procInst fuel param t
          end
      end
  end.

Definition declaration_ok (content : string) : bool :=
  let ver := procInst (S (String.length content)) "version" content in
  let enc := procInst (S (String.length content)) "encoding" content in
  bool_decide (ver = "" ∨ ver = "1.0") && (bool_decide (enc = "") || EqualFold enc "utf-8").

Definition proc_inst (s : string) : option (token * string) :=
  '(target, s) ← name s;
  let s := skip_space s in
  i ← Index s "?>";
  if bool_decide (target = "xml") && negb (declaration_ok (str_take i s)) then None
  else Some (OtherT, str_drop (i + 2) s).

Definition comment (s : string) : option (token * string) :=
  i ← Index s "--";
  match str_drop (i + 2) s with
  | String ">" r => Some (OtherT, r)
  | _ => None
  end.

Definition cdata (s : string) : option (token * string) :=
  i ← Index s "]]>";
  let t := norm_lines zero (str_take i s) in
  if valid_text t then Some (TextT t, str_drop (i + 3) s) else None.

(** A directive: brackets nest, except in quotes and comments. *)
Fixpoint directive (skip : nat) (inquote : option ascii) (depth : nat) (s : string) : option string :=
  match s with
  | "" => None
  | String b s' =>
      match skip with
      | S k => directive k inquote depth s'
      | 0 =>
          match inquote with
          | Some q => directive 0 (if decide (b = q) then None else inquote) depth s'
          | None =>
              if decide (b = ">"%char) then
                match depth with 0 => Some s' | S depth => directive 0 None depth s' end
              else if decide (b = "'"%char ∨ String b "" = dq) then directive 0 (Some b) depth s'
              else if decide (b = "<"%char) then
                if HasPrefix s' "!--" then
                  match Index (str_drop 3 s') "-->" with
                  | Some i => directive (3 + i + 3) None depth s'
                  | None => None
                  end
                else directive 0 None (S depth) s'
              else directive 0 None depth s'
          end
      end
  end.

Definition bang (s : string) : option (token * string) :=
  match s with
  | "" => None
  | String "-" (String "-" t) => comment t
  | String "-" _ => None
  | String "[" t => if HasPrefix t "CDATA[" then cdata (str_drop 6 t) else None
  | String _ t => r ← directive 0 None 0 t; Some (OtherT, r)
  end.

Definition end_tag (s : string) : option (token * string) :=
  '(n, s) ← nsname s;
  match skip_space s with
  | String c r => if decide (c = ">"%char) then Some (EndT n, r) else None
  | "" => None
  end.

Definition unquoted (a : ascii) : bool := is_letter a || is_digit a || bool_decide (a ∈ ["_"; ":"; "-"]%char).

(** [attrval]: the rest after an attribute's value. *)
Definition attrval (s : string) : option string :=
  match s with
  | "" => None
  | String c t =>
      if decide (c = "'"%char ∨ String c "" = dq) then snd <$> text (Some c) t
      else let '(_, r) := span unquoted s in if decide (r = "") then None else Some r
  end.

(** One round of the loop over the attributes: the end of the tag, of an empty
    element or not, or an attribute; and the rest. *)
Inductive attr_step := AEnd (empty : bool) (r : string) | ANext (r : string).

Definition one_attribute (s : string) : option attr_step :=
  match skip_space s with
  | "" => None
  | String c t =>
      if decide (c = ">"%char) then Some (AEnd false t)
      else if decide (c = "/"%char) then
        match t with
        | String d r => if decide (d = ">"%char) then Some (AEnd true r) else None
        | "" => None
        end
      else
        '(_, u) ← nsname (String c t);
        match skip_space u with
        | "" => None
        | String e v =>
            if decide (e = "="%char) then ANext <$> attrval (skip_space v)
            else Some (ANext (String e v)) (* a name alone *)
        end
  end.

Fixpoint attributes (fuel : nat) (s : string) : option (bool * string) :=
  match fuel with
  | 0 => None
  | S fuel =>
      match one_attribute s with
      | Some (AEnd empty r) => Some (empty, r)
      | Some (ANext r) => attributes fuel r
      | None => None
      end
  end.

Definition start_tag (s : string) : option (token * string) :=
  '(n, s) ← nsname s;
  '(empty, r) ← attributes (String.length s) s;
  Some (StartT n empty, r).

Definition rawToken (s : string) : option (token * string) :=
  match s with
  | "" => None
  | String a t =>
      if decide (a = "<"%char) then
        match t with
        | "" => None
        | String b u =>
            if decide (b = "/"%char) then end_tag u
            else if decide (b = "?"%char) then proc_inst u
            else if decide (b = "!"%char) then bang u
            else start_tag t
        end
      else '(w, r) ← text None s; Some (TextT w, r)
  end.

(** ** The tree

    The open elements, innermost first, each with the children read so far. *)

Definition stack : Type := list (xname * list xml).

(** Completing [x] inside the open elements: the next state, or the document. *)
Definition complete (x : xml) (stk : stack) : stack + xml :=
  match stk with
  | [] => inr x
  | (n, k) :: stk => inl ((n, k ++ [x]) :: stk)
  end.

(** An end tag closes the elements up to the one it names; one that names none
    closes the document. *)
Fixpoint close (n : xname) (pending : list xml) (stk : stack) : option (stack + xml) :=
  match stk with
  | [] => None
  | (m, k) :: stk =>
      let k := k ++ pending in
      if decide (local m = local n) then
        if decide (space m = space n) then Some (complete (El (local m) k) stk) else None
      else match stk with
           | [] => Some (inr (El (local m) k))
           | _ => close n [El (local m) k] stk
           end
  end.

Definition xstep (stk : stack) (s : string) : option ((stack + xml) * string) :=
  '(t, r) ← rawToken s;
  match t with
  | StartT n empty => Some (if empty then complete (El (local n) []) stk else inl ((n, []) :: stk), r)
  | EndT n => x ← close n [] stk; Some (x, r)
  | TextT w => Some (inl match stk with [] => [] | (n, k) :: stk => (n, k ++ [Tx w]) :: stk end, r)
  | OtherT => Some (inl stk, r)
  end.

Fixpoint xparse (fuel : nat) (stk : stack) (s : string) : option xml :=
  match fuel with
  | 0 => None
  | S fuel =>
      '(x, r) ← xstep stk s;
      match x with
      | inl stk => xparse fuel stk r
      | inr doc => Some doc
      end
  end.

(** Every step reads at least one byte. *)
Definition Decode (s : string) : option xml := xparse (String.length s) [] s.
End Decoder.

(** ** Decoding into structs *)

(** The text directly inside an element. *)
Fixpoint chardata (kids : list xml) : string :=
  match kids with
  | [] => ""
  | Tx s :: rest => s +:+ chardata rest
  | El _ _ :: rest => chardata rest
  end.

(** The fields of a struct: [step] takes one child element, by its local name. *)
Fixpoint fields {A} (step : string → list xml → A → option A) (kids : list xml) (a : A) : option A :=
  match kids with
  | [] => Some a
  | Tx _ :: rest => fields step rest a
  | El n k :: rest => a ← step n k a; fields step rest a
  end.

Definition int_value (kids : list xml) : option Z :=
  let src := chardata kids in if decide (src = "") then Some 0%Z else ParseInt (TrimSpace src).

Definition ParseBool (s : string) : option bool :=
  if bool_decide (s ∈ ["1"; "t"; "T"; "TRUE"; "true"; "True"]) then Some true
  else if bool_decide (s ∈ ["0"; "f"; "F"; "FALSE"; "false"; "False"]) then Some false
  else None.

Definition bool_value (kids : list xml) : option bool :=
  let src := chardata kids in if decide (src = "") then Some false else ParseBool (TrimSpace src).

(** A path [p>q]: the children [q] of a child [p]. *)
Definition path_field {A} (q : string) (f : list xml → A → option A) (kids : list xml) (a : A) : option A :=
  fields (λ n k a, if decide (n = q) then f k a else Some a) kids a.
