(* ===== verification/SoapDecode.v ===== *)
(** * Reading SOAP envelopes (goagent/internal/cwmp/soap.go, rpc.go)

    [DecodeEnvelope] over the decoder of [Xml]: the struct tags of rpc.go say
    which child element fills which field.  A repeated element fills the same
    field again: text is replaced, lists grow, structs are merged. *)
From S2P Require Import Prelude GoStrings Soap Xml CwmpTypes.

(** ** The structs of rpc.go *)

Definition set_text {A} (f : string → A) (k : list xml) : option A := Some (f (chardata k)).

Definition decode_DeviceID (k : list xml) (d : DeviceID) : option DeviceID :=
  fields (λ n k d,
    let '(mkDeviceID m o p s) := d in
    if decide (n = "Manufacturer") then set_text (λ t, mkDeviceID t o p s) k
    else if decide (n = "OUI") then set_text (λ t, mkDeviceID m t p s) k
    else if decide (n = "ProductClass") then set_text (λ t, mkDeviceID m o t s) k
    else if decide (n = "SerialNumber") then set_text (λ t, mkDeviceID m o p t) k
    else Some d) k d.

Definition decode_EventStruct (k : list xml) : option EventStruct :=
  fields (λ n k e,
    let '(mkEventStruct c y) := e in
    if decide (n = "EventCode") then set_text (λ t, mkEventStruct t y) k
    else if decide (n = "CommandKey") then set_text (λ t, mkEventStruct c t) k
    else Some e) k (mkEventStruct "" "").

(** The attribute's tag names [xsi:type], which no attribute's local name is. *)
Definition decode_ValueNode (k : list xml) (v : ValueNode) : option ValueNode :=
  set_text (λ t, mkValue (v_Type v) t) k.

Definition decode_ParameterValueStruct (k : list xml) : option ParameterValueStruct :=
  fields (λ n k p,
    let '(mkPV m v) := p in
    if decide (n = "Name") then set_text (λ t, mkPV t v) k
    else if decide (n = "Value") then mkPV m <$> decode_ValueNode k v
    else Some p) k (mkPV "" (mkValue "" "")).

Definition decode_ParameterInfoStruct (k : list xml) : option ParameterInfoStruct :=
  fields (λ n k p,
    let '(mkPI m w) := p in
    if decide (n = "Name") then set_text (λ t, mkPI t w) k
    else if decide (n = "Writable") then mkPI m <$> bool_value k
    else Some p) k (mkPI "" false).

(** A list field with the path [p>q]. *)
Definition append_path {A} (q : string) (f : list xml → option A) (k : list xml) (l : list A) : option (list A) :=
  path_field q (λ k l, a ← f k; Some (l ++ [a])) k l.

Definition decode_Inform (k : list xml) (i : Inform) : option Inform :=
  fields (λ n k i,
    let '(mkInform d e m c r l) := i in
    if decide (n = "DeviceID") then d ← decode_DeviceID k d; Some (mkInform d e m c r l)
    else if decide (n = "Event") then e ← append_path "EventStruct" decode_EventStruct k e; Some (mkInform d e m c r l)
    else if decide (n = "MaxEnvelopes") then m ← int_value k; Some (mkInform d e m c r l)
    else if decide (n = "CurrentTime") then set_text (λ t, mkInform d e m t r l) k
    else if decide (n = "RetryCount") then r ← int_value k; Some (mkInform d e m c r l)
    else if decide (n = "ParameterList") then
      l ← append_path "ParameterValueStruct" decode_ParameterValueStruct k l; Some (mkInform d e m c r l)
    else Some i) k i.

Definition decode_FaultStruct (k : list xml) (f : FaultStruct) : option FaultStruct :=
  fields (λ n k f,
    let '(mkFaultStruct c s) := f in
    if decide (n = "FaultCode") then c ← int_value k; Some (mkFaultStruct c s)
    else if decide (n = "FaultString") then set_text (λ t, mkFaultStruct c t) k
    else Some f) k f.

Definition decode_TransferComplete (k : list xml) (t : TransferComplete) : option TransferComplete :=
  fields (λ n k t,
    let '(mkTransferComplete c f s e) := t in
    if decide (n = "CommandKey") then set_text (λ c, mkTransferComplete c f s e) k
    else if decide (n = "FaultStruct") then f ← decode_FaultStruct k f; Some (mkTransferComplete c f s e)
    else if decide (n = "StartTime") then set_text (λ s, mkTransferComplete c f s e) k
    else if decide (n = "CompleteTime") then set_text (λ e, mkTransferComplete c f s e) k
    else Some t) k t.

Definition decode_ATC (k : list xml) (x : AutonomousTransferComplete) : option AutonomousTransferComplete :=
  fields (λ n k x,
    let '(mkATC a u d ft z g f s e) := x in
    if decide (n = "AnnounceURL") then set_text (λ a, mkATC a u d ft z g f s e) k
    else if decide (n = "TransferURL") then set_text (λ u, mkATC a u d ft z g f s e) k
    else if decide (n = "IsDownload") then d ← bool_value k; Some (mkATC a u d ft z g f s e)
    else if decide (n = "FileType") then set_text (λ ft, mkATC a u d ft z g f s e) k
    else if decide (n = "FileSize") then z ← int_value k; Some (mkATC a u d ft z g f s e)
    else if decide (n = "TargetFileName") then set_text (λ g, mkATC a u d ft z g f s e) k
    else if decide (n = "FaultStruct") then f ← decode_FaultStruct k f; Some (mkATC a u d ft z g f s e)
    else if decide (n = "StartTime") then set_text (λ s, mkATC a u d ft z g f s e) k
    else if decide (n = "CompleteTime") then set_text (λ e, mkATC a u d ft z g f s e) k
    else Some x) k x.

Definition decode_CWMPFault (k : list xml) (c : CWMPFault) : option CWMPFault :=
  fields (λ n k c,
    let '(mkCWMPFault fc fs) := c in
    if decide (n = "FaultCode") then set_text (λ t, mkCWMPFault t fs) k
    else if decide (n = "FaultString") then set_text (λ t, mkCWMPFault fc t) k
    else Some c) k c.

Definition decode_Fault (k : list xml) (f : Fault) : option Fault :=
  fields (λ n k f,
    let '(mkFault c s d) := f in
    if decide (n = "faultcode") then set_text (λ t, mkFault t s d) k
    else if decide (n = "faultstring") then set_text (λ t, mkFault c t d) k
    else if decide (n = "detail") then d ← path_field "Fault" decode_CWMPFault k d; Some (mkFault c s d)
    else Some f) k f.

(** ** Body and envelope *)

(** The members that the agent itself sends are decoded too, only to be dropped:
    what matters is whether they can be. *)
Definition decode_ignored (n : string) (k : list xml) : option unit :=
  if decide (n = "InformResponse") then
    path_field "MaxEnvelopes" (λ k _, int_value k ≫= λ _, Some tt) k tt
  else if decide (n = "GetParameterNames") then
    path_field "NextLevel" (λ k _, bool_value k ≫= λ _, Some tt) k tt
  else Some tt.

Definition zero_Inform : Inform := mkInform (mkDeviceID "" "" "" "") [] 0 "" 0 [].
Definition zero_FaultStruct : FaultStruct := mkFaultStruct 0 "".
Definition zero_TC : TransferComplete := mkTransferComplete "" zero_FaultStruct "" "".
Definition zero_ATC : AutonomousTransferComplete := mkATC "" "" false "" 0 "" zero_FaultStruct "" "".
Definition zero_Fault : Fault := mkFault "" "" (mkCWMPFault "" "").

Definition body_field (n : string) (k : list xml) (b : Body) : option Body :=
  let '(mkBody i g t a f gpv spv gpn r) := b in
  if decide (n = "Inform") then
    i ← decode_Inform k (default zero_Inform i); Some (mkBody (Some i) g t a f gpv spv gpn r)
  else if decide (n = "GetRPCMethods") then Some (mkBody i (Some tt) t a f gpv spv gpn r)
  else if decide (n = "TransferComplete") then
    t ← decode_TransferComplete k (default zero_TC t); Some (mkBody i g (Some t) a f gpv spv gpn r)
  else if decide (n = "AutonomousTransferComplete") then
    a ← decode_ATC k (default zero_ATC a); Some (mkBody i g t (Some a) f gpv spv gpn r)
  else if decide (n = "Fault") then
    f ← decode_Fault k (default zero_Fault f); Some (mkBody i g t a (Some f) gpv spv gpn r)
  else if decide (n = "GetParameterValuesResponse") then
    l ← path_field "ParameterList" (append_path "ParameterValueStruct" decode_ParameterValueStruct) k (default [] gpv);
    Some (mkBody i g t a f (Some l) spv gpn r)
  else if decide (n = "SetParameterValuesResponse") then
    s ← path_field "Status" (λ k _, int_value k) k (default 0%Z spv); Some (mkBody i g t a f gpv (Some s) gpn r)
  else if decide (n = "GetParameterNamesResponse") then
    l ← path_field "ParameterList" (append_path "ParameterInfoStruct" decode_ParameterInfoStruct) k (default [] gpn);
    Some (mkBody i g t a f gpv spv (Some l) r)
  else if decide (n = "RebootResponse") then Some (mkBody i g t a f gpv spv gpn (Some tt))
  else _ ← decode_ignored n k; Some b.

Definition decode_Body (k : list xml) (b : Body) : option Body := fields body_field k b.

Definition decode_Envelope (k : list xml) : option Envelope :=
  fields (λ n k e,
    let '(mkEnvelope id b) := e in
    if decide (n = "Header") then id ← path_field "ID" (λ k _, Some (chardata k)) k id; Some (mkEnvelope id b)
    else if decide (n = "Body") then b ← decode_Body k b; Some (mkEnvelope id b)
    else Some e) k (mkEnvelope "" empty_body).

(** [XMLName] fixes the name of the root. *)
Definition DecodeEnvelope (unicode_name : string → bool) (body : string) : option Envelope :=
  doc ← Decode unicode_name body;
  match doc with
  | El n k => if decide (n = "Envelope") then decode_Envelope k else None
  | Tx _ => None
  end.
