(* ===== verification/XmlRoundtrip.v ===== *)
(** * Reading back what was written ([Xml] after [Soap])

    The decoder finishes on every input: its fuel is the length of the text, and
    each step consumes some of it.  Text that [EscapeText] wrote is read back
    exactly, and so is any tree of elements over such text. *)
From S2P Require Import Prelude GoStrings Soap Xml.

(** ** Every token consumes its text *)

Section Length.
Variable unicode_name : string → bool.

Lemma span_app f s : (span f s).1 +:+ (span f s).2 = s.
Proof.
  induction s as [|a s IH]; [done|]. cbn [span]. destruct (f a); [|done].
  destruct (span f s) as [w r]. cbn [fst snd] in *. by rewrite str_app_cons, IH.
Qed.

Lemma span_length f s w r : span f s = (w, r) → String.length s = String.length w + String.length r.
Proof. intros Hs. rewrite <- (span_app f s), Hs, str_length_app. done. Qed.

Lemma skip_space_length s : String.length (skip_space s) ≤ String.length s.
Proof. unfold skip_space. destruct (span is_space s) as [w r] eqn:Hs. apply span_length in Hs. simpl. lia. Qed.

Lemma name_length s w r : name unicode_name s = Some (w, r) → String.length r < String.length s.
Proof.
  unfold name. destruct (span in_name s) as [w' r'] eqn:Hs. destruct (bool_decide _ && _) eqn:Hn; [|done].
  intros [= <- <-]. apply andb_true_iff in Hn as [_ Hn]. apply span_length in Hs.
  destruct w'; simpl in *; [done|lia].
Qed.

Lemma nsname_length s n r : nsname unicode_name s = Some (n, r) → String.length r < String.length s.
Proof.
  unfold nsname. destruct (name unicode_name s) as [[w r']|] eqn:Hn; [|done]. apply name_length in Hn.
  cbn [mbind option_bind]. case_decide; [done|]. destruct (Cut w ":") as [[p l]|].
  - case_decide; intros [= _ <-]; done.
  - intros [= _ <-]; done.
Qed.

Lemma str_drop_length n s : String.length (str_drop n s) = String.length s - n.
Proof. revert s. induction n as [|n IH]; intros [|a s]; simpl; done || apply IH. Qed.

(** A byte that is not the start of markup is consumed. *)
Lemma text_go_length q s : ∀ k b0 b1 t r, text_go unicode_name q k b0 b1 s = Some (t, r) →
  String.length r ≤ String.length s ∧
  (q = None → k = 0 → head (String.list_ascii_of_string s) ≠ Some "<"%char → s ≠ "" → String.length r < String.length s).
Proof.
  induction s as [|b s IH]; intros k b0 b1 t r; cbn [text_go].
  - intros [= _ <-]. split; [done|]. by intros.
  - destruct k as [|k].
    2: { intros [Hl _]%IH. simpl. split; [lia|]. by intros. }
    case_bool_decide; [done|]. case_decide as Hlt.
    { destruct q; [done|]. intros [= _ <-]. split; [done|]. subst b. by intros. }
    case_decide as Hq; [intros [= _ <-]; simpl; split; [lia|]; intros; lia|].
    case_decide as Hamp.
    + destruct (entity unicode_name s) as [[w n]|]; [|done]. cbn [mbind option_bind].
      destruct (text_go _ _ _ _ _ s) as [[t' r']|] eqn:Ht; [|done]. cbn [mbind option_bind]. intros [= _ <-].
      apply IH in Ht as [Ht _]. simpl. split; [lia|]. intros; lia.
    + destruct (text_go _ _ _ _ _ s) as [[t' r']|] eqn:Ht; [|done]. cbn [mbind option_bind]. intros [= _ <-].
      apply IH in Ht as [Ht _]. simpl. split; [lia|]. intros; lia.
Qed.

Lemma text_length q s t r : text unicode_name q s = Some (t, r) → String.length r ≤ String.length s ∧
  (q = None → head (String.list_ascii_of_string s) ≠ Some "<"%char → s ≠ "" → String.length r < String.length s).
Proof.
  unfold text, checked. destruct (text_go _ _ _ _ _ s) as [[t' r']|] eqn:Ht; [|done]. cbn [mbind option_bind].
  destruct (valid_text t'); [|done]. intros [= <- <-]. apply text_go_length in Ht as [Hl Hs]. split; [done|]. auto.
Qed.

Lemma directive_length s : ∀ k q d r, directive k q d s = Some r → String.length r ≤ String.length s.
Proof.
  induction s as [|b s IH]; intros k q d r; cbn [directive]; [done|].
  destruct k; [|intros ?%IH; simpl; lia]. destruct q; [intros ?%IH; simpl; lia|].
  case_decide; [destruct d; [intros [= <-]; simpl; lia|intros ?%IH; simpl; lia]|].
  case_decide; [intros ?%IH; simpl; lia|]. case_decide; [|intros ?%IH; simpl; lia].
  destruct (HasPrefix s "!--"); [destruct (Index _ _); [|done]|]; intros ?%IH; simpl; lia.
Qed.

Lemma attrval_length s r : attrval unicode_name s = Some r → String.length r ≤ String.length s.
Proof.
  destruct s as [|c s]; cbn [attrval]; [done|]. case_decide.
  - destruct (text _ _ s) as [[t r']|] eqn:Ht; [|done]. intros [= <-]. apply text_length in Ht as [Ht _]. simpl. lia.
  - destruct (span unquoted (String c s)) as [w r'] eqn:Hs. case_decide; [done|]. intros [= <-].
    apply span_length in Hs. lia.
Qed.

Lemma one_attribute_length s x : one_attribute unicode_name s = Some x →
  match x with
  | AEnd _ r | ANext r => String.length r < String.length s
  end.
Proof.
  unfold one_attribute. pose proof (skip_space_length s) as Hs. destruct (skip_space s) as [|c t]; [done|].
  simpl in Hs. case_decide; [intros [= <-]; lia|]. case_decide.
  - destruct t as [|d r]; [done|]. case_decide; [|done]. intros [= <-]. simpl in Hs. lia.
  - destruct (nsname unicode_name (String c t)) as [[n u]|] eqn:Hn; [|done]. apply nsname_length in Hn.
    cbn [mbind option_bind]. simpl in Hn. pose proof (skip_space_length u) as Hu.
    destruct (skip_space u) as [|e v]; [done|]. simpl in Hu. case_decide.
    + destruct (attrval _ _) as [r|] eqn:Hv; [|done]. intros [= <-]. apply attrval_length in Hv.
      pose proof (skip_space_length v). lia.
    + intros [= <-]. simpl. lia.
Qed.

Lemma attributes_length n s e r : attributes unicode_name n s = Some (e, r) → String.length r < String.length s.
Proof.
  revert s. induction n as [|n IH]; intros s; cbn [attributes]; [done|].
  destruct (one_attribute unicode_name s) as [[e' r'|r']|] eqn:Ho; [| |done]; apply one_attribute_length in Ho.
  - by intros [= _ <-].
  - intros ?%IH. lia.
Qed.

(** The length of the tag is fuel enough for its attributes. *)
Lemma attributes_fuel n s : String.length s ≤ n → attributes unicode_name n s = attributes unicode_name (String.length s) s.
Proof.
  revert s. induction n as [n IH] using lt_wf_ind; intros s Hl.
  destruct n as [|n]; [by replace (String.length s) with 0 by lia|].
  destruct s as [|a s]; [done|]. cbn [attributes String.length]. simpl in Hl.
  destruct (one_attribute unicode_name (String a s)) as [[e' r'|r']|] eqn:Ho; [done| |done].
  apply one_attribute_length in Ho. simpl in Ho. rewrite (IH n), (IH (String.length s)); done || lia.
Qed.

Lemma bang_length s t r : bang s = Some (t, r) → String.length r ≤ String.length s.
Proof.
  assert (Hcom : ∀ u, comment u = Some (t, r) → String.length r ≤ String.length u).
  { intros u. unfold comment. destruct (Index u "--") as [i|]; [|done]. cbn [mbind option_bind].
    pose proof (str_drop_length (i + 2) u). destruct (str_drop (i + 2) u) as [|c v]; [done|]. simpl in *.
    destruct c as [[] [] [] [] [] [] [] []]; try done. intros [= _ <-]. lia. }
  assert (Hcd : ∀ u, cdata u = Some (t, r) → String.length r ≤ String.length u).
  { intros u. unfold cdata. destruct (Index u "]]>") as [i|]; [|done]. cbn [mbind option_bind].
    destruct (valid_text _); [|done]. intros [= _ <-]. rewrite str_drop_length. lia. }
  assert (Hdir : ∀ c u, (r ← directive 0 None 0 u; Some (OtherT, r)) = Some (t, r) →
    String.length r ≤ String.length (String c u)).
  { intros c u. destruct (directive _ _ _ _) as [r'|] eqn:Hd; [|done]. intros [= _ <-].
    apply directive_length in Hd. simpl. lia. }
  destruct s as [|c u]; [done|]. destruct (decide (c = "-"%char)) as [->|].
  - destruct u as [|d v]; [done|]. intros Hb. change (String.length r ≤ S (S (String.length v))).
    destruct d as [[] [] [] [] [] [] [] []]; try done. apply Hcom in Hb. lia.
  - destruct (decide (c = "["%char)) as [->|].
    + cbn [bang]. destruct (HasPrefix u "CDATA["); [|done]. intros ?%Hcd. rewrite str_drop_length in *. simpl. lia.
    + intros Hb. apply (Hdir c u). by destruct c as [[] [] [] [] [] [] [] []].
Qed.

Lemma rawToken_length s t r : rawToken unicode_name s = Some (t, r) → String.length r < String.length s.
Proof.
  assert (Hend : ∀ u, end_tag unicode_name u = Some (t, r) → String.length r ≤ String.length u).
  { intros u. unfold end_tag. destruct (nsname _ u) as [[n v]|] eqn:Hn; [|done]. cbn [mbind option_bind].
    apply nsname_length in Hn. pose proof (skip_space_length v). destruct (skip_space v) as [|c w]; [done|].
    case_decide; [|done]. intros [= _ <-]. simpl in *. lia. }
  assert (Hpi : ∀ u, proc_inst unicode_name u = Some (t, r) → String.length r ≤ String.length u).
  { intros u. unfold proc_inst. destruct (name _ u) as [[n v]|] eqn:Hn; [|done]. cbn [mbind option_bind].
    apply name_length in Hn. destruct (Index _ _) as [i|]; [|done]. cbn [mbind option_bind].
    destruct (_ && _); [done|]. intros [= _ <-]. rewrite str_drop_length. pose proof (skip_space_length v). lia. }
  assert (Hst : ∀ u, start_tag unicode_name u = Some (t, r) → String.length r ≤ String.length u).
  { intros u. unfold start_tag. destruct (nsname _ u) as [[n v]|] eqn:Hn; [|done]. cbn [mbind option_bind].
    apply nsname_length in Hn. destruct (attributes _ _ v) as [[e w]|] eqn:Ha; [|done]. intros [= _ <-].
    apply attributes_length in Ha. lia. }
  destruct s as [|a s]; [done|]. cbn [rawToken]. case_decide as Hne.
  - destruct s as [|b s]; [done|]. intros Hr.
    enough (String.length r ≤ String.length (String b s)) by (simpl in *; lia).
    case_decide; [apply Hend in Hr; simpl; lia|]. case_decide; [apply Hpi in Hr; simpl; lia|].
    case_decide; [apply bang_length in Hr; simpl; lia|]. by apply Hst.
  - destruct (text _ _ _) as [[w r']|] eqn:Ht; [|done]. intros [= _ <-]. apply text_length in Ht as [_ Ht].
    apply Ht; [done| |done]. simpl. congruence.
Qed.
End Length.

(** ** Decoding is the closure of its steps *)

Section Parses.
Variable unicode_name : string → bool.

(** Any number of steps that do not yet complete the document. *)
Inductive xsteps : stack * string → stack * string → Prop :=
| xsteps_refl x : xsteps x x
| xsteps_cons stk s stk' r y :
    xstep unicode_name stk s = Some (inl stk', r) → xsteps (stk', r) y → xsteps (stk, s) y.

(** The document that the steps from [x] complete. *)
Definition parses (x : stack * string) (doc : xml) : Prop :=
  ∃ stk s r, xsteps x (stk, s) ∧ xstep unicode_name stk s = Some (inr doc, r).

Lemma xsteps_trans x y z : xsteps x y → xsteps y z → xsteps x z.
Proof. induction 1; [done|]. intros Hz. eapply xsteps_cons; eauto. Qed.

Lemma xsteps_one stk s stk' r : xstep unicode_name stk s = Some (inl stk', r) → xsteps (stk, s) (stk', r).
Proof. intros Hx. eapply xsteps_cons; [done|apply xsteps_refl]. Qed.

Lemma xstep_length stk s x r : xstep unicode_name stk s = Some (x, r) → String.length r < String.length s.
Proof.
  unfold xstep. destruct (rawToken unicode_name s) as [[t r']|] eqn:Ht; [|done]. apply rawToken_length in Ht.
  cbn [mbind option_bind]. destruct t as [n e|n|w|]; [by intros [= _ <-]| |by intros [= _ <-]..].
  destruct (close n [] stk); [|done]. by intros [= _ <-].
Qed.

Lemma xparse_sound fuel stk s doc : xparse unicode_name fuel stk s = Some doc → parses (stk, s) doc.
Proof.
  revert stk s. induction fuel as [|fuel IH]; intros stk s; cbn [xparse]; [done|].
  destruct (xstep unicode_name stk s) as [[[stk'|d] r]|] eqn:Hx; [| |done]; cbn [mbind option_bind].
  - intros (stk2 & s2 & r2 & Hs & Hd)%IH. exists stk2, s2, r2. split; [|done]. by eapply xsteps_cons.
  - intros [= ->]. exists stk, s, r. split; [apply xsteps_refl|done].
Qed.

Lemma xparse_complete x doc : parses x doc → ∀ fuel, String.length x.2 ≤ fuel → xparse unicode_name fuel x.1 x.2 = Some doc.
Proof.
  intros (stk & s & r & Hs & Hd). remember (stk, s) as y eqn:Hy.
  induction Hs as [x|stk1 s1 stk2 s2 z Hx Hz IH]; intros fuel Hl.
  - subst x. cbn [fst snd] in *. pose proof (xstep_length _ _ _ _ Hd). destruct fuel; [lia|]. cbn [xparse]. by rewrite Hd.
  - cbn [fst snd] in *. pose proof (xstep_length _ _ _ _ Hx). destruct fuel; [lia|]. cbn [xparse]. rewrite Hx.
    cbn [mbind option_bind]. apply IH; [done|lia].
Qed.

(** Decoding terminates within the length of its input: it yields a document
    exactly when some number of steps reads one, so it fails only on text in
    which no sequence of steps completes an element, never for lack of fuel;
    and more fuel changes nothing, for the attributes of a tag either. *)
Theorem Decode_terminates s :
  (∀ doc, Decode unicode_name s = Some doc ↔ parses ([], s) doc) ∧
  (∀ n, String.length s ≤ n → xparse unicode_name n [] s = Decode unicode_name s) ∧
  (∀ n, String.length s ≤ n → attributes unicode_name n s = attributes unicode_name (String.length s) s).
Proof.
  assert (Hiff : ∀ n doc, String.length s ≤ n → xparse unicode_name n [] s = Some doc ↔ parses ([], s) doc).
  { intros n doc Hn. split; [apply xparse_sound|]. intros Hp. by apply (xparse_complete _ _ Hp). }
  split; [|split].
  - intros doc. by apply Hiff.
  - intros n Hn. apply option_eq. intros doc. unfold Decode. by rewrite !Hiff.
  - intros n Hn. by apply attributes_fuel.
Qed.
End Parses.

(** ** Escaped text is read back *)

Definition dqb : ascii := byte_of 34.

(** A byte that is copied by the escaper and the decoder alike. *)
Definition specials : list ascii := ["<"; ">"; "&"; "'"; dqb]%char.
Definition safe (a : ascii) : bool := bool_decide (32 ≤ nat_of_ascii a) && bool_decide (a ∉ specials).

Lemma specials_low : Forall (λ b, nat_of_ascii b ∈ [34; 38; 39; 60; 62]) specials.
Proof. repeat constructor; apply (bool_decide_unpack _); vm_compute; exact I. Qed.

Fixpoint safe_front (n : nat) (s : string) : Prop :=
  match n, s with
  | S n, String a s => safe a = true ∧ safe_front n s
  | S _, "" => False
  | 0, _ => True
  end.

Lemma in_range_safe lo hi a : (128 ≤ lo)%Z → in_range lo hi a = true → safe a = true.
Proof.
  intros Hlo [H1 H2]%bool_decide_eq_true. unfold safe, byteZ in *. apply andb_true_iff.
  split; apply bool_decide_eq_true; [lia|]. intros Ha.
  apply (proj1 (Forall_forall _ _) specials_low) in Ha. rewrite !elem_of_cons, elem_of_nil in Ha. lia.
Qed.

Lemma second_byte_safe n a : second_byte n a = true → safe a = true.
Proof. unfold second_byte. repeat case_decide; apply in_range_safe; lia. Qed.

Lemma DecodeRune_safe s r w : DecodeRune s = (r, w) → escape_rune r w = None → s ≠ "" → 0 < w ∧ safe_front w s.
Proof.
  destruct s as [|a s1]; [done|]. intros Hd He _. revert Hd He. unfold DecodeRune.
  assert (Hbad : ∀ w : nat, escape_rune 65533 1 = None → False) by done.
  case_decide as H128.
  { intros [= <- <-] He. split; [lia|]. split; [|done]. unfold safe. unfold byteZ in *.
    unfold escape_rune in He. repeat (case_decide; [done|]).
    destruct (isInCharacterRange (Z.of_nat (nat_of_ascii a))) eqn:Hr; [|done].
    apply bool_decide_eq_true in Hr. apply andb_true_iff.
    split; apply bool_decide_eq_true; [lia|]. intros Ha.
    apply (proj1 (Forall_forall _ _) specials_low) in Ha. rewrite !elem_of_cons, elem_of_nil in Ha. lia. }
  destruct s1 as [|b s2]; [intros [= <- <-] He; by apply Hbad in He|].
  destruct (in_range 194 223 a && in_range 128 191 b) eqn:H2.
  { intros [= <- <-] _. apply andb_true_iff in H2 as [Ha Hb].
    split; [lia|]. cbn [safe_front]. split_and!; [eapply in_range_safe, Ha; lia|eapply in_range_safe, Hb; lia|done]. }
  destruct s2 as [|c s3]; [intros [= <- <-] He; by apply Hbad in He|].
  destruct (in_range 224 239 a && second_byte _ b && in_range 128 191 c) eqn:H3.
  { intros [= <- <-] _. apply andb_true_iff in H3 as [[Ha Hb]%andb_true_iff Hc].
    split; [lia|]. cbn [safe_front].
    split_and!; [eapply in_range_safe, Ha; lia|by eapply second_byte_safe|eapply in_range_safe, Hc; lia|done]. }
  destruct s3 as [|d s4]; [intros [= <- <-] He; by apply Hbad in He|].
  destruct (in_range 240 244 a && _ && _ && _) eqn:H4; [|intros [= <- <-] He; by apply Hbad in He].
  intros [= <- <-] _. apply andb_true_iff in H4 as [[[Ha Hb]%andb_true_iff Hc]%andb_true_iff Hd].
  split; [lia|]. cbn [safe_front].
  split_and!; [eapply in_range_safe, Ha; lia|by eapply second_byte_safe|eapply in_range_safe, Hc; lia|
    eapply in_range_safe, Hd; lia|done].
Qed.

Section Text.
Variable unicode_name : string → bool.
Abbreviation text_go := (text_go unicode_name).

(** What ends a text: markup, or the quote of an attribute. *)
Definition ends_text (quote : option ascii) (s : string) : Prop :=
  match quote with
  | None => ∃ t, s = String "<" t
  | Some q => (q = dqb ∨ q = "'"%char) ∧ ∃ t, s = String q t
  end.
Definition after_text (quote : option ascii) (s : string) : string :=
  match quote with None => s | Some _ => str_drop 1 s end.

Lemma text_go_end quote b0 b1 s : ends_text quote s → text_go quote 0 b0 b1 s = Some ("", after_text quote s).
Proof.
  destruct quote as [q|]; cbn [ends_text].
  - intros [Hq [t ->]]. cbn [text_go]. rewrite bool_decide_false by naive_solver.
    rewrite decide_False by (destruct Hq as [->| ->]; done). by rewrite decide_True.
  - intros [t ->]. cbn [text_go]. rewrite bool_decide_false by (intros (_ & _ & _ & [=])). by rewrite decide_True.
Qed.

Definition quote_ok (quote : option ascii) : Prop :=
  match quote with None => True | Some q => (q = dqb ∨ q = "'"%char) end.

Lemma text_go_safe quote b0 b1 b s : quote_ok quote → safe b = true →
  text_go quote 0 b0 b1 (String b s) = '(t, r) ← text_go quote 0 b1 b s; Some (String b t, r).
Proof.
  intros Hq [H32%bool_decide_eq_true Hb%bool_decide_eq_true]%andb_true_iff.
  unfold specials in Hb. rewrite !not_elem_of_cons in Hb. destruct Hb as (Hlt & Hgt & Hamp & Hap & Hqu & _).
  cbn [text_go]. rewrite bool_decide_false by naive_solver. rewrite decide_False by done.
  rewrite decide_False. 2: { intros ->. cbn in Hq. naive_solver. }
  rewrite decide_False by done. destruct (text_go quote 0 b1 b s) as [[t r]|]; [|done]. cbn [mbind option_bind].
  rewrite decide_False. 2: { intros ->. by apply Nat.leb_le in H32. }
  rewrite decide_False; [done|]. intros [_ ->]. by apply Nat.leb_le in H32.
Qed.

Lemma text_go_skip quote n b0 b1 w s : String.length w = n → text_go quote n b0 b1 (w +:+ s) = text_go quote 0 b0 b1 s.
Proof.
  revert w. induction n as [|n IH]; intros [|a w] Hw; try done. rewrite str_app_cons. cbn [text_go]. apply IH. by simpl in Hw; lia.
Qed.

(** A reference the decoder knows. *)
Lemma text_go_entity quote b0 b1 w v s : quote_ok quote →
  entity unicode_name (w +:+ s) = Some (v, String.length w) →
  text_go quote 0 b0 b1 ("&" +:+ w +:+ s) = '(t, r) ← text_go quote 0 zero zero s; Some (v +:+ t, r).
Proof.
  intros Hq He. change ("&" +:+ w +:+ s) with (String "&" (w +:+ s)). cbn [text_go].
  rewrite bool_decide_false by (intros (_ & _ & _ & [=])). rewrite decide_False by done.
  rewrite decide_False. 2: { intros ->. cbn in Hq. naive_solver. }
  rewrite decide_True, He by done. cbn [mbind option_bind]. by rewrite text_go_skip.
Qed.

Lemma escape_rune_entity r w e : escape_rune r w = Some e → (r = 65533%Z ∧ w = 1 → False) → isInCharacterRange r = true →
  ∃ b v, r = byteZ b ∧ (r < 128)%Z ∧ e = "&" +:+ v ∧ ∀ s, entity unicode_name (v +:+ s) = Some (String b "", String.length v).
Proof.
  intros He Hbad Hrange. unfold escape_rune in He.
  repeat (case_decide;
    [match goal with H : r = ?n |- _ => exists (byte_of (Z.to_nat n)) end; injection He as <-; subst r; eexists;
     split; [reflexivity|split; [lia|split; [reflexivity|intros s; reflexivity]]]|]).
  rewrite Hrange in He. rewrite bool_decide_false in He by naive_solver. done.
Qed.

Lemma byteZ_inj a b : byteZ a = byteZ b → a = b.
Proof.
  unfold byteZ. intros H. rewrite <- (ascii_nat_embedding a), <- (ascii_nat_embedding b). f_equal. lia.
Qed.

Lemma DecodeRune_low s r w : DecodeRune s = (r, w) → (r < 128)%Z → s ≠ "" → ∃ a t, s = String a t ∧ r = byteZ a ∧ w = 1.
Proof.
  destruct s as [|a s1]; [done|]. intros Hd Hr _. exists a, s1. split; [done|]. revert Hd. unfold DecodeRune.
  assert (Hc : ∀ b, (0 ≤ cont_bits b < 64)%Z) by (intros b; apply Z.mod_pos_bound; lia).
  case_decide as H128; [by intros [= <- <-]|]. destruct s1 as [|b s2]; [intros [= <- <-]; lia|].
  destruct (in_range 194 223 a && _) eqn:H2.
  { intros [= <- <-]. apply andb_true_iff in H2 as [[H1 H3]%bool_decide_eq_true _]. pose proof (Hc b).
    exfalso. Z.div_mod_to_equations. lia. }
  destruct s2 as [|c s3]; [intros [= <- <-]; lia|].
  destruct (in_range 224 239 a && second_byte _ b && _) eqn:H3.
  { intros [= <- <-]. apply andb_true_iff in H3 as [[[H1 H3]%bool_decide_eq_true Hs]%andb_true_iff _].
    pose proof (Hc b). pose proof (Hc c). exfalso. unfold second_byte in Hs. revert Hs.
    case_decide as H224.
    - intros [H4 H5]%bool_decide_eq_true. unfold cont_bits in *. Z.div_mod_to_equations. lia.
    - intros _. Z.div_mod_to_equations. lia. }
  destruct s3 as [|d s4]; [intros [= <- <-]; lia|].
  destruct (in_range 240 244 a && _ && _ && _) eqn:H4; [|intros [= <- <-]; lia].
  intros [= <- <-]. apply andb_true_iff in H4 as [[[[H1 H5]%bool_decide_eq_true Hs]%andb_true_iff _]%andb_true_iff _].
  pose proof (Hc b). pose proof (Hc c). pose proof (Hc d). exfalso. unfold second_byte in Hs. revert Hs.
  rewrite decide_False by lia. rewrite decide_False by lia. case_decide as H240.
  - intros [H6 H7]%bool_decide_eq_true. unfold cont_bits in *. Z.div_mod_to_equations. lia.
  - intros _. Z.div_mod_to_equations. lia.
Qed.

Lemma text_go_escape quote tail : quote_ok quote → ends_text quote tail →
  ∀ s copy b0 b1, safe_front copy s → valid_go copy s = true →
  text_go quote 0 b0 b1 (escape copy s +:+ tail) = Some (s, after_text quote tail).
Proof.
  intros Hq Htail. induction s as [|a s IH]; intros copy b0 b1.
  { intros _ _. by apply text_go_end. }
  destruct copy as [|copy]; cbn [safe_front valid_go escape].
  - intros _. destruct (DecodeRune (String a s)) as [r w] eqn:Hd.
    intros [[Hbad%negb_true_iff Hr]%andb_true_iff Hv]%andb_true_iff. apply bool_decide_eq_false in Hbad.
    destruct (escape_rune r w) as [e|] eqn:He.
    + destruct (escape_rune_entity r w e He) as (b & v & -> & Hlow & -> & Hent); [naive_solver|done|].
      apply DecodeRune_low in Hd as (a' & t & [= <- <-] & Hb & ->); [|done..].
      apply byteZ_inj in Hb as ->. rewrite !str_app_assoc, (text_go_entity quote b0 b1 v (String a "")) by done.
      rewrite (IH 0) by done. done.
    + destruct (DecodeRune_safe _ _ _ Hd He) as [Hw Hs]; [done|].
      destruct w as [|w]; [lia|]. cbn [safe_front] in Hs. destruct Hs as [Ha Hs].
      replace (S w - 1) with w in * by lia. rewrite str_app_cons, text_go_safe by done.
      by rewrite IH.
  - intros [Ha Hs] Hv. rewrite str_app_cons, text_go_safe by done. by rewrite IH.
Qed.

(** Escaped text of valid characters is read back, in an element and in an
    attribute. *)
Lemma text_EscapeText quote s tail : quote_ok quote → ends_text quote tail → valid_text s = true →
  text unicode_name quote (EscapeText s +:+ tail) = Some (s, after_text quote tail).
Proof.
  intros Hq Ht Hv. unfold text, EscapeText. rewrite text_go_escape by done. unfold checked. cbn [mbind option_bind].
  by rewrite Hv.
Qed.
End Text.

(** ** Tags *)

Section Tags.
Variable unicode_name : string → bool.

(** The name of a tag, decided on the name alone. *)
Definition qname (w : string) : option xname :=
  if isName unicode_name w then
    if decide (1 < count_byte ":" w) then None
    else match Cut w ":" with
         | Some (p, l) => if decide (p = "" ∨ l = "") then Some (mkName "" w) else Some (mkName p l)
         | None => Some (mkName "" w)
         end
  else None.

Lemma span_stop f w c r : all_bytes f w = true → f c = false → span f (w +:+ String c r) = (w, String c r).
Proof.
  intros Hw Hc. induction w as [|a w IH].
  - change ("" +:+ String c r) with (String c r). cbn [span]. by rewrite Hc.
  - apply andb_true_iff in Hw as [Ha Hw]. rewrite str_app_cons. cbn [span]. by rewrite Ha, IH.
Qed.

Lemma nsname_qname w m c r : all_bytes isNameByte w = true → qname w = Some m → in_name c = false →
  nsname unicode_name (w +:+ String c r) = Some (m, String c r).
Proof.
  intros Hw Hq Hc. unfold nsname, name. rewrite span_stop; [|eapply all_bytes_impl, Hw|done].
  2: { intros a Ha. unfold in_name. by rewrite Ha, orb_true_r. }
  unfold qname in Hq. destruct (isName unicode_name w); [|done].
  cbn [negb andb bool_decide]. rewrite bool_decide_true by done. cbn [andb mbind option_bind].
  case_decide; [done|]. destruct (Cut w ":") as [[p l]|]; [case_decide|]; by injection Hq as ->.
Qed.

Lemma skip_space_name w r a w' : w = String a w' → is_space a = false → skip_space (w +:+ r) = w +:+ r.
Proof. intros -> Ha. rewrite str_app_cons. unfold skip_space. cbn [span]. by rewrite Ha. Qed.

(** A tag name that the decoder splits into [m]. *)
Definition tag_name (w : string) (m : xname) : Prop := all_bytes isNameByte w = true ∧ qname w = Some m.

Lemma tag_name_first w m : tag_name w m → ∃ a w', w = String a w' ∧ isNameByte a = true.
Proof.
  intros [Hw Hq]. destruct w as [|a w]; [done|]. exists a, w. split; [done|].
  by apply andb_true_iff in Hw as [Ha _].
Qed.

Lemma name_byte_ne a c : isNameByte a = true → isNameByte c = false → a ≠ c.
Proof. congruence. Qed.

Lemma start_tag_token w m e r t : tag_name w m → attributes unicode_name (String.length t) t = Some (e, r) →
  (∃ c u, t = String c u ∧ in_name c = false) →
  rawToken unicode_name ("<" +:+ w +:+ t) = Some (StartT m e, r).
Proof.
  intros Hn Ha (c & u & -> & Hc). destruct (tag_name_first _ _ Hn) as (a & w' & -> & Hab). destruct Hn as [Hw Hq].
  change ("<" +:+ ?x) with (String "<" x). unfold rawToken. rewrite decide_True by done. rewrite str_app_cons.
  repeat rewrite decide_False by (eapply name_byte_ne; [exact Hab|reflexivity]).
  unfold start_tag. rewrite <- str_app_cons, (nsname_qname _ m) by done. cbn [mbind option_bind]. by rewrite Ha.
Qed.

Lemma open_tag_token w m r : tag_name w m → rawToken unicode_name (open_tag w +:+ r) = Some (StartT m false, r).
Proof.
  intros Hn. unfold open_tag. rewrite !str_app_assoc. apply start_tag_token; [done|reflexivity|].
  by eexists _, _.
Qed.

Lemma close_tag_token w m r : tag_name w m → rawToken unicode_name (close_tag w +:+ r) = Some (EndT m, r).
Proof.
  intros [Hw Hq]. unfold close_tag. rewrite !str_app_assoc. change ("</" +:+ ?x) with (String "<" (String "/" x)).
  unfold rawToken. rewrite !decide_True by done. unfold end_tag.
  change (">" +:+ r) with (String ">" r). rewrite (nsname_qname _ m) by done. cbn [mbind option_bind].
  change (skip_space (String ">" r)) with (String ">" r). cbv iota. by rewrite decide_True.
Qed.

(** ** Trees of elements *)

Definition opens (s : string) : Prop := ∃ t, s = String "<" t.

(** [c], before any markup, adds the children [k] to the innermost element. *)
Definition renders (c : string) (k : list xml) : Prop :=
  ∀ m l stk r, opens r → xsteps unicode_name ((m, l) :: stk, c +:+ r) ((m, l ++ k) :: stk, r).

Lemma renders_nil : renders "" [].
Proof. intros m l stk r _. rewrite app_nil_r. apply xsteps_refl. Qed.

Definition text_kids (s : string) : list xml := if decide (s = "") then [] else [Tx s].

Lemma chardata_text s : chardata (text_kids s) = s.
Proof. unfold text_kids. case_decide; [done|]. simpl. apply str_app_nil_r. Qed.

Lemma escape_ne s : s ≠ "" → valid_text s = true → ∃ a t, EscapeText s = String a t ∧ a ≠ "<"%char.
Proof.
  intros Hne Hv. pose proof (EscapeText_clean s) as Hc. destruct (EscapeText s) as [|a t] eqn:He.
  - pose proof (text_EscapeText unicode_name None s (String "<" "") I) as Ht. rewrite He in Ht.
    specialize (Ht (ex_intro _ "" eq_refl) Hv). change ("" +:+ String "<" "") with (String "<" "") in Ht.
    vm_compute in Ht. congruence.
  - apply no_byte_cons in Hc as [Ha _]. by exists a, t.
Qed.

Lemma renders_text s : valid_text s = true → renders (EscapeText s) (text_kids s).
Proof.
  intros Hv m l stk r [t ->]. unfold text_kids. case_decide as Hs; [subst s; by apply renders_nil; eexists|].
  destruct (escape_ne s Hs Hv) as (a & w & He & Ha).
  pose proof (text_EscapeText unicode_name None s (String "<" t) I (ex_intro _ t eq_refl) Hv) as Ht.
  apply xsteps_one. unfold xstep, rawToken. rewrite He in *. rewrite str_app_cons in *.
  rewrite decide_False by done. by rewrite Ht.
Qed.

Lemma renders_app c1 k1 c2 k2 : renders c1 k1 → renders c2 k2 → c2 = "" ∨ opens c2 → renders (c1 +:+ c2) (k1 ++ k2).
Proof.
  intros H1 H2 Ho m l stk r Hr. rewrite str_app_assoc, app_assoc. eapply xsteps_trans; [apply H1|by apply H2].
  destruct Ho as [->|[t ->]]; [done|]. rewrite str_app_cons. by eexists.
Qed.

(** An element with its tags, given the token of its start tag; what follows it
    does not matter. *)
Lemma tagged_steps start w m c k m0 l stk r :
  tag_name w m → renders c k → (∀ r, rawToken unicode_name (start +:+ r) = Some (StartT m false, r)) →
  xsteps unicode_name ((m0, l) :: stk, (start +:+ c +:+ close_tag w) +:+ r) ((m0, l ++ [El (local m) k]) :: stk, r).
Proof.
  intros Hn Hc Hs. rewrite !str_app_assoc. eapply xsteps_cons.
  { unfold xstep. rewrite Hs. reflexivity. }
  eapply xsteps_trans; [apply Hc; by eexists|].
  apply xsteps_one. unfold xstep. rewrite (close_tag_token _ m) by done. cbn [mbind option_bind close].
  rewrite !app_nil_r, !decide_True by done. reflexivity.
Qed.

Lemma renders_tagged start w m c k :
  tag_name w m → renders c k → (∀ r, rawToken unicode_name (start +:+ r) = Some (StartT m false, r)) →
  renders (start +:+ c +:+ close_tag w) [El (local m) k].
Proof. intros Hn Hc Hs m0 l stk r _. by apply tagged_steps. Qed.

Lemma renders_element w m c k : tag_name w m → renders c k → renders (element w c) [El (local m) k].
Proof.
  intros Hn Hc. apply renders_tagged; [done..|]. intros r. by apply open_tag_token.
Qed.

Lemma renders_leaf w m s : tag_name w m → valid_text s = true → renders (element w (EscapeText s)) [El (local m) (text_kids s)].
Proof. intros Hn Hv. by apply renders_element, renders_text. Qed.

Lemma renders_concat {A} (f : A → string) (g : A → xml) l :
  Forall (λ x, renders (f x) [g x] ∧ opens (f x)) l → renders (concat_str (f <$> l)) (g <$> l).
Proof.
  induction 1 as [|x l [Hx Ho] Hl IH]; [apply renders_nil|]. cbn [fmap list_fmap concat_str].
  change (g x :: (g <$> l)) with ([g x] ++ (g <$> l)). apply renders_app; [done|done|].
  destruct Hl as [|y l [_ [t Hy]] _]; [by left|right]. cbn [fmap list_fmap concat_str]. rewrite Hy, str_app_cons. by eexists.
Qed.
End Tags.
