(* ===== verification/DeviceSim.v ===== *)
(** * The simulated device (testsuite/device.go, soap.go, manifest.go)

    A parameter store with an identity that dials the agent, informs it, and
    answers the tasks the agent hands out.  The exchange of one message with the
    agent is a parameter, [post]: it may change the device too, since uploads and
    fault injection run beside the session. *)
From S2P Require Import Prelude GoStrings GoTime LogGen SimHttp NanoConfig CwmpTypes Soap Xml SoapDecode.

(** ** The manifest (manifest.go) *)

Record manifestParam := mkParam {
  mp_Path : string;
  mp_Value : string;
  mp_Type : string;
  mp_Writable : bool }.

Record manifest := mkManifest {
  m_Params : list manifestParam;
  m_byPath : gmap string manifestParam }.

(** [loadManifest] after decoding the embedded asset. *)
Definition loadManifest (params : list manifestParam) : manifest :=
  mkManifest params (foldl (λ m p, <[mp_Path p := p]> m) ∅ params).

Definition seedParams (m : manifest) : gmap string string :=
  foldl (λ out p, <[mp_Path p := mp_Value p]> out) ∅ (m_Params m).

Definition xsdFor (t : string) : string :=
  if decide (t = "unsignedInt") then "xsd:unsignedInt"
  else if decide (t = "int") then "xsd:int"
  else if decide (t = "boolean") then "xsd:boolean"
  else if decide (t = "unsignedLong") then "xsd:unsignedLong"
  else if decide (t = "dateTime") then "xsd:dateTime"
  else if decide (t = "hexBinary") then "xsd:hexBinary"
  else "xsd:string".

Definition xsdType (m : manifest) (path : string) : string :=
  match m_byPath m !! path with
  | Some p => xsdFor (mp_Type p)
  | None => "xsd:string"
  end.

(** ** The device *)

Definition connectionRequestURLPath : string := "Device.ManagementServer.ConnectionRequestURL".
Definition phyCellIDConfigPath : string := "Device.Services.FAPService.1.CellConfig.LTE.RAN.RF.PhyCellID".
Definition phyCellIDInUsePath : string := "Device.Services.FAPService.1.CellConfig.LTE.RAN.RF.X_8C1F64_PhyCellIDInUse".
Definition earfcnDLConfigPath : string := "Device.Services.FAPService.1.CellConfig.LTE.RAN.RF.EARFCNDL".
Definition earfcnDLInUsePath : string := "Device.Services.FAPService.1.CellConfig.LTE.RAN.RF.X_8C1F64_EARFCNDLInUse".
Definition refSignalPowerPath : string := "Device.Services.FAPService.1.CellConfig.LTE.RAN.RF.ReferenceSignalPower".

Record xfer := mkXfer { x_name : string; x_size : Z }.

(** [lastXfer] holds Go's nil until the first [Store]. *)
Record device := mkDev {
  params : gmap string string;
  informsSent : Z;
  pendingXfer : Z;
  lastXfer : option xfer;
  oui : string;
  productClass : string;
  serial : string;
  cwmpID : string;
  index : Z;
  crPort : Z;
  crURL : string }.

Definition set_params (v : gmap string string) (d : device) : device :=
  mkDev v (informsSent d) (pendingXfer d) (lastXfer d) (oui d) (productClass d) (serial d) (cwmpID d)
    (index d) (crPort d) (crURL d).
Definition set_informs (v : Z) (d : device) : device :=
  mkDev (params d) v (pendingXfer d) (lastXfer d) (oui d) (productClass d) (serial d) (cwmpID d)
    (index d) (crPort d) (crURL d).
Definition set_xfer (p : Z) (x : option xfer) (d : device) : device :=
  mkDev (params d) (informsSent d) p x (oui d) (productClass d) (serial d) (cwmpID d)
    (index d) (crPort d) (crURL d).

(** The counters pinned over the manifest. *)
Definition pm_pins : list (string * string) :=
  [("Device.Services.FAPService.1.FAPControl.LTE.AdminState", "1");
   ("Device.PeriodicStatistics.SampleSet.1.Parameter.316.X_8C1F64_CurrentValue", "42.0");
   ("Device.PeriodicStatistics.SampleSet.1.Parameter.315.X_8C1F64_CurrentValue", "18.0");
   ("Device.PeriodicStatistics.SampleSet.1.Parameter.412.X_8C1F64_CurrentValue", "12.5");
   ("Device.PeriodicStatistics.SampleSet.1.Parameter.10.X_8C1F64_CurrentValue", "6");
   ("Device.PeriodicStatistics.SampleSet.1.Parameter.118.X_8C1F64_CurrentValue", "35.2");
   ("Device.PeriodicStatistics.SampleSet.1.Parameter.119.X_8C1F64_CurrentValue", "9.8");
   ("Device.PeriodicStatistics.SampleSet.1.Parameter.168.X_8C1F64_CurrentValue", "120");
   ("Device.PeriodicStatistics.SampleSet.1.Parameter.170.X_8C1F64_CurrentValue", "118");
   ("Device.DeviceInfo.UpTime", "86400");
   ("Device.DeviceInfo.MemoryStatus.Free", "180000");
   ("Device.DeviceInfo.MemoryStatus.Total", "256000");
   ("Device.DeviceInfo.ProcessStatus.CPUUsage", "17")].

Definition write_all (l : list (string * string)) (m : gmap string string) : gmap string string :=
  foldl (λ m kv, <[kv.1 := kv.2]> m) m l.

(** Mirroring one configured value into its in-use path. *)
Definition mirror (overlay : gmap string string) (cfgPath inUsePath : string) (m : gmap string string) : gmap string string :=
  match overlay !! cfgPath with
  | Some v => if overlay !! inUsePath is None then <[inUsePath := v]> m else m
  | None => m
  end.

Definition newDeviceFromSpec (m : manifest) (spec : deviceSpec) : device :=
  let p := seedParams m in
  let p := write_all [("Device.LAN.IPAddress", "192.168.8.248"); ("Device.WAN.IPAddress", "10.0.0.10");
                      ("Device.DeviceInfo.SerialNumber", ds_Serial spec);
                      ("Device.DeviceInfo.ProductClass", ds_ProductClass spec)] p in
  let p := write_all pm_pins p in
  let p := if decide (ds_CRURL spec ≠ "") then <[connectionRequestURLPath := ds_CRURL spec]> p else p in
  let p := ds_Params spec ∪ p in
  let p := mirror (ds_Params spec) earfcnDLConfigPath earfcnDLInUsePath
             (mirror (ds_Params spec) phyCellIDConfigPath phyCellIDInUsePath p) in
  mkDev p 0 0 None (ds_OUI spec) (ds_ProductClass spec) (ds_Serial spec) (ds_CWMPID spec) (ds_Index spec)
    (ds_CRPort spec) (ds_CRURL spec).

Definition newDevice (m : manifest) : option device :=
  match deviceSpecs defaultNanolinkConfig with
  | Ok (spec :: _) => Some (newDeviceFromSpec m spec)
  | _ => None (* Go would panic; never taken *)
  end.

Definition get (paths : list string) (d : device) : list (string * string) :=
  omap (λ p, v ← params d !! p; Some (p, v)) paths.

Definition set (writes : list (string * string)) (d : device) : device := set_params (write_all writes (params d)) d.

Definition incInform (d : device) : device := set_informs (informsSent d + 1) d.
Definition informs (d : device) : Z := informsSent d.

Definition markTransfer (name : string) (size : Z) (d : device) : device :=
  set_xfer (pendingXfer d + 1) (Some (mkXfer name size)) d.

(** The compare-and-swap succeeds when nothing steps in. *)
Definition takeTransfer (d : device) : option xfer * device :=
  if decide (pendingXfer d ≤ 0)%Z then (None, d)
  else (Some (default (mkXfer "" 0) (lastXfer d)), set_xfer (pendingXfer d - 1) (lastXfer d) d).

(** ** Fault injection: [/device/params] *)

Section Params.
(** [encoding/json] into a [map[string]string], an error or the map. *)
Variable json_Decode : string → string + gmap string string.

Definition deviceParamsHandler (r : request) (d : device) : reply * device :=
  if decide (Method r = "POST") then
    match json_Decode (ReqBody r) with
    | inl e => (writeJSON 400 (JObject [("ok", JBool false); ("error", JString e)]), d)
    | inr kv =>
        (writeJSON 200 (JObject [("ok", JBool true); ("written", JInt (Z.of_nat (size kv)))]),
         set (map_to_list kv) d)
    end
  else if decide (Method r = "GET") then
    match query_all r "path" with
    | [] => (writeJSON 400 (JObject [("ok", JBool false); ("error", JString "at least one ?path= is required")]), d)
    | paths =>
        (writeJSON 200 (JObject [("ok", JBool true); ("params", json_strings (write_all (get paths d) ∅))]), d)
    end
  else (ReplyStatus 405, d).

(** The first device that the selector names, by serial or id. *)
Fixpoint select (sel : string) (devices : list device) : option nat :=
  match devices with
  | [] => None
  | d :: rest => if decide (serial d = sel ∨ cwmpID d = sel) then Some 0 else S <$> select sel rest
  end.

Definition handle_at (i : nat) (r : request) (devices : list device) : reply * list device :=
  match devices !! i with
  | Some d => let '(rep, d') := deviceParamsHandler r d in (rep, <[i := d']> devices)
  | None => (ReplyStatus 500, devices) (* unreachable *)
  end.

Definition deviceParamsMux (r : request) (devices : list device) : reply * list device :=
  if decide (length devices = 1) then handle_at 0 r devices
  else
    let sel := query_get r "device" in
    if decide (sel = "") then
      (writeJSON 400 (JObject [("ok", JBool false);
         ("error", JString "fleet mode: the ?device=<serial|cwmp_id> selector is required");
         ("devices", JList ((λ d, JString (serial d)) <$> devices))]), devices)
    else
      match select sel devices with
      | Some i => handle_at i r devices
      | None => (writeJSON 404 (JObject [("ok", JBool false); ("error", JString ("unknown device " +:+ sel))]), devices)
      end.
End Params.

(** ** Envelopes (soap.go) *)

Definition wrap (msgID inner : string) : string := soapOpen msgID +:+ inner +:+ soapClose.

Definition xmlEscape (s : string) : string := EscapeText s.

(** An attribute that says how many children of a type follow. *)
Definition array_of (ty : string) (n : nat) : string := "cwmp:" +:+ ty +:+ "[" +:+ pretty (Z.of_nat n) +:+ "]".

Definition tag1 (name attr value : string) : string :=
  "<" +:+ name +:+ " " +:+ attr +:+ "=" +:+ dq +:+ value +:+ dq +:+ ">".

Definition inform_paths (d : device) : list string :=
  ["Device.DeviceInfo.SoftwareVersion"; "Device.LAN.IPAddress"; "Device.WAN.IPAddress";
   "Device.Services.FAPService.1.FAPControl.LTE.RFTxStatus"; "Device.Services.FAPService.1.FAPControl.LTE.OpState"]
  ++ (if decide (crURL d ≠ "") then [connectionRequestURLPath] else []).

(** A parameter of an Inform: neither part is escaped. *)
Definition inform_param (pv : string * string) : string :=
  element "ParameterValueStruct" (element "Name" pv.1 +:+ tag1 "Value" "xsi:type" "xsd:string" +:+ pv.2 +:+ close_tag "Value").

Definition informEnvelope (now : Z) (msgID : string) (d : device) : string :=
  let pairs := get (inform_paths d) d in
  wrap msgID
    (open_tag "cwmp:Inform" +:+
     element "DeviceID" (element "Manufacturer" "NybSys" +:+ element "OUI" (oui d) +:+
       element "ProductClass" (productClass d) +:+ element "SerialNumber" (serial d)) +:+
     tag1 "Event" "soap:arrayType" (array_of "EventStruct" 1) +:+
       element "EventStruct" (element "EventCode" "2 PERIODIC" +:+ element "CommandKey" "") +:+ close_tag "Event" +:+
     element "MaxEnvelopes" "1" +:+ element "CurrentTime" (RFC3339 now) +:+ element "RetryCount" "0" +:+
     tag1 "ParameterList" "soap:arrayType" (array_of "ParameterValueStruct" (length pairs)) +:+
       concat_str (inform_param <$> pairs) +:+ close_tag "ParameterList" +:+
     close_tag "cwmp:Inform").

Definition getRPCMethodsEnvelope (msgID : string) : string := wrap msgID (element "cwmp:GetRPCMethods" "").

Definition no_fault : string := element "FaultStruct" (element "FaultCode" "0" +:+ element "FaultString" "").

Definition transferCompleteEnvelope (now : Z) (msgID : string) : string :=
  wrap msgID (element "cwmp:TransferComplete"
    (element "CommandKey" "" +:+ no_fault +:+ element "StartTime" (RFC3339 now) +:+ element "CompleteTime" (RFC3339 now))).

Definition atcEnvelope (now : Z) (msgID targetFile : string) (size : Z) : string :=
  wrap msgID (element "cwmp:AutonomousTransferComplete"
    (element "AnnounceURL" "" +:+ element "TransferURL" "ftp://192.168.8.100/" +:+ element "IsDownload" "0" +:+
     element "FileType" "4 Vendor Log File" +:+ element "FileSize" (pretty size) +:+
     element "TargetFileName" targetFile +:+ no_fault +:+
     element "StartTime" (RFC3339 now) +:+ element "CompleteTime" (RFC3339 now))).

(** The value is escaped, the name and the type are not. *)
Definition gpv_param (m : manifest) (p : string * string) : string :=
  element "ParameterValueStruct"
    (element "Name" p.1 +:+ tag1 "Value" "xsi:type" (xsdType m p.1) +:+ xmlEscape p.2 +:+ close_tag "Value").

Definition gpvResponseEnvelope (m : manifest) (msgID : string) (pairs : list (string * string)) : string :=
  wrap msgID (element "cwmp:GetParameterValuesResponse"
    (tag1 "ParameterList" "soap:arrayType" (array_of "ParameterValueStruct" (length pairs)) +:+
     concat_str (gpv_param m <$> pairs) +:+ close_tag "ParameterList")).

Definition spvResponseEnvelope (msgID : string) : string :=
  wrap msgID (element "cwmp:SetParameterValuesResponse" (element "Status" "0")).

Definition gpn_writable (p : string) : bool :=
  bool_decide (p = refSignalPowerPath ∨ p = "Device.ManagementServer.PeriodicInformInterval") || Contains p ".CellConfig.".

Definition gpn_param (p : string) : string :=
  element "ParameterInfoStruct" (element "Name" p +:+ element "Writable" (if gpn_writable p then "1" else "0")).

Definition gpn_names (prefix : string) (keys : list string) : list string :=
  filter (λ p, prefix = "" ∨ HasPrefix p prefix = true) keys.

(** [keys] are the paths of the store in the order in which Go's [range] meets
    them. *)
Definition gpnResponseEnvelope (msgID prefix : string) (keys : list string) : string :=
  let names := gpn_names prefix keys in
  wrap msgID (element "cwmp:GetParameterNamesResponse"
    (tag1 "ParameterList" "soap:arrayType" (array_of "ParameterInfoStruct" (length names)) +:+
     concat_str (gpn_param <$> names) +:+ close_tag "ParameterList")).

Definition rebootResponseEnvelope (msgID : string) : string := wrap msgID (element "cwmp:RebootResponse" "").

(** ** Reading the agent's requests *)

Record acsRequest := mkAcsRequest {
  kind : string;
  paths : list string;
  writes : list (string * string) }.

(** The body's members that [parseACSRequest] looks for. *)
Record acs_body := mkAcsBody {
  ab_gpv : option (list string);
  ab_spv : option (list (string * string));
  ab_gpn : option string;
  ab_reboot : option unit }.

Definition decode_param (k : list xml) : option (string * string) :=
  fields (λ n k p,
    if decide (n = "Name") then Some (chardata k, p.2)
    else if decide (n = "Value") then Some (p.1, chardata k)
    else Some p) k ("", "").

Definition acs_field (n : string) (k : list xml) (b : acs_body) : option acs_body :=
  let '(mkAcsBody gpv spv gpn rb) := b in
  if decide (n = "GetParameterValues") then
    l ← path_field "ParameterNames" (append_path "string" (λ k, Some (chardata k))) k (default [] gpv);
    Some (mkAcsBody (Some l) spv gpn rb)
  else if decide (n = "SetParameterValues") then
    l ← path_field "ParameterList" (append_path "ParameterValueStruct" decode_param) k (default [] spv);
    Some (mkAcsBody gpv (Some l) gpn rb)
  else if decide (n = "GetParameterNames") then
    p ← path_field "ParameterPath" (λ k _, Some (chardata k)) k (default "" gpn);
    Some (mkAcsBody gpv spv (Some p) rb)
  else if decide (n = "Reboot") then Some (mkAcsBody gpv spv gpn (Some tt))
  else Some b.

Section Session.
(** See [Xml.unicode_name]. *)
Variable unicode_name : string → bool.

Definition parseACSRequest (body : string) : acsRequest :=
  let none := mkAcsRequest "" [] [] in
  match Decode unicode_name body ≫= λ doc,
          match doc with
          | El _ k => path_field "Body" (fields acs_field) k (mkAcsBody None None None None)
          | Tx _ => None
          end with
  | None => none
  | Some b =>
      match b with
      | mkAcsBody (Some names) _ _ _ => mkAcsRequest "gpv" names []
      | mkAcsBody _ (Some ws) _ _ => mkAcsRequest "spv" [] ws
      | mkAcsBody _ _ (Some p) _ => mkAcsRequest "gpn" [p] []
      | mkAcsBody _ _ _ (Some _) => mkAcsRequest "reboot" [] []
      | _ => none
      end
  end.

(** ** One session *)

Context {W : Type}.
Abbreviation st := (device * W)%type.

(** [post]: the text of the response, [None] when the request fails. *)
Variable post : string → st → option string * st.
Variable now : W → Z.
(** The order of [range] over the store. *)
Variable map_range : gmap string string → list string.

Definition maxSessionTasks : nat := 64.

(** The answer to one request of the agent, [None] when it is not understood. *)
Definition perform (m : manifest) (msgID : string) (req : acsRequest) (d : device) : option (string * device) :=
  if decide (kind req = "gpv") then Some (gpvResponseEnvelope m msgID (get (paths req) d), d)
  else if decide (kind req = "spv") then Some (spvResponseEnvelope msgID, set (writes req) d)
  else if decide (kind req = "gpn") then
    Some (gpnResponseEnvelope msgID (match paths req with [] => "" | p :: _ => p end) (map_range (params d)), d)
  else if decide (kind req = "reboot") then Some (rebootResponseEnvelope msgID, d)
  else None.

(** The drain loop; what the agent replies to an answer is not looked at. *)
Fixpoint drain_tasks (n : nat) (m : manifest) (msgID : string) (x : st) : st :=
  match n with
  | 0 => x
  | S n =>
      match post "" x with
      | (None, x) => x
      | (Some body, x) =>
          if decide (TrimSpace body = "") then x
          else match perform m msgID (parseACSRequest body) x.1 with
               | None => x
               | Some (answer, d) => drain_tasks n m msgID (post answer (d, x.2)).2
               end
      end
  end.

(** [runSession]; the result says whether a regression was logged. *)
Definition runSession (m : manifest) (msgID : string) (x : st) : bool * st :=
  match post (informEnvelope (now x.2) msgID x.1) x with
  | (None, x) => (false, x)
  | (Some _, x) =>
      let x := (incInform x.1, x.2) in
      let x := (post (getRPCMethodsEnvelope msgID) x).2 in
      let x := (post (transferCompleteEnvelope (now x.2) msgID) x).2 in
      let '(t, d) := takeTransfer x.1 in
      let '(regression, x) :=
        match t with
        | Some f =>
            let '(atc, x) := post (atcEnvelope (now x.2) msgID (x_name f) (x_size f)) (d, x.2) in
            (Contains (ToLower (default "" atc)) "fault", x)
        | None => (false, (d, x.2))
        end in
      (regression, drain_tasks maxSessionTasks m msgID x)
  end.
End Session.

(** [nextMsgID], on the counter. *)
Definition nextMsgID (counter : Z) : string * Z := (pretty (counter + 1)%Z, (counter + 1)%Z).
