(* ===== verification/CloudSim.v ===== *)
(** * The mock cloud (testsuite/cloud.go)

    The agent's northbound target with its health gate, as a state and one
    definition per handler.  The simulated devices are an argument: their stores
    live on between requests.  Decoding a body's JSON is a parameter per handler;
    what a failed decoding has filled in already is its result too, as in Go. *)
From S2P Require Import Prelude GoStrings GoTime CloudTypes LogGen SimHttp NanoConfig DeviceSim.

(** ** State *)

Record fleetDeviceStat := mkStat {
  registered : bool;
  telemetry : Z;
  events : Z;
  snapshots : Z;
  snapshotVerified : Z;
  snapshotMismatches : Z;
  telemetryMismatches : Z }.

Record fleetHealth := mkFleet {
  expected : list string;
  perDevice : gmap string fleetDeviceStat;
  actuation : string }.

Record state := mkState {
  st_registered : Z;
  st_heartbeats : Z;
  st_telemetry : Z;
  st_events : Z;
  st_failures : Z;
  st_snapshots : Z;
  snapshotParams : gmap string any;
  acks : gmap string string;
  typedEvents : gset string;
  sawCanonicalTypedEvent : bool;
  expectedEvent : string;
  seenDedup : gset string;
  canonicalIDs : gset string;
  fleet : option fleetHealth }.

Definition zero_stat : fleetDeviceStat := mkStat false 0 0 0 0 0 0.

Definition newFleetHealth (canonicalIDs : list string) : fleetHealth :=
  mkFleet canonicalIDs (foldl (λ m id, <[id := zero_stat]> m) ∅ canonicalIDs) "pending".

(** The state as main.go creates it. *)
Definition initial_state (expectedEvent : string) : state :=
  mkState 0 0 0 0 0 0 ∅ ∅ ∅ false expectedEvent ∅ ∅ None.

Definition set_fleet (f : option fleetHealth) (st : state) : state :=
  let '(mkState r h t e fl sn p a ty c ex d ids _) := st in mkState r h t e fl sn p a ty c ex d ids f.

Definition stateForSpecs (st : state) (specs : list deviceSpec) (fleetMode : bool) : state :=
  let ids := ds_CWMPID <$> specs in
  let '(mkState r h t e fl sn p a ty c ex d _ f) := st in
  mkState r h t e fl sn p a ty c ex d (list_to_set ids) (if fleetMode then Some (newFleetHealth ids) else f).

(** [mod_stat id g]: what [perDevice[id]] points to changes, if it is there. *)
Definition mod_stat (id : string) (g : fleetDeviceStat → fleetDeviceStat) (f : fleetHealth) : fleetHealth :=
  mkFleet (expected f) (alter g id (perDevice f)) (actuation f).

Definition set_actuation (v : string) (f : fleetHealth) : fleetHealth := mkFleet (expected f) (perDevice f) v.

Definition on_fleet (g : fleetHealth → fleetHealth) (st : state) : state := set_fleet (g <$> fleet st) st.

(** ** Attribution *)

Definition snapshotAttributionPaths : list string := [phyCellIDConfigPath; earfcnDLConfigPath].

Definition telemetryAttribution : list (string * string) :=
  [("pci_inuse", phyCellIDInUsePath); ("earfcn_dl_inuse", earfcnDLInUsePath)].

Definition deviceByCWMPID (devices : list device) (id : string) : option device :=
  snd <$> list_find (λ d, cwmpID d = id) devices.

Section Cloud.
(** [%v] of a float64. *)
Variable SprintFloat : spec_float → string.

(** The loop of [checkAttribution]. *)
Definition checkAttribution (dev : device) (posted : gmap string any) (paths : list string) : bool * bool :=
  foldl (λ '(verified, mismatched) p,
    match posted !! p with
    | None => (verified, mismatched)
    | Some got =>
        match get [p] dev with
        | [(_, want)] => if decide (Sprint SprintFloat got = want) then (true, mismatched) else (verified, true)
        | _ => (verified, mismatched)
        end
    end) (false, false) paths.

Record metric_entry := mkMetric { me_CWMPID : string; me_Metrics : gmap string any }.
Record event_entry := mkEventEntry { ee_CWMPID : string; ee_EventType : string; ee_DedupKey : string }.

(** Whether a sample carries, under a key, another value than the device. *)
Definition foreign (dev : device) (ms : metric_entry) (kp : string * string) : bool :=
  match me_Metrics ms !! kp.1, get [kp.2] dev with
  | Some v, [(_, want)] => bool_decide (Sprint SprintFloat v ≠ want)
  | _, _ => false
  end.

Definition mismatches (dev : device) (ms : metric_entry) : nat :=
  length (filter (λ kp, foreign dev ms kp = true) telemetryAttribution).

Definition add_telemetry (n : nat) (s : fleetDeviceStat) : fleetDeviceStat :=
  let '(mkStat r t e sn v sm tm) := s in mkStat r (t + 1) e sn v sm (tm + Z.of_nat n).
Definition add_event (s : fleetDeviceStat) : fleetDeviceStat :=
  let '(mkStat r t e sn v sm tm) := s in mkStat r t (e + 1) sn v sm tm.
Definition add_snapshot (check : bool * bool) (s : fleetDeviceStat) : fleetDeviceStat :=
  let '(mkStat r t e sn v sm tm) := s in
  mkStat r t e (sn + 1) (if check.1 then v + 1 else v) (if check.2 then sm + 1 else sm) tm.
Definition set_registered (s : fleetDeviceStat) : fleetDeviceStat :=
  let '(mkStat _ t e sn v sm tm) := s in mkStat true t e sn v sm tm.

(** ** The command fixtures *)

Definition configureCommandID : string := "00000000-0000-0000-0000-000000000101".
Definition queryCommandID : string := "00000000-0000-0000-0000-000000000102".
Definition rebootCommandID : string := "00000000-0000-0000-0000-000000000103".
Definition configuredRSPower : string := "-8".

Definition command (cwmpID id typ : string) (payload : json) : json :=
  JObject [("cwmp_id", JString cwmpID); ("device_id", JString "00000000-0000-0000-0000-000000000201");
           ("id", JString id); ("payload", payload); ("type", JString typ)].
Definition configureCommand (cwmpID : string) : json :=
  command cwmpID configureCommandID "configure" (JObject [("writes", JList
    [JObject [("path", JString refSignalPowerPath); ("value", JString configuredRSPower); ("xsd_type", JString "xsd:string")]])]).
Definition queryCommand (cwmpID : string) : json :=
  command cwmpID queryCommandID "query" (JObject [("read_paths", JList [JString refSignalPowerPath])]).
Definition rebootCommand (cwmpID : string) : json := command cwmpID rebootCommandID "reboot" (JObject []).

(** ** The health gate *)

Definition managedSnapshotParamCount : nat := 24.

Definition sawExpected (st : state) : bool :=
  bool_decide (expectedEvent st ∈ typedEvents st) || bool_decide (expectedEvent st = "").

(** The single-device gate. *)
Definition gate (st : state) : bool :=
  bool_decide (0 < st_registered st)%Z && bool_decide (0 < st_heartbeats st)%Z && bool_decide (0 < st_telemetry st)%Z &&
  bool_decide (0 < st_events st)%Z && bool_decide (0 < st_failures st)%Z && bool_decide (0 < st_snapshots st)%Z &&
  bool_decide (size (snapshotParams st) = managedSnapshotParamCount) && bool_decide (3 ≤ size (acks st)) &&
  bool_decide (0 < size (typedEvents st)) && sawCanonicalTypedEvent st && sawExpected st.

Definition complete (s : fleetDeviceStat) : bool :=
  registered s && bool_decide (0 < telemetry s)%Z && bool_decide (0 < snapshots s)%Z &&
  bool_decide (0 < snapshotVerified s)%Z && bool_decide (snapshotMismatches s = 0)%Z &&
  bool_decide (telemetryMismatches s = 0)%Z.

(** The stats of the expected devices; [None] is the nil pointer that Go would
    dereference. *)
Definition expected_stats (f : fleetHealth) : option (list (string * fleetDeviceStat)) :=
  mapM (λ id, s ← perDevice f !! id; Some (id, s)) (expected f).

Definition fleetOK (f : fleetHealth) (stats : list (string * fleetDeviceStat)) : bool :=
  forallb (λ x, complete x.2) stats && negb (bool_decide (actuation f = "misrouted")).

Definition stat_json (s : fleetDeviceStat) : json :=
  JObject [("complete", JBool (complete s)); ("events", JInt (events s)); ("registered", JBool (registered s));
           ("snapshot_mismatches", JInt (snapshotMismatches s)); ("snapshot_verified", JInt (snapshotVerified s));
           ("snapshots", JInt (snapshots s)); ("telemetry", JInt (telemetry s));
           ("telemetry_mismatches", JInt (telemetryMismatches s))].

(** A Go map built by assignments, as the encoder writes it. *)
Definition json_map (l : list (string * json)) : json :=
  JObject (map_to_list (foldl (λ (m : gmap string json) kv, <[kv.1 := kv.2]> m) ∅ l)).

Definition fleet_json (f : fleetHealth) (stats : list (string * fleetDeviceStat)) : json :=
  JObject [("actuation", JString (actuation f)); ("expected", JInt (Z.of_nat (length (expected f))));
           ("ok", JBool (fleetOK f stats));
           ("onboarded", JInt (Z.of_nat (length (List.filter (λ x, registered x.2) stats))));
           ("per_device", json_map ((λ x, (x.1, stat_json x.2)) <$> stats))].

Definition health_fields (ok : bool) (st : state) : list (string * json) :=
  [("acks", json_strings (acks st)); ("events", JInt (st_events st)); ("expected_event", JString (expectedEvent st));
   ("failures", JInt (st_failures st)); ("heartbeats", JInt (st_heartbeats st)); ("ok", JBool ok);
   ("registered", JInt (st_registered st)); ("saw_expected_event", JBool (sawExpected st));
   ("snapshot_params", JInt (Z.of_nat (size (snapshotParams st)))); ("snapshots", JInt (st_snapshots st));
   ("telemetry", JInt (st_telemetry st)); ("typed_event_on_canonical", JBool (sawCanonicalTypedEvent st));
   ("typed_events", JList (JString <$> merge_sort String.le (elements (typedEvents st))))].

(** [None] is Go's panic. *)
Definition handle_health (st : state) : option reply :=
  match fleet st with
  | None => Some (writeJSON 200 (JObject (health_fields (gate st) st)))
  | Some f =>
      stats ← expected_stats f;
      Some (writeJSON 200 (JObject (health_fields (gate st && fleetOK f stats) st ++ [("fleet", fleet_json f stats)])))
  end.

(** ** The other handlers *)

(** The clock's reading, for time stamps. *)
Variable timestamp : string.

Definition handle_register (st : state) : reply * state :=
  let '(mkState r h t e fl sn p a ty c ex d ids f) := st in
  (envelope timestamp (JObject [("edge_id", JString "11111111-1111-1111-1111-111111111111")]),
   mkState (r + 1) h t e fl sn p a ty c ex d ids f).

Definition add_heartbeat (st : state) : state :=
  let '(mkState r h t e fl sn p a ty c ex d ids f) := st in mkState r (h + 1) t e fl sn p a ty c ex d ids f.

Definition handle_heartbeat (inventory : list string) (st : state) : reply * state :=
  (envelope timestamp (JObject []),
   on_fleet (λ f, foldl (λ f id, mod_stat id set_registered f) f inventory) (add_heartbeat st)).

Record telemetry_body := mkTelemetryBody {
  tb_Metrics : list metric_entry;
  tb_Events : list event_entry }.

Definition record_metric (devices : list device) (f : fleetHealth) (ms : metric_entry) : fleetHealth :=
  let n := match deviceByCWMPID devices (me_CWMPID ms) with Some dev => mismatches dev ms | None => 0 end in
  mod_stat (me_CWMPID ms) (add_telemetry n) f.

Definition add_post (st : state) : state :=
  let '(mkState r h t e fl sn p a ty c ex d ids f) := st in mkState r h (t + 1) e fl sn p a ty c ex d ids f.

(** The body of the loop over the events, after the duplicates are dropped. *)
Definition count_event (ev : event_entry) (st : state) : state :=
  let '(mkState r h t e fl sn p a ty c ex d ids f) := st in
  mkState r h t (e + 1) fl sn p a
    (if decide (ee_EventType ev = "" ∨ ee_EventType ev = "unclassified") then ty else {[ee_EventType ev]} ∪ ty)
    (if decide (ee_EventType ev = "" ∨ ee_EventType ev = "unclassified") then c
     else c || bool_decide (ee_CWMPID ev ∈ ids))
    ex d ids (mod_stat (ee_CWMPID ev) add_event <$> f).

Definition see_key (k : string) (st : state) : state :=
  let '(mkState r h t e fl sn p a ty c ex d ids f) := st in mkState r h t e fl sn p a ty c ex ({[k]} ∪ d) ids f.

Definition record_event (st : state) (ev : event_entry) : state :=
  if decide (ee_DedupKey ev ≠ "") then
    if decide (ee_DedupKey ev ∈ seenDedup st) then st else count_event ev (see_key (ee_DedupKey ev) st)
  else count_event ev st.

Definition add_failure (st : state) : state :=
  let '(mkState r h t e fl sn p a ty c ex d ids f) := st in mkState r h t e (fl + 1) sn p a ty c ex d ids f.

Definition handle_telemetry (devices : list device) (body : telemetry_body) (st : state) : reply * state :=
  if decide (st_failures st = 0)%Z then (ReplyError 503 "forced telemetry failure", add_failure st)
  else
    let st := on_fleet (λ f, foldl (record_metric devices) f (tb_Metrics body)) (add_post st) in
    (envelope timestamp (JObject [("events", JInt 1); ("metrics", JInt 1)]), foldl record_event st (tb_Events body)).

(** [dev0] is [devices[0]]: the commands target it. *)
Definition handle_poll (dev0 : device) (st : state) : reply :=
  let offer id c := if acks st !! id is Some _ then [] else [c (cwmpID dev0)] in
  envelope timestamp (JObject
    [("commands", JList (offer configureCommandID configureCommand ++ offer queryCommandID queryCommand
                           ++ offer rebootCommandID rebootCommand));
     ("server_time", JString timestamp)]).

Definition record_snapshot (devices : list device) (id : string) (posted : gmap string any) (f : fleetHealth) : fleetHealth :=
  let check := match deviceByCWMPID devices id with
               | Some dev => checkAttribution dev posted snapshotAttributionPaths
               | None => (false, false)
               end in
  mod_stat id (add_snapshot check) f.

Definition add_params (posted : gmap string any) (st : state) : state :=
  let '(mkState r h t e fl sn p a ty c ex d ids f) := st in
  mkState r h t e fl (sn + 1) (posted ∪ p) a ty c ex d ids f.

Definition segment (path prefix suffix : string) : string := TrimSuffix (TrimPrefix path prefix) suffix.

Definition handle_snapshot (devices : list device) (path : string) (posted : gmap string any) (st : state) : reply * state :=
  let id := segment path "/v1/agent/devices/" "/config-snapshot" in
  (envelope timestamp (JObject []), on_fleet (record_snapshot devices id posted) (add_params posted st)).

Definition add_ack (id status : string) (st : state) : state :=
  let '(mkState r h t e fl sn p a ty c ex d ids f) := st in
  mkState r h t e fl sn p (<[id := status]> a) ty c ex d ids f.

Definition verdict (dev0 : device) : string :=
  match get [refSignalPowerPath] dev0 with
  | [(_, v)] => if decide (v = configuredRSPower) then "verified" else "misrouted"
  | _ => "misrouted"
  end.

Definition handle_ack (dev0 : device) (path status : string) (st : state) : reply * state :=
  let id := segment path "/v1/agent/commands/" "/ack" in
  let st := add_ack id status st in
  (envelope timestamp (JObject []),
   if decide (id = configureCommandID ∧ status = "applied") then on_fleet (set_actuation (verdict dev0)) st else st).

(** ** The mux

    [json.Decode] of each body.  Paths are taken to be clean, so that the only
    redirect is the one to a subtree's slash. *)
Variable json_params : string → string + gmap string string.
Variable json_heartbeat : string → list string.
Variable json_telemetry : string → telemetry_body.
Variable json_snapshot : string → gmap string any.
Variable json_ack : string → string.

Definition NotFound : reply := ReplyError 404 "404 page not found".

(** [None]: the handler panics. *)
Definition cloudMux (r : request) (x : list device * state) : option reply * (list device * state) :=
  let '(devices, st) := x in
  let p := URLPath r in
  let with_state (y : reply * state) := (Some y.1, (devices, y.2)) in
  match devices with
  | [] => (None, x)
  | dev0 :: _ =>
      if decide (p = "/device/params") then
        let '(rep, devices) := deviceParamsMux json_params r devices in (Some rep, (devices, st))
      else if decide (p = "/health") then (handle_health st, x)
      else if decide (p = "/v1/agent/register") then with_state (handle_register st)
      else if decide (p = "/v1/agent/heartbeat") then with_state (handle_heartbeat (json_heartbeat (ReqBody r)) st)
      else if decide (p = "/v1/agent/telemetry") then with_state (handle_telemetry devices (json_telemetry (ReqBody r)) st)
      else if decide (p = "/v1/agent/poll") then (Some (handle_poll dev0 st), x)
      else if HasPrefix p "/v1/agent/devices/" then
        if HasSuffix p "/config-snapshot" then with_state (handle_snapshot devices p (json_snapshot (ReqBody r)) st)
        else (Some NotFound, x)
      else if HasPrefix p "/v1/agent/commands/" then
        if HasSuffix p "/ack" then with_state (handle_ack dev0 p (json_ack (ReqBody r)) st)
        else (Some NotFound, x)
      else if decide (p = "/v1/agent/devices" ∨ p = "/v1/agent/commands") then (Some (ReplyStatus 301), x)
      else (Some NotFound, x)
  end.

(** ** The health of the acs modes *)

(** The number of entries that [filepath.Glob] finds for a pattern in a
    directory. *)
Variable glob : string → string → nat.

Definition handle_acs_health (devices : list device) (ftpDir mode agentURL : string) : reply :=
  let informed := length (List.filter (λ d, bool_decide (0 < informs d)%Z) devices) in
  let total := foldl (λ n d, n + informs d)%Z 0%Z devices in
  let per := json_map ((λ d, (cwmpID d, JInt (informs d))) <$> devices) in
  let uploads := glob ftpDir "Log_*.gz" + glob ftpDir "ErrorLog_*.gz" + glob ftpDir "*.tgz" in
  let base :=
    [("ok", JBool (bool_decide (informed = length devices))); ("platform_mock", JBool false)] in
  writeJSON 200 (JObject
    ([("cwmp", JObject [("agent_url", JString agentURL); ("informs_sent", JInt total)])] ++
     (if decide (1 < length devices) then
        [("fleet", JObject [("expected", JInt (Z.of_nat (length devices))); ("informed", JInt (Z.of_nat informed));
                            ("per_device", per)])] else []) ++
     [("ftp", JObject [("dir", JString ftpDir); ("uploads", JInt (Z.of_nat uploads))]); ("mode", JString mode)] ++ base)).

Definition acsHealthMuxFleet (ftpDir mode agentURL : string) (r : request) (devices : list device) : reply * list device :=
  if decide (URLPath r = "/device/params") then deviceParamsMux json_params r devices
  else if decide (URLPath r = "/health") then (handle_acs_health devices ftpDir mode agentURL, devices)
  else (NotFound, devices).

Definition acsHealthMux (ftpDir mode agentURL : string) (r : request) (dev : device) : reply * list device :=
  acsHealthMuxFleet ftpDir mode agentURL r [dev].
End Cloud.

(** The typed event that each scenario's line must become. *)
Definition scenarioEventType : gmap string string :=
  list_to_map
    [(ScenarioHappy, "ftp_upload_ok"); (ScenarioFTPPathReject, "ftp_upload_path_reject");
     (ScenarioFTPAuthFail, "ftp_auth_fail"); (ScenarioFTPConnFail, "ftp_conn_fail");
     (ScenarioFTPTimeout, "ftp_upload_timeout"); (ScenarioATCFault, "atc_fault_loop"); (ScenarioReboot, "device_reboot")].
