(* ===== verification/Gate.v ===== *)
(** * What the mock cloud's health gate proves

    A history of the mock cloud is a list of requests, each with the devices as
    they were then.  The counters behind the gate are related to the evidence in
    the history: what was heard of each device, and whether it fitted. *)
From S2P Require Import Prelude GoStrings GoTime CloudTypes Rules LogGen SimHttp NanoConfig DeviceSim CloudSim.

Section Gate.
Variable SprintFloat : spec_float → string.
Variable json_params : string → string + gmap string string.
Variable json_heartbeat : string → list string.
Variable json_telemetry : string → telemetry_body.
Variable json_snapshot : string → gmap string any.
Variable json_ack : string → string.

Record turn := mkTurn { tn_time : string; tn_devices : list device; tn_req : request }.

Abbreviation mux t st :=
  (cloudMux SprintFloat (tn_time t) json_params json_heartbeat json_telemetry json_snapshot json_ack (tn_req t) (tn_devices t, st)).

(** The devices live on outside: only the state is passed along. *)
Definition after (t : turn) (st : state) : state := (mux t st).2.2.
Definition run (h : list turn) (st : state) : state := foldl (λ st t, after t st) st h.

(** ** Evidence *)

Inductive evidence :=
| ESeen (id : string)
| ESample (id : string) (mism : nat)
| EEvent (id : string)
| ESnapshot (id : string) (check : bool * bool).

Definition about (e : evidence) : string :=
  match e with ESeen id | ESample id _ | EEvent id | ESnapshot id _ => id end.

Definition weigh (e : evidence) (s : fleetDeviceStat) : fleetDeviceStat :=
  match e with
  | ESeen _ => set_registered s
  | ESample _ n => add_telemetry n s
  | EEvent _ => add_event s
  | ESnapshot _ check => add_snapshot check s
  end.

Definition weigh_all (es : list evidence) (f : fleetHealth) : fleetHealth :=
  foldl (λ f e, mod_stat (about e) (weigh e) f) f es.

(** The events of a post that are not duplicates. *)
Fixpoint counted (seen : gset string) (evs : list event_entry) : list event_entry :=
  match evs with
  | [] => []
  | ev :: rest =>
      if decide (ee_DedupKey ev ≠ "") then
        if decide (ee_DedupKey ev ∈ seen) then counted seen rest
        else ev :: counted ({[ee_DedupKey ev]} ∪ seen) rest
      else ev :: counted seen rest
  end.

Definition sample_evidence (devices : list device) (ms : metric_entry) : evidence :=
  ESample (me_CWMPID ms)
    (match deviceByCWMPID devices (me_CWMPID ms) with Some dev => mismatches SprintFloat dev ms | None => 0 end).

Definition snapshot_evidence (devices : list device) (id : string) (posted : gmap string any) : evidence :=
  ESnapshot id (match deviceByCWMPID devices id with
                | Some dev => checkAttribution SprintFloat dev posted snapshotAttributionPaths
                | None => (false, false)
                end).

Definition snapshot_id (path : string) : string := segment path "/v1/agent/devices/" "/config-snapshot".

Definition is_snapshot (p : string) : bool := HasPrefix p "/v1/agent/devices/" && HasSuffix p "/config-snapshot".

(** What a request tells about the devices; [seen] and [failed] come from the
    state. *)
Definition evidence_of (t : turn) (st : state) : list evidence :=
  let p := URLPath (tn_req t) in
  let body := ReqBody (tn_req t) in
  match tn_devices t with
  | [] => []
  | _ =>
      if decide (p = "/v1/agent/heartbeat") then ESeen <$> json_heartbeat body
      else if decide (p = "/v1/agent/telemetry") then
        if decide (st_failures st = 0)%Z then []
        else (sample_evidence (tn_devices t) <$> tb_Metrics (json_telemetry body)) ++
             ((λ ev, EEvent (ee_CWMPID ev)) <$> counted (seenDedup st) (tb_Events (json_telemetry body)))
      else if is_snapshot p then [snapshot_evidence (tn_devices t) (snapshot_id p) (json_snapshot body)]
      else []
  end.

Fixpoint history (h : list turn) (st : state) : list evidence :=
  match h with
  | [] => []
  | t :: rest => evidence_of t st ++ history rest (after t st)
  end.

(** ** The trackers are the weighed evidence *)

Definition same_tracker (f g : fleetHealth) : Prop := expected f = expected g ∧ perDevice f = perDevice g.

Lemma weigh_all_app es es' f : weigh_all (es ++ es') f = weigh_all es' (weigh_all es f).
Proof. apply foldl_app. Qed.

Lemma weigh_all_fold {A} (g : A → evidence) (k : A → fleetHealth → fleetHealth) l f :
  (∀ x f, k x f = mod_stat (about (g x)) (weigh (g x)) f) → foldl (λ f x, k x f) f l = weigh_all (g <$> l) f.
Proof.
  intros Hk. revert f. induction l as [|x l IH]; intros f; [done|]. cbn [foldl fmap list_fmap weigh_all]. by rewrite Hk, IH.
Qed.

Lemma fleet_set_fleet f st : fleet (set_fleet f st) = f.
Proof. by destruct st. Qed.

Lemma record_events_fleet evs st :
  fleet (foldl record_event st evs) = weigh_all ((λ ev, EEvent (ee_CWMPID ev)) <$> counted (seenDedup st) evs) <$> fleet st.
Proof.
  revert st. induction evs as [|ev evs IH]; intros st; [by destruct st as [? ? ? ? ? ? ? ? ? ? ? ? ? []]|].
  cbn [foldl]. rewrite IH. unfold record_event. cbn [counted].
  assert (Hc : ∀ st, fleet (count_event ev st) = mod_stat (ee_CWMPID ev) add_event <$> fleet st ∧ seenDedup (count_event ev st) = seenDedup st).
  { intros u. by destruct u. }
  assert (Hs : ∀ k st, fleet (see_key k st) = fleet st ∧ seenDedup (see_key k st) = {[k]} ∪ seenDedup st).
  { intros k u. by destruct u. }
  case_decide; [case_decide; [done|]|].
  - destruct (Hc (see_key (ee_DedupKey ev) st)) as [-> ->]. destruct (Hs (ee_DedupKey ev) st) as [-> ->].
    by destruct (fleet st).
  - destruct (Hc st) as [-> ->]. by destruct (fleet st).
Qed.

#[local] Instance same_tracker_refl : Reflexive same_tracker.
Proof. by intros f. Qed.
#[local] Instance same_tracker_trans : Transitive same_tracker.
Proof. intros f g k [H1 H2] [H3 H4]. split; congruence. Qed.

Lemma mod_stat_tracker id g f f' : same_tracker f f' → same_tracker (mod_stat id g f) (mod_stat id g f').
Proof. intros [H1 H2]. split; [done|]. cbn. by rewrite H2. Qed.

Lemma weigh_all_tracker es f f' : same_tracker f f' → same_tracker (weigh_all es f) (weigh_all es f').
Proof.
  revert f f'. induction es as [|e es IH]; intros f f' Hs; [done|]. apply IH. by apply mod_stat_tracker.
Qed.

Definition tracked (o o' : option fleetHealth) : Prop := option_Forall2 same_tracker o o'.

Lemma tracked_refl o : tracked o o.
Proof. destruct o; by constructor. Qed.

(** One request moves the tracker by its evidence. *)
Lemma after_tracked t st : tracked (fleet (after t st)) (weigh_all (evidence_of t st) <$> fleet st).
Proof.
  assert (Hid : tracked (fleet st) (weigh_all [] <$> fleet st)) by (destruct (fleet st); by constructor).
  unfold after, cloudMux, evidence_of. set (p := URLPath (tn_req t)). set (body := ReqBody (tn_req t)).
  destruct (tn_devices t) as [|dev0 devs] eqn:Hdevs; [exact Hid|]. rewrite <- Hdevs. clear Hdevs.
  case_decide as Hp.
  { destruct (deviceParamsMux _ _ _) as [rep ds]. rewrite Hp. exact Hid. }
  case_decide as Hh; [rewrite Hh; exact Hid|].
  case_decide as Hr; [rewrite Hr; by destruct st|].
  case_decide as Hb.
  { cbn [fst snd handle_heartbeat]. unfold on_fleet. rewrite fleet_set_fleet.
    replace (fleet (add_heartbeat st)) with (fleet st) by (by destruct st).
    destruct (fleet st) as [f|]; constructor.
    by rewrite <- (weigh_all_fold ESeen (λ id f, mod_stat id set_registered f)). }
  case_decide as Ht.
  { unfold handle_telemetry. case_decide; [by destruct st as [? ? ? ? ? ? ? ? ? ? ? ? ? []]; repeat constructor|].
    cbn [fst snd]. rewrite record_events_fleet. unfold on_fleet. rewrite fleet_set_fleet.
    replace (seenDedup (set_fleet _ (add_post st))) with (seenDedup st) by (by destruct st).
    replace (fleet (add_post st)) with (fleet st) by (by destruct st).
    destruct (fleet st) as [f|]; [|constructor]. constructor. rewrite weigh_all_app.
    by rewrite <- (weigh_all_fold (sample_evidence (tn_devices t)) (λ ms f, record_metric SprintFloat (tn_devices t) f ms)). }
  case_decide as Hpoll; [rewrite Hpoll; exact Hid|].
  unfold is_snapshot. destruct (HasPrefix p "/v1/agent/devices/") eqn:Hd.
  { destruct (HasSuffix p "/config-snapshot"); cbn [andb]; [|exact Hid].
    unfold handle_snapshot. cbn [fst snd]. unfold on_fleet. rewrite fleet_set_fleet.
    replace (fleet (add_params _ st)) with (fleet st) by (by destruct st). apply tracked_refl. }
  cbn [andb]. destruct (HasPrefix p "/v1/agent/commands/").
  { destruct (HasSuffix p "/ack"); [|exact Hid]. unfold handle_ack. cbn [fst snd].
    assert (Ha : ∀ a b, fleet (add_ack a b st) = fleet st) by (intros; by destruct st).
    case_decide; [|by rewrite Ha]. unfold on_fleet. rewrite fleet_set_fleet, Ha.
    destruct (fleet st); by constructor. }
  case_decide; exact Hid.
Qed.

Lemma run_tracked h st : tracked (fleet (run h st)) (weigh_all (history h st) <$> fleet st).
Proof.
  revert st. induction h as [|t h IH]; intros st; cbn [history].
  - change (run [] st) with st. by destruct (fleet st); constructor.
  - change (run (t :: h) st) with (run h (after t st)). pose proof (after_tracked t st) as Ha. specialize (IH (after t st)).
    destruct (fleet st) as [f|]; inversion Ha as [f1 g1 Hs1 E1 E2|E1 E2]; rewrite <- E1 in IH; inversion IH as [f2 g2 Hs2|];
      constructor. rewrite weigh_all_app. etrans; [exact Hs2|]. by apply weigh_all_tracker.
Qed.

(** ** One device's counters *)

Definition stat_of (id : string) (es : list evidence) (s : fleetDeviceStat) : fleetDeviceStat :=
  foldl (λ s e, if decide (about e = id) then weigh e s else s) s es.

Lemma weigh_all_lookup es id f : perDevice (weigh_all es f) !! id = stat_of id es <$> perDevice f !! id.
Proof.
  revert f. induction es as [|e es IH]; intros f; [change (weigh_all [] f) with f; by destruct (perDevice f !! id)|].
  change (weigh_all (e :: es) f) with (weigh_all es (mod_stat (about e) (weigh e) f)). rewrite IH. cbn [mod_stat perDevice].
  assert (Hst : ∀ s, stat_of id (e :: es) s = stat_of id es (if decide (about e = id) then weigh e s else s)) by done.
  destruct (decide (about e = id)) as [<-|Hne].
  - rewrite lookup_alter_eq. destruct (perDevice f !! about e) as [s|]; [|done]. cbn [fmap option_fmap option_map]. by rewrite Hst.
  - rewrite lookup_alter_ne by done. destruct (perDevice f !! id) as [s|]; [|done]. cbn [fmap option_fmap option_map]. by rewrite Hst.
Qed.

Lemma newFleetHealth_lookup ids id : id ∈ ids → perDevice (newFleetHealth ids) !! id = Some zero_stat.
Proof.
  unfold newFleetHealth. cbn [perDevice].
  assert (Hgen : ∀ m : gmap string fleetDeviceStat, (id ∈ ids ∨ m !! id = Some zero_stat) →
    foldl (λ (m : gmap string fleetDeviceStat) id, <[id := zero_stat]> m) m ids !! id = Some zero_stat).
  { induction ids as [|x ids IH]; intros m Hm; [destruct Hm as [[]%elem_of_nil|]; done|]. cbn [foldl]. apply IH.
    destruct (decide (x = id)) as [->|Hne]; [right; by rewrite lookup_insert_eq|].
    destruct Hm as [[?|?]%elem_of_cons|?]; [congruence|by left|right; by rewrite lookup_insert_ne]. }
  intros Hid. apply Hgen. by left.
Qed.

(** What the counters of a device prove about the evidence. *)
Definition supported (id : string) (es : list evidence) (s : fleetDeviceStat) : Prop :=
  (registered s = true → ESeen id ∈ es) ∧
  (0 < telemetry s → ∃ n, ESample id n ∈ es)%Z ∧
  (0 ≤ telemetryMismatches s ∧ (telemetryMismatches s = 0 → ∀ n, ESample id n ∈ es → n = 0%nat))%Z ∧
  (0 < snapshotVerified s → ∃ b, ESnapshot id (true, b) ∈ es)%Z ∧
  (0 ≤ snapshotMismatches s ∧ (snapshotMismatches s = 0 → ∀ c, ESnapshot id c ∈ es → c.2 = false))%Z.

Ltac keep :=
  first [ done | lia
        | intros Hr; left; by auto
        | intros Hpos; match goal with H : _ → ∃ _, _ |- _ => destruct (H Hpos) as [? ?]; eexists; by left end
        | intros Hz ? [?|?]; [by eauto|by simplify_eq] ].

Lemma stat_of_supported id es : supported id es (stat_of id es zero_stat).
Proof.
  induction es as [|e es IH] using rev_ind.
  - split_and!; try done; intros; by match goal with H : _ ∈ [] |- _ => apply elem_of_nil in H end.
  - unfold stat_of. rewrite foldl_snoc. fold (stat_of id es zero_stat). set (s := stat_of id es zero_stat) in *.
    destruct IH as (H1 & H2 & [H3 H3'] & H4 & [H5 H5']).
    assert (Hin : ∀ x, x ∈ es ++ [e] ↔ x ∈ es ∨ x = e) by (intros x; by rewrite elem_of_app, list_elem_of_singleton).
    unfold supported. setoid_rewrite Hin. case_decide as Ha.
    2: { assert (Hne : ∀ x, about x = id → x ≠ e) by (intros x Hx ->; done).
         split_and!; try keep; intros Hz ? [?|He]; eauto; exfalso; by eapply Hne; [|exact He]. }
    subst id. destruct s as [rg tl ev sn sv sm tm], e as [i|i n|i|i [v b]]; cbn in *.
    + split_and!; try keep. by right.
    + split_and!; try keep.
      * intros _. exists n. by right.
      * intros Hz k [Hk|[= ->]]; [apply H3'; [lia|done]|lia].
    + split_and!; keep.
    + split_and!; try keep.
      * destruct v; [intros _; exists b; by right|keep].
      * destruct b; lia.
      * destruct b; [lia|]. intros Hz c [Hc|[= ->]]; [by apply H5'|done].
Qed.

(** ** The reply's [ok] *)

Definition says_ok (r : reply) : bool :=
  match r with ReplyJSON _ (JObject m) => match field "ok" m with Some (JBool b) => b | _ => false end | _ => false end.

Lemma mapM_stats f stats : expected_stats f = Some stats →
  Forall (λ x, perDevice f !! x.1 = Some x.2) stats ∧ stats.*1 = expected f.
Proof.
  unfold expected_stats. generalize (expected f) as ids. intros ids. revert stats.
  induction ids as [|id ids IH]; intros stats Hs; [injection Hs as <-; split; [constructor|done]|]. cbn in Hs.
  destruct (perDevice f !! id) as [s|] eqn:Hid; [|done]. cbn in Hs.
  destruct (mapM _ ids) as [rest|] eqn:Hr; [|done]. cbn in Hs. injection Hs as <-.
  destruct (IH rest eq_refl) as [? Heq]. split; [by constructor|]. cbn. by rewrite Heq.
Qed.

Lemma weigh_all_expected es f : expected (weigh_all es f) = expected f.
Proof.
  revert f. induction es as [|e es IH]; intros f; [done|].
  change (weigh_all (e :: es) f) with (weigh_all es (mod_stat (about e) (weigh e) f)). by rewrite IH.
Qed.

(** *** What the evidence is of the posts *)

(** Somewhere in the history a request was made of which [P] holds, of it and of
    the state it found. *)
Definition in_history (h : list turn) (st : state) (P : turn → state → Prop) : Prop :=
  ∃ h1 t h2, h = h1 ++ t :: h2 ∧ tn_devices t ≠ [] ∧ P t (run h1 st).

Definition lists_device (id : string) (t : turn) : Prop :=
  URLPath (tn_req t) = "/v1/agent/heartbeat" ∧ id ∈ json_heartbeat (ReqBody (tn_req t)).

(** The mock cloud refuses its first telemetry post. *)
Definition samples_device (id : string) (ms : metric_entry) (t : turn) (st : state) : Prop :=
  URLPath (tn_req t) = "/v1/agent/telemetry" ∧ st_failures st ≠ 0%Z ∧
  ms ∈ tb_Metrics (json_telemetry (ReqBody (tn_req t))) ∧ me_CWMPID ms = id.

Definition snapshots_device (id : string) (posted : gmap string any) (t : turn) : Prop :=
  URLPath (tn_req t) ≠ "/v1/agent/heartbeat" ∧ is_snapshot (URLPath (tn_req t)) = true ∧
  snapshot_id (URLPath (tn_req t)) = id ∧ posted = json_snapshot (ReqBody (tn_req t)).

Lemma elem_of_history h st e : e ∈ history h st ↔ in_history h st (λ t st, e ∈ evidence_of t st).
Proof.
  unfold in_history. revert st. induction h as [|t h IH]; intros st; cbn [history].
  - rewrite elem_of_nil. split; [done|]. intros (h1 & t & h2 & Hh & _). by destruct h1.
  - rewrite elem_of_app, IH. split.
    + intros [He|(h1 & u & h2 & -> & Hu & He)].
      * exists [], t, h. split_and!; [done| |exact He]. intros Hn. unfold evidence_of in He. rewrite Hn in He. by apply elem_of_nil in He.
      * by exists (t :: h1), u, h2.
    + intros ([|u h1] & v & h2 & [= -> ->] & Hv & He); [by left|]. right. by exists h1, v, h2.
Qed.

Lemma telemetry_evidence t st e : URLPath (tn_req t) = "/v1/agent/telemetry" → tn_devices t ≠ [] → st_failures st ≠ 0%Z →
  e ∈ evidence_of t st ↔
    (∃ ms, ms ∈ tb_Metrics (json_telemetry (ReqBody (tn_req t))) ∧ e = sample_evidence (tn_devices t) ms) ∨
    (∃ ev, ev ∈ counted (seenDedup st) (tb_Events (json_telemetry (ReqBody (tn_req t)))) ∧ e = EEvent (ee_CWMPID ev)).
Proof.
  intros Hp Hd Hf. unfold evidence_of. rewrite Hp. rewrite decide_False, decide_True, decide_False by done.
  destruct (tn_devices t) as [|d ds]; [done|]. rewrite elem_of_app, !list_elem_of_fmap.
  split; (intros [(x & ? & ?)|(x & ? & ?)]; [left|right]; by exists x).
Qed.

Lemma snapshot_evidence_of t st id posted : snapshots_device id posted t → tn_devices t ≠ [] →
  evidence_of t st = [snapshot_evidence (tn_devices t) id posted].
Proof.
  intros (_ & Hs & <- & ->) Hd. unfold evidence_of. destruct (tn_devices t) as [|d ds]; [done|].
  rewrite Hs. rewrite decide_False by (intros Hp; by rewrite Hp in Hs). by rewrite decide_False by (intros Hp; by rewrite Hp in Hs).
Qed.

(** What a piece of evidence was taken from. *)
Lemma evidence_source t st e : e ∈ evidence_of t st →
  match e with
  | ESeen id => lists_device id t
  | ESample id _ => ∃ ms, samples_device id ms t st ∧ e = sample_evidence (tn_devices t) ms
  | EEvent _ => True
  | ESnapshot id _ => ∃ posted, snapshots_device id posted t ∧ e = snapshot_evidence (tn_devices t) id posted
  end.
Proof.
  unfold evidence_of. destruct (tn_devices t) as [|d ds] eqn:Hd; [by intros ?%elem_of_nil|]. rewrite <- Hd. clear Hd.
  case_decide as Hh; [|case_decide as Ht; [|destruct (is_snapshot _) eqn:Hs]].
  - intros (id & -> & Hid)%list_elem_of_fmap. by split.
  - case_decide as Hf; [by intros ?%elem_of_nil|].
    intros [(ms & -> & Hms)%list_elem_of_fmap|(ev & -> & _)%list_elem_of_fmap]%elem_of_app; [|done].
    exists ms. by split_and!.
  - intros ->%list_elem_of_singleton. eexists. by split_and!.
  - by intros ?%elem_of_nil.
Qed.

(** The value is not one that [dev] has for the path. *)
Definition differs (dev : device) (path : string) (v : any) : Prop :=
  ∃ want, params dev !! path = Some want ∧ Sprint SprintFloat v ≠ want.

Lemma foreign_spec dev ms kp : foreign SprintFloat dev ms kp = true ↔
  ∃ v, me_Metrics ms !! kp.1 = Some v ∧ differs dev kp.2 v.
Proof.
  unfold foreign, differs, get. cbn. destruct (me_Metrics ms !! kp.1) as [v|]; [|by split; [|intros (? & ? & _)]].
  destruct (params dev !! kp.2) as [want|]; cbn; [rewrite bool_decide_eq_true|].
  - split; [intros ?; exists v; split; [done|by exists want]|by intros (? & [= ->] & ? & [= ->] & ?)].
  - split; [done|by intros (? & _ & ? & ? & _)].
Qed.

Lemma mismatches_none dev ms : mismatches SprintFloat dev ms = 0 →
  ∀ kp v, kp ∈ telemetryAttribution → me_Metrics ms !! kp.1 = Some v → ¬ differs dev kp.2 v.
Proof.
  unfold mismatches. intros Hz%length_zero_iff_nil kp v Hkp Hv Hd.
  assert (Hin : kp ∈ filter (λ kp, foreign SprintFloat dev ms kp = true) telemetryAttribution).
  { apply list_elem_of_filter. split; [|done]. apply foreign_spec. by exists v. }
  rewrite Hz in Hin. by apply elem_of_nil in Hin.
Qed.

Lemma checkAttribution_snoc dev posted paths p :
  let '(b, m) := checkAttribution SprintFloat dev posted paths in
  checkAttribution SprintFloat dev posted (paths ++ [p]) =
  match posted !! p, params dev !! p with
  | Some got, Some want => if decide (Sprint SprintFloat got = want) then (true, m) else (b, true)
  | _, _ => (b, m)
  end.
Proof.
  unfold checkAttribution. rewrite foldl_app. destruct (foldl _ _ paths) as [b m]. cbn [foldl].
  destruct (posted !! p); [|done]. unfold get. cbn [omap list_omap]. by destruct (params dev !! p).
Qed.

Lemma checkAttribution_spec dev posted paths :
  ((checkAttribution SprintFloat dev posted paths).1 = true ↔
    Exists (λ p, ∃ v, posted !! p = Some v ∧ params dev !! p = Some (Sprint SprintFloat v)) paths) ∧
  ((checkAttribution SprintFloat dev posted paths).2 = true ↔
    Exists (λ p, ∃ v, posted !! p = Some v ∧ differs dev p v) paths).
Proof.
  unfold differs. induction paths as [|p paths IH] using rev_ind; [by rewrite !Exists_nil|].
  pose proof (checkAttribution_snoc dev posted paths p) as Hs.
  destruct (checkAttribution SprintFloat dev posted paths) as [b m]. cbn [fst snd] in IH. destruct IH as [IH1 IH2].
  rewrite Hs, !Exists_app, !Exists_cons, !Exists_nil, !(right_id False or), <- IH1, <- IH2. clear Hs IH1 IH2.
  destruct (posted !! p) as [v|]; [|split; (split; [by left|by intros [?|(? & ? & _)]])].
  destruct (params dev !! p) as [want|];
    [case_decide; cbn|cbn; split; (split; [by left|by intros [?|(? & _ & Hx)]; try destruct Hx as (? & ? & _)])].
  - split; [split; [intros _; right; exists v; by subst|done]|].
    split; [by left|]. intros [?|(? & [= <-] & ? & [= <-] & ?)]; done.
  - split; [|split; [intros _; right; exists v; split; [done|by exists want]|done]].
    split; [by left|]. intros [?|(? & [= <-] & [= ->])]; done.
Qed.

Lemma green_evidence h st ids rep :
  fleet st = Some (newFleetHealth ids) → handle_health (run h st) = Some rep → says_ok rep = true →
  ∀ id, id ∈ ids → let es := history h st in
    ESeen id ∈ es ∧ (∃ n, ESample id n ∈ es) ∧ (∀ n, ESample id n ∈ es → n = 0) ∧
    (∃ b, ESnapshot id (true, b) ∈ es) ∧ (∀ c, ESnapshot id c ∈ es → c.2 = false).
Proof.
  intros Hf Hrep Hok id Hid es. pose proof (run_tracked h st) as Ht. rewrite Hf in Ht. fold es in Ht.
  inversion Ht as [f g [He Hp] Hfe Hg|]. unfold handle_health in Hrep. rewrite <- Hfe in Hrep.
  destruct (expected_stats f) as [stats|] eqn:Hs; [|done]. cbn [mbind option_bind] in Hrep. injection Hrep as <-.
  cbn in Hok. apply andb_true_iff in Hok as [_ [Hall _]%andb_true_iff].
  apply mapM_stats in Hs as [Hst Hids]. rewrite He in Hids. 
  rewrite weigh_all_expected in Hids. cbn [newFleetHealth expected] in Hids.
  rewrite <- Hids in Hid. apply list_elem_of_fmap in Hid as ([id' s] & -> & Hin). cbn [fst].
  rewrite Forall_forall in Hst. specialize (Hst _ Hin). cbn [fst snd] in Hst.
  assert (Hid' : id' ∈ ids) by (rewrite <- Hids; apply list_elem_of_fmap; by exists (id', s)).
  rewrite Hp, weigh_all_lookup, newFleetHealth_lookup in Hst by done. injection Hst as Hst.
  rewrite forallb_forall in Hall. specialize (Hall (id', s)). cbn [snd] in Hall.
  rewrite <- list_elem_of_In in Hall. specialize (Hall Hin). unfold complete in Hall.
  repeat (apply andb_true_iff in Hall as [Hall ?%bool_decide_eq_true]).
  destruct (stat_of_supported id' es) as (S1 & S2 & [_ S3] & S4 & [_ S5]). rewrite Hst in S1, S2, S3, S4, S5.
  split_and!; auto.
Qed.

(** C20: A green fleet is an attributed fleet: if the health gate says ok after any
    history of requests, then for every expected device some heartbeat listed it,
    some sample was filed under it, and some snapshot filed under it carried the
    device's own PhyCellID or EARFCN; and no sample or snapshot filed under it
    carried a value of these that the device does not have. *)
Theorem green_fleet_attributed h st ids rep :
  fleet st = Some (newFleetHealth ids) → handle_health (run h st) = Some rep → says_ok rep = true →
  ∀ id, id ∈ ids →
    in_history h st (λ t _, lists_device id t) ∧
    in_history h st (λ t st, ∃ ms, samples_device id ms t st) ∧
    in_history h st (λ t _, ∃ posted dev path v, snapshots_device id posted t ∧
      deviceByCWMPID (tn_devices t) id = Some dev ∧ path ∈ [phyCellIDConfigPath; earfcnDLConfigPath] ∧
      posted !! path = Some v ∧ params dev !! path = Some (Sprint SprintFloat v)) ∧
    ¬ in_history h st (λ t st, ∃ ms dev key path v, samples_device id ms t st ∧
      deviceByCWMPID (tn_devices t) id = Some dev ∧
      (key, path) ∈ [("pci_inuse", phyCellIDInUsePath); ("earfcn_dl_inuse", earfcnDLInUsePath)] ∧
      me_Metrics ms !! key = Some v ∧ differs dev path v) ∧
    ¬ in_history h st (λ t _, ∃ posted dev path v, snapshots_device id posted t ∧
      deviceByCWMPID (tn_devices t) id = Some dev ∧ path ∈ [phyCellIDConfigPath; earfcnDLConfigPath] ∧
      posted !! path = Some v ∧ differs dev path v).
Proof.
  intros Hf Hrep Hok id Hid. destruct (green_evidence h st ids rep Hf Hrep Hok id Hid) as (E1 & [n E2] & E3 & [b E4] & E5).
  assert (Hev : ∀ h1 t h2 e, h = h1 ++ t :: h2 → tn_devices t ≠ [] → e ∈ evidence_of t (run h1 st) → e ∈ history h st).
  { intros h1 t h2 e -> Hd He. apply elem_of_history. by exists h1, t, h2. }
  apply elem_of_history in E1 as (g1 & t1 & k1 & H1 & D1 & E1%evidence_source).
  apply elem_of_history in E2 as (g2 & t2 & k2 & H2 & D2 & E2%evidence_source).
  apply elem_of_history in E4 as (g4 & t4 & k4 & H4 & D4 & E4%evidence_source).
  split_and!; [by exists g1, t1, k1| | | |].
  - exists g2, t2, k2. destruct E2 as (ms & ? & _). by split_and!; [| |exists ms].
  - exists g4, t4, k4. split_and!; [done|done|]. destruct E4 as (posted & Hs & Hc). unfold snapshot_evidence in Hc.
    destruct (deviceByCWMPID _ id) as [dev|] eqn:Hdev; [|done]. injection Hc as Hc.
    pose proof (proj1 (proj1 (checkAttribution_spec dev posted snapshotAttributionPaths))) as Hv. rewrite <- Hc in Hv.
    apply Exists_exists in Hv as (path & ? & v & ? & ?); [|done]. by exists posted, dev, path, v.
  - intros (g & t & k & Hh & Hd & ms & dev & key & path & v & Hs & Hdev & Hkp & Hv & Hdiff).
    destruct Hs as (Hp & Hfl & Hms & <-).
    assert (Hz : mismatches SprintFloat dev ms = 0).
    { apply E3. eapply Hev; [done|done|]. apply telemetry_evidence; [done..|]. left. exists ms. split; [done|].
      unfold sample_evidence. by rewrite Hdev. }
    exact (mismatches_none dev ms Hz (key, path) v Hkp Hv Hdiff).
  - intros (g & t & k & Hh & Hd & posted & dev & path & v & Hs & Hdev & Hp & Hv & Hdiff).
    assert (Hc : (checkAttribution SprintFloat dev posted snapshotAttributionPaths).2 = false).
    { apply E5. eapply Hev; [done|done|]. rewrite (snapshot_evidence_of t _ id posted Hs Hd).
      apply list_elem_of_singleton. unfold snapshot_evidence. by rewrite Hdev. }
    apply not_true_iff_false in Hc. apply Hc, checkAttribution_spec, Exists_exists. exists path. split; [done|by exists v].
Qed.

(** C27: The mock cloud never dereferences a missing device: after any history of
    requests it answers the next one, whatever it is. *)
Theorem gate_never_panics h st ids t :
  fleet st = None ∨ fleet st = Some (newFleetHealth ids) → tn_devices t ≠ [] → is_Some (mux t (run h st)).1.
Proof.
  intros Hf Hdev. pose proof (run_tracked h st) as Ht.
  assert (Hh : is_Some (handle_health (run h st))).
  { unfold handle_health. destruct Hf as [Hf|Hf]; rewrite Hf in Ht; [by inversion Ht|].
    inversion Ht as [f g [He Hp] E1 E2|].
    assert (Hst : is_Some (expected_stats f)).
    { unfold expected_stats. rewrite He, weigh_all_expected. apply mapM_is_Some. apply Forall_forall.
      intros id Hid. unfold compose. rewrite Hp, weigh_all_lookup, newFleetHealth_lookup by done. by eexists. }
    destruct Hst as [stats ->]. by eexists. }
  unfold cloudMux. destruct (tn_devices t) as [|dev0 devs]; [done|].
  repeat (case_decide; [first [by eexists|exact Hh|by destruct (deviceParamsMux _ _ _); eexists]|]).
  destruct (HasPrefix _ "/v1/agent/devices/"); [destruct (HasSuffix _ _); by eexists|].
  destruct (HasPrefix _ "/v1/agent/commands/"); [destruct (HasSuffix _ _); by eexists|].
  case_decide; by eexists.
Qed.

(** ** Counting events once *)

Definition accepted (t : turn) (st : state) : list event_entry :=
  if decide (tn_devices t ≠ [] ∧ URLPath (tn_req t) = "/v1/agent/telemetry" ∧ st_failures st ≠ 0%Z)
  then tb_Events (json_telemetry (ReqBody (tn_req t))) else [].

Fixpoint all_accepted (h : list turn) (st : state) : list event_entry :=
  match h with [] => [] | t :: rest => accepted t st ++ all_accepted rest (after t st) end.

Definition keys_of (evs : list event_entry) : gset string := list_to_set (ee_DedupKey <$> evs) ∖ {[""]}.
Definition keyless (evs : list event_entry) : nat := length (filter (λ ev, ee_DedupKey ev = "") evs).

Definition counts (n : nat) (seen : gset string) (st : state) : Prop :=
  st_events st = (Z.of_nat (size seen) + Z.of_nat n)%Z ∧ seenDedup st = seen ∧ "" ∉ seen.

Lemma count_event_view ev st : st_events (count_event ev st) = (st_events st + 1)%Z ∧ seenDedup (count_event ev st) = seenDedup st.
Proof. by destruct st. Qed.
Lemma see_key_view k st : st_events (see_key k st) = st_events st ∧ seenDedup (see_key k st) = {[k]} ∪ seenDedup st.
Proof. by destruct st. Qed.

Lemma keys_of_cons ev evs : keys_of (ev :: evs) = (if decide (ee_DedupKey ev = "") then ∅ else {[ee_DedupKey ev]}) ∪ keys_of evs.
Proof. unfold keys_of. cbn. case_decide; set_solver. Qed.

Lemma record_event_counts ev n seen st : counts n seen st →
  counts (n + keyless [ev]) (seen ∪ keys_of [ev]) (record_event st ev).
Proof.
  intros (Hn & Hs & Hne). unfold record_event, keyless. rewrite keys_of_cons, filter_cons.
  replace (keys_of []) with (∅ : gset string) by (unfold keys_of; set_solver). rewrite filter_nil.
  destruct (decide (ee_DedupKey ev = "")) as [Hk|Hk].
  - rewrite decide_False by tauto. destruct (count_event_view ev st) as [E1 E2]. cbn [length].
    replace (seen ∪ (∅ ∪ ∅)) with seen by set_solver. split_and!; [lia|congruence|done].
  - rewrite decide_True by done. cbn [length]. case_decide as Hin; rewrite Hs in Hin.
    + replace (seen ∪ ({[ee_DedupKey ev]} ∪ ∅)) with seen by set_solver. split_and!; [lia|done|done].
    + destruct (count_event_view ev (see_key (ee_DedupKey ev) st)) as [E1 E2].
      destruct (see_key_view (ee_DedupKey ev) st) as [E3 E4].
      replace (seen ∪ ({[ee_DedupKey ev]} ∪ ∅)) with ({[ee_DedupKey ev]} ∪ seen) by set_solver.
      split_and!; [|congruence|set_solver].
      rewrite size_union, size_singleton by set_solver. lia.
Qed.

Lemma record_events_counts evs n seen st : counts n seen st →
  counts (n + keyless evs) (seen ∪ keys_of evs) (foldl record_event st evs).
Proof.
  revert n seen st. induction evs as [|ev evs IH]; intros n seen st Hc.
  - cbn. replace (seen ∪ keys_of []) with seen by (unfold keys_of; set_solver). by rewrite Nat.add_0_r.
  - cbn [foldl]. pose proof (IH _ _ _ (record_event_counts ev n seen st Hc)) as Hi.
    replace (seen ∪ keys_of (ev :: evs)) with (seen ∪ keys_of [ev] ∪ keys_of evs)
      by (rewrite !keys_of_cons; unfold keys_of; set_solver).
    replace (n + keyless (ev :: evs)) with (n + keyless [ev] + keyless evs); [done|].
    unfold keyless. rewrite !filter_cons, filter_nil. case_decide; cbn [length]; lia.
Qed.

Lemma on_fleet_view g st : st_events (on_fleet g st) = st_events st ∧ seenDedup (on_fleet g st) = seenDedup st.
Proof. by destruct st. Qed.

Ltac same_view st :=
  unfold handle_heartbeat, handle_snapshot, handle_ack; cbn [fst snd]; repeat case_decide;
  try match goal with |- context [on_fleet ?g ?u] => destruct (on_fleet_view g u) as [-> ->] end;
  by destruct st.

Lemma after_view t st : URLPath (tn_req t) ≠ "/v1/agent/telemetry" →
  st_events (after t st) = st_events st ∧ seenDedup (after t st) = seenDedup st.
Proof.
  intros Hp. unfold after, cloudMux. destruct (tn_devices t) as [|dev0 devs]; [done|].
  case_decide; [by destruct (deviceParamsMux _ _ _)|].
  repeat (case_decide; [first [done|same_view st]|]).
  destruct (HasPrefix _ "/v1/agent/devices/"); [destruct (HasSuffix _ _); same_view st|].
  destruct (HasPrefix _ "/v1/agent/commands/"); [destruct (HasSuffix _ _); same_view st|].
  by case_decide.
Qed.

Lemma counts_nothing n seen st st' : st_events st' = st_events st ∧ seenDedup st' = seenDedup st → counts n seen st →
  counts (n + keyless []) (seen ∪ keys_of []) st'.
Proof.
  intros [E1 E2] Hc. unfold counts. rewrite E1, E2. replace (seen ∪ keys_of []) with seen by (unfold keys_of; set_solver).
  cbn. by rewrite Nat.add_0_r.
Qed.

Lemma after_counts t n seen st : counts n seen st →
  counts (n + keyless (accepted t st)) (seen ∪ keys_of (accepted t st)) (after t st).
Proof.
  intros Hc. unfold accepted. destruct (decide (URLPath (tn_req t) = "/v1/agent/telemetry")) as [Hp|Hp].
  2: { rewrite decide_False by naive_solver. eapply counts_nothing; [by apply after_view|done]. }
  unfold after, cloudMux. rewrite Hp. destruct (tn_devices t) as [|dev0 devs].
  { rewrite decide_False by naive_solver. by apply (counts_nothing n seen st). }
  repeat (rewrite (decide_False (P := "/v1/agent/telemetry" = _)) by discriminate).
  rewrite (decide_True (P := "/v1/agent/telemetry" = "/v1/agent/telemetry")) by done. unfold handle_telemetry.
  destruct (decide (st_failures st = 0)%Z) as [Hz|Hz].
  - rewrite decide_False by naive_solver. apply (counts_nothing n seen st); [by destruct st|done].
  - rewrite decide_True by done. cbn [fst snd]. apply record_events_counts.
    unfold counts. match goal with |- context [on_fleet ?g ?u] => destruct (on_fleet_view g u) as [-> ->] end.
    destruct st; exact Hc.
Qed.

(** C28: Every event counts once: after any history, the number of events is the
    number of distinct dedup keys that were posted, plus the events without one. *)
Theorem events_counted_once h expected_event :
  let st := initial_state expected_event in
  let evs := all_accepted h st in
  st_events (run h st) = (Z.of_nat (size (keys_of evs)) + Z.of_nat (keyless evs))%Z.
Proof.
  intros st evs.
  assert (Hgen : ∀ h n seen st, counts n seen st →
    counts (n + keyless (all_accepted h st)) (seen ∪ keys_of (all_accepted h st)) (run h st)).
  { clear. induction h as [|t h IH]; intros n seen st Hc.
    - cbn. replace (seen ∪ keys_of []) with seen by (unfold keys_of; set_solver). by rewrite Nat.add_0_r.
    - change (run (t :: h) st) with (run h (after t st)). cbn [all_accepted].
      pose proof (IH _ _ _ (after_counts t n seen st Hc)) as Hi.
      replace (keyless (accepted t st ++ all_accepted h (after t st)))
        with (keyless (accepted t st) + keyless (all_accepted h (after t st)))
        by (unfold keyless; by rewrite filter_app, length_app).
      replace (keys_of (accepted t st ++ all_accepted h (after t st)))
        with (keys_of (accepted t st) ∪ keys_of (all_accepted h (after t st)))
        by (unfold keys_of; rewrite fmap_app, list_to_set_app_L; set_solver).
      by rewrite Nat.add_assoc, union_assoc_L. }
  destruct (Hgen h 0 ∅ st) as (Hn & _ & _); [by split_and!|].
  rewrite Hn. unfold evs. by rewrite union_empty_l_L.
Qed.

(** ** The fleet tracker is transparent *)

Definition erase (st : state) : state := set_fleet None st.

Lemma record_event_erase ev st : record_event (erase st) ev = erase (record_event st ev).
Proof. destruct st. unfold record_event, erase. cbn. repeat case_decide; done. Qed.

Lemma record_events_erase evs st : foldl record_event (erase st) evs = erase (foldl record_event st evs).
Proof. revert st. induction evs as [|ev evs IH]; intros st; [done|]. cbn [foldl]. by rewrite record_event_erase, IH. Qed.

Lemma on_fleet_erase g st : on_fleet g (erase st) = erase st ∧ erase (on_fleet g st) = erase st.
Proof. by destruct st. Qed.

Lemma gate_erase st : gate (erase st) = gate st.
Proof. by destruct st. Qed.

(** The two replies of /health: [m] tracks a fleet, [m0] does not. *)
Definition health_but_fleet (tracking : bool) (m m0 : list (string * json)) : Prop :=
  (∀ k, k ≠ "ok" → k ≠ "fleet" → field k m = field k m0) ∧ field "fleet" m0 = None ∧
  if tracking then
    ∃ ok fm fleet_ok, field "ok" m0 = Some (JBool ok) ∧ field "fleet" m = Some (JObject fm) ∧
      field "ok" fm = Some (JBool fleet_ok) ∧ field "ok" m = Some (JBool (ok && fleet_ok))
  else m = m0.

Lemma health_transparent st rep : handle_health st = Some rep →
  ∃ m m0, rep = ReplyJSON 200 (JObject m) ∧ handle_health (erase st) = Some (ReplyJSON 200 (JObject m0)) ∧
    health_but_fleet (bool_decide (is_Some (fleet st))) m m0.
Proof.
  unfold handle_health. replace (fleet (erase st)) with (@None fleetHealth) by (by destruct st).
  assert (Hfields : ∀ ok, health_fields ok (erase st) = health_fields ok st) by (intros; by destruct st).
  rewrite gate_erase, Hfields. destruct (fleet st) as [f|]; cbn [bool_decide].
  - destruct (expected_stats f) as [stats|]; [|done]. intros [= <-].
    eexists _, (health_fields (gate st) st). split_and!; [done|done|].
    rewrite bool_decide_true by done. split_and!; [|done|].
    { intros k Hok Hfl. apply String.eqb_neq in Hok, Hfl. unfold health_fields. cbn [app field]. by rewrite Hok, Hfl. }
    eexists _, _, (fleetOK f stats). by split_and!.
  - intros [= <-]. eexists _, _. split_and!; [done|done|]. rewrite bool_decide_false by by intros [? [=]]. by split_and!.
Qed.

Lemma tracking_transparent t st :
  after t (erase st) = erase (after t st) ∧
  (mux t (erase st)).2.1 = (mux t st).2.1 ∧
  (URLPath (tn_req t) ≠ "/health" → (mux t (erase st)).1 = (mux t st).1).
Proof.
  unfold after, cloudMux. destruct (tn_devices t) as [|dev0 devs]; [done|].
  case_decide; [by destruct (deviceParamsMux _ _ _)|].
  case_decide; [split_and!; [done|done|congruence]|].
  case_decide; [split_and!; by destruct st|].
  case_decide.
  { unfold handle_heartbeat. cbn [fst snd]. split_and!; try done.
    replace (add_heartbeat (erase st)) with (erase (add_heartbeat st)) by (by destruct st).
    match goal with |- on_fleet ?g _ = _ => destruct (on_fleet_erase g (add_heartbeat st)) as [-> ->] end. done. }
  case_decide.
  { unfold handle_telemetry. replace (st_failures (erase st)) with (st_failures st) by (by destruct st).
    case_decide; [split_and!; by destruct st|]. cbn [fst snd]. split_and!; try done.
    rewrite <- record_events_erase. f_equal. replace (add_post (erase st)) with (erase (add_post st)) by (by destruct st).
    match goal with |- on_fleet ?g _ = _ => destruct (on_fleet_erase g (add_post st)) as [-> ->] end. done. }
  case_decide; [split_and!; try done; by destruct st|].
  destruct (HasPrefix _ "/v1/agent/devices/").
  { destruct (HasSuffix _ _); [|done]. unfold handle_snapshot. cbn [fst snd]. split_and!; try done.
    replace (add_params _ (erase st)) with (erase (add_params (json_snapshot (ReqBody (tn_req t))) st)) by (by destruct st).
    match goal with |- on_fleet ?g _ = _ => destruct (on_fleet_erase g (add_params (json_snapshot (ReqBody (tn_req t))) st)) as [-> ->] end.
    done. }
  destruct (HasPrefix _ "/v1/agent/commands/").
  { destruct (HasSuffix _ _); [|done]. unfold handle_ack. cbn [fst snd]. split_and!; try done.
    set (a := json_ack _). set (i := segment _ _ _). replace (add_ack i a (erase st)) with (erase (add_ack i a st)) by (by destruct st).
    case_decide; [|done]. match goal with |- on_fleet ?g _ = _ => destruct (on_fleet_erase g (add_ack i a st)) as [-> ->] end. done. }
  by case_decide.
Qed.

(** C26: Tracking a fleet changes nothing else: on any request the mock cloud with
    a tracker and the one without go on alike and answer alike, but for the health
    gate; and there the replies have the same fields, except that the one with a
    tracker adds the fleet's section and its top-level ok is the other's and the
    ok of that section. *)
Theorem fleet_tracking_transparent t st :
  after t (erase st) = erase (after t st) ∧
  (mux t (erase st)).2.1 = (mux t st).2.1 ∧
  (URLPath (tn_req t) ≠ "/health" → (mux t (erase st)).1 = (mux t st).1) ∧
  (URLPath (tn_req t) = "/health" → ∀ rep, (mux t st).1 = Some rep →
    ∃ m m0, rep = ReplyJSON 200 (JObject m) ∧ (mux t (erase st)).1 = Some (ReplyJSON 200 (JObject m0)) ∧
      health_but_fleet (bool_decide (is_Some (fleet st))) m m0).
Proof.
  destruct (tracking_transparent t st) as (? & ? & ?). split_and!; [done..|]. intros Hp rep.
  unfold cloudMux. rewrite Hp. destruct (tn_devices t) as [|dev0 devs]; [done|]. apply health_transparent.
Qed.

End Gate.

(** ** The scenario reaches the gate *)

(** What the agent posts of an event, as the mock cloud decodes it. *)
Definition entry_of (ev : EventItem) : event_entry := mkEventEntry (ev_CWMPID ev) (ev_EventType ev) (ev_DedupKey ev).

Definition landed (ev : event_entry) (st : state) : Prop :=
  ee_EventType ev ∈ typedEvents st ∧ (ee_CWMPID ev ∈ canonicalIDs st → sawCanonicalTypedEvent st = true).

Lemma record_event_keeps ev st : typedEvents st ⊆ typedEvents (record_event st ev) ∧
  canonicalIDs (record_event st ev) = canonicalIDs st ∧ expectedEvent (record_event st ev) = expectedEvent st ∧
  (sawCanonicalTypedEvent st = true → sawCanonicalTypedEvent (record_event st ev) = true).
Proof.
  destruct st. unfold record_event, count_event, see_key. cbn. repeat case_decide; cbn; split_and!; try done.
  all: try (intros ->; done). all: intros x Hx; apply elem_of_union; by right.
Qed.

Lemma landed_keeps ev evs st : landed ev st → landed ev (foldl record_event st evs).
Proof.
  revert st. induction evs as [|x evs IH]; intros st [H1 H2]; [done|]. cbn [foldl]. apply IH.
  destruct (record_event_keeps x st) as (K1 & K2 & _ & K4). split; [by apply K1|]. rewrite K2. auto.
Qed.

Lemma record_event_lands ev st : ee_EventType ev ≠ "" → ee_EventType ev ≠ "unclassified" → ee_DedupKey ev ∉ seenDedup st →
  landed ev (record_event st ev).
Proof.
  intros Hty Hun Hk. destruct st as [r h t e fl sn p a ty c ex d ids f]. unfold record_event, count_event, see_key, landed. cbn in *.
  rewrite !(decide_False (P := ee_EventType ev = "" ∨ _)) by tauto.
  repeat case_decide; try done; cbn;
    rewrite ?(decide_False (P := ee_EventType ev = "" ∨ _)) by tauto;
    (split; [apply elem_of_union; left; by apply elem_of_singleton|intros Hid; first [done|by rewrite orb_true_r]]).
Qed.

Lemma scenario_types : forallb (λ s, match scenario_rule s, scenarioEventType !! s with
  | Some r, Some ty => String.eqb (r_EventType r) ty && negb (String.eqb ty "") && negb (String.eqb ty "unclassified")
  | _, _ => false end && ends_visible (scenarioLines s)) known_scenarios = true.
Proof. vm_compute. reflexivity. Qed.

(** The staged line is the first of the log that the generator uploads. *)
Lemma Generate_first Expand gzip c sampleLines : scenario_of c ∈ known_scenarios →
  ∃ text rest, (Generate Expand gzip c sampleLines).1 = gzip text ∧ SplitByte text (byte_of 10) = scenarioLine c :: rest.
Proof.
  intros Hs. assert (Hn : no_byte (byte_of 10) (scenarioLine c) = true).
  { rewrite scenarioLine_eq, no_byte_app. apply andb_true_iff. split.
    - apply (all_bytes_no_byte stamp_byte); [reflexivity|apply line_stamp_bytes].
    - assert (Hall : forallb (λ s, no_byte (byte_of 10) (scenarioLines s)) known_scenarios = true) by (vm_compute; reflexivity).
      rewrite forallb_forall in Hall. apply Hall. by apply list_elem_of_In. }
  assert (Hlines : ∃ rest, (slices Expand c sampleLines).1 = scenarioLine c :: rest).
  { unfold slices. destruct (splitCorpus _) as [op inc]. destruct (IsIncidentCycle _); by eexists. }
  destruct Hlines as [rest Hl]. unfold Generate. destruct (slices Expand c sampleLines) as [lines errs]. cbn [fst] in Hl. subst lines.
  exists (log_text (scenarioLine c :: rest)), (SplitByte (log_text rest) (byte_of 10)). split; [done|].
  cbn [log_text]. unfold newline. rewrite str_app_cons. by apply SplitByte_app.
Qed.

(** C29: Every scenario can turn the gate green: in the log that the generator
    uploads for it, whatever the corpus and the cycle, the agent finds the
    scenario's event; and once that event is posted under a device's canonical id,
    the mock cloud has seen the event that it expects for the scenario, on a
    canonical id. *)
Theorem scenario_reaches_gate Expand gzip c sampleLines now id bucket :
  scenario_of c ∈ known_scenarios → id ≠ "" →
  ∃ text ev, (Generate Expand gzip c sampleLines).1 = gzip text ∧
    ev ∈ Apply DefaultEngine now (SplitByte text (byte_of 10)) id bucket ∧
    ∀ pre post st, let evs := pre ++ entry_of ev :: post in
      expectedEvent st = default "" (scenarioEventType !! scenario_of c) → id ∈ canonicalIDs st →
      ev_DedupKey ev ∉ seenDedup (foldl record_event st pre) →
      let st' := foldl record_event st evs in sawExpected st' = true ∧ sawCanonicalTypedEvent st' = true.
Proof.
  intros Hs Hne_id. pose proof (proj1 (forallb_forall _ _) scenario_types (scenario_of c)) as Ht.
  rewrite <- list_elem_of_In in Ht. specialize (Ht Hs).
  apply andb_true_iff in Ht as [Ht Hv]. destruct (scenario_rule (scenario_of c)) as [r|] eqn:Hr; [|done].
  destruct (scenarioEventType !! scenario_of c) as [ty|] eqn:Hty; [|done].
  apply andb_true_iff in Ht as [[He%String.eqb_eq Hne]%andb_true_iff Hun].
  destruct (Generate_first Expand gzip c sampleLines Hs) as (text & rest & Hg & Hsp).
  eexists text, _. split; [done|]. split.
  { rewrite Hsp. unfold Apply. cbn [apply_lines]. apply elem_of_app. left.
    rewrite (scenarioLine_event (RFC3339 now) id bucket c r Hv Hr). by apply list_elem_of_singleton. }
  set (ev := event _ _ _ _ _ _ _ _). intros pre post st evs Hex Hid Hk st'. cbn in Hex.
  assert (Hevty : ev_EventType ev = ty) by (unfold ev, event; done).
  assert (Hevid : ev_CWMPID ev = id) by (unfold ev, event; cbn; by rewrite decide_False).
  set (st1 := foldl record_event st pre) in *.
  assert (Hkeep : ∀ l u, canonicalIDs (foldl record_event u l) = canonicalIDs u ∧ expectedEvent (foldl record_event u l) = expectedEvent u).
  { induction l as [|x l IH]; intros u; [done|]. cbn [foldl]. destruct (IH (record_event u x)) as [-> ->].
    by destruct (record_event_keeps x u) as (_ & -> & -> & _). }
  assert (Hl : landed (entry_of ev) st').
  { unfold st', evs. rewrite foldl_app. cbn [foldl]. apply landed_keeps, record_event_lands; [..|exact Hk];
      cbn [entry_of ee_EventType]; rewrite Hevty; intros Hx; rewrite Hx in Hne, Hun; discriminate. }
  destruct Hl as [Hin Hcan]. cbn [entry_of ee_EventType ee_CWMPID] in *. rewrite Hevty in Hin. rewrite Hevid in Hcan.
  destruct (Hkeep evs st) as [Hc Hx]. fold st' in Hc, Hx. split.
  - unfold sawExpected. rewrite Hx, Hex. by rewrite bool_decide_true.
  - apply Hcan. by rewrite Hc.
Qed.

(** ** A history that turns the gate green *)

Definition ex_cell : device :=
  mkDev (write_all [(phyCellIDConfigPath, "7"); (phyCellIDInUsePath, "7"); (refSignalPowerPath, "-8")] ∅) 1 0 None
    "8C1F64" "ENB-1" "42" "cell" 0 30005 "".

Definition ex_params : gmap string any :=
  <[phyCellIDConfigPath := AString "7"]> (list_to_map ((λ n, (pretty (Z.of_nat n), AString "x")) <$> seq 0 23)).
Definition ex_telemetry (body : string) : telemetry_body :=
  mkTelemetryBody [mkMetric "cell" {["pci_inuse" := AString "7"]}] [mkEventEntry "cell" "ftp_upload_ok" "k1"].

Definition ex_turn (path : string) : turn := mkTurn "t" [ex_cell] (mkRequest "POST" path ∅ "").
Definition ex_history : list turn := ex_turn <$>
  ["/v1/agent/register"; "/v1/agent/heartbeat"; "/v1/agent/telemetry"; "/v1/agent/telemetry"; "/v1/agent/telemetry";
   "/v1/agent/devices/cell/config-snapshot"; "/v1/agent/commands/" +:+ configureCommandID +:+ "/ack";
   "/v1/agent/commands/" +:+ queryCommandID +:+ "/ack"; "/v1/agent/commands/" +:+ rebootCommandID +:+ "/ack"].

Definition ex_gate : state := set_fleet (Some (newFleetHealth ["cell"])) (set_fleet None
  (stateForSpecs (initial_state "ftp_upload_ok") [mkSpec 0 "8C1F64" "ENB-1" "42" "cell" 30005 "" ∅] true)).

Definition ex_sprint (f : spec_float) : string := "".
Abbreviation ex_run := (run ex_sprint (λ _, inl "") (λ _, ["cell"]) ex_telemetry (λ _, ex_params) (λ _, "applied")).

Lemma green_fleet_attributed_witness :
  in_history ex_sprint (λ _, inl "") (λ _, ["cell"]) ex_telemetry (λ _, ex_params) (λ _, "applied") ex_history ex_gate
    (λ t _, lists_device (λ _, ["cell"]) "cell" t).
Proof.
  assert (Hok : says_ok <$> handle_health (ex_run ex_history ex_gate) = Some true) by (vm_compute; reflexivity).
  destruct (handle_health (ex_run ex_history ex_gate)) as [rep|] eqn:Hrep; [|discriminate]. injection Hok as Hok.
  refine (proj1 (green_fleet_attributed ex_sprint (λ _, inl "") (λ _, ["cell"]) ex_telemetry (λ _, ex_params) (λ _, "applied")
    ex_history ex_gate ["cell"] rep eq_refl Hrep Hok "cell" _)).
  by left.
Defined.

Lemma gate_never_panics_witness :
  is_Some (cloudMux ex_sprint "t" (λ _, inl "") (λ _, ["cell"]) ex_telemetry (λ _, ex_params) (λ _, "applied")
    (tn_req (ex_turn "/health")) ([ex_cell], ex_run ex_history ex_gate)).1.
Proof.
  apply (gate_never_panics ex_sprint (λ _, inl "") (λ _, ["cell"]) ex_telemetry (λ _, ex_params) (λ _, "applied")
    ex_history ex_gate ["cell"] (ex_turn "/health")).
  - right. reflexivity.
  - discriminate.
Defined.

Definition ex_cfg : LogGen.Config := LogGen.mkConfig "8C1F64" "42" "ENB-1" 1709210096000000000 "ftp-auth-fail" 0.

Lemma scenario_reaches_gate_witness :
  ∃ ev, ev ∈ Apply DefaultEngine 7 (SplitByte (log_text (slices (λ t _, t) ex_cfg ["1 t [NCM] x"]).1) (byte_of 10)) "cell" "20240229" ∧
    let st := foldl record_event (stateForSpecs (initial_state "ftp_auth_fail") [mkSpec 0 "" "" "" "cell" 0 "" ∅] false) [entry_of ev] in
    sawExpected st = true ∧ sawCanonicalTypedEvent st = true.
Proof.
  assert (Hk : scenario_of ex_cfg ∈ known_scenarios) by (right; right; by left).
  destruct (scenario_reaches_gate (λ t _, t) id ex_cfg ["1 t [NCM] x"] 7 "cell" "20240229" Hk ltac:(discriminate))
    as (text & ev & Htext & Hev & Hgate).
  assert (Ht : text = log_text (slices (λ t _, t) ex_cfg ["1 t [NCM] x"]).1) by (etrans; [exact (eq_sym Htext)|vm_compute; reflexivity]).
  exists ev. split; [by rewrite <- Ht|].
  apply (Hgate [] [] (stateForSpecs (initial_state "ftp_auth_fail") [mkSpec 0 "" "" "" "cell" 0 "" ∅] false)).
  - vm_compute. reflexivity.
  - apply elem_of_list_to_set. by left.
  - apply not_elem_of_empty.
Defined.
