(* ===== verification/Wire.v ===== *)
(** * The wire between agent and device

    What one side encodes, the other decodes: the agent's requests as the
    simulated device reads them, the device's messages as the agent's
    [DecodeEnvelope] reads them.  Text that a side does not escape has to be
    plain; text that it does escape only has to be XML characters. *)
From S2P Require Import Prelude GoStrings GoTime CwmpTypes Soap Xml SoapDecode XmlRoundtrip DeviceSim.

(** ** Plain text *)

(** Text that escaping does not change. *)
Definition plain (s : string) : bool := bool_decide (EscapeText s = s) && valid_text s.

Lemma plain_spec s : plain s = true ↔ EscapeText s = s ∧ valid_text s = true.
Proof. unfold plain. by rewrite andb_true_iff, bool_decide_eq_true. Qed.

Definition ascii_safe (a : ascii) : bool := byte_in 32 126 a && safe a.

Lemma DecodeRune_ascii a s : ascii_safe a = true → DecodeRune (String a s) = (byteZ a, 1).
Proof.
  intros [[_ Ha]%bool_decide_eq_true _]%andb_true_iff. unfold DecodeRune. rewrite decide_True; [done|].
  unfold byteZ. lia.
Qed.

Lemma ascii_safe_rune a : ascii_safe a = true → escape_rune (byteZ a) 1 = None ∧ isInCharacterRange (byteZ a) = true ∧
  byteZ a ≠ 65533%Z.
Proof.
  intros [[H1 H2]%bool_decide_eq_true [_ Hs%bool_decide_eq_true]%andb_true_iff]%andb_true_iff.
  assert (Hr : (32 ≤ byteZ a ≤ 126)%Z) by (unfold byteZ; lia).
  assert (Hrange : isInCharacterRange (byteZ a) = true).
  { unfold isInCharacterRange. apply bool_decide_eq_true. lia. }
  split_and!; [|done|lia]. unfold specials in Hs. rewrite !not_elem_of_cons in Hs.
  destruct Hs as (Hlt & Hgt & Hamp & Hap & Hqu & _). unfold escape_rune.
  assert (Hne : ∀ b, a ≠ b → byteZ a ≠ byteZ b) by (intros b Hab Heq; by apply Hab, byteZ_inj).
  apply Hne in Hlt, Hgt, Hamp, Hap, Hqu.
  repeat rewrite decide_False by (lia || assumption).
  rewrite Hrange, bool_decide_false by lia. done.
Qed.

Lemma ascii_plain s : all_bytes ascii_safe s = true → plain s = true.
Proof.
  intros Hs. apply plain_spec. unfold EscapeText, valid_text. induction s as [|a s IH]; [done|].
  apply andb_true_iff in Hs as [Ha Hs]. destruct (IH Hs) as [He Hv].
  destruct (ascii_safe_rune a Ha) as (Hesc & Hr & Hne). cbn [escape valid_go].
  rewrite !DecodeRune_ascii, Hesc, Hr by done. cbn [Nat.sub]. rewrite He, Hv, bool_decide_false by naive_solver. done.
Qed.

Lemma pretty_Z_safe (x : Z) : all_bytes ascii_safe (pretty x) = true.
Proof. apply pretty_Z_all; [|by right]. intros n. unfold pretty_N_char. repeat case_match; reflexivity. Qed.

Lemma pretty_plain (x : Z) : plain (pretty x) = true.
Proof. apply ascii_plain, pretty_Z_safe. Qed.

Lemma RFC3339_plain t : plain (RFC3339 t) = true.
Proof.
  apply ascii_plain. unfold RFC3339, four, two, digit. rewrite !all_bytes_app. cbn [all_bytes].
  assert (Hd : ∀ n, ascii_safe (pretty_N_char n) = true) by (intros n; unfold pretty_N_char; repeat case_match; reflexivity).
  by rewrite !Hd.
Qed.

Lemma xsdType_plain m p : plain (xsdType m p) = true.
Proof.
  unfold xsdType, xsdFor. destruct (m_byPath m !! p); [|reflexivity]. repeat case_decide; reflexivity.
Qed.

(** ** Elements *)

Section Wire.
Variable unicode_name : string → bool.
Abbreviation renders := (renders unicode_name).
Abbreviation tag_name := (tag_name unicode_name).

Ltac tagname := split; reflexivity.

(** Decoding a known tree field by field. *)
Ltac run_fields :=
  repeat first [progress cbn [fields mbind option_bind fmap option_fmap option_map default fst snd]
               | rewrite decide_True by reflexivity | rewrite decide_False by discriminate].

Lemma renders_plain s : plain s = true → renders s (text_kids s).
Proof. intros [He Hv]%plain_spec. rewrite <- He at 1. by apply renders_text. Qed.

Lemma renders_field w s : tag_name w (mkName "" w) → plain s = true → renders (element w s) [El w (text_kids s)].
Proof. intros Hn Hs. change w with (local (mkName "" w)) at 2. by apply renders_element, renders_plain. Qed.

Lemma skip_space_cons a s : is_space a = true → skip_space (String a s) = skip_space s.
Proof. intros Ha. unfold skip_space. cbn [span]. rewrite Ha. by destruct (span is_space s). Qed.

(** A start tag with one attribute. *)
Lemma attr_token w m an am v r : tag_name w m → tag_name an am → valid_text v = true →
  rawToken unicode_name (tag1 w an (EscapeText v) +:+ r) = Some (StartT m false, r).
Proof.
  intros Hw Hn Hv. unfold tag1. rewrite !str_app_assoc.
  set (rest := ">" +:+ r). set (t := " " +:+ an +:+ "=" +:+ dq +:+ EscapeText v +:+ dq +:+ rest).
  apply start_tag_token; [done| |by eexists _, _].
  rewrite <- (attributes_fuel _ (S (S (String.length t)))) by lia. cbn [attributes].
  assert (Hone : one_attribute unicode_name t = Some (ANext rest)).
  { destruct (tag_name_first _ _ _ Hn) as (a & an' & Han & Ha). unfold one_attribute.
    assert (Hsp : skip_space t = an +:+ "=" +:+ dq +:+ EscapeText v +:+ dq +:+ rest).
    { subst t. change (" " +:+ ?x) with (String " " x). rewrite skip_space_cons by done. apply (skip_space_name _ _ a an'); [done|]. destruct (is_space a) eqn:Hs; [|done]. exfalso.
      apply bool_decide_eq_true in Hs. rewrite !elem_of_cons, elem_of_nil in Hs.
      destruct Hs as [->|[->|[->|[->|[]]]]]; vm_compute in Ha; congruence. }
    rewrite Hsp. clear Hsp. rewrite Han at 1. rewrite str_app_cons.
    rewrite decide_False by (by eapply name_byte_ne). rewrite decide_False by (by eapply name_byte_ne).
    rewrite <- str_app_cons, <- Han. change ("=" +:+ ?x) with (String "=" x). destruct Hn as [Hb Hq].
    rewrite (nsname_qname _ _ am) by done. cbn [mbind option_bind].
    change (skip_space (String "=" ?x)) with (String "=" x). cbv iota. rewrite decide_True by done.
    change (skip_space (dq +:+ ?x)) with (String dqb x). unfold attrval. rewrite decide_True by (by right).
    change (dq +:+ rest) with (String dqb rest).
    rewrite (text_EscapeText _ (Some dqb)); [reflexivity|by left| |done]. split; [by left|by eexists]. }
  rewrite Hone. subst rest. reflexivity.
Qed.

Lemma tag1_token w m an am v r : tag_name w m → tag_name an am → plain v = true →
  rawToken unicode_name (tag1 w an v +:+ r) = Some (StartT m false, r).
Proof. intros Hw Hn [He Hv]%plain_spec. rewrite <- He. by apply (attr_token w m an am). Qed.

Lemma renders_tag1 w m an am v c k : tag_name w m → tag_name an am → plain v = true → renders c k →
  renders (tag1 w an v +:+ c +:+ close_tag w) [El (local m) k].
Proof.
  intros Hw Hn Hv Hc. apply renders_tagged; [done|done|]. intros r. by apply (tag1_token w m an am).
Qed.

Lemma opens_element w c : opens (element w c).
Proof. by eexists. Qed.
Lemma opens_app s t : opens s → opens (s +:+ t).
Proof. intros [u ->]. rewrite str_app_cons. by eexists. Qed.

(** ** The envelope *)

Definition declaration : string := "<?xml version=" +:+ dq +:+ "1.0" +:+ dq +:+ " encoding=" +:+ dq +:+ "UTF-8" +:+ dq +:+ "?>".
Definition envelope_tag : string :=
  "<soapenv:Envelope xmlns:soapenv=" +:+ dq +:+ "http://schemas.xmlsoap.org/soap/envelope/" +:+ dq +:+
  " xmlns:soap=" +:+ dq +:+ "http://schemas.xmlsoap.org/soap/encoding/" +:+ dq +:+
  " xmlns:xsd=" +:+ dq +:+ "http://www.w3.org/2001/XMLSchema" +:+ dq +:+
  " xmlns:xsi=" +:+ dq +:+ "http://www.w3.org/2001/XMLSchema-instance" +:+ dq +:+
  " xmlns:cwmp=" +:+ dq +:+ "urn:dslforum-org:cwmp-1-2" +:+ dq +:+ ">".

Lemma soapOpen_split msgID inner : soapOpen msgID +:+ inner +:+ soapClose =
  declaration +:+ nl +:+ envelope_tag +:+ nl +:+
  element "soapenv:Header" (tag1 "cwmp:ID" "soapenv:mustUnderstand" "1" +:+ msgID +:+ close_tag "cwmp:ID") +:+ nl +:+
  element "soapenv:Body" inner +:+ close_tag "soapenv:Envelope".
Proof.
  unfold soapOpen, soapOpen_head, soapOpen_tail, soapClose, declaration, envelope_tag, element, open_tag, close_tag, tag1.
  rewrite !str_app_assoc. reflexivity.
Qed.

Definition envelope_tree (msgID : string) (k : list xml) : list xml :=
  [Tx nl; El "Header" [El "ID" (text_kids msgID)]; Tx nl; El "Body" k].

Lemma renders_nl : renders nl [Tx nl].
Proof. intros m l stk r [t ->]. apply xsteps_one. reflexivity. Qed.

Lemma declaration_token r : rawToken unicode_name (declaration +:+ r) = Some (OtherT, r).
Proof. vm_compute. reflexivity. Qed.

Lemma envelope_tag_token r : rawToken unicode_name (envelope_tag +:+ r) = Some (StartT (mkName "soapenv" "Envelope") false, r).
Proof. vm_compute. reflexivity. Qed.

Lemma nl_token r : opens r → rawToken unicode_name (nl +:+ r) = Some (TextT nl, r).
Proof. intros [t ->]. reflexivity. Qed.

Lemma nl_steps m l stk r : opens r → xsteps unicode_name ((m, l) :: stk, nl +:+ r) ((m, l ++ [Tx nl]) :: stk, r).
Proof. intros Hr. apply xsteps_one. unfold xstep. by rewrite nl_token. Qed.

Lemma envelope_decodes msgID inner k : plain msgID = true → renders inner k →
  Decode unicode_name (soapOpen msgID +:+ inner +:+ soapClose) = Some (El "Envelope" (envelope_tree msgID k)).
Proof.
  intros Hid Hinner. apply Decode_terminates. rewrite soapOpen_split.
  set (m := mkName "soapenv" "Envelope"). set (last := close_tag "soapenv:Envelope").
  assert (Hlast : opens last) by (by eexists).
  exists [(m, envelope_tree msgID k)], last, "". split.
  2: { unfold xstep. subst last. rewrite <- (str_app_nil_r (close_tag _)), (close_tag_token _ _ m) by tagname. reflexivity. }
  eapply xsteps_cons; [unfold xstep; rewrite declaration_token; reflexivity|].
  eapply xsteps_cons; [unfold xstep; rewrite nl_token by (by eexists); reflexivity|].
  eapply xsteps_cons; [unfold xstep; rewrite envelope_tag_token; reflexivity|].
  eapply xsteps_trans; [apply nl_steps; by eexists|].
  eapply xsteps_trans.
  { apply (tagged_steps _ (open_tag "soapenv:Header") _ (mkName "soapenv" "Header")); [tagname| |].
    - apply (renders_tag1 _ (mkName "cwmp" "ID") _ (mkName "soapenv" "mustUnderstand")); [tagname|tagname|done|].
      by apply renders_plain.
    - intros r. apply open_tag_token. tagname. }
  eapply xsteps_trans; [apply nl_steps; by eexists|].
  change (envelope_tree msgID k) with
    (((([] ++ [Tx nl]) ++ [El "Header" [El "ID" (text_kids msgID)]]) ++ [Tx nl]) ++ [El "Body" k]).
  apply (tagged_steps _ (open_tag "soapenv:Body") _ (mkName "soapenv" "Body")); [tagname|done|].
  intros r. apply open_tag_token. tagname.
Qed.

(** ** The agent's requests, read by the device *)

Definition leaf (n s : string) : xml := El n (text_kids s).
Definition write_tree (w : ParameterValueStruct) : xml :=
  El "ParameterValueStruct" [leaf "Name" (pv_Name w); leaf "Value" (v_Text (pv_Value w))].

Definition response_kids (r : Response) : list xml :=
  match r with
  | InformResponse n => [leaf "MaxEnvelopes" (pretty n)]
  | GetRPCMethodsResponse l => [El "MethodList" (leaf "string" <$> l)]
  | TransferCompleteResponse | AutonomousTransferCompleteResponse => []
  | GetParameterValues l => [El "ParameterNames" (leaf "string" <$> l)]
  | SetParameterValues l key => [El "ParameterList" (write_tree <$> l); leaf "ParameterKey" key]
  | GetParameterNames path next => [leaf "ParameterPath" path; leaf "NextLevel" (marshal_bool next)]
  | Reboot key => [leaf "CommandKey" key]
  end.

Definition write_ok (w : ParameterValueStruct) : Prop :=
  valid_text (pv_Name w) = true ∧ valid_text (v_Type (pv_Value w)) = true ∧ valid_text (v_Text (pv_Value w)) = true.

(** Every text of a response is made of XML characters. *)
Definition response_ok (r : Response) : Prop :=
  match r with
  | GetRPCMethodsResponse l | GetParameterValues l => Forall (λ s, valid_text s = true) l
  | SetParameterValues l key => Forall write_ok l ∧ valid_text key = true
  | GetParameterNames s _ | Reboot s => valid_text s = true
  | _ => True
  end.

Lemma renders_leaf' n s : tag_name n (mkName "" n) → valid_text s = true → renders (element n (EscapeText s)) [leaf n s].
Proof. intros Hn Hs. by apply (renders_leaf _ n (mkName "" n)). Qed.

Lemma renders_strings l : Forall (λ s, valid_text s = true) l →
  renders (concat_str ((λ m, element "string" (EscapeText m)) <$> l)) (leaf "string" <$> l).
Proof.
  intros Hl. apply renders_concat. eapply Forall_impl; [exact Hl|]. intros s Hs.
  split; [by apply renders_leaf'; [tagname|]|apply opens_element].
Qed.

Lemma renders_value v : valid_text (v_Type v) = true → valid_text (v_Text v) = true →
  renders (marshal_value v) [leaf "Value" (v_Text v)].
Proof.
  intros Ht Hv. unfold marshal_value. case_decide as Hty.
  - rewrite str_app_nil_r. by apply renders_leaf'; [tagname|].
  - replace (open_tag ("Value" +:+ " xsi:type=" +:+ dq +:+ EscapeText (v_Type v) +:+ dq))
      with (tag1 "Value" "xsi:type" (EscapeText (v_Type v))) by (unfold tag1, open_tag; by rewrite !str_app_assoc).
    apply (renders_tagged _ _ _ (mkName "" "Value")); [tagname|by apply renders_text|].
    intros r. by apply (attr_token _ _ _ (mkName "xsi" "type")); [tagname|tagname|].
Qed.

Lemma renders_write w : write_ok w → renders (marshal_write w) [write_tree w].
Proof.
  intros (Hn & Ht & Hv). unfold marshal_write. apply (renders_element _ _ (mkName "" "ParameterValueStruct")); [tagname|].
  apply (renders_app _ _ [leaf "Name" (pv_Name w)] _ [leaf "Value" (v_Text (pv_Value w))]).
  - by apply renders_leaf'; [tagname|].
  - by apply renders_value.
  - right. by eexists.
Qed.

Lemma renders_children r : response_ok r → renders (children r) (response_kids r).
Proof.
  assert (Hnum : ∀ n : Z, renders (element "MaxEnvelopes" (pretty n)) [leaf "MaxEnvelopes" (pretty n)]).
  { intros n. apply renders_field; [tagname|apply pretty_plain]. }
  destruct r as [n|l| | |l|l key|path next|key]; cbn [response_ok children response_kids]; intros Hok.
  - apply Hnum.
  - by apply (renders_element _ _ (mkName "" "MethodList")); [tagname|apply renders_strings].
  - apply renders_nil.
  - apply renders_nil.
  - by apply (renders_element _ _ (mkName "" "ParameterNames")); [tagname|apply renders_strings].
  - destruct Hok as [Hl Hk].
    apply (renders_app _ _ [El "ParameterList" (write_tree <$> l)] _ [leaf "ParameterKey" key]).
    + apply (renders_element _ _ (mkName "" "ParameterList")); [tagname|]. apply renders_concat.
      eapply Forall_impl; [exact Hl|]. intros w Hw. split; [by apply renders_write|by eexists].
    + by apply renders_leaf'; [tagname|].
    + right. by eexists.
  - apply (renders_app _ _ [leaf "ParameterPath" path] _ [leaf "NextLevel" (marshal_bool next)]).
    + by apply renders_leaf'; [tagname|].
    + by apply renders_field; [tagname|destruct next].
    + right. by eexists.
  - by apply renders_leaf'; [tagname|].
Qed.

Lemma EncodeResponse_decodes msgID r : plain msgID = true → response_ok r →
  Decode unicode_name (EncodeResponse msgID r) =
    Some (El "Envelope" (envelope_tree msgID [El (type_name r) (response_kids r)])).
Proof.
  intros Hid Hr. unfold EncodeResponse. rewrite rewriteRoot_Marshal. apply envelope_decodes; [done|].
  assert (Hn : tag_name (cwmpElement r) (mkName "cwmp" (type_name r))) by (destruct r; tagname).
  change (type_name r) with (local (mkName "cwmp" (type_name r))) at 1. by apply renders_element, renders_children.
Qed.

Lemma append_path_map {A B} (q : string) (f : list xml → option A) (tree : B → xml) (g : B → A) (l : list B) a :
  Forall (λ x, ∃ k, tree x = El q k ∧ f k = Some (g x)) l →
  append_path q f (tree <$> l) a = Some (a ++ (g <$> l)).
Proof.
  intros Hl. unfold append_path, path_field. revert a. induction Hl as [|x l (k & Hk & Hf) _ IH]; intros a.
  - cbn. by rewrite app_nil_r.
  - cbn [fmap list_fmap]. rewrite Hk. cbn [fields]. rewrite decide_True, Hf by done. cbn [mbind option_bind].
    rewrite IH, <- app_assoc. done.
Qed.

Lemma body_of {A} (f : list xml → A → option A) msgID k a :
  path_field "Body" f (envelope_tree msgID k) a = f k a.
Proof. unfold path_field, envelope_tree. run_fields. by destruct (f k a). Qed.

(** What the device makes of a response. *)
Definition request_for (r : Response) : acsRequest :=
  match r with
  | GetParameterValues l => mkAcsRequest "gpv" l []
  | SetParameterValues l _ => mkAcsRequest "spv" [] ((λ w, (pv_Name w, v_Text (pv_Value w))) <$> l)
  | GetParameterNames path _ => mkAcsRequest "gpn" [path] []
  | Reboot _ => mkAcsRequest "reboot" [] []
  | _ => mkAcsRequest "" [] []
  end.

Lemma acs_field_response r :
  fields acs_field [El (type_name r) (response_kids r)] (mkAcsBody None None None None) =
  Some match r with
       | GetParameterValues l => mkAcsBody (Some l) None None None
       | SetParameterValues l _ => mkAcsBody None (Some ((λ w, (pv_Name w, v_Text (pv_Value w))) <$> l)) None None
       | GetParameterNames path _ => mkAcsBody None None (Some path) None
       | Reboot _ => mkAcsBody None None None (Some tt)
       | _ => mkAcsBody None None None None
       end.
Proof.
  destruct r as [n|l| | |l|l key|path next|key]; try reflexivity; cbn [type_name response_kids];
    unfold acs_field, path_field, leaf; run_fields.
  - rewrite (append_path_map _ _ (leaf "string") (λ s, s)), list_fmap_id; [done|].
    apply Forall_true. intros s. eexists. split; [done|]. by rewrite chardata_text.
  - rewrite (append_path_map _ _ write_tree (λ w, (pv_Name w, v_Text (pv_Value w)))); [run_fields; done|].
    apply Forall_true. intros w. eexists. split; [done|]. unfold decode_param, leaf. run_fields.
    by rewrite !chardata_text.
  - by rewrite chardata_text.
Qed.

Lemma request_parsed msgID r : plain msgID = true → response_ok r →
  parseACSRequest unicode_name (EncodeResponse msgID r) = request_for r.
Proof.
  intros Hid Hr. unfold parseACSRequest. rewrite EncodeResponse_decodes by done. cbn [mbind option_bind].
  rewrite body_of, acs_field_response. by destruct r.
Qed.

(** C16: The device reads the agent's requests as they were meant: the paths, the
    writes and the prefix come out of the bytes exactly, whatever markup or
    quotes they contain; the agent's other responses are no request. *)
Theorem request_read_back msgID r : plain msgID = true → response_ok r →
  parseACSRequest unicode_name (EncodeResponse msgID r) = request_for r.
Proof. apply request_parsed. Qed.

(** ** Numbers *)

Lemma digit_of_char x : (x < 10)%N → digit_of 10 (pretty_N_char x) = Some (Z.of_N x).
Proof.
  intros Hx. assert (x ∈ [0; 1; 2; 3; 4; 5; 6; 7; 8; 9]%N) as Hin by (rewrite !elem_of_cons, elem_of_nil; lia).
  clear Hx. revert x Hin. apply Forall_forall. repeat constructor.
Qed.

Lemma digits_of_go x s : digits_of 10 0 (pretty_N_go x s) = digits_of 10 (Z.of_N x) s.
Proof.
  revert s. induction (N.lt_wf_0 x) as [x _ IH]; intros s. destruct (decide (x = 0%N)) as [->|Hx].
  { by rewrite pretty_N_go_0. }
  rewrite pretty_N_go_step by lia. rewrite IH by (apply N.div_lt; lia). cbn [digits_of].
  rewrite digit_of_char by (apply N.mod_lt; lia). cbn [mbind option_bind]. f_equal.
  rewrite N2Z.inj_div, N2Z.inj_mod. pose proof (Z.div_mod (Z.of_N x) 10). lia.
Qed.

Lemma digits_of_pretty (n : N) : digits_of 10 0 (pretty n) = Some (Z.of_N n).
Proof. unfold pretty, pretty_N. case_decide as Hn; [by subst n|]. by rewrite digits_of_go. Qed.

Lemma pretty_N_first (n : N) : ∃ x s, pretty n = String (pretty_N_char x) s.
Proof.
  unfold pretty, pretty_N. case_decide; [by exists 0%N, ""|].
  assert (Hgo : ∀ m : N, ∀ s, (0 < m)%N → ∃ x t, pretty_N_go m s = String (pretty_N_char x) t).
  { intros m. induction (N.lt_wf_0 m) as [m _ IH]; intros s Hm. rewrite pretty_N_go_step by lia.
    destruct (decide (m / 10 = 0)%N) as [->|Hd]; [rewrite pretty_N_go_0; by eexists _, _|].
    apply IH; [apply N.div_lt; lia|by apply N.neq_0_lt_0]. }
  apply Hgo. lia.
Qed.

Lemma ParseInt_pretty (z : Z) : (- 2 ^ 63 ≤ z < 2 ^ 63)%Z → ParseInt (pretty z) = Some z.
Proof.
  intros Hz. unfold ParseInt. destruct z as [|p|p]; [reflexivity| |].
  - change (pretty (Z.pos p)) with (pretty (N.pos p)). destruct (pretty_N_first (N.pos p)) as (x & s & Hp).
    assert (Hs : match pretty (N.pos p) with String "+" t => (false, t) | String "-" t => (true, t) | _ => (false, pretty (N.pos p)) end
      = (false, pretty (N.pos p))).
    { rewrite Hp. unfold pretty_N_char. repeat case_match; by simplify_eq. }
    rewrite Hs. rewrite decide_False by (by rewrite Hp). rewrite digits_of_pretty. cbn [mbind option_bind].
    rewrite decide_True by (simpl in *; lia). done.
  - change (pretty (Z.neg p)) with (String "-" (pretty (N.pos p))). cbv iota.
    destruct (pretty_N_first (N.pos p)) as (x & s & Hp).
    rewrite decide_False by (by rewrite Hp). rewrite digits_of_pretty. cbn [mbind option_bind].
    rewrite decide_True by (simpl in *; lia). done.
Qed.

Lemma visible_ends s : all_bytes visible s = true → s ≠ "" → starts_visible s = true ∧ ends_visible s = true.
Proof.
  intros Hs Hne. destruct s as [|a s]; [done|]. split; [by apply andb_true_iff in Hs as [Ha _]|]. clear Hne.
  revert a Hs. induction s as [|b s IH]; intros a [Ha Hs]%andb_true_iff; [done|]. cbn [ends_visible]. by apply IH.
Qed.

Lemma pretty_visible (z : Z) : all_bytes visible (pretty z) = true ∧ pretty z ≠ "".
Proof.
  split.
  - apply pretty_Z_all; [exact digit_char_visible|by right].
  - destruct z as [|p|p]; [done| |done]. change (pretty (Z.pos p)) with (pretty (N.pos p)).
    destruct (pretty_N_first (N.pos p)) as (x & s & ->). done.
Qed.

Lemma int_value_pretty (z : Z) : (- 2 ^ 63 ≤ z < 2 ^ 63)%Z → int_value (text_kids (pretty z)) = Some z.
Proof.
  intros Hz. unfold int_value. rewrite chardata_text. destruct (pretty_visible z) as [Hv Hne].
  rewrite decide_False by done. destruct (visible_ends _ Hv Hne). rewrite TrimSpace_visible by done. by apply ParseInt_pretty.
Qed.
End Wire.

Lemma request_read_back_witness :
  parseACSRequest (λ _, false) (EncodeResponse "7" (SetParameterValues [mkPV "Device.X" (mkValue "xsd:string" "a<b & c")] "k")) =
  mkAcsRequest "spv" [] [("Device.X", "a<b & c")].
Proof.
  apply (request_read_back (λ _, false) "7" (SetParameterValues [mkPV "Device.X" (mkValue "xsd:string" "a<b & c")] "k")).
  - reflexivity.
  - split; [|reflexivity]. repeat constructor; reflexivity.
Defined.
