(* ===== verification/Uplink.v ===== *)
(** * The device's messages, read by the agent

    The other direction of [Wire]: every envelope that the simulated device sends
    (testsuite/soap.go) decodes, through [DecodeEnvelope], to the message that it
    was built from. *)
From S2P Require Import Prelude GoStrings GoTime CwmpTypes Soap Xml SoapDecode XmlRoundtrip DeviceSim Wire.

(** What the device sends in a session. *)
Inductive message :=
| MInform (now : Z) (d : device)
| MGetRPCMethods
| MTransferComplete (now : Z)
| MATC (now : Z) (file : string) (size : Z)
| MGPVResponse (m : manifest) (pairs : list (string * string))
| MSPVResponse
| MGPNResponse (prefix : string) (keys : list string)
| MRebootResponse.

Definition message_text (msgID : string) (a : message) : string :=
  match a with
  | MInform now d => informEnvelope now msgID d
  | MGetRPCMethods => getRPCMethodsEnvelope msgID
  | MTransferComplete now => transferCompleteEnvelope now msgID
  | MATC now file size => atcEnvelope now msgID file size
  | MGPVResponse m pairs => gpvResponseEnvelope m msgID pairs
  | MSPVResponse => spvResponseEnvelope msgID
  | MGPNResponse prefix keys => gpnResponseEnvelope msgID prefix keys
  | MRebootResponse => rebootResponseEnvelope msgID
  end.

(** The agent reads no type out of [xsi:type]. *)
Definition read_param (p : string * string) : ParameterValueStruct := mkPV p.1 (mkValue "" p.2).

Definition message_body (a : message) : Body :=
  match a with
  | MInform now d =>
      mkBody (Some (mkInform (mkDeviceID "NybSys" (oui d) (productClass d) (serial d)) [mkEventStruct "2 PERIODIC" ""] 1
        (RFC3339 now) 0 (read_param <$> get (inform_paths d) d))) None None None None None None None None
  | MGetRPCMethods => mkBody None (Some tt) None None None None None None None
  | MTransferComplete now =>
      mkBody None None (Some (mkTransferComplete "" (mkFaultStruct 0 "") (RFC3339 now) (RFC3339 now))) None None None None None None
  | MATC now file size =>
      mkBody None None None (Some (mkATC "" "ftp://192.168.8.100/" false "4 Vendor Log File" size file (mkFaultStruct 0 "")
        (RFC3339 now) (RFC3339 now))) None None None None None
  | MGPVResponse m pairs => mkBody None None None None None (Some (read_param <$> pairs)) None None None
  | MSPVResponse => mkBody None None None None None None (Some 0%Z) None None
  | MGPNResponse prefix keys =>
      mkBody None None None None None None None (Some ((λ p, mkPI p (gpn_writable p)) <$> gpn_names prefix keys)) None
  | MRebootResponse => mkBody None None None None None None None None (Some tt)
  end.

(** The texts that are written without escaping have to be plain. *)
Definition message_ok (a : message) : Prop :=
  match a with
  | MInform _ d => plain (oui d) = true ∧ plain (productClass d) = true ∧ plain (serial d) = true ∧
      Forall (λ p, plain p.2 = true) (get (inform_paths d) d)
  | MATC _ file size => plain file = true ∧ (- 2 ^ 63 ≤ size < 2 ^ 63)%Z
  | MGPVResponse _ pairs => Forall (λ p, plain p.1 = true ∧ valid_text p.2 = true) pairs
  | MGPNResponse prefix keys => Forall (λ k, plain k = true) (gpn_names prefix keys)
  | _ => True
  end.

Section Uplink.
Variable unicode_name : string → bool.
Abbreviation renders := (renders unicode_name).
Abbreviation tag_name := (tag_name unicode_name).

(** ** Rendering *)

Lemma renders_cons c1 x c2 k2 : renders c1 [x] → renders c2 k2 → c2 = "" ∨ opens c2 → renders (c1 +:+ c2) (x :: k2).
Proof. apply (renders_app _ c1 [x]). Qed.

(** An element with an attribute, and what follows it. *)
Lemma renders_tag1_cons w m an am v c k rest ks :
  tag_name w m → tag_name an am → plain v = true → renders c k → renders rest ks → opens rest →
  renders (tag1 w an v +:+ c +:+ close_tag w +:+ rest) (El (local m) k :: ks).
Proof.
  intros Hw Ha Hv Hc Hr Ho. replace (tag1 w an v +:+ c +:+ close_tag w +:+ rest)
    with ((tag1 w an v +:+ c +:+ close_tag w) +:+ rest) by (by rewrite !str_app_assoc).
  apply renders_cons; [by apply (renders_tag1 _ w m an am)|done|by right].
Qed.

Lemma array_plain ty n : all_bytes ascii_safe ty = true → plain (array_of ty n) = true.
Proof.
  intros Ht. apply ascii_plain. unfold array_of. rewrite !all_bytes_app, Ht, pretty_Z_safe. reflexivity.
Qed.

Definition param_tree (p : string * string) : xml :=
  El "ParameterValueStruct" [leaf "Name" p.1; leaf "Value" p.2].

Definition info_tree (p : string) : xml :=
  El "ParameterInfoStruct" [leaf "Name" p; leaf "Writable" (if gpn_writable p then "1" else "0")].

Ltac tagname := split; reflexivity.
(** One child after the other. *)
Ltac leaves :=
  repeat first
    [ apply renders_cons; [by apply renders_field; [tagname|first [done | apply RFC3339_plain | apply pretty_plain]]| |by right; eexists]
    | by apply renders_field; [tagname|first [done | apply RFC3339_plain]] ].

Lemma renders_param ty name value text :
  plain ty = true → plain name = true → renders text (text_kids value) →
  renders (element "ParameterValueStruct" (element "Name" name +:+ tag1 "Value" "xsi:type" ty +:+ text +:+ close_tag "Value"))
    [param_tree (name, value)].
Proof.
  intros Ht Hn Hv. apply (renders_element _ _ (mkName "" "ParameterValueStruct")); [tagname|]. leaves.
  by apply (renders_tag1 _ _ (mkName "" "Value") _ (mkName "xsi" "type")); [tagname|tagname| |].
Qed.

Lemma renders_params {A} (f : A → string) (g : A → string * string) l :
  Forall (λ x, renders (f x) [param_tree (g x)] ∧ opens (f x)) l →
  renders (tag1 "ParameterList" "soap:arrayType" (array_of "ParameterValueStruct" (length l)) +:+
    concat_str (f <$> l) +:+ close_tag "ParameterList") [El "ParameterList" (param_tree <$> (g <$> l))].
Proof.
  intros Hl. apply (renders_tag1 _ _ (mkName "" "ParameterList") _ (mkName "soap" "arrayType")); [tagname|tagname| |].
  - by apply array_plain.
  - rewrite <- list_fmap_compose. by apply (renders_concat _ f (λ x, param_tree (g x))).
Qed.

Lemma renders_infos l : Forall (λ k, plain k = true) l →
  renders (tag1 "ParameterList" "soap:arrayType" (array_of "ParameterInfoStruct" (length l)) +:+
    concat_str (gpn_param <$> l) +:+ close_tag "ParameterList") [El "ParameterList" (info_tree <$> l)].
Proof.
  intros Hl. apply (renders_tag1 _ _ (mkName "" "ParameterList") _ (mkName "soap" "arrayType")); [tagname|tagname| |].
  - by apply array_plain.
  - apply renders_concat. eapply Forall_impl; [exact Hl|]. intros k Hk. split; [|by eexists].
    apply (renders_element _ _ (mkName "" "ParameterInfoStruct")); [tagname|]. leaves.
    by apply renders_field; [tagname|destruct (gpn_writable k)].
Qed.

Definition fault_tree : xml := El "FaultStruct" [leaf "FaultCode" "0"; leaf "FaultString" ""].

Lemma renders_no_fault : renders no_fault [fault_tree].
Proof. apply (renders_element _ _ (mkName "" "FaultStruct")); [tagname|]. leaves. Qed.

(** The element in the SOAP body. *)
Definition message_tree (a : message) : xml :=
  match a with
  | MInform now d => El "Inform"
      [El "DeviceID" [leaf "Manufacturer" "NybSys"; leaf "OUI" (oui d); leaf "ProductClass" (productClass d);
                      leaf "SerialNumber" (serial d)];
       El "Event" [El "EventStruct" [leaf "EventCode" "2 PERIODIC"; leaf "CommandKey" ""]];
       leaf "MaxEnvelopes" "1"; leaf "CurrentTime" (RFC3339 now); leaf "RetryCount" "0";
       El "ParameterList" (param_tree <$> get (inform_paths d) d)]
  | MGetRPCMethods => leaf "GetRPCMethods" ""
  | MTransferComplete now => El "TransferComplete"
      [leaf "CommandKey" ""; fault_tree; leaf "StartTime" (RFC3339 now); leaf "CompleteTime" (RFC3339 now)]
  | MATC now file size => El "AutonomousTransferComplete"
      [leaf "AnnounceURL" ""; leaf "TransferURL" "ftp://192.168.8.100/"; leaf "IsDownload" "0";
       leaf "FileType" "4 Vendor Log File"; leaf "FileSize" (pretty size); leaf "TargetFileName" file; fault_tree;
       leaf "StartTime" (RFC3339 now); leaf "CompleteTime" (RFC3339 now)]
  | MGPVResponse m pairs => El "GetParameterValuesResponse" [El "ParameterList" (param_tree <$> pairs)]
  | MSPVResponse => El "SetParameterValuesResponse" [leaf "Status" "0"]
  | MGPNResponse prefix keys => El "GetParameterNamesResponse" [El "ParameterList" (info_tree <$> gpn_names prefix keys)]
  | MRebootResponse => leaf "RebootResponse" ""
  end.

(** The text between the tags of the SOAP body. *)
Definition message_inner (a : message) : string :=
  match a with
  | MInform now d =>
      open_tag "cwmp:Inform" +:+
      element "DeviceID" (element "Manufacturer" "NybSys" +:+ element "OUI" (oui d) +:+
        element "ProductClass" (productClass d) +:+ element "SerialNumber" (serial d)) +:+
      tag1 "Event" "soap:arrayType" (array_of "EventStruct" 1) +:+
        element "EventStruct" (element "EventCode" "2 PERIODIC" +:+ element "CommandKey" "") +:+ close_tag "Event" +:+
      element "MaxEnvelopes" "1" +:+ element "CurrentTime" (RFC3339 now) +:+ element "RetryCount" "0" +:+
      tag1 "ParameterList" "soap:arrayType" (array_of "ParameterValueStruct" (length (get (inform_paths d) d))) +:+
        concat_str (inform_param <$> get (inform_paths d) d) +:+ close_tag "ParameterList" +:+
      close_tag "cwmp:Inform"
  | MGetRPCMethods => element "cwmp:GetRPCMethods" ""
  | MTransferComplete now => element "cwmp:TransferComplete"
      (element "CommandKey" "" +:+ no_fault +:+ element "StartTime" (RFC3339 now) +:+ element "CompleteTime" (RFC3339 now))
  | MATC now file size => element "cwmp:AutonomousTransferComplete"
      (element "AnnounceURL" "" +:+ element "TransferURL" "ftp://192.168.8.100/" +:+ element "IsDownload" "0" +:+
       element "FileType" "4 Vendor Log File" +:+ element "FileSize" (pretty size) +:+
       element "TargetFileName" file +:+ no_fault +:+
       element "StartTime" (RFC3339 now) +:+ element "CompleteTime" (RFC3339 now))
  | MGPVResponse m pairs => element "cwmp:GetParameterValuesResponse"
      (tag1 "ParameterList" "soap:arrayType" (array_of "ParameterValueStruct" (length pairs)) +:+
       concat_str (gpv_param m <$> pairs) +:+ close_tag "ParameterList")
  | MSPVResponse => element "cwmp:SetParameterValuesResponse" (element "Status" "0")
  | MGPNResponse prefix keys => element "cwmp:GetParameterNamesResponse"
      (tag1 "ParameterList" "soap:arrayType" (array_of "ParameterInfoStruct" (length (gpn_names prefix keys))) +:+
       concat_str (gpn_param <$> gpn_names prefix keys) +:+ close_tag "ParameterList")
  | MRebootResponse => element "cwmp:RebootResponse" ""
  end.

Lemma message_text_inner msgID a : message_text msgID a = soapOpen msgID +:+ message_inner a +:+ soapClose.
Proof. by destruct a. Qed.

Lemma opens_tag1 w an v r : opens (tag1 w an v +:+ r).
Proof. unfold tag1. rewrite str_app_assoc. by eexists. Qed.

Lemma get_names l d p : p ∈ get l d → p.1 ∈ l.
Proof.
  unfold get. rewrite list_elem_of_omap. intros (q & Hq & Hp). destruct (params d !! q); simplify_option_eq. done.
Qed.

Lemma inform_names_plain d : Forall (λ p, plain p.1 = true) (get (inform_paths d) d).
Proof.
  apply Forall_forall. intros p Hp%get_names. assert (Hall : Forall (λ q, plain q = true) (inform_paths d)).
  { unfold inform_paths. apply Forall_app. split; [|case_decide]; repeat constructor. }
  by eapply Forall_forall in Hp; [|exact Hall].
Qed.

Lemma renders_inform now d : message_ok (MInform now d) →
  renders (message_inner (MInform now d)) [message_tree (MInform now d)].
Proof.
  intros (Ho & Hp & Hs & Hv). cbn [message_inner message_tree]. pose proof (inform_names_plain d) as Hn.
  set (pairs := get (inform_paths d) d) in *.
  match goal with |- renders (_ +:+ ?a +:+ ?b +:+ ?c +:+ ?e +:+ ?f +:+ ?g +:+ ?h +:+ ?i +:+ ?j +:+ ?k +:+ ?l) _ =>
    replace (open_tag "cwmp:Inform" +:+ a +:+ b +:+ c +:+ e +:+ f +:+ g +:+ h +:+ i +:+ j +:+ k +:+ l)
      with (element "cwmp:Inform" (a +:+ b +:+ c +:+ e +:+ f +:+ g +:+ h +:+ i +:+ j +:+ k))
      by (unfold element; rewrite !str_app_assoc; reflexivity) end.
  apply (renders_element _ _ (mkName "cwmp" "Inform")); [tagname|].
  apply renders_cons; [apply (renders_element _ _ (mkName "" "DeviceID")); [tagname|leaves]| |right; apply opens_tag1].
  apply (renders_tag1_cons _ (mkName "" "Event") _ (mkName "soap" "arrayType"));
    [tagname|tagname|by apply array_plain| | |by eexists].
  { apply (renders_element _ _ (mkName "" "EventStruct")); [tagname|leaves]. }
  do 2 (apply renders_cons; [apply renders_field; [tagname|first [done|apply RFC3339_plain]]| |by right; eexists]).
  apply renders_cons; [by apply renders_field; [tagname|]| |right; apply opens_tag1].
  replace (param_tree <$> pairs) with (param_tree <$> (id <$> pairs)) by (by rewrite list_fmap_id).
  apply (renders_params inform_param id).
  eapply Forall_impl; [apply Forall_and; split; [exact Hn|exact Hv]|]. intros [n v] [Hn' Hv']. split; [|by eexists].
  apply (renders_param _ n v v); [done|done|by apply renders_plain].
Qed.

Lemma renders_message a : message_ok a → renders (message_inner a) [message_tree a].
Proof.
  destruct a as [now d| |now|now file size|m pairs| |prefix keys|]; intros Hok; [by apply renders_inform|..];
    cbn [message_inner message_tree].
  - by apply (renders_element _ _ (mkName "cwmp" "GetRPCMethods")); [tagname|apply renders_nil].
  - apply (renders_element _ _ (mkName "cwmp" "TransferComplete")); [tagname|]. leaves.
    apply renders_cons; [apply renders_no_fault|leaves|by right; eexists].
  - destruct Hok as [Hf _]. apply (renders_element _ _ (mkName "cwmp" "AutonomousTransferComplete")); [tagname|]. leaves.
    apply renders_cons; [apply renders_no_fault|leaves|by right; eexists].
  - apply (renders_element _ _ (mkName "cwmp" "GetParameterValuesResponse")); [tagname|].
    replace (param_tree <$> pairs) with (param_tree <$> (id <$> pairs)) by (by rewrite list_fmap_id).
    apply (renders_params (gpv_param m) id). eapply Forall_impl; [exact Hok|]. intros [n v] [Hn Hv].
    split; [|by eexists]. apply (renders_param _ n v); [apply xsdType_plain|done|by apply renders_text].
  - apply (renders_element _ _ (mkName "cwmp" "SetParameterValuesResponse")); [tagname|]. leaves.
  - apply (renders_element _ _ (mkName "cwmp" "GetParameterNamesResponse")); [tagname|]. by apply renders_infos.
  - by apply (renders_element _ _ (mkName "cwmp" "RebootResponse")); [tagname|apply renders_nil].
Qed.

(** ** Decoding *)

Ltac run_fields :=
  repeat first [progress cbn [fields mbind option_bind fmap option_fmap option_map default fst snd]
               | rewrite decide_True by reflexivity | rewrite decide_False by discriminate].

Lemma params_decode pairs l :
  append_path "ParameterValueStruct" decode_ParameterValueStruct (param_tree <$> pairs) l = Some (l ++ (read_param <$> pairs)).
Proof.
  apply append_path_map, Forall_true. intros [n v]. eexists. split; [done|].
  unfold decode_ParameterValueStruct, decode_ValueNode, leaf, set_text. run_fields. by rewrite !chardata_text.
Qed.

Lemma infos_decode names l :
  append_path "ParameterInfoStruct" decode_ParameterInfoStruct (info_tree <$> names) l =
  Some (l ++ ((λ p, mkPI p (gpn_writable p)) <$> names)).
Proof.
  apply append_path_map, Forall_true. intros p. eexists. split; [done|].
  unfold decode_ParameterInfoStruct, leaf, set_text. run_fields. rewrite !chardata_text.
  by destruct (gpn_writable p).
Qed.

Lemma event_decodes : append_path "EventStruct" decode_EventStruct
  [El "EventStruct" [El "EventCode" (text_kids "2 PERIODIC"); El "CommandKey" (text_kids "")]] [] = Some [mkEventStruct "2 PERIODIC" ""].
Proof. reflexivity. Qed.

Lemma message_decodes a : message_ok a →
  decode_Body [message_tree a] empty_body = Some (message_body a).
Proof.
  destruct a as [now d| |now|now file size|m pairs| |prefix keys|]; intros Hok;
    unfold decode_Body, body_field, message_tree, message_body, leaf, empty_body; run_fields; try reflexivity.
  - unfold decode_Inform, decode_DeviceID, set_text, zero_Inform. run_fields.
    rewrite event_decodes. run_fields. change (int_value (text_kids "1")) with (Some 1%Z).
    change (int_value (text_kids "0")) with (Some 0%Z). run_fields. rewrite params_decode. run_fields. rewrite !chardata_text. reflexivity.
  - destruct Hok as [_ Hsize]. unfold decode_ATC, fault_tree, set_text, zero_ATC, zero_FaultStruct. run_fields.
    change (int_value (text_kids "0")) with (Some 0%Z). change (bool_value (text_kids "0")) with (Some false). run_fields.
    rewrite int_value_pretty by done. run_fields. by rewrite !chardata_text.
  - unfold path_field. run_fields. rewrite params_decode. by run_fields.
  - unfold path_field. run_fields. rewrite infos_decode. by run_fields.
Qed.

Lemma message_decoded msgID a : plain msgID = true → message_ok a →
  DecodeEnvelope unicode_name (message_text msgID a) = Some (mkEnvelope msgID (message_body a)).
Proof.
  intros Hid Ha. unfold DecodeEnvelope. rewrite message_text_inner.
  rewrite (envelope_decodes _ _ _ _ Hid (renders_message a Ha)). run_fields.
  unfold decode_Envelope, envelope_tree, path_field. run_fields. rewrite message_decodes by done. run_fields.
  by rewrite chardata_text.
Qed.

(** C15: The agent reads the device's messages as they were meant ([message_ok]):
    the values of a GetParameterValuesResponse, whatever markup they contain, the
    names, the writability bits and the file size, and the identity and values of
    an Inform if they are plain, come out of the bytes exactly, under the message
    id they were sent with.  The device escapes nothing in an Inform: markup there
    does not survive, and is excluded. *)
Theorem message_read_back msgID a : plain msgID = true → message_ok a →
  DecodeEnvelope unicode_name (message_text msgID a) = Some (mkEnvelope msgID (message_body a)).
Proof. apply message_decoded. Qed.
End Uplink.

Lemma message_read_back_witness :
  DecodeEnvelope (λ _, false) (gpvResponseEnvelope (loadManifest []) "7" [("Device.X", "a<b & c")]) =
  Some (mkEnvelope "7" (mkBody None None None None None (Some [mkPV "Device.X" (mkValue "" "a<b & c")]) None None None)).
Proof.
  apply (message_read_back (λ _, false) "7" (MGPVResponse (loadManifest []) [("Device.X", "a<b & c")])).
  - reflexivity.
  - repeat constructor; reflexivity.
Defined.
