(* ===== verification/ConnRequest.v ===== *)
(** * Connection requests (goagent/internal/cwmp/connrequest.go)

    The ACS asks a device to dial in now: a GET to its connection request URL,
    answered by a digest challenge (RFC 2617) that the agent responds to. *)
From S2P Require Import Prelude GoStrings GoHash Soap.

(** ** Definitions *)

Definition md5hex (s : string) : string := hex (md5 s).

(** [strings.Trim(s, c)] for a single byte. *)
Fixpoint TrimLeftByte (s : string) (c : ascii) : string :=
  match s with
  | "" => ""
  | String a t => if decide (a = c) then TrimLeftByte t c else s
  end.
Definition TrimByte (s : string) (c : ascii) : string := TrimRightByte (TrimLeftByte s c) c.

Definition quote : ascii := byte_of 34.

(** The body of the loop over the comma-separated pairs. *)
Definition digest_pair (m : gmap string string) (kv : string) : gmap string string :=
  match SplitNByte 2 (TrimSpace kv) "=" with
  | [k; v] => <[k := TrimByte v quote]> m
  | _ => m
  end.

Definition parseDigest (h : string) : gmap string string :=
  foldl digest_pair ∅ (SplitByte (TrimPrefix h "Digest ") ",").

Definition nc : string := "00000001".
Definition cnonce : string := "cloudlynet".

Definition digest_response (user pass uri : string) (ch : gmap string string) : string :=
  let ha1 := md5hex (user +:+ ":" +:+ default "" (ch !! "realm") +:+ ":" +:+ pass) in
  let ha2 := md5hex ("GET:" +:+ uri) in
  md5hex (Join [ha1; default "" (ch !! "nonce"); nc; cnonce; "auth"; ha2] ":").

Definition authorization (user pass uri : string) (ch : gmap string string) : string :=
  "Digest username=" +:+ Quote user +:+ ", realm=" +:+ Quote (default "" (ch !! "realm")) +:+
  ", nonce=" +:+ Quote (default "" (ch !! "nonce")) +:+ ", uri=" +:+ Quote uri +:+
  ", qop=auth, nc=" +:+ nc +:+ ", cnonce=" +:+ Quote cnonce +:+
  ", response=" +:+ Quote (digest_response user pass uri ch).

Inductive cr_error := CRTransport (msg : string) | CRUnexpected (status : Z) | CRAuthFailed (status : Z).

Section Trigger.
Context {W : Type}.
(** A GET to [url] with the given Authorization header: an error, or the status
    and the WWW-Authenticate header; and [URL.RequestURI] of a URL that parses. *)
Variable http_Get : string → option string → W → (string + Z * string) * W.
Variable RequestURI : string → option string.

Definition request_uri (url : string) : string :=
  match RequestURI url with
  | Some u => if decide (u = "") then "/" else u
  | None => "/"
  end.

(** [None] is success. *)
Definition TriggerConnectionRequest (url user pass : string) (w : W) : option cr_error * W :=
  match http_Get url None w with
  | (inl e, w) => (Some (CRTransport e), w)
  | (inr (status, challenge), w) =>
      if decide (status = 200)%Z then (None, w)
      else if decide (status ≠ 401)%Z then (Some (CRUnexpected status), w)
      else
        let header := authorization user pass (request_uri url) (parseDigest challenge) in
        match http_Get url (Some header) w with
        | (inl e, w) => (Some (CRTransport e), w)
        | (inr (status, _), w) => if decide (status ≠ 200)%Z then (Some (CRAuthFailed status), w) else (None, w)
        end
  end.
End Trigger.

(** ** Lemmas *)

Lemma TrimRightByte_last c s : no_byte c s = true → TrimRightByte (s +:+ String c "") c = s.
Proof.
  induction s as [|a s IH]; intros H.
  - simpl. by rewrite decide_True.
  - apply no_byte_cons in H as [Hne H]. rewrite str_app_cons. simpl. rewrite IH by done.
    destruct s; [by rewrite decide_False|done].
Qed.

Lemma TrimByte_quoted s : no_byte quote s = true → TrimByte (dq +:+ s +:+ dq) quote = s.
Proof.
  intros H. unfold TrimByte. assert (Hl : TrimLeftByte (dq +:+ s +:+ dq) quote = TrimLeftByte (s +:+ dq) quote) by reflexivity.
  rewrite Hl. destruct s as [|a s]; [reflexivity|].
  assert (Hs : TrimLeftByte (String a s +:+ dq) quote = String a s +:+ dq).
  { rewrite str_app_cons. simpl. apply no_byte_cons in H as [Hne _]. by rewrite decide_False. }
  rewrite Hs. by apply TrimRightByte_last.
Qed.

(** ** The challenge a device sends *)

Definition render_pair (kv : string * string) : string := kv.1 +:+ "=" +:+ dq +:+ kv.2 +:+ dq.

(** Pairs separated by a comma and a space. *)
Fixpoint render_pairs (kvs : list (string * string)) : string :=
  match kvs with
  | [] => ""
  | [kv] => render_pair kv
  | kv :: rest => render_pair kv +:+ ", " +:+ render_pairs rest
  end.

Definition render_challenge (kvs : list (string * string)) : string := "Digest " +:+ render_pairs kvs.

Record pair_ok (kv : string * string) : Prop := {
  pair_key : starts_visible kv.1 = true;
  pair_key_plain : no_byte "=" kv.1 = true ∧ no_byte "," kv.1 = true;
  pair_value_plain : no_byte "," kv.2 = true ∧ no_byte quote kv.2 = true }.

Lemma render_pair_visible kv : pair_ok kv →
  starts_visible (render_pair kv) = true ∧ ends_visible (render_pair kv) = true ∧ no_byte "," (render_pair kv) = true.
Proof.
  intros [Hk [_ Hc] [Hv _]]. unfold render_pair. split_and!.
  - destruct kv.1 as [|a k]; [done|]. by rewrite str_app_cons.
  - rewrite !ends_visible_app; try done. by destruct kv.2.
  - by rewrite !no_byte_app, Hc, Hv.
Qed.

Lemma digest_pair_render m kv s : pair_ok kv → TrimSpace s = render_pair kv → digest_pair m s = <[kv.1 := kv.2]> m.
Proof.
  intros [Hk [He _] [_ Hq]] Hs. unfold digest_pair. rewrite Hs. unfold render_pair, SplitNByte.
  change (kv.1 +:+ "=" +:+ dq +:+ kv.2 +:+ dq) with (kv.1 +:+ String "=" (dq +:+ kv.2 +:+ dq)).
  rewrite Cut_app by done. by rewrite TrimByte_quoted.
Qed.

Lemma parse_pairs kvs : ∀ m lead, Forall pair_ok kvs → kvs ≠ [] → lead = "" ∨ lead = " " →
  foldl digest_pair m (SplitByte (lead +:+ render_pairs kvs) ",") = foldl (λ m kv, <[kv.1 := kv.2]> m) m kvs.
Proof.
  induction kvs as [|kv kvs IH]; intros m lead Hall Hne Hlead; [done|]. apply Forall_cons in Hall as [Hkv Hall].
  destruct (render_pair_visible kv Hkv) as (Hsv & Hev & Hnc).
  assert (Hlc : no_byte "," (lead +:+ render_pair kv) = true) by (rewrite no_byte_app, Hnc; by destruct Hlead as [->| ->]).
  assert (Hts : TrimSpace (lead +:+ render_pair kv) = render_pair kv).
  { destruct Hlead as [->| ->]; [by apply TrimSpace_visible|by apply TrimSpace_leading]. }
  destruct kvs as [|kv' kvs].
  - cbn [render_pairs]. rewrite SplitByte_none by done. simpl. by apply digest_pair_render.
  - change (render_pairs (kv :: kv' :: kvs)) with (render_pair kv +:+ String "," (" " +:+ render_pairs (kv' :: kvs))).
    rewrite <- (str_app_assoc lead (render_pair kv)), SplitByte_app by done. cbn [foldl]. rewrite (digest_pair_render m kv) by done.
    apply IH; [done|done|by right].
Qed.

(** ** Properties *)

(** Whatever parameters a device challenges with, in any order and number,
    the agent reads back exactly those (the last of a repeated name), as long as
    no value holds a comma or a quote; so its answer is the RFC 2617 response for
    the device's realm and nonce. *)
Theorem parseDigest_roundtrip kvs user pass uri realm nonce :
  Forall pair_ok kvs → kvs ≠ [] →
  let ch := parseDigest (render_challenge kvs) in
  ch = foldl (λ m kv, <[kv.1 := kv.2]> m) ∅ kvs ∧
  (ch !! "realm" = Some realm → ch !! "nonce" = Some nonce →
   digest_response user pass uri ch =
     md5hex (md5hex (user +:+ ":" +:+ realm +:+ ":" +:+ pass) +:+ ":" +:+ nonce +:+ ":" +:+ nc +:+ ":" +:+ cnonce +:+
             ":auth:" +:+ md5hex ("GET:" +:+ uri))).
Proof.
  intros Hall Hne ch. split.
  - unfold ch, parseDigest, render_challenge. rewrite TrimPrefix_app. by apply (parse_pairs kvs ∅ "" Hall Hne); left.
  - intros Hr Hn. unfold digest_response. by rewrite Hr, Hn.
Qed.

(** A comma in a quoted value cuts it. *)
Example comma_cuts_realm :
  parseDigest (render_challenge [("realm", "femto, lab"); ("nonce", "n1")]) !! "realm" = Some "femto".
Proof. vm_compute. reflexivity. Qed.

(** ** Witnesses *)

Definition ex_challenge : list (string * string) := [("realm", "IGD"); ("nonce", "abc="); ("qop", "auth"); ("algorithm", "MD5")].

Lemma parseDigest_roundtrip_witness :
  parseDigest (render_challenge ex_challenge) !! "nonce" = Some "abc=" ∧
  digest_response "acs" "pw" "/cr" (parseDigest (render_challenge ex_challenge)) =
    md5hex (md5hex "acs:IGD:pw" +:+ ":abc=:00000001:cloudlynet:auth:" +:+ md5hex "GET:/cr").
Proof.
  destruct (parseDigest_roundtrip ex_challenge "acs" "pw" "/cr" "IGD" "abc=") as [Hch Hresp].
  - repeat constructor; try reflexivity.
  - discriminate.
  - split; [rewrite Hch; vm_compute; reflexivity|].
    rewrite Hresp; [vm_compute; reflexivity|rewrite Hch; vm_compute; reflexivity|rewrite Hch; vm_compute; reflexivity].
Defined.
