(* ===== verification/Server.v ===== *)
(** * The in-agent ACS (goagent/internal/cwmp/server.go)

    The server routes each HTTP request to the session of one device, lets that
    session handle it, and answers.  Go keeps [*Session] pointers in a map and
    never removes one, so a session is named by its key here. *)
From S2P Require Import Prelude GoStrings DeviceId Db CwmpTypes CwmpStore Session Soap.

Record crSettings := mkCR {
  cr_user : string;
  cr_pass : string;
  cr_urlOverride : string }.

Record Server := mkServer {
  sessions : gmap string Session;
  byIP : gmap string string;
  srv_cr : crSettings;
  srv_firstContactGPV : list string }.

Definition sessionCookie : string := "CWMPSID".
Definition connectionRequestURLPath : string := "Device.ManagementServer.ConnectionRequestURL".

Definition NewServer : Server := mkServer ∅ ∅ (mkCR "" "" "") [].
Definition UseConnRequest (user pass urlOverride : string) (srv : Server) : Server :=
  mkServer (sessions srv) (byIP srv) (mkCR user pass urlOverride) (srv_firstContactGPV srv).
Definition UseFirstContactSnapshot (paths : list string) (srv : Server) : Server :=
  mkServer (sessions srv) (byIP srv) (srv_cr srv) paths.

Definition set_session (key : string) (s : Session) (srv : Server) : Server :=
  mkServer (<[key := s]> (sessions srv)) (byIP srv) (srv_cr srv) (srv_firstContactGPV srv).
Definition set_byIP (host key : string) (srv : Server) : Server :=
  mkServer (sessions srv) (<[host := key]> (byIP srv)) (srv_cr srv) (srv_firstContactGPV srv).

(** An HTTP request: the host of [RemoteAddr], the value of the session cookie,
    and the body, [None] when reading it fails (over [maxRequestBytes]). *)
Record http_request := mkReq {
  rq_host : string;
  rq_cookie : option string;
  rq_body : option string }.

Record http_response := mkResp {
  rs_status : Z;
  rs_cookie : option string;
  rs_body : string }.

Definition http_error (msg : string) (code : Z) : http_response := mkResp code None (msg +:+ nl).

Definition newSessionLocked (srv : Server) : Session :=
  mkSession "" "" "" [] [] ∅ [] None (srv_firstContactGPV srv) [].

Section Server.
Context {S : Type} `{Store S}.

(** [encoding/xml]'s decoder, as [DecodeEnvelope] calls it. *)
Variable DecodeEnvelope : string → option Envelope.

Abbreviation st := (Server * S)%type.

Definition deviceSessionLocked (deviceID : string) (x : st) : st :=
  let '(srv, store) := x in
  match sessions srv !! deviceID with
  | Some _ => x
  | None =>
      let '(ip, store) := StoreDeviceIP deviceID store in
      (set_session deviceID (set_IP ip (set_DeviceID deviceID (newSessionLocked srv))) srv, store)
  end.

(** [routeSession] returns the key of the session it picks. *)
Definition routeSession (host : string) (cookie : option string) (env : option Envelope) (x : st) :
    string * st :=
  let '(srv, store) := x in
  match env ≫= λ e, b_Inform (e_Body e) with
  | Some inf =>
      let id := CanonicalID (di_OUI (inf_DeviceID inf)) (di_ProductClass (inf_DeviceID inf))
                  (di_SerialNumber (inf_DeviceID inf)) in
      (id, deviceSessionLocked id (set_byIP host id srv, store))
  | None =>
      let by_ip :=
        match (key ← byIP srv !! host; _ ← sessions srv !! key; Some key) with
        | Some key => (key, x)
        | None =>
            let key := "ip:" +:+ host in
            let srv := set_byIP host key srv in
            match sessions srv !! key with
            | Some _ => (key, (srv, store))
            | None => (key, (set_session key (set_IP host (newSessionLocked srv)) srv, store))
            end
        end in
      match cookie with
      | Some c =>
          if decide (c ≠ "") then
            match sessions srv !! c with
            | Some _ => (c, x)
            | None => by_ip
            end
          else by_ip
      | None => by_ip
      end
  end.

Definition writeResponse (cookie : option string) (msgID : string) (resp : option Response) : http_response :=
  match resp with
  | None => mkResp 204 cookie ""
  | Some r => mkResp 200 cookie (EncodeResponse msgID r)
  end.

(** The part of [ServeHTTP] after decoding. *)
Definition serve (now : Z) (host : string) (cookie : option string) (env : option Envelope) (x : st) :
    (string * option Response * http_response) * st :=
  let '(key, (srv, store)) := routeSession host cookie env x in
  match sessions srv !! key with
  | None => (("", None, http_error "" 500), (srv, store)) (* unreachable: [routeSession_has] *)
  | Some s =>
      let s := if decide (host ≠ "") then set_IP host s else s in
      let '(resp, (s, store)) := request now env (s, store) in
      let c := if decide (s_DeviceID s ≠ "") then Some (s_DeviceID s) else None in
      ((key, resp, writeResponse c (s_MsgID s) resp), (set_session key s srv, store))
  end.

Definition ServeHTTP (now : Z) (rq : http_request) (x : st) : http_response * st :=
  match rq_body rq with
  | None => (http_error "bad body" 400, x)
  | Some body =>
      if decide (TrimSpace body = "") then
        let '((_, _, resp), x) := serve now (rq_host rq) (rq_cookie rq) None x in (resp, x)
      else
        match DecodeEnvelope body with
        | None => (http_error "bad soap" 400, x)
        | Some env =>
            let '((_, _, resp), x) := serve now (rq_host rq) (rq_cookie rq) (Some env) x in (resp, x)
        end
  end.

(** [session(deviceID)], then an operation on it. *)
Definition on_session {A} (deviceID : string) (f : Session → A * Session) (x : st) : option A * st :=
  let '(srv, store) := deviceSessionLocked deviceID x in
  match sessions srv !! deviceID with
  | None => (None, (srv, store)) (* unreachable *)
  | Some s => let '(a, s) := f s in (Some a, (set_session deviceID s srv, store))
  end.

Definition Enqueue (deviceID : string) (t : Task) (x : st) : st :=
  (on_session deviceID (λ s, (tt, enqueue t s)) x).2.

Definition Refresh (deviceID : string) (paths : list string) (x : st) : st :=
  match paths with
  | [] => x
  | _ =>
      let '(ip, store) := StoreDeviceIP deviceID x.2 in
      if decide (ip = "") then (x.1, store)
      else Enqueue deviceID (task TaskGPV paths) (x.1, store)
  end.

Definition crURL (deviceID : string) (x : st) : string * st :=
  let '(srv, store) := x in
  if decide (cr_urlOverride (srv_cr srv) ≠ "") then (cr_urlOverride (srv_cr srv), x)
  else
    let '(m, store) := GetParams deviceID [connectionRequestURLPath] store in
    match m !! connectionRequestURLPath with
    | Some adv =>
        if decide (adv ≠ "") then (adv, (srv, store))
        else let '(ip, store) := StoreDeviceIP deviceID store in
             (if decide (ip = "") then "" else "http://" +:+ ip +:+ ":30005/", (srv, store))
    | None =>
        let '(ip, store) := StoreDeviceIP deviceID store in
        (if decide (ip = "") then "" else "http://" +:+ ip +:+ ":30005/", (srv, store))
    end.
End Server.

(** ** Routing *)

(** The key a request is routed to: the Inform's own id, else a cookie that
    names a session, else the last key used from this address, else a
    provisional key for the address. *)
Definition route_key (host : string) (cookie : option string) (env : option Envelope) (srv : Server) : string :=
  match env ≫= λ e, b_Inform (e_Body e) with
  | Some inf => inform_id inf
  | None =>
      let by_ip := match byIP srv !! host with
                   | Some key => if sessions srv !! key is Some _ then key else "ip:" +:+ host
                   | None => "ip:" +:+ host
                   end in
      match cookie with
      | Some c => if sessions srv !! c is Some _ then if decide (c ≠ "") then c else by_ip else by_ip
      | None => by_ip
      end
  end.

(** A session as it is created: no tasks, no results, nobody waiting. *)
Definition fresh (s : Session) (srv : Server) : Prop :=
  taskQueue s = [] ∧ inflight s = None ∧ results s = [] ∧ waiters s = ∅ ∧ chans s = [] ∧ slog s = [] ∧
  firstContactGPV s = srv_firstContactGPV srv.

(** [ensures key id srv srv']: [srv'] has a session under [key], the existing one
    or a fresh one with identity [id], and all other sessions are those of
    [srv]. *)
Definition ensures (key id : string) (srv srv' : Server) : Prop :=
  srv_firstContactGPV srv' = srv_firstContactGPV srv ∧ srv_cr srv' = srv_cr srv ∧
  (∀ k, k ≠ key → sessions srv' !! k = sessions srv !! k) ∧
  ∃ s, sessions srv' !! key = Some s ∧
       match sessions srv !! key with
       | Some s0 => s = s0
       | None => fresh s srv ∧ s_DeviceID s = id
       end.

Section ServerLemmas.
Context {S : Type} `{Store S}.

Lemma deviceSessionLocked_ensures id srv (store : S) :
  ensures id id srv (deviceSessionLocked id (srv, store)).1.
Proof.
  unfold deviceSessionLocked. destruct (sessions srv !! id) as [s|] eqn:Hs.
  - split_and!; [done..|]. exists s. simpl. by rewrite Hs.
  - destruct (StoreDeviceIP id store) as [ip store']. split_and!; [done..| |].
    + intros k Hk. simpl. by rewrite lookup_insert_ne.
    + simpl. rewrite lookup_insert_eq, Hs. eexists. split; [done|]. done.
Qed.

Lemma routeSession_spec host cookie env srv (store : S) key srv' store' :
  routeSession host cookie env (srv, store) = (key, (srv', store')) →
  key = route_key host cookie env srv ∧
  ensures key (if env ≫= λ e, b_Inform (e_Body e) is Some _ then key else "") srv srv' ∧
  byIP srv' = match env ≫= λ e, b_Inform (e_Body e) with
              | Some _ => <[host := key]> (byIP srv)
              | None => byIP srv'
              end.
Proof.
  unfold routeSession, route_key. destruct (env ≫= _) as [inf|].
  { fold (inform_id inf).
    destruct (deviceSessionLocked (inform_id inf) (set_byIP host (inform_id inf) srv, store)) as [srv1 store1] eqn:Hd.
    intros Heq. simplify_eq.
    pose proof (deviceSessionLocked_ensures (inform_id inf) (set_byIP host (inform_id inf) srv) store) as He.
    rewrite Hd in He. split_and!; [done|exact He|].
    unfold deviceSessionLocked in Hd. simpl in Hd.
    destruct (sessions srv !! inform_id inf); [by simplify_eq|].
    destruct (StoreDeviceIP (inform_id inf) store). by simplify_eq. }
  assert (Hid : ∀ k, is_Some (sessions srv !! k) → ensures k "" srv srv).
  { intros k [s Hs]. split_and!; [done..|]. exists s. by rewrite Hs. }
  set (by_ip := match _ ≫= _ with Some _ => _ | None => _ end).
  set (k_ip := match byIP srv !! host with Some _ => _ | None => _ end).
  assert (Hip : by_ip = (key, (srv', store')) → key = k_ip ∧ ensures key "" srv srv').
  { unfold by_ip, k_ip. 
    assert (Hnew : match sessions srv !! ("ip:" +:+ host) with
      | Some _ => ("ip:" +:+ host, (set_byIP host ("ip:" +:+ host) srv, store))
      | None => ("ip:" +:+ host, (set_session ("ip:" +:+ host) (set_IP host (newSessionLocked (set_byIP host ("ip:" +:+ host) srv)))
                  (set_byIP host ("ip:" +:+ host) srv), store))
      end = (key, (srv', store')) → key = "ip:" +:+ host ∧ ensures key "" srv srv').
    { destruct (sessions srv !! ("ip:" +:+ host)) as [s|] eqn:Hs; intros Heq; simplify_eq; (split; [done|]); split_and!; try done.
      - exists s. simpl. by rewrite Hs.
      - intros k Hk. simpl. by rewrite lookup_insert_ne.
      - simpl. rewrite lookup_insert_eq, Hs. eexists. split; [done|]. done. }
    destruct (byIP srv !! host) as [k0|]; simpl; [|exact Hnew].
    destruct (sessions srv !! k0) eqn:Hs; simpl; [|exact Hnew].
    intros Heq. simplify_eq. split; [done|]. apply Hid. by rewrite Hs. }
  destruct cookie as [c|]; [|intros Heq; by destruct (Hip Heq)].
  destruct (decide (c ≠ "")) as [Hc|Hc].
  - destruct (sessions srv !! c) as [s|] eqn:Hs; [|intros Heq; by destruct (Hip Heq)].
    intros Heq. simplify_eq. split_and!; [done| |done]. apply Hid. by rewrite Hs.
  - intros Heq. destruct (Hip Heq) as [-> ?]. split_and!; [|done|done]. by destruct (sessions srv !! c).
Qed.

(** What serving one request does, in terms of the session it is routed to. *)
Lemma serve_spec now host cookie env srv (store : S) key resp hr srv' store' :
  serve now host cookie env (srv, store) = ((key, resp, hr), (srv', store')) →
  key = route_key host cookie env srv ∧
  (∀ k, k ≠ key → sessions srv' !! k = sessions srv !! k) ∧
  srv_firstContactGPV srv' = srv_firstContactGPV srv ∧
  ∃ s0 s s' store0,
    match sessions srv !! key with
    | Some s1 => s0 = s1
    | None => fresh s0 srv ∧ s_DeviceID s0 = (if env ≫= λ e, b_Inform (e_Body e) is Some _ then key else "")
    end ∧
    s = (if decide (host ≠ "") then set_IP host s0 else s0) ∧
    request now env (s, store0) = (resp, (s', store')) ∧
    sessions srv' !! key = Some s' ∧
    hr = writeResponse (if decide (s_DeviceID s' ≠ "") then Some (s_DeviceID s') else None) (s_MsgID s') resp.
Proof.
  unfold serve. destruct (routeSession host cookie env (srv, store)) as [k [srv1 store1]] eqn:Hr.
  apply routeSession_spec in Hr as (-> & (Hfc & _ & Hoth & s0 & Hs0 & Hcase) & _). rewrite Hs0.
  destruct (request _ _ _) as [resp' [s' store2]] eqn:Hreq. intros Heq. simplify_eq.
  split_and!; [done| |done|].
  - intros k Hk. simpl. rewrite lookup_insert_ne by done. auto.
  - eexists s0, _, s', store1. split_and!; [|done|exact Hreq|simpl; by rewrite lookup_insert_eq|done].
    destruct (sessions srv !! _); [done|]. exact Hcase.
Qed.
End ServerLemmas.

(** ** Runs of the server *)

Inductive srv_label : Type :=
| SLEnqueue (deviceID : string) (t : Task)
| SLServe (key : string) (resp : option Response) (hr : http_response)
| SLOther.

Section ServerRuns.
Context {S : Type} `{Store S}.

(** Everything else that happens to a session or the store between requests:
    callers waiting for results and the other users of the store.  It leaves
    identities, tasks and the task in flight alone, and may create sessions as
    [session(deviceID)] does. *)
Inductive srv_step : Server * S → srv_label → Server * S → Prop :=
| srv_enqueue id t x : srv_step x (SLEnqueue id t) (Enqueue id t x)
| srv_serve now host cookie env x key resp hr x' :
    serve now host cookie env x = ((key, resp, hr), x') → srv_step x (SLServe key resp hr) x'
| srv_session id srv (store store' : S) :
    srv_step (srv, store) SLOther ((deviceSessionLocked id (srv, store)).1, store')
| srv_other srv (store store' : S) key s s' :
    sessions srv !! key = Some s → queues s' = queues s → s_DeviceID s' = s_DeviceID s →
    firstContactGPV s' = firstContactGPV s →
    srv_step (srv, store) SLOther (set_session key s' srv, store').

Inductive srv_run : Server * S → list srv_label → Server * S → Prop :=
| srv_run_nil x : srv_run x [] x
| srv_run_snoc x tr y l z : srv_run x tr y → srv_step y l z → srv_run x (tr ++ [l]) z.

(** Identity: a session keyed by a device has that device's id; only provisional
    sessions have none. *)
Definition identified (srv : Server) : Prop :=
  ∀ k s, sessions srv !! k = Some s →
    s_DeviceID s = k ∨ (s_DeviceID s = "" ∧ ∃ host, k = "ip:" +:+ host).

(** Origin: what a session holds was enqueued for its key, or is one of its own
    first-contact reads. *)
Definition first_contact_task (fc : list string) (t : Task) : Prop := t ∈ first_contact fc.

Definition originated (tr : list srv_label) (srv : Server) : Prop :=
  ∀ k s t, sessions srv !! k = Some s → holds s t →
    SLEnqueue k t ∈ tr ∨ first_contact_task (srv_firstContactGPV srv) t.

Definition same_catalogue (srv : Server) : Prop :=
  ∀ k s, sessions srv !! k = Some s → firstContactGPV s = srv_firstContactGPV srv.

Definition srv_inv (tr : list srv_label) (srv : Server) : Prop :=
  identified srv ∧ originated tr srv ∧ same_catalogue srv.

Lemma fresh_holds s srv t : fresh s srv → ¬ holds s t.
Proof. intros (Hq & Hf & _) [Hin|Hin]; [rewrite Hq in Hin; set_solver|congruence]. Qed.

Lemma originated_mono tr tr' srv : originated tr srv → tr ⊆ tr' → originated tr' srv.
Proof. intros Ho Hsub k s t Hs Ht. destruct (Ho k s t Hs Ht); [left; by apply Hsub|by right]. Qed.

(** Making sure a device has a session keeps the invariant. *)
Lemma ensures_inv tr id srv srv' : srv_inv tr srv → ensures id id srv srv' → srv_inv tr srv'.
Proof.
  intros (Hi & Ho & Hc) (Hfc & _ & Hoth & s & Hs & Hcase). split_and!.
  - intros k s1 Hk. destruct (decide (k = id)) as [->|Hne]; [|rewrite Hoth in Hk by done; by apply Hi].
    rewrite Hs in Hk. simplify_eq. destruct (sessions srv !! id) as [s0|] eqn:H0; [subst; by apply Hi|].
    left. apply Hcase.
  - intros k s1 t Hk Ht. rewrite Hfc. destruct (decide (k = id)) as [->|Hne].
    + rewrite Hs in Hk. simplify_eq. destruct (sessions srv !! id) as [s0|] eqn:H0; [subst; by eapply Ho|].
      exfalso. eapply fresh_holds; [apply Hcase|done].
    + rewrite Hoth in Hk by done. by eapply Ho.
  - intros k s1 Hk. rewrite Hfc. destruct (decide (k = id)) as [->|Hne]; [|rewrite Hoth in Hk by done; by eapply Hc].
    rewrite Hs in Hk. simplify_eq. destruct (sessions srv !! id) as [s0|] eqn:H0; [subst; by eapply Hc|].
    apply Hcase.
Qed.

(** Replacing one session. *)
Lemma set_session_inv tr srv key s s' : srv_inv tr srv → sessions srv !! key = Some s →
  (s_DeviceID s' = s_DeviceID s ∨ s_DeviceID s' = key) → firstContactGPV s' = firstContactGPV s →
  (∀ t, holds s' t → holds s t ∨ SLEnqueue key t ∈ tr ∨ t ∈ first_contact (firstContactGPV s)) →
  srv_inv tr (set_session key s' srv).
Proof.
  intros (Hi & Ho & Hc) Hs Hid Hfc Hh.
  assert (Hcase : ∀ k s1, sessions (set_session key s' srv) !! k = Some s1 →
    (k = key ∧ s1 = s') ∨ (k ≠ key ∧ sessions srv !! k = Some s1)).
  { intros k s1. simpl. destruct (decide (k = key)) as [->|Hne].
    - rewrite lookup_insert_eq. intros [= <-]. by left.
    - rewrite lookup_insert_ne by done. by right. }
  split_and!.
  - intros k s1 [[-> ->]|[? Hk]]%Hcase; [|by apply Hi].
    destruct Hid as [->| ->]; [by apply Hi|by left].
  - intros k s1 t [[-> ->]|[? Hk]]%Hcase Ht; [|by eapply Ho].
    simpl. destruct (Hh t Ht) as [?|[?|?]]; [by eapply Ho|by left|]. right.
    unfold first_contact_task. by rewrite <- (Hc key s Hs).
  - intros k s1 [[-> ->]|[? Hk]]%Hcase; simpl; [|by eapply Hc]. rewrite Hfc. by eapply Hc.
Qed.

Lemma serve_inv tr now host cookie env srv (store : S) key resp hr srv' store' :
  srv_inv tr srv → serve now host cookie env (srv, store) = ((key, resp, hr), (srv', store')) →
  srv_inv tr srv'.
Proof.
  unfold serve. intros (Hi & Ho & Hc).
  destruct (routeSession host cookie env (srv, store)) as [k [srv1 store1]] eqn:Hr.
  apply routeSession_spec in Hr as (Hkey & (Hfc & _ & Hoth & s0 & Hs0 & Hcase) & _). rewrite Hs0.
  set (s := if decide (host ≠ "") then set_IP host s0 else s0).
  destruct (request _ _ _) as [resp' [s' store2]] eqn:Hreq. intros Heq. injection Heq as <- <- <- <- <-. rename k into key.
  pose proof (request_holds now env s store1) as Hh. pose proof (request_DeviceID now env s store1) as [Hd Hf].
  rewrite Hreq in Hh, Hd, Hf. cbn [fst snd] in *.
  assert (Hs : s_DeviceID s = s_DeviceID s0 ∧ firstContactGPV s = firstContactGPV s0 ∧ ∀ t, holds s t ↔ holds s0 t).
  { unfold s. by case_decide. }
  destruct Hs as (Hsd & Hsf & Hsh).
  assert (Hid0 : match env ≫= λ e, b_Inform (e_Body e) with
                 | Some inf => key = inform_id inf
                 | None => s_DeviceID s0 = key ∨ (s_DeviceID s0 = "" ∧ ∃ h, key = "ip:" +:+ h) end).
  { unfold route_key in Hkey. destruct (env ≫= _) as [inf|]; [done|].
    destruct (sessions srv !! key) as [s1|] eqn:H1; [subst; by apply Hi|].
    right. split; [apply Hcase|]. exists host. revert Hkey H1. repeat case_match; congruence. }
  assert (Hfc0 : firstContactGPV s0 = srv_firstContactGPV srv).
  { destruct (sessions srv !! key) as [s1|] eqn:H1; [subst; by eapply Hc|apply Hcase]. }
  assert (Hh0 : ∀ t, holds s0 t → SLEnqueue key t ∈ tr ∨ first_contact_task (srv_firstContactGPV srv) t).
  { intros t Ht. destruct (sessions srv !! key) as [s1|] eqn:H1; [subst; by eapply Ho|].
    exfalso. eapply fresh_holds; [apply Hcase|done]. }
  assert (Hcs : ∀ k s1, sessions (set_session key s' srv1) !! k = Some s1 →
    (k = key ∧ s1 = s') ∨ (k ≠ key ∧ sessions srv !! k = Some s1)).
  { intros k s1. simpl. destruct (decide (k = key)) as [->|Hne].
    - rewrite lookup_insert_eq. intros [= <-]. by left.
    - rewrite lookup_insert_ne, Hoth by done. by right. }
  split_and!.
  - intros k s1 [[-> ->]|[? Hk]]%Hcs; [|by apply Hi]. rewrite Hd, Hsd.
    destruct (env ≫= _) as [inf|]; [by left|done].
  - intros k s1 t [[-> ->]|[? Hk]]%Hcs Ht; simpl; rewrite Hfc; [|by eapply Ho].
    destruct (Hh t Ht) as [Hst|Hst]; [apply Hh0; by apply Hsh|]. right. unfold first_contact_task.
    by rewrite Hsf, Hfc0 in Hst.
  - intros k s1 [[-> ->]|[? Hk]]%Hcs; simpl; rewrite Hfc; [|by eapply Hc]. by rewrite Hf, Hsf.
Qed.

Lemma srv_step_inv tr x l y : srv_step x l y → srv_inv tr x.1 → srv_inv (tr ++ [l]) y.1.
Proof.
  assert (Hmono : ∀ tr l srv, srv_inv tr srv → srv_inv (tr ++ [l]) srv).
  { intros tr0 l0 srv (Hi & Ho & Hc). split_and!; [done| |done].
    eapply originated_mono; [done|]. set_solver. }
  intros Hstep Hinv. destruct Hstep as [id t [srv store]|now host cookie env [srv store] key resp hr [srv' store'] Hs
    |id srv store store'|srv store store' key s s' Hs Hq Hd Hf].
  - unfold Enqueue, on_session. pose proof (deviceSessionLocked_ensures id srv store) as He.
    destruct (deviceSessionLocked id (srv, store)) as [srv1 store1]. cbn [fst snd] in *.
    pose proof (ensures_inv _ _ _ _ Hinv He) as Hinv1. destruct He as (_ & _ & _ & s & Hs & _). rewrite Hs.
    cbn [fst snd]. eapply set_session_inv; [by apply Hmono|done| | |].
    + left. unfold enqueue. by case_decide.
    + unfold enqueue. by case_decide.
    + intros t' Ht'. unfold holds in *. pose proof (enqueue_queues t s) as [= Hq Hf]. rewrite Hq, Hf in Ht'.
      destruct Ht' as [Hin|]; [|by left; right]. apply put_elem in Hin as [->|]; [|by left; left].
      right. left. set_solver.
  - apply Hmono. by eapply serve_inv.
  - apply Hmono. eapply ensures_inv; [done|]. apply deviceSessionLocked_ensures.
  - apply Hmono. injection Hq as Hq1 Hq2.
    eapply set_session_inv; [done|done|by left|done|]. intros t. unfold holds. rewrite Hq1, Hq2. by left.
Qed.

Lemma srv_run_inv tr fc cr (store : S) y :
  srv_run (mkServer ∅ ∅ cr fc, store) tr y → srv_inv tr y.1.
Proof.
  remember (mkServer ∅ ∅ cr fc, store) as x eqn:Hx. induction 1 as [x|x tr y l z Hrun IH Hstep].
  - subst. split_and!; intros k; intros; by simplify_map_eq.
  - eapply srv_step_inv; eauto.
Qed.

(** Sessions are never removed. *)
Lemma srv_step_keys x l y k : srv_step x l y → is_Some (sessions x.1 !! k) → is_Some (sessions y.1 !! k).
Proof.
  assert (Hens : ∀ id srv srv', ensures id id srv srv' → is_Some (sessions srv !! k) → is_Some (sessions srv' !! k)).
  { intros id srv srv' (_ & _ & Hoth & s & Hs & _) Hk.
    destruct (decide (k = id)) as [->|]; [by rewrite Hs|by rewrite Hoth]. }
  assert (Hset : ∀ key s srv, is_Some (sessions srv !! k) → is_Some (sessions (set_session key s srv) !! k)).
  { intros key s srv Hk. simpl. rewrite lookup_insert_is_Some'. by right. }
  intros Hstep Hk. destruct Hstep as [id t [srv store]|now host cookie env [srv store] key resp hr [srv' store'] Hs
    |id srv store store'|srv store store' key s s' Hs Hq Hd Hf].
  - unfold Enqueue, on_session. pose proof (deviceSessionLocked_ensures id srv store) as He.
    destruct (deviceSessionLocked id (srv, store)) as [srv1 store1]. cbn [fst snd] in *.
    pose proof (Hens _ _ _ He Hk). destruct He as (_ & _ & _ & s & Hs & _). rewrite Hs. by apply Hset.
  - apply serve_spec in Hs as (_ & Hoth & _ & _ & _ & s' & _ & _ & _ & _ & Hs' & _). cbn [fst] in *.
    destruct (decide (k = key)) as [->|]; [by rewrite Hs'|by rewrite Hoth].
  - eapply Hens; [apply deviceSessionLocked_ensures|done].
  - by apply Hset.
Qed.
End ServerRuns.

(** ** Properties *)

(** The requests that change a device. *)
Definition is_command (r : Response) : Prop :=
  match r with SetParameterValues _ _ | Reboot _ => True | _ => False end.

Lemma serve_command {S} `{Store S} now host cookie env srv (store : S) key r hr x' :
  serve now host cookie env (srv, store) = ((key, Some r, hr), x') → is_command r →
  ∃ s t, sessions srv !! key = Some s ∧ holds s t ∧ request_of t = Some r.
Proof.
  destruct x' as [srv' store']. intros Hs Hr.
  apply serve_spec in Hs as (_ & _ & _ & s0 & s & s' & store0 & Hcase & Hs & Hreq & _).
  pose proof (request_refines now env s store0) as Hq. rewrite Hreq in Hq. destruct Hq as [_ Hresp].
  assert (Hhead : head (taskQueue s) ≫= request_of = Some r).
  { destruct (kind_of now env s store0); try done.
    - simplify_eq. done.
    - destruct Hresp as (r' & Heq & Hin). simplify_eq. exfalso.
      rewrite !elem_of_cons, elem_of_nil in Hin. naive_solver.
    - by destruct (inflight s). }
  destruct (taskQueue s) as [|t q] eqn:Hqs; [done|]. simpl in Hhead.
  assert (Hq0 : taskQueue s0 = t :: q) by (rewrite <- Hqs, Hs; by case_decide).
  destruct (sessions srv !! key) as [s1|]; [subst s1|].
  - exists s0, t. split_and!; [done| |done]. left. rewrite Hq0. by left.
  - destruct Hcase as [(Hnil & _) _]. congruence.
Qed.

(** C10: No device executes another one's command: over any run of the server,
    every SetParameterValues or Reboot that went out on the session with key [k]
    was enqueued for [k], with these writes and this key. *)
Theorem command_reaches_its_device {S} `{Store S} fc cr (store : S) tr y k r hr :
  srv_run (mkServer ∅ ∅ cr fc, store) tr y → SLServe k (Some r) hr ∈ tr → is_command r →
  ∃ t, SLEnqueue k t ∈ tr ∧ request_of t = Some r.
Proof.
  remember (mkServer ∅ ∅ cr fc, store) as x eqn:Hx. intros Hrun.
  induction Hrun as [x|x tr y l z Hrun IH Hstep]; [set_solver|]. specialize (IH Hx). subst x.
  intros [Hin|Hl]%elem_of_app Hr.
  { destruct (IH Hin Hr) as (t & Ht & ?). exists t. split; [set_solver|done]. }
  apply list_elem_of_singleton in Hl. subst l. inversion Hstep as [|now host cookie env ? ? ? ? ? Hs| |]; subst.
  destruct y as [srv1 store1]. apply (serve_command _ _ _ _ _ _ _ r) in Hs as (s & t & Hs & Ht & Hreq); [|done].
  apply srv_run_inv in Hrun as (_ & Ho & _). destruct (Ho k s t Hs Ht) as [He|He].
  - exists t. split; [set_solver|done].
  - exfalso. unfold first_contact_task, first_contact in He. apply elem_of_cons in He as [->|He].
    + cbv in Hreq. injection Hreq as <-. exact Hr.
    + cbn [fst] in He. destruct (srv_firstContactGPV srv1); [by apply elem_of_nil in He|]. apply list_elem_of_singleton in He as ->. cbv in Hreq. injection Hreq as <-. exact Hr.
Qed.

(** A session cookie, once set, is the identity of the session it was set
    for, and from then on every request that returns it and is not an Inform is
    routed to that session, whatever address it comes from. *)
Theorem cookie_affinity {S} `{Store S} fc cr (store : S) tr y k resp hr c :
  srv_run (mkServer ∅ ∅ cr fc, store) tr y → SLServe k resp hr ∈ tr → rs_cookie hr = Some c →
  c = k ∧ ∀ host env, env ≫= (λ e, b_Inform (e_Body e)) = None → route_key host (Some c) env y.1 = c.
Proof.
  remember (mkServer ∅ ∅ cr fc, store) as x eqn:Hx. intros Hrun Hin Hc.
  assert (Hk : c = k ∧ c ≠ "" ∧ is_Some (sessions y.1 !! k)).
  { induction Hrun as [x|x tr y l z Hrun IH Hstep]; [set_solver|]. specialize (IH Hx). subst x.
    apply elem_of_app in Hin as [Hin|Hl].
    { destruct (IH Hin) as (? & ? & Hy). split_and!; [done..|]. by eapply srv_step_keys. }
    apply list_elem_of_singleton in Hl. subst l.
    pose proof (srv_step_inv tr _ _ _ Hstep (srv_run_inv _ _ _ _ _ Hrun)) as (Hi & _ & _).
    inversion Hstep as [|now host cookie env ? ? ? ? [srv' store'] Hs| |]; subst.
    destruct y as [srv1 store1]. apply serve_spec in Hs as (_ & _ & _ & s0 & s & s' & store0 & _ & _ & _ & Hs' & ->).
    assert (Hc' : s_DeviceID s' = c ∧ c ≠ "").
    { destruct resp; simpl in Hc; case_decide; by simplify_eq. }
    destruct Hc' as [Hd Hne]. cbn [fst] in *.
    destruct (Hi k s' Hs') as [Hd'|[Hd' _]]; [|congruence]. split_and!; [congruence|done|by rewrite Hs']. }
  destruct Hk as (-> & Hne & [s Hs]). split; [done|]. intros host env He. unfold route_key. rewrite He, Hs.
  by rewrite decide_True.
Qed.

(** A request that cannot be read or decoded is answered 400 and changes
    nothing; any other is handled by exactly one session, the one the routing
    precedence (own DeviceID, then cookie, then address) names, and leaves every
    other session as it was. *)
Theorem ServeHTTP_isolates {S} `{Store S} decode now rq srv (store : S) hr srv' store' :
  ServeHTTP decode now rq (srv, store) = (hr, (srv', store')) →
  (rs_status hr = 400%Z ∧ srv' = srv ∧ store' = store) ∨
  ∃ env, (env = None ∨ ∃ body, rq_body rq = Some body ∧ env = decode body) ∧
    let key := route_key (rq_host rq) (rq_cookie rq) env srv in
    (rs_status hr = 200%Z ∨ rs_status hr = 204%Z) ∧
    (∀ k, k ≠ key → sessions srv' !! k = sessions srv !! k) ∧ is_Some (sessions srv' !! key).
Proof.
  unfold ServeHTTP. destruct (rq_body rq) as [body|]; [|intros; simplify_eq; by left].
  assert (Hserve : ∀ env, (env = None ∨ ∃ body', Some body = Some body' ∧ env = decode body') →
    (let '((_, _, resp), x) := serve now (rq_host rq) (rq_cookie rq) env (srv, store) in (resp, x)) = (hr, (srv', store')) →
    ∃ env, (env = None ∨ ∃ body', Some body = Some body' ∧ env = decode body') ∧
      let key := route_key (rq_host rq) (rq_cookie rq) env srv in
      (rs_status hr = 200%Z ∨ rs_status hr = 204%Z) ∧
      (∀ k, k ≠ key → sessions srv' !! k = sessions srv !! k) ∧ is_Some (sessions srv' !! key)).
  { intros env Henv. destruct (serve _ _ _ _ _) as [[[key resp] hr'] [srv1 store1]] eqn:Hs.
    intros Heq. simplify_eq. exists env. split; [done|].
    apply serve_spec in Hs as (<- & Hoth & _ & s0 & s & s' & _ & _ & _ & _ & Hs' & ->). cbv zeta.
    split_and!; [|done|by rewrite Hs']. destruct resp; [by left|by right]. }
  case_decide; [intros Heq; right; apply (Hserve None); auto|].
  destruct (decode body) as [env|] eqn:Hdec; intros Heq; [|simplify_eq; by left].
  right. apply (Hserve (Some env)); [|done]. right. by exists body.
Qed.

(** ** Witnesses *)

Definition ex_server : Server * sql := (NewServer, ex_store).
Definition ex_id : string := CanonicalID "8C1F64" "ENB-1" "42".
Definition ex_reboot_task : Task := mkTask TaskReboot [] [] "k" "c1".

(** Inform, then the reboot queued for the device, then its "your turn" POST from
    another address. *)
Definition ex_x1 := (serve 5 "10.0.0.5" None (Some ex_inform_env) ex_server).2.
Definition ex_x2 := Enqueue ex_id ex_reboot_task ex_x1.
Definition ex_r2 := serve 6 "10.0.0.9" (Some ex_id) None ex_x2.
Definition ex_r3 := serve 6 "10.0.0.9" (Some ex_id) None ex_r2.2.

Definition ex_labels : list srv_label :=
  [] ++ [SLServe ex_id (Some (InformResponse 1)) (mkResp 200 (Some ex_id) (EncodeResponse "7" (InformResponse 1)))]
     ++ [SLEnqueue ex_id ex_reboot_task]
     ++ [SLServe ex_id (Some (GetParameterNames "Device." false))
          (mkResp 200 (Some ex_id) (EncodeResponse "7" (GetParameterNames "Device." false)))]
     ++ [SLServe ex_id (Some (Reboot "k")) (mkResp 200 (Some ex_id) (EncodeResponse "7" (Reboot "k")))].

Lemma ex_server_run : srv_run (mkServer ∅ ∅ (mkCR "" "" "") [], ex_store) ex_labels ex_r3.2.
Proof.
  unfold ex_labels. rewrite !app_assoc.
  eapply srv_run_snoc; [eapply srv_run_snoc; [eapply srv_run_snoc; [eapply srv_run_snoc; [apply srv_run_nil|]|]|]|].
  - apply (srv_serve 5 "10.0.0.5" None (Some ex_inform_env) _ _ _ _ ex_x1). vm_compute. reflexivity.
  - apply (srv_enqueue ex_id ex_reboot_task ex_x1).
  - apply (srv_serve 6 "10.0.0.9" (Some ex_id) None ex_x2 _ _ _ ex_r2.2). vm_compute. reflexivity.
  - apply (srv_serve 6 "10.0.0.9" (Some ex_id) None ex_r2.2 _ _ _ ex_r3.2). vm_compute. reflexivity.
Qed.

Lemma command_reaches_its_device_witness :
  ∃ t, SLEnqueue ex_id t ∈ ex_labels ∧ request_of t = Some (Reboot "k").
Proof.
  apply (command_reaches_its_device [] (mkCR "" "" "") ex_store ex_labels ex_r3.2 ex_id (Reboot "k")
    (mkResp 200 (Some ex_id) (EncodeResponse "7" (Reboot "k")))).
  - exact ex_server_run.
  - unfold ex_labels. do 4 (apply elem_of_app; right). apply list_elem_of_singleton. reflexivity.
  - exact I.
Defined.

Lemma cookie_affinity_witness : route_key "192.168.7.7" (Some ex_id) None (ex_r3.2).1 = ex_id.
Proof.
  eapply (proj2 (cookie_affinity [] (mkCR "" "" "") ex_store ex_labels ex_r3.2 ex_id (Some (Reboot "k"))
    (mkResp 200 (Some ex_id) (EncodeResponse "7" (Reboot "k"))) ex_id ex_server_run _ eq_refl)).
  reflexivity.
  Unshelve.
  unfold ex_labels. do 4 (apply elem_of_app; right). apply list_elem_of_singleton. reflexivity.
Defined.

Lemma ServeHTTP_isolates_witness :
  is_Some (sessions (ServeHTTP (λ _, None) 5 (mkReq "10.0.0.5" None (Some " ")) ex_server).2.1 !! "ip:10.0.0.5").
Proof.
  destruct (ServeHTTP (λ _, None) 5 (mkReq "10.0.0.5" None (Some " ")) ex_server) as [hr [srv' store']] eqn:Hs.
  destruct (ServeHTTP_isolates (λ _, None) 5 (mkReq "10.0.0.5" None (Some " ")) NewServer ex_store hr srv' store' Hs)
    as [(H4 & _)|(env & He & _ & _ & Hk)].
  - vm_compute in Hs. injection Hs as <- _ _. vm_compute in H4. discriminate.
  - destruct He as [->|(body & _ & ->)]; exact Hk.
Defined.
