(* ===== verification/ClosedLoop.v ===== *)
(** * The loop closed: the device's session against the agent's server

    [DeviceSim.runSession] with the agent as its peer: every message goes out as
    bytes, through [ServeHTTP] and [DecodeEnvelope], and the reply comes back as
    bytes, with the cookie jar of the device's HTTP client in between. *)
From S2P Require Import Prelude GoStrings DeviceId Db CwmpTypes CwmpStore Session Soap Xml SoapDecode XmlRoundtrip.
From S2P Require Import DeviceSim Wire Uplink Server.

(** ** The exchange *)

(** [maxRequestBytes]. *)
Definition maxRequestBytes : N := 16 * 1024 * 1024.

(** What [net/http] keeps of a cookie's value. *)
Definition cookie_byte (a : ascii) : bool :=
  byte_in 32 126 a && bool_decide (a ∉ [dqb; ";"%char; "\"%char]).

Fixpoint cookie_value (s : string) : string :=
  match s with
  | "" => ""
  | String a s => if cookie_byte a then String a (cookie_value s) else cookie_value s
  end.

Section Loop.
Context {S : Type} `{Store S}.
(** See [Xml.unicode_name]. *)
Variable unicode_name : string → bool.
(** The device's address, and the time of each exchange on either side. *)
Variable host : string.
Variables clock dev_clock : nat → Z.

(** The agent, the device's cookie jar, and the number of exchanges so far. *)
Record world := mkWorld {
  w_srv : Server;
  w_store : S;
  w_jar : option string;
  w_turns : nat }.

Definition now (w : world) : Z := clock (w_turns w).
Definition dev_now (w : world) : Z := dev_clock (w_turns w).

Definition fits (text : string) : Prop := (N.of_nat (String.length text) ≤ maxRequestBytes)%N.
#[global] Instance fits_dec text : Decision (fits text) := _.

Definition http_request_of (text : string) (w : world) : http_request :=
  mkReq host (w_jar w) (if decide (fits text) then Some text else None).

(** [post] of device.go, with the agent up. *)
Definition exchange (text : string) (x : device * world) : option string * (device * world) :=
  let w := x.2 in
  let '(resp, (srv, store)) := ServeHTTP (DecodeEnvelope unicode_name) (now w) (http_request_of text w) (w_srv w, w_store w) in
  let jar := match rs_cookie resp with Some c => Some (cookie_value c) | None => w_jar w end in
  (Some (rs_body resp), (x.1, mkWorld srv store jar (Datatypes.S (w_turns w)))).

(** ** One exchange *)

(** The device's session with the agent is open: it holds the cookie of the
    agent's session for it. *)
Definition linked (id msgID : string) (q : list Task * option Task) (w : world) : Prop :=
  w_jar w = Some id ∧ ∃ s, sessions (w_srv w) !! id = Some s ∧ s_DeviceID s = id ∧ s_MsgID s = msgID ∧ queues s = q.

Definition others_kept (id : string) (w w' : world) : Prop :=
  ∀ k, k ≠ id → sessions (w_srv w') !! k = sessions (w_srv w) !! k.

Lemma others_kept_refl id w : others_kept id w w.
Proof. by intros k. Qed.
Lemma others_kept_trans id w1 w2 w3 : others_kept id w1 w2 → others_kept id w2 w3 → others_kept id w1 w3.
Proof. intros H1 H2 k Hk. by rewrite H2, H1. Qed.

Definition response_text (msgID : string) (r : option Response) : string :=
  match r with Some r => EncodeResponse msgID r | None => "" end.

Lemma writeResponse_body c msgID r : rs_body (writeResponse c msgID r) = response_text msgID r.
Proof. by destruct r. Qed.

Lemma cookie_value_id s : all_bytes cookie_byte s = true → cookie_value s = s.
Proof.
  induction s as [|a s IH]; [done|]. cbn [all_bytes cookie_value]. intros [-> Hs]%andb_true_iff. by rewrite IH.
Qed.

(** What the agent makes of the text that it is posted. *)
Definition reads (text : string) (env : option Envelope) : Prop :=
  fits text ∧
  match env with
  | None => TrimSpace text = ""
  | Some e => TrimSpace text ≠ "" ∧ DecodeEnvelope unicode_name text = Some e
  end.

Lemma exchange_serve text env d w : reads text env →
  exchange text (d, w) =
  let '(_, _, resp, (srv, store)) := serve (now w) host (w_jar w) env (w_srv w, w_store w) in
  let jar := match rs_cookie resp with Some c => Some (cookie_value c) | None => w_jar w end in
  (Some (rs_body resp), (d, mkWorld srv store jar (Datatypes.S (w_turns w)))).
Proof.
  intros [Hfit He]. unfold exchange, ServeHTTP, http_request_of. cbn [rq_body rq_host rq_cookie fst snd].
  rewrite (decide_True (P := fits text)) by done. cbv iota. destruct env as [e|].
  - destruct He as [Hb ->]. rewrite decide_False by done. by destruct (serve _ _ _ _ _) as [[[]] []].
  - rewrite decide_True by done. by destruct (serve _ _ _ _ _) as [[[]] []].
Qed.

(** An exchange inside an open session. *)
Lemma exchange_linked id msgID q text env d w :
  id ≠ "" → all_bytes cookie_byte id = true → linked id msgID q w → reads text env →
  match env with Some e => b_Inform (e_Body e) = None ∧ e_ID e = msgID | None => True end →
  ∃ r w' s s' store, exchange text (d, w) = (Some (response_text msgID r), (d, w')) ∧
    queues s = q ∧ (request (now w) env (s, store)).1 = r ∧ (request (now w) env (s, store)).2.1 = s' ∧
    linked id msgID (queues s') w' ∧ others_kept id w w'.
Proof.
  intros Hid Hck (Hjar & s1 & Hs1 & Hd & Hm & Hq) Hread Henv. rewrite (exchange_serve _ env) by done.
  assert (Hinf : env ≫= (λ e, b_Inform (e_Body e)) = None) by (destruct env; [apply Henv|done]).
  destruct (serve _ _ _ _ _) as [[[key resp] hr] [srv' store']] eqn:Hserve.
  apply serve_spec in Hserve as (Hkey & Hoth & _ & s0 & s & s' & store0 & Hcase & Hs & Hreq & Hs' & ->).
  assert (Hk : key = id).
  { rewrite Hkey. unfold route_key. by rewrite Hinf, Hjar, Hs1, decide_True. }
  clear Hkey. subst key. rewrite Hs1 in Hcase. subst s0.
  pose proof (request_DeviceID (now w) env s store0) as [Hd' _]. pose proof (request_MsgID (now w) env s store0) as Hm'.
  rewrite Hreq, Hinf in Hd'. rewrite Hreq in Hm'. cbn [fst snd] in Hd', Hm'.
  assert (Hsd : s_DeviceID s = id ∧ s_MsgID s = msgID ∧ queues s = q) by (rewrite Hs; by case_decide).
  destruct Hsd as (Hsd & Hsm & Hsq). rewrite Hsd in Hd'. rewrite Hd', decide_True by done.
  assert (Hmid : s_MsgID s' = msgID) by (rewrite Hm'; destruct env; [apply Henv|done]).
  rewrite Hmid, writeResponse_body.
  replace (rs_cookie (writeResponse (Some id) msgID resp)) with (Some id) by (by destruct resp).
  eexists _, _, s, s', store0. split_and!; [done|done|by rewrite Hreq|by rewrite Hreq| |done].
  split; [cbn [w_jar]; by rewrite cookie_value_id|]. by exists s'.
Qed.

(** ** What the device sends *)

Definition answer_kind (a : message) : Session.kind :=
  match a with
  | MInform _ _ => KInform []
  | MGetRPCMethods | MTransferComplete _ | MATC _ _ _ => KOwnRPC
  | _ => KAnswer
  end.

Lemma message_kind now id a s (store : S) :
  (∀ t d, a ≠ MInform t d) → kind_of now (Some (mkEnvelope id (message_body a))) s store = answer_kind a.
Proof. intros Ha. destruct a; try done. by destruct (Ha now0 d). Qed.

Lemma message_not_blank msgID a : TrimSpace (message_text msgID a) ≠ "".
Proof.
  rewrite message_text_inner. rewrite TrimSpace_visible; [done|done|].
  unfold soapClose. rewrite !ends_visible_app; [reflexivity|done|]. by destruct (message_inner a).
Qed.

Lemma message_reads msgID a : plain msgID = true → message_ok a → fits (message_text msgID a) →
  reads (message_text msgID a) (Some (mkEnvelope msgID (message_body a))).
Proof.
  intros Hid Ha Hfit. split; [done|]. split; [apply message_not_blank|]. by apply message_decoded.
Qed.

Section Open.
Variables (id msgID : string) (d : device).
Hypothesis id_ok : id ≠ "" ∧ all_bytes cookie_byte id = true.
Hypothesis msgID_ok : plain msgID = true.

(** An empty POST takes the next task. *)
Lemma exchange_empty q fl w : linked id msgID (q, fl) w →
  ∃ w', exchange "" (d, w) = (Some (response_text msgID (head q ≫= request_of)), (d, w')) ∧
    linked id msgID (pop fl q) w' ∧ others_kept id w w'.
Proof.
  intros Hl. destruct id_ok.
  destruct (exchange_linked id msgID (q, fl) "" None d w) as (r & w' & s & s' & store & Hx & Hq & Hr & Hs' & Hl' & Ho); try done.
  pose proof (request_refines (now w) None s store) as Href. cbn [kind_of] in Href.
  destruct (request (now w) None (s, store)) as [resp [s1 store1]]. cbn [fst snd] in Hr, Hs'. subst resp s1.
  destruct Href as [Hq' ->]. rewrite Hq' in Hl'. injection Hq as Hq1 Hq2. exists w'.
  unfold queues in Hl'. rewrite Hq1, Hq2 in Hl'. rewrite Hq1 in Hx. done.
Qed.

(** A message from the device, of any kind but an Inform. *)
Lemma exchange_message a q fl w : linked id msgID (q, fl) w → message_ok a → fits (message_text msgID a) →
  (∀ t e, a ≠ MInform t e) →
  ∃ r w', exchange (message_text msgID a) (d, w) = (Some (response_text msgID r), (d, w')) ∧
    linked id msgID (spec_step (answer_kind a) (q, fl)) w' ∧ others_kept id w w' ∧
    match answer_kind a with KOwnRPC => ∃ r', r = Some r' ∧ (∀ t f z, a = MATC t f z → r' = AutonomousTransferCompleteResponse) | _ => True end.
Proof.
  intros Hl Ha Hfit Hinf. destruct id_ok.
  destruct (exchange_linked id msgID (q, fl) (message_text msgID a) (Some (mkEnvelope msgID (message_body a))) d w)
    as (r & w' & s & s' & store & Hx & Hq & Hr & Hs' & Hl' & Ho); try done.
  { by apply message_reads. }
  { split; [|done]. destruct a; try done. by destruct (Hinf now0 d0). }
  pose proof (request_refines (now w) (Some (mkEnvelope msgID (message_body a))) s store) as Href.
  rewrite (message_kind _ _ _ _ _ Hinf) in Href.
  destruct (request (now w) _ (s, store)) as [resp [s1 store1]] eqn:Hreq. cbn [fst snd] in Hr, Hs'. subst resp s1.
  destruct Href as [Hq' Hresp]. rewrite Hq', Hq in Hl'. exists r, w'. split_and!; [done..|].
  destruct a; try done; cbn [answer_kind] in *; destruct Hresp as (r' & -> & _); exists r'; (split; [done|]); intros ? ? ? [=].
  unfold request, Handle in Hreq. cbn in Hreq. congruence.
Qed.

(** What the agent holds for a device before its Inform. *)
Definition held (w : world) : list Task * option Task :=
  match sessions (w_srv w) !! id with Some s => queues s | None => ([], None) end.
Definition catalogue (w : world) : list string :=
  match sessions (w_srv w) !! id with Some s => firstContactGPV s | None => srv_firstContactGPV (w_srv w) end.

(** The queue after the Inform: what was left unanswered goes to its end, and a
    device without a writability map has its tree read first. *)
Definition opening (learn : list Task) (x : list Task * option Task) : list Task :=
  foldl (flip put) x.1 (orphan x.2 ++ learn).

Lemma exchange_inform t w :
  CanonicalID (oui d) (productClass d) (serial d) = id → message_ok (MInform t d) → fits (informEnvelope t msgID d) →
  ∃ learn w', exchange (informEnvelope t msgID d) (d, w) = (Some (response_text msgID (Some (InformResponse 1))), (d, w')) ∧
    (learn = [] ∨ learn = first_contact (catalogue w)) ∧
    linked id msgID (opening learn (held w), None) w' ∧ others_kept id w w'.
Proof.
  intros Hcan Ha Hfit. destruct id_ok as [Hid Hck]. set (e := mkEnvelope msgID (message_body (MInform t d))).
  assert (Hread : reads (informEnvelope t msgID d) (Some e)) by (by apply (message_reads msgID (MInform t d))).
  rewrite (exchange_serve _ _ d w Hread).
  assert (Hinf : ∃ inf, Some e ≫= (λ e, b_Inform (e_Body e)) = Some inf ∧ inform_id inf = id) by (by eexists).
  destruct Hinf as (inf & Hinf & Hinf_id).
  destruct (serve _ _ _ _ _) as [[[key resp] hr] [srv' store']] eqn:Hserve.
  apply serve_spec in Hserve as (Hkey & Hoth & _ & s0 & s & s' & store0 & Hcase & Hs & Hreq & Hs' & ->).
  assert (Hk : key = id) by (rewrite Hkey; unfold route_key; by rewrite Hinf).
  clear Hkey. subst key.
  pose proof (request_DeviceID (now w) (Some e) s store0) as [Hd' _]. pose proof (request_MsgID (now w) (Some e) s store0) as Hm'.
  pose proof (request_refines (now w) (Some e) s store0) as Href.
  rewrite Hreq, Hinf, Hinf_id in Hd'. rewrite Hreq in Hm', Href. cbn [fst snd] in Hd', Hm'. destruct Href as [Hq Hresp].
  assert (Hheld : queues s = held w ∧ firstContactGPV s = catalogue w).
  { assert (queues s = queues s0 ∧ firstContactGPV s = firstContactGPV s0) as [-> ->] by (rewrite Hs; by case_decide).
    unfold held, catalogue. destruct (sessions (w_srv w) !! id) as [s1|]; [by subst|].
    destruct Hcase as [(Hn1 & Hn2 & _ & _ & _ & _ & Hfc) _]. unfold queues. by rewrite Hn1, Hn2. }
  destruct Hheld as [Hheld Hcat].
  assert (Hkind : ∃ learn, kind_of (now w) (Some e) s store0 = KInform learn ∧ (learn = [] ∨ learn = first_contact (catalogue w))).
  { unfold kind_of. cbn [e mbind option_bind e_Body message_body b_Inform]. eexists. split; [done|].
    rewrite Hcat. destruct (HasWritabilityMap _ _).1; [by left|by right]. }
  destruct Hkind as (learn & Hkind & Hlearn). rewrite Hkind in Hq, Hresp. subst resp.
  rewrite Hd', decide_True by done. rewrite Hm', writeResponse_body. cbn [e e_ID].
  exists learn. eexists. split_and!; [done|done| |done].
  split; [cbn [w_jar writeResponse rs_cookie]; by rewrite cookie_value_id|].
  exists s'. split_and!; [done..|]. rewrite Hq, Hheld. cbn [spec_step]. unfold opening. by destruct (held w).
Qed.
End Open.

(** ** The drain loop *)

Variable m : manifest.
Variable map_range : gmap string string → list string.

(** What the device does with a task, and answers. *)
Definition answer (t : Task) (d : device) : option (message * device) :=
  match t_Type t with
  | TaskGPV => Some (MGPVResponse m (get (t_Paths t) d), d)
  | TaskSPV => Some (MSPVResponse, set ((λ w, (pv_Name w, v_Text (pv_Value w))) <$> t_Writes t) d)
  | TaskGPN => Some (MGPNResponse (default "Device." (head (t_Paths t))) (map_range (params d)), d)
  | TaskReboot => Some (MRebootResponse, d)
  | TaskOther _ => None
  end.

Definition run_task (d : device) (t : Task) : device :=
  match answer t d with Some (_, d') => d' | None => d end.

(** Every other task, from the first. *)
Fixpoint evens (l : list Task) : list Task :=
  match l with
  | t :: _ :: rest => t :: evens rest
  | _ => l
  end.

Definition sendable (msgID : string) (a : message) : Prop := message_ok a ∧ fits (message_text msgID a).

(** The tasks that the drain loop performs can be sent and answered. *)
Fixpoint answers_ok (msgID : string) (n : nat) (q : list Task) (d : device) : Prop :=
  match n, q with
  | Datatypes.S n, t :: rest =>
      match request_of t, answer t d with
      | Some r, Some (a, d') => response_ok r ∧ sendable msgID a ∧ answers_ok msgID n (tail rest) d'
      | _, _ => False
      end
  | _, _ => True
  end.

(** What the drain loop leaves: the queue beyond its bound, and the task that
    the reply to the last answer carried. *)
Definition left_over (n : nat) (q : list Task) (fl : option Task) : list Task * option Task :=
  let taken := take (2 * n) q in
  (drop (2 * n) q, match last taken with
                   | Some u => if Nat.even (length taken) then Some u else None
                   | None => fl
                   end).

Lemma left_over_step n t u rest fl : left_over (Datatypes.S n) (t :: u :: rest) fl = left_over n rest (Some u).
Proof.
  unfold left_over. replace (2 * Datatypes.S n) with (Datatypes.S (Datatypes.S (2 * n))) by lia.
  rewrite !skipn_cons, !firstn_cons. cbn [length Nat.even]. f_equal. destruct (take (2 * n) rest) as [|v l] eqn:Hl; [done|].
  rewrite !last_cons. by destruct (last l).
Qed.

Lemma left_over_nil n fl : left_over n [] fl = ([], fl).
Proof. unfold left_over. by rewrite take_nil, drop_nil. Qed.

Lemma left_over_one n t fl : left_over (Datatypes.S n) [t] fl = ([], None).
Proof.
  unfold left_over. replace (2 * Datatypes.S n) with (Datatypes.S (2 * n + 1)) by lia.
  by rewrite firstn_cons, skipn_cons, take_nil, drop_nil.
Qed.

Lemma perform_answer msgID t r d : request_of t = Some r →
  perform map_range m msgID (request_for r) d = (λ ad, (message_text msgID ad.1, ad.2)) <$> answer t d.
Proof.
  unfold request_of, answer. intros Hr. destruct (t_Type t); simplify_eq; unfold perform; cbn [DeviceSim.kind request_for];
    repeat first [rewrite decide_True by reflexivity|rewrite decide_False by discriminate]; reflexivity.
Qed.

Lemma answer_is_answer t d a d' : answer t d = Some (a, d') → answer_kind a = KAnswer ∧ (∀ u e, a ≠ MInform u e).
Proof. unfold answer. destruct (t_Type t); intros; simplify_eq; done. Qed.

Lemma EncodeResponse_not_blank msgID r : TrimSpace (EncodeResponse msgID r) ≠ "".
Proof.
  unfold EncodeResponse. rewrite TrimSpace_visible; [done|done|].
  unfold soapClose. rewrite !ends_visible_app; [reflexivity|done|]. by destruct (rewriteRoot _ _).
Qed.

Lemma drain_alternates id msgID n : id ≠ "" ∧ all_bytes cookie_byte id = true → plain msgID = true → ∀ q fl d w,
  linked id msgID (q, fl) w → answers_ok msgID n q d →
  ∃ w', drain_tasks unicode_name exchange map_range n m msgID (d, w) = (foldl run_task d (evens (take (2 * n) q)), w') ∧
    linked id msgID (left_over n q fl) w' ∧ others_kept id w w'.
Proof.
  intros Hid Hm. induction n as [|n IH]; intros q fl d w Hl Hok; [by exists w|].
  cbn [drain_tasks]. destruct (exchange_empty id msgID d Hid q fl w Hl) as (w1 & Hx1 & Hl1 & Ho1). rewrite Hx1.
  destruct q as [|t rest]; [by exists w1|]. cbn [answers_ok head mbind option_bind pop] in *.
  destruct (request_of t) as [r|] eqn:Hr; [|done]. destruct (answer t d) as [[a d']|] eqn:Ha; [|done].
  destruct Hok as (Hr_ok & [Ha_ok Hfit] & Hok). cbn [response_text].
  rewrite decide_False by apply EncodeResponse_not_blank.
  rewrite request_parsed by done. cbn [fst snd]. rewrite (perform_answer _ t r), Ha by done. cbn [fmap option_fmap option_map fst snd].
  destruct (answer_is_answer _ _ _ _ Ha) as [Hkind Hinf].
  destruct (exchange_message id msgID d' Hid Hm a rest (Some t) w1 Hl1 Ha_ok Hfit Hinf) as (r2 & w2 & -> & Hl2 & Ho2 & _).
  rewrite Hkind in Hl2. cbn [spec_step snd] in *.
  assert (Hd' : run_task d t = d') by (unfold run_task; by rewrite Ha).
  pose proof (others_kept_trans _ _ _ _ Ho1 Ho2) as Ho. destruct rest as [|u rest].
  - destruct (IH [] None d' w2 Hl2) as (w3 & -> & Hl3 & Ho3); [by destruct n|].
    exists w3. split_and!; [|by rewrite left_over_one, <- (left_over_nil n None)|by eapply others_kept_trans].
    rewrite take_nil. replace (2 * Datatypes.S n) with (Datatypes.S (2 * n + 1)) by lia.
    rewrite firstn_cons, take_nil. cbn [evens foldl]. by rewrite Hd'.
  - destruct (IH rest (Some u) d' w2 Hl2 Hok) as (w3 & -> & Hl3 & Ho3).
    exists w3. split_and!; [|by rewrite left_over_step|by eapply others_kept_trans].
    replace (2 * Datatypes.S n) with (Datatypes.S (Datatypes.S (2 * n))) by lia.
    rewrite !firstn_cons. cbn [evens foldl]. by rewrite Hd'.
Qed.

(** ** The session *)

Abbreviation session msgID x := (runSession unicode_name exchange dev_now map_range m msgID x).

(** What the device sends of its own accord can be sent. *)
Definition opening_ok (msgID : string) (d : device) : Prop :=
  (∀ n, sendable msgID (MInform (dev_clock n) d)) ∧ sendable msgID MGetRPCMethods ∧
  (∀ n, sendable msgID (MTransferComplete (dev_clock n))) ∧
  match (takeTransfer (incInform d)).1 with
  | Some f => ∀ n, sendable msgID (MATC (dev_clock n) (x_name f) (x_size f))
  | None => True
  end.

Lemma lower_ack msgID : all_bytes ascii_byte msgID = true →
  ToLower (EncodeResponse msgID AutonomousTransferCompleteResponse) =
  map_bytes lower_byte soapOpen_head +:+ map_bytes lower_byte msgID +:+
  map_bytes lower_byte (soapOpen_tail +:+ element "cwmp:AutonomousTransferCompleteResponse" "" +:+ soapClose).
Proof.
  intros Hm. unfold EncodeResponse. rewrite rewriteRoot_Marshal. unfold soapOpen. rewrite !str_app_assoc.
  rewrite ToLower_ascii; [by rewrite !map_bytes_app|]. rewrite !all_bytes_app, Hm. reflexivity.
Qed.

Lemma lower_digits s : all_bytes is_digit s = true → map_bytes lower_byte s = s ∧ all_bytes ascii_byte s = true.
Proof.
  induction s as [|a s IH]; [done|]. cbn [all_bytes map_bytes]. intros [[H1 H2]%bool_decide_eq_true Hs]%andb_true_iff.
  destruct (IH Hs) as [-> ->]. unfold lower_byte, ascii_byte. rewrite decide_False by lia. rewrite bool_decide_true by lia.
  done.
Qed.

Lemma digits_plain s : all_bytes is_digit s = true → plain s = true.
Proof.
  intros Hdig. apply ascii_plain. eapply all_bytes_impl; [|exact Hdig]. intros a [H1 H2]%bool_decide_eq_true.
  unfold ascii_safe, byte_in. rewrite bool_decide_true by lia. unfold safe. rewrite bool_decide_true by lia.
  apply bool_decide_eq_true. intros Hin. unfold specials in Hin. rewrite !elem_of_cons, elem_of_nil in Hin.
  destruct Hin as [->|[->|[->|[->|[->|[]]]]]]; vm_compute in H1, H2; lia.
Qed.

(** The acknowledgement of a transfer contains no fault. *)
Lemma ack_no_fault msgID : all_bytes is_digit msgID = true → msgID ≠ "" →
  Contains (ToLower (EncodeResponse msgID AutonomousTransferCompleteResponse)) "fault" = false.
Proof.
  intros Hm Hne. destruct (lower_digits _ Hm) as [Hl Ha]. rewrite lower_ack, Hl by done.
  rewrite Contains_around; [reflexivity|done|done|]. intros c Hc. eapply all_bytes_no_byte; [|exact Hm].
  destruct (is_digit c) eqn:Hd; [|done]. exfalso.
  assert (Hne' : ∀ x, is_digit x = false → bool_decide (x ≠ c) = true).
  { intros x Hx. apply bool_decide_eq_true. intros ->. congruence. }
  cbn [no_byte] in Hc. by rewrite !Hne' in Hc by reflexivity.
Qed.

Lemma session_alternates id msgID d w :
  CanonicalID (oui d) (productClass d) (serial d) = id → id ≠ "" → all_bytes cookie_byte id = true →
  all_bytes is_digit msgID = true → msgID ≠ "" → opening_ok msgID d →
  (∀ learn, learn = [] ∨ learn = first_contact (catalogue id w) →
    answers_ok msgID maxSessionTasks (opening learn (held id w)) (takeTransfer (incInform d)).2) →
  ∃ learn w', (learn = [] ∨ learn = first_contact (catalogue id w)) ∧
    let tasks := opening learn (held id w) in
    session msgID (d, w) =
      (false, (foldl run_task (takeTransfer (incInform d)).2 (evens (take 128 tasks)), w')) ∧
    held id w' = left_over maxSessionTasks tasks None ∧ others_kept id w w'.
Proof.
  intros Hcan Hid Hck Hdig Hne (Hinf & Hrpc & Htc & Hatc) Hans.
  pose proof (digits_plain msgID Hdig) as Hplain.
  pose proof (conj Hid Hck) as Hidc. unfold runSession. cbn [fst snd].
  destruct (Hinf (w_turns w)) as [Hi1 Hi2].
  destruct (exchange_inform id msgID d Hidc Hplain (dev_now w) w Hcan Hi1 Hi2) as (learn & w1 & Hx1 & Hlearn & Hl1 & Ho1).
  rewrite Hx1. cbn [fst snd]. exists learn. cbv zeta. set (tasks := opening learn (held id w)) in *.
  destruct (exchange_message id msgID (incInform d) Hidc Hplain MGetRPCMethods tasks None w1 Hl1 (proj1 Hrpc) (proj2 Hrpc))
    as (r2 & w2 & Hx2 & Hl2 & Ho2 & _); [done|]. cbn [message_text] in Hx2. rewrite Hx2. cbn [fst snd].
  destruct (Htc (w_turns w2)) as [Ht1 Ht2].
  destruct (exchange_message id msgID (incInform d) Hidc Hplain (MTransferComplete (dev_now w2)) tasks None w2 Hl2 Ht1 Ht2)
    as (r3 & w3 & Hx3 & Hl3 & Ho3 & _); [done|]. cbn [message_text] in Hx3. rewrite Hx3. cbn [fst snd].
  destruct (takeTransfer (incInform d)) as [t d1]. cbn [fst snd] in *.
  assert (Hend : ∀ w4, linked id msgID (tasks, None) w4 → others_kept id w3 w4 →
    ∃ w', drain_tasks unicode_name exchange map_range maxSessionTasks m msgID (d1, w4) =
        (foldl run_task d1 (evens (take 128 tasks)), w') ∧
      held id w' = left_over maxSessionTasks tasks None ∧ others_kept id w w').
  { intros w4 Hl4 Ho4. destruct (drain_alternates id msgID maxSessionTasks Hidc Hplain tasks None d1 w4 Hl4 (Hans _ Hlearn))
      as (w5 & Hx5 & (_ & s & Hs & _ & _ & Hq) & Ho5). exists w5. split_and!; [exact Hx5| |].
    - unfold held. by rewrite Hs.
    - repeat (eapply others_kept_trans; [eassumption|]). apply others_kept_refl. }
  destruct t as [f|].
  - destruct (Hatc (w_turns w3)) as [Ha1 Ha2].
    destruct (exchange_message id msgID d1 Hidc Hplain (MATC (dev_now w3) (x_name f) (x_size f)) tasks None w3 Hl3 Ha1 Ha2)
      as (r4 & w4 & Hx4 & Hl4 & Ho4 & Hr4); [done|]. cbn [message_text answer_kind] in Hx4, Hr4. rewrite Hx4.
    destruct Hr4 as (r & -> & Hr4). rewrite (Hr4 _ _ _ eq_refl). cbn [from_option Datatypes.id response_text].
    rewrite ack_no_fault by done. destruct (Hend w4 Hl4 Ho4) as (w' & -> & ? & ?). by exists w'.
  - destruct (Hend w3 Hl3 (others_kept_refl _ _)) as (w' & -> & ? & ?). by exists w'.
Qed.

(** C11: A session of the device against the agent, over the wire: the device
    informs, is acknowledged, and then performs exactly every other task that the
    agent holds for it, the first included, within the drain loop's bound; each
    skipped task is overwritten in flight, but for the last of an even number. *)
Theorem session_runs_every_other id msgID d w :
  CanonicalID (oui d) (productClass d) (serial d) = id → id ≠ "" → all_bytes cookie_byte id = true →
  all_bytes is_digit msgID = true → msgID ≠ "" → opening_ok msgID d →
  (∀ learn, learn = [] ∨ learn = first_contact (catalogue id w) →
    answers_ok msgID maxSessionTasks (opening learn (held id w)) (takeTransfer (incInform d)).2) →
  ∃ learn w', (learn = [] ∨ learn = first_contact (catalogue id w)) ∧
    let tasks := opening learn (held id w) in
    session msgID (d, w) =
      (false, (foldl run_task (takeTransfer (incInform d)).2 (evens (take 128 tasks)), w')) ∧
    held id w' = left_over maxSessionTasks tasks None ∧ others_kept id w w'.
Proof. apply session_alternates. Qed.
End Loop.

(** ** A concrete session: of three tasks the second is never performed *)

Definition ex_device : device :=
  mkDev (write_all [("Device.A", "0"); ("Device.B", "0"); ("Device.X", "a<b")] ∅) 0 1 (Some (mkXfer "Log_1.gz" 5))
    "8C1F64" "ENB-1" "42" "8C1F64-ENB%2D1-42" 0 30005 "".

Definition ex_set (path value key : string) : Task :=
  mkTask TaskSPV [] [mkPV path (mkValue "string" value)] key key.

Definition ex_world : world (S := sql) :=
  let x := Enqueue ex_id (ex_set "Device.B" "2" "c2") (Enqueue ex_id (ex_set "Device.A" "1" "c1") (NewServer, ex_store)) in
  mkWorld x.1 x.2 None 0.

Definition paths_of (p : gmap string string) : list string := (map_to_list p).*1.

Lemma ex_sendable msgID a : bool_decide (fits (message_text msgID a)) = true → message_ok a → sendable msgID a.
Proof. intros Hf Ha. split; [done|]. by apply bool_decide_eq_true in Hf. Qed.

Lemma ex_opening : opening_ok (λ _, 5%Z) "1" ex_device.
Proof.
  split_and!.
  - intros n. apply ex_sendable; [reflexivity|]. split_and!; try reflexivity. constructor.
  - by apply ex_sendable.
  - intros n. by apply ex_sendable.
  - intros n. apply ex_sendable; [reflexivity|]. split_and!; [reflexivity|done|done].
Qed.

Lemma session_runs_every_other_witness :
  let '(regression, (d, w)) :=
    runSession (λ _, false) (exchange (λ _, false) "10.0.0.5" (λ _, 5%Z)) (dev_now (λ _, 5%Z)) paths_of (loadManifest []) "1"
      (ex_device, ex_world) in
  regression = false ∧ params d !! "Device.A" = Some "1" ∧ params d !! "Device.B" = Some "0" ∧
  ex_set "Device.B" "2" "c2" ∉ (held ex_id w).1.
Proof.
  destruct (session_runs_every_other (λ _, false) "10.0.0.5" (λ _, 5%Z) (λ _, 5%Z) (loadManifest []) paths_of
    ex_id "1" ex_device ex_world) as (learn & w' & Hlearn & Hs & Hheld & _); [reflexivity|done|reflexivity|reflexivity|done|exact ex_opening| |].
  - assert (Hq : held ex_id ex_world = ([ex_set "Device.A" "1" "c1"; ex_set "Device.B" "2" "c2"], None)) by reflexivity.
    assert (Hset : ∀ rest d, answers_ok (loadManifest []) paths_of "1" 63 rest d →
      response_ok (SetParameterValues [mkPV "Device.A" (mkValue "string" "1")] "c1") ∧ sendable "1" MSPVResponse ∧
      answers_ok (loadManifest []) paths_of "1" 63 rest d).
    { intros rest d Hrest. split; [split; [apply Forall_singleton; split_and!|]; reflexivity|]. split; [by apply ex_sendable|exact Hrest]. }
    rewrite Hq. intros learn [-> | ->]; apply Hset; [exact I|].
    split; [reflexivity|]. split; [|exact I]. apply ex_sendable; [vm_compute; reflexivity|]. cbn [message_ok head t_Paths default].
    assert (Hnames : ∃ l, gpn_names "Device." (paths_of (params (set [("Device.A", "1")] ex_device))) = l ∧
      Forall (λ k, plain k = true) l).
    { eexists. split; [vm_compute; reflexivity|]. repeat constructor; reflexivity. }
    destruct Hnames as (l & Hl & Hplain). rewrite <- Hl in Hplain. exact Hplain.
  - rewrite Hs, Hheld. destruct Hlearn as [-> | ->]; (split; [reflexivity|]; split; [vm_compute; reflexivity|];
      split; [vm_compute; reflexivity|]); apply not_elem_of_nil.
Defined.
