(* ===== verification/Await.v ===== *)
(** * Waiting for results ([Server.Await], goagent/internal/cwmp/server.go)

    Several goroutines wait on one session at once: the worker applying a
    command, the collector taking a snapshot.  Each is a small state machine
    here, and a run is any interleaving of their channel operations with the
    session's publishing, between the lookup of a waiter and the send to it too.
    The return of a waiter and its deferred release are one step; a lookup between
    the two reads what one before the return does. *)
From S2P Require Import Prelude CwmpTypes Session.

(** ** The waiters

    [AwWait c ch]: in the [select] of [Await(_, c, _)], with private channel
    [ch].  [AwHold]: it took somebody else's result from the shared channel and is
    in [deliver] with it; [target] is what the lookup found, once that is done.
    [AwAny]: the anonymous wait (empty CommandID).  [AwDone]: returned, with the
    result or without ([None]). *)
Inductive awaiter : Type :=
| AwWait (commandID : string) (ch : nat)
| AwHold (commandID : string) (ch : nat) (res : TaskResult) (target : option (option nat))
| AwAny
| AwDone (commandID : string) (res : option TaskResult).

(** The session and its waiters; [sending] are the session's own calls of
    [deliver] between lookup and send; [published] records the results the session
    delivered, a ghost that no operation reads. *)
Record system := mkSystem {
  sys_session : Session;
  sys_awaiters : list awaiter;
  sending : list (option nat * TaskResult);
  published : list TaskResult }.

(** ** Steps *)

(** Any operation of session.go that is neither [deliver] nor a waiter's. *)
Definition session_op (s s' : Session) : Prop :=
  results s' = results s ∧ waiters s' = waiters s ∧ chans s' = chans s.

(** The lookup in [deliver]. *)
Definition look_up (r : TaskResult) (s : Session) : option nat := waiters s !! tr_CommandID r.

(** [Await] registers and enters the [select]; with an empty CommandID it does
    not register. *)
Definition Await_start (commandID : string) (s : Session) : awaiter * Session :=
  if decide (commandID = "") then (AwAny, s)
  else let '(ch, s) := waitFor commandID s in (AwWait commandID ch, s).

(** [case res := <-mine]. *)
Definition recv_mine (c : string) (ch : nat) (s : Session) : option (awaiter * Session) :=
  match chans s !! ch with
  | Some (Some r) => Some (AwDone c (Some r), release c (set_chans (<[ch := None]> (chans s)) s))
  | _ => None
  end.

(** [case res := <-sess.results]: its own result returns, another's is held. *)
Definition recv_shared (c : string) (ch : nat) (s : Session) : option (awaiter * Session) :=
  match results s with
  | [] => None
  | r :: rest =>
      let s := set_results rest s in
      Some (if decide (tr_CommandID r = c) then (AwDone c (Some r), release c s)
            else (AwHold c ch r None, s))
  end.

(** [sess.deliver(res)], or what is left of it, and back to the [select]. *)
Definition put_back (c : string) (ch : nat) (r : TaskResult) (target : option (option nat)) (s : Session) :
    awaiter * Session :=
  (AwWait c ch, send_result (default (look_up r s) target) r s).

Definition recv_any (s : Session) : option (awaiter * Session) :=
  match results s with
  | [] => None
  | r :: rest => Some (AwDone "" (Some r), set_results rest s)
  end.

Definition timeout (c : string) (s : Session) : awaiter * Session := (AwDone c None, release c s).

(** One step of the waiter [a]. *)
Inductive aw_step : awaiter → Session → awaiter → Session → Prop :=
| aw_mine c ch s a s' : recv_mine c ch s = Some (a, s') → aw_step (AwWait c ch) s a s'
| aw_shared c ch s a s' : recv_shared c ch s = Some (a, s') → aw_step (AwWait c ch) s a s'
| aw_look c ch r s : aw_step (AwHold c ch r None) s (AwHold c ch r (Some (look_up r s))) s
| aw_send c ch r target s a s' :
    put_back c ch r (Some target) s = (a, s') → aw_step (AwHold c ch r (Some target)) s a s'
| aw_any s a s' : recv_any s = Some (a, s') → aw_step AwAny s a s'
| aw_timeout c ch s : aw_step (AwWait c ch) s (timeout c s).1 (timeout c s).2
| aw_timeout_any s : aw_step AwAny s (AwDone "" None) s.

Inductive sys_step : system → system → Prop :=
| sys_session_op s s' aws snd pub :
    session_op s s' → sys_step (mkSystem s aws snd pub) (mkSystem s' aws snd pub)
| sys_publish r s aws snd pub :
    sys_step (mkSystem s aws snd pub) (mkSystem s aws (snd ++ [(look_up r s, r)]) (pub ++ [r]))
| sys_send i target r s aws snd pub :
    snd !! i = Some (target, r) →
    sys_step (mkSystem s aws snd pub) (mkSystem (send_result target r s) aws (delete i snd) pub)
| sys_start c s aws snd pub :
    sys_step (mkSystem s aws snd pub)
      (mkSystem (Await_start c s).2 (aws ++ [(Await_start c s).1]) snd pub)
| sys_aw i a a' s s' aws snd pub :
    aws !! i = Some a → aw_step a s a' s' →
    sys_step (mkSystem s aws snd pub) (mkSystem s' (<[i := a']> aws) snd pub).

(** ** Where results are *)

(** The results a waiter has in hand or has returned. *)
Definition aw_results (a : awaiter) : list TaskResult :=
  match a with
  | AwHold _ _ r _ => [r]
  | AwDone _ o => option_list o
  | _ => []
  end.

(** The private channel a waiter reads, and the command it waits for. *)
Definition aw_chan (a : awaiter) : option nat :=
  match a with AwWait _ ch | AwHold _ ch _ _ => Some ch | _ => None end.
Definition aw_cmd (a : awaiter) : string :=
  match a with AwWait c _ | AwHold c _ _ _ | AwDone c _ => c | AwAny => "" end.

(** Somebody still reads the channel. *)
Definition read_by (aws : list awaiter) (ch : nat) : Prop := Exists (λ a, aw_chan a = Some ch) aws.
#[export] Instance read_by_dec aws ch : Decision (read_by aws ch).
Proof. unfold read_by. apply _. Defined.

Definition in_chans (P : nat → Prop) `{!∀ n, Decision (P n)} (s : Session) : list TaskResult :=
  omap (λ ch, if decide (P ch) then mjoin (chans s !! ch) else None) (seq 0 (length (chans s))).

(** Results that can still be received, are in hand, or were returned. *)
Definition in_reach (y : system) : list TaskResult :=
  results (sys_session y) ++ in_chans (read_by (sys_awaiters y)) (sys_session y) ++ (sending y).*2 ++
  (sys_awaiters y ≫= aw_results).

(** Results in the channel of a waiter that has returned: nobody reads them. *)
Definition stranded (y : system) : list TaskResult :=
  in_chans (λ ch, ¬ read_by (sys_awaiters y) ch) (sys_session y).

(** A waiter that had a channel of its own and has returned. *)
Definition has_returned (a : awaiter) : Prop := match a with AwDone c _ => c ≠ "" | _ => False end.
#[export] Instance has_returned_dec a : Decision (has_returned a).
Proof. destruct a; apply _. Defined.

(** *** Sending *)

Lemma send_cases target r s :
  (∃ ch, target = Some ch ∧ chans s !! ch = Some None ∧
         send_result target r s = set_chans (<[ch := Some r]> (chans s)) s) ∨
  (length (results s) < chan_cap ∧ send_result target r s = set_results (results s ++ [r]) s) ∨
  (chan_cap ≤ length (results s) ∧ send_result target r s = s).
Proof.
  unfold send_result, deliver_shared.
  destruct target as [ch|]; [destruct (chans s !! ch) as [[r'|]|] eqn:Hc|]; try (by left; exists ch);
    right; case_decide; [left|right|left|right|left|right]; split; done || lia.
Qed.

Lemma deliver_cases r s :
  (∃ ch, waiters s !! tr_CommandID r = Some ch ∧ chans s !! ch = Some None ∧
         deliver r s = set_chans (<[ch := Some r]> (chans s)) s) ∨
  (length (results s) < chan_cap ∧ deliver r s = set_results (results s ++ [r]) s) ∨
  (chan_cap ≤ length (results s) ∧ deliver r s = s).
Proof. apply send_cases. Qed.

(** What a send leaves alone. *)
Lemma send_keeps target r s :
  waiters (send_result target r s) = waiters s ∧ length (chans (send_result target r s)) = length (chans s) ∧
  ∀ ch r', chans s !! ch = Some (Some r') → chans (send_result target r s) !! ch = Some (Some r').
Proof.
  destruct (send_cases target r s) as [(ch & -> & He & ->)|[[_ ->]|[_ ->]]]; simpl; [|done|done].
  rewrite length_insert. split_and!; [done|done|]. intros ch' r' Hl. by rewrite list_lookup_insert_ne by congruence.
Qed.

(** Both halves of [deliver], in a row. *)
Lemma deliver_run r s aws snd pub :
  rtc sys_step (mkSystem s aws snd pub) (mkSystem (deliver r s) aws snd (pub ++ [r])).
Proof.
  eapply rtc_l; [by apply (sys_publish r)|]. apply rtc_once.
  assert (Hsnd : delete (length snd) (snd ++ [(look_up r s, r)]) = snd).
  { rewrite delete_take_drop, take_app_length, drop_ge by (rewrite length_app; simpl; lia). by rewrite app_nil_r. }
  rewrite <- Hsnd at 2. apply sys_send. by rewrite lookup_app_r, Nat.sub_diag.
Qed.

(** A send conserves results, unless the shared channel is full. *)
Definition chan_results (cs : list (option TaskResult)) : list TaskResult := omap id cs.

Lemma chan_results_insert cs ch o r :
  cs !! ch = Some o →
  chan_results (<[ch := r]> cs) ++ option_list o ≡ₚ chan_results cs ++ option_list r.
Proof.
  intros Hch. unfold chan_results. rewrite <- (take_drop_middle cs ch o Hch) at 2.
  rewrite insert_take_drop by (by eapply lookup_lt_Some).
  rewrite !omap_app. simpl. destruct o, r; simpl; solve_Permutation.
Qed.

Definition held_by (s : Session) : list TaskResult := results s ++ chan_results (chans s).

(** At most one, and it leaves a full channel behind. *)
Definition fell_out (s : Session) (dropped : list TaskResult) : Prop :=
  dropped = [] ∨ length dropped = 1 ∧ chan_cap ≤ length (results s).

Lemma send_conserves target r s :
  ∃ dropped, r :: held_by s ≡ₚ held_by (send_result target r s) ++ dropped ∧ fell_out (send_result target r s) dropped.
Proof.
  unfold held_by. destruct (send_cases target r s) as [(ch & _ & He & ->)|[[Hlt ->]|[Hle ->]]]; simpl.
  - exists []. split; [|by left]. pose proof (chan_results_insert (chans s) ch None (Some r) He) as Hp. simpl in Hp.
    rewrite app_nil_r in Hp. rewrite Hp. solve_Permutation.
  - exists []. split; [|by left]. solve_Permutation.
  - exists [r]. split; [solve_Permutation|right; by split].
Qed.

(** A waiter's step conserves what its session and itself hold. *)
Lemma aw_step_conserves a s a' s' : aw_step a s a' s' →
  ∃ dropped, held_by s ++ aw_results a ≡ₚ held_by s' ++ aw_results a' ++ dropped ∧ fell_out s' dropped.
Proof.
  intros Haw. destruct Haw as [c ch s a s' Hr|c ch s a s' Hr|c ch r s|c ch r target s a s' Hr|s a s' Hr|c ch s|s]; simpl in *.
  - exists []. split; [|by left]. unfold recv_mine in Hr. destruct (chans s !! ch) as [[r|]|] eqn:Hch; simplify_eq.
    unfold held_by. simpl. pose proof (chan_results_insert (chans s) ch (Some r) None Hch) as Hp. simpl in Hp.
    rewrite app_nil_r in Hp |- *. rewrite <- Hp. solve_Permutation.
  - exists []. split; [|by left]. unfold recv_shared in Hr. destruct (results s) as [|r rest] eqn:Hrs; simplify_eq.
    unfold held_by. rewrite Hrs. case_decide; simplify_eq; simpl; solve_Permutation.
  - exists []. split; [solve_Permutation|by left].
  - unfold put_back in Hr. simplify_eq. destruct (send_conserves target r s) as (d & Hp & Hd). exists d. split; [|done].
    simpl. rewrite <- Hp. solve_Permutation.
  - exists []. split; [|by left]. unfold recv_any in Hr. destruct (results s) as [|r rest] eqn:Hrs; simplify_eq.
    unfold held_by. rewrite Hrs. simpl. solve_Permutation.
  - exists []. split; [|by left]. solve_Permutation.
  - exists []. split; [|by left]. solve_Permutation.
Qed.

(** ** Invariants *)

(** Every published result is somewhere, or fell out when 256 others were on the
    shared channel. *)
Definition everywhere (y : system) : list TaskResult :=
  held_by (sys_session y) ++ (sending y).*2 ++ (sys_awaiters y ≫= aw_results).

Definition conserved (y : system) : Prop :=
  ∃ dropped, published y ≡ₚ everywhere y ++ dropped ∧
    (dropped = [] ∨ chan_cap + length dropped ≤ length (published y)).


Lemma bind_insert (aws : list awaiter) i a a' :
  aws !! i = Some a →
  (<[i := a']> aws ≫= aw_results) ++ aw_results a ≡ₚ (aws ≫= aw_results) ++ aw_results a'.
Proof.
  intros Hi. rewrite <- (take_drop_middle aws i a Hi) at 2.
  rewrite insert_take_drop by (by eapply lookup_lt_Some).
  rewrite !bind_app. simpl. solve_Permutation.
Qed.

Lemma delete_Permutation_snd {A B} (l : list (A * B)) i x : l !! i = Some x → l.*2 ≡ₚ x.2 :: (delete i l).*2.
Proof.
  intros Hi. rewrite <- (take_drop_middle l i x Hi) at 1. rewrite delete_take_drop, !fmap_app. simpl. solve_Permutation.
Qed.

(** A step moves results about. *)
Lemma step_conserves y y' : sys_step y y' → ∃ new dropped, published y' = published y ++ new ∧
  everywhere y ++ new ≡ₚ everywhere y' ++ dropped ∧ fell_out (sys_session y') dropped.
Proof.
  unfold everywhere. intros Hstep.
  destruct Hstep as [s s' aws snd pub (Hr & _ & Hc)|r s aws snd pub|i target r s aws snd pub Hi|c s aws snd pub|i a a' s s' aws snd pub Hi Haw];
    cbn [sys_session sys_awaiters sending published].
  - exists [], []. unfold held_by. rewrite Hr, Hc, !app_nil_r. split_and!; [done|done|by left].
  - exists [r], []. rewrite fmap_app, app_nil_r. split_and!; [done|simpl; solve_Permutation|by left].
  - destruct (send_conserves target r s) as (d & Hp & Hd). exists [], d. rewrite !app_nil_r. split_and!; [done| |done].
    rewrite (delete_Permutation_snd snd i (target, r) Hi). cbn [Datatypes.snd].
    rewrite (Permutation_app_comm _ d). rewrite !app_assoc.
    rewrite (Permutation_app_comm d). rewrite <- Hp. simpl. solve_Permutation.
  - exists [], []. rewrite !app_nil_r. split_and!; [done| |by left]. unfold Await_start. case_decide; simpl; rewrite bind_app; simpl;
      rewrite !app_nil_r; [done|]. unfold held_by, chan_results. simpl. by rewrite omap_app, app_nil_r.
  - destruct (aw_step_conserves a s a' s' Haw) as (d & Hp & Hd). exists [], d. rewrite !app_nil_r. split_and!; [done| |done].
    pose proof (bind_insert aws i a a' Hi) as Hb. apply (Permutation_app_inv_r (aw_results a ++ aw_results a')).
    set (A := aws ≫= aw_results) in *. set (A' := <[i:=a']> aws ≫= aw_results) in *.
    transitivity ((held_by s ++ aw_results a) ++ (A ++ aw_results a') ++ snd.*2); [solve_Permutation|].
    rewrite Hp, <- Hb. solve_Permutation.
Qed.

Lemma conserved_step y y' : sys_step y y' → conserved y → conserved y'.
Proof.
  intros Hstep (lost & Hcon & Hb). destruct (step_conserves y y' Hstep) as (new & d & Hpub & Hmove & Hd).
  exists (d ++ lost). rewrite Hpub.
  assert (Hp : published y ++ new ≡ₚ everywhere y' ++ d ++ lost).
  { rewrite Hcon. rewrite <- app_assoc, (Permutation_app_comm lost), app_assoc, Hmove. solve_Permutation. }
  split; [exact Hp|]. pose proof (Permutation_length Hp) as Hl. rewrite !length_app in Hl. rewrite !length_app.
  destruct Hd as [->|[Hd Hfull]]; [destruct Hb as [->|?]; [by left|right; cbn [app length]; lia]|]. right.
  assert (chan_cap ≤ length (everywhere y')) by (unfold everywhere, held_by; rewrite !length_app; lia).
  clear Hcon Hmove Hp. lia.
Qed.

(** What a waiter's step does to its channel and its registration. *)
Lemma aw_step_shape a s a' s' : aw_step a s a' s' →
  aw_cmd a' = aw_cmd a ∧ length (chans s') = length (chans s) ∧
  (aw_chan a' = aw_chan a ∧ waiters s' = waiters s ∨
   ∃ ch o, aw_chan a = Some ch ∧ a' = AwDone (aw_cmd a) o ∧ waiters s' = delete (aw_cmd a) (waiters s)) ∧
  ∀ ch r, aw_chan a ≠ Some ch → chans s !! ch = Some (Some r) → chans s' !! ch = Some (Some r).
Proof.
  intros Haw. destruct Haw as [c ch s a s' Hr|c ch s a s' Hr|c ch r s|c ch r target s a s' Hr|s a s' Hr|c ch s|s]; simpl in *.
  - unfold recv_mine in Hr. destruct (chans s !! ch) as [[r|]|]; simplify_eq. simpl. rewrite length_insert.
    split_and!; [done|done|right; by eexists _, _|]. intros ch' r' Hne Hl. by rewrite list_lookup_insert_ne by congruence.
  - unfold recv_shared in Hr. destruct (results s) as [|r rest]; simplify_eq.
    case_decide; simplify_eq; simpl; (split_and!; [done|done| |done]); [right; by eexists _, _|by left].
  - split_and!; [done|done|by left|done].
  - unfold put_back in Hr. simplify_eq. destruct (send_keeps target r s) as (H1 & H2 & H3). simpl.
    split_and!; [done|done|by left|]. intros ch' r' _. apply H3.
  - unfold recv_any in Hr. destruct (results s) as [|r rest]; simplify_eq. simpl. split_and!; [done|done|by left|done].
  - split_and!; [done|done|right; by eexists _, _|done].
  - split_and!; [done|done|by left|done].
Qed.

Lemma elem_of_insert_other {A} (l : list A) i x y : x ∈ <[i := y]> l → x = y ∨ ∃ j, j ≠ i ∧ l !! j = Some x.
Proof.
  intros (j & Hj)%list_elem_of_lookup_1. apply list_lookup_insert_Some in Hj as [(_ & -> & _)|[? Hj]]; [by left|right; by exists j].
Qed.

(** Whose channel is which: a channel is created for one CommandID. *)
Definition aw_ok (owners : list string) (a : awaiter) : Prop :=
  match a with
  | AwWait c ch => owners !! ch = Some c ∧ c ≠ ""
  | AwHold c ch r t => owners !! ch = Some c ∧ c ≠ "" ∧ ∀ ch', t = Some (Some ch') → owners !! ch' = Some (tr_CommandID r)
  | AwDone c (Some r) => c = "" ∨ tr_CommandID r = c
  | _ => True
  end.

Record owners_ok (owners : list string) (y : system) : Prop := {
  ow_length : length owners = length (chans (sys_session y));
  ow_waiters : ∀ c ch, waiters (sys_session y) !! c = Some ch → owners !! ch = Some c;
  ow_chans : ∀ ch r, chans (sys_session y) !! ch = Some (Some r) → owners !! ch = Some (tr_CommandID r);
  ow_sending : ∀ ch r, (Some ch, r) ∈ sending y → owners !! ch = Some (tr_CommandID r);
  ow_aws : ∀ a, a ∈ sys_awaiters y → aw_ok owners a;
  (* who registered it reads it still, or has returned *)
  ow_manned : ∀ ch c, owners !! ch = Some c →
    read_by (sys_awaiters y) ch ∨ ∃ o, AwDone c o ∈ sys_awaiters y }.

Lemma aw_ok_app owners c a : aw_ok owners a → aw_ok (owners ++ [c]) a.
Proof.
  destruct a as [| |  |? []]; simpl; try done; [intros [? ?]; split; [by apply lookup_app_l_Some|done]|].
  intros (? & ? & Ht). split_and!; [by apply lookup_app_l_Some|done|]. intros ch' ->. apply lookup_app_l_Some. by apply Ht.
Qed.

Lemma send_owners (owners : list string) target r s :
  (∀ ch, target = Some ch → owners !! ch = Some (tr_CommandID r)) →
  (∀ ch r, chans s !! ch = Some (Some r) → owners !! ch = Some (tr_CommandID r)) →
  ∀ ch r', chans (send_result target r s) !! ch = Some (Some r') → owners !! ch = Some (tr_CommandID r').
Proof.
  intros Ht Hc. destruct (send_cases target r s) as [(ch & -> & He & ->)|[[_ ->]|[_ ->]]]; [|done|done].
  simpl. intros ch' r' Hr'. destruct (decide (ch' = ch)) as [->|Hne].
  - rewrite list_lookup_insert_eq in Hr' by (by eapply lookup_lt_Some). simplify_eq. by apply Ht.
  - rewrite list_lookup_insert_ne in Hr' by done. by apply Hc.
Qed.

Lemma read_by_app aws a ch : read_by (aws ++ [a]) ch ↔ read_by aws ch ∨ aw_chan a = Some ch.
Proof. unfold read_by. rewrite Exists_app, Exists_cons, Exists_nil. tauto. Qed.

(** Registering extends the list of owners. *)
Lemma owners_start owners c s aws snd pub : c ≠ "" → owners_ok owners (mkSystem s aws snd pub) →
  owners_ok (owners ++ [c]) (mkSystem (waitFor c s).2 (aws ++ [AwWait c (length (chans s))]) snd pub).
Proof.
  intros Hne [Hlen Hw Hc Hsnd Ha Hm]. cbn in *.
  assert (Hnew : (owners ++ [c]) !! length (chans s) = Some c).
  { rewrite lookup_app_r by lia. by replace (length (chans s) - length owners) with 0 by lia. }
  split; cbn.
  - rewrite !length_app. simpl. lia.
  - intros c' ch. rewrite lookup_insert_Some. intros [[<- <-]|[_ Hl]]; [done|]. apply lookup_app_l_Some. by apply Hw.
  - intros ch r Hl. apply lookup_app_Some in Hl as [Hl|[? Hl]]; [apply lookup_app_l_Some; by apply Hc|].
    by apply list_lookup_singleton_Some in Hl as [_ ?].
  - intros ch r Hin. apply lookup_app_l_Some. by apply Hsnd.
  - intros a [Hin|Hin]%elem_of_app; [by apply aw_ok_app, Ha|]. apply list_elem_of_singleton in Hin as ->. by split.
  - intros ch c' Ho. rewrite read_by_app. apply lookup_app_Some in Ho as [Ho|[Hle Ho]].
    + destruct (Hm ch c' Ho) as [?|[o ?]]; [by left; left|right; exists o; apply elem_of_app; by left].
    + apply list_lookup_singleton_Some in Ho as [Ho _]. left. right. simpl. f_equal. lia.
Qed.

(** A waiter's step leaves the owners as they are. *)
Lemma owners_aw owners i a a' s s' aws snd pub : aws !! i = Some a → aw_step a s a' s' →
  owners_ok owners (mkSystem s aws snd pub) → owners_ok owners (mkSystem s' (<[i := a']> aws) snd pub).
Proof.
  intros Hi Haw [Hlen Hw Hc Hsnd Ha Hm]. cbn in *. pose proof (Ha a (list_elem_of_lookup_2 _ _ _ Hi)) as Hai.
  destruct (aw_step_shape a s a' s' Haw) as (Hcmd & Hl & Hshape & _).
  assert (Hnew : aw_ok owners a' ∧ ∀ ch r, chans s' !! ch = Some (Some r) → owners !! ch = Some (tr_CommandID r)).
  { clear Hm Hshape Hcmd Hl. destruct Haw as [c ch s a s' Hr|c ch s a s' Hr|c ch r s|c ch r target s a s' Hr|s a s' Hr|c ch s|s]; simpl in *.
    - unfold recv_mine in Hr. destruct (chans s !! ch) as [[r|]|] eqn:Hch; simplify_eq. split.
      + right. specialize (Hc _ _ Hch). destruct Hai. congruence.
      + simpl. intros ch' r' Hr'. apply list_lookup_insert_Some in Hr' as [(_ & ? & _)|[_ ?]]; [done|by apply Hc].
    - unfold recv_shared in Hr. destruct (results s) as [|r rest]; simplify_eq.
      case_decide as Hid; simplify_eq; (split; [|done]); [by right|]. destruct Hai. by split_and!.
    - split; [|done]. destruct Hai as (? & ? & _). split_and!; [done|done|]. intros ch' [= Hlk]. by apply Hw.
    - unfold put_back in Hr. simplify_eq. destruct Hai as (? & ? & Ht). split; [by split|]. simpl.
      apply send_owners; [|done]. intros ch' ->. by apply Ht.
    - unfold recv_any in Hr. destruct (results s) as [|r rest]; simplify_eq. split; [by left|done].
    - by split.
    - by split. }
  destruct Hnew as [Ha' Hc']. split; cbn; [by rewrite Hl| |done|done| |].
  - intros c ch. destruct Hshape as [[_ ->]|(? & ? & _ & _ & ->)]; [apply Hw|]. rewrite lookup_delete_Some. intros [_ ?]. by apply Hw.
  - intros b [->|(j & _ & Hj)]%elem_of_insert_other; [done|]. by eapply Ha, list_elem_of_lookup_2.
  - assert (Hlt : i < length aws) by (by eapply lookup_lt_Some).
    assert (Hin : a' ∈ <[i := a']> aws) by (eapply list_elem_of_lookup_2; by apply list_lookup_insert_eq).
    assert (Hkeep : ∀ j b, j ≠ i → aws !! j = Some b → b ∈ <[i := a']> aws).
    { intros j b Hj Hb. eapply list_elem_of_lookup_2. by rewrite list_lookup_insert_ne. }
    intros ch c Ho. destruct (Hm ch c Ho) as [Hread|[o Hdone]].
    + unfold read_by in Hread |- *. rewrite Exists_exists in Hread |- *. destruct Hread as (b & Hb & Hch).
      apply list_elem_of_lookup_1 in Hb as [j Hj]. destruct (decide (j = i)) as [->|Hne]; [|left; exists b; eauto].
      assert (b = a) as -> by congruence. destruct Hshape as [[Heq _]|(ch0 & o & Hch0 & -> & _)].
      * left. exists a'. split; [done|]. congruence.
      * right. exists o. assert (owners !! ch = Some (aw_cmd a)) as Hoa.
        { clear -Hai Hch. destruct a as [| | |]; simpl in *; try done; destruct Hai as [? ?]; by simplify_eq. }
        assert (c = aw_cmd a) as -> by congruence. done.
    + right. exists o. apply list_elem_of_lookup_1 in Hdone as [j Hj].
      destruct (decide (j = i)) as [->|Hne]; [|by eapply Hkeep]. assert (a = AwDone c o) as -> by congruence. inversion Haw.
Qed.

Lemma owners_step owners y y' : sys_step y y' → owners_ok owners y → ∃ more, owners_ok (owners ++ more) y'.
Proof.
  intros Hstep Hok.
  destruct Hstep as [s s' aws snd pub (_ & Hw & Hc)|r s aws snd pub|i target r s aws snd pub Hi|c s aws snd pub|i a a' s s' aws snd pub Hi Haw].
  - exists []. rewrite app_nil_r. destruct Hok. split; cbn in *; by rewrite ?Hw, ?Hc.
  - exists []. rewrite app_nil_r. destruct Hok as [H1 H2 H3 H4 H5 H6]. split; cbn in *; [done..| |done|done].
    intros ch r' [?|Hin]%elem_of_app; [by apply H4|]. apply list_elem_of_singleton in Hin. simplify_eq. by apply H2.
  - exists []. rewrite app_nil_r. destruct Hok as [H1 H2 H3 H4 H5 H6]. destruct (send_keeps target r s) as (K1 & K2 & _).
    split; cbn in *; [by rewrite K2|by rewrite K1| | |done|done].
    + apply send_owners; [|done]. intros ch ->. apply H4. by eapply list_elem_of_lookup_2.
    + intros ch r' Hin. apply H4. rewrite delete_take_drop in Hin. rewrite <- (take_drop_middle snd i _ Hi).
      apply elem_of_app in Hin as [?|?]; apply elem_of_app; [by left|right; by right].
  - unfold Await_start. case_decide as Hne; [|exists [c]; by apply owners_start].
    exists []. rewrite app_nil_r. destruct Hok as [H1 H2 H3 H4 H5 H6]. split; cbn in *; [done..| |].
    + intros a [Hin|Hin]%elem_of_app; [by apply H5|]. apply list_elem_of_singleton in Hin. by subst.
    + intros ch c' Ho. rewrite read_by_app. destruct (H6 ch c' Ho) as [?|[o ?]]; [by left; left|].
      right. exists o. apply elem_of_app. by left.
  - exists []. rewrite app_nil_r. by eapply owners_aw.
Qed.

(** Whoever is registered still reads its channel, so that nothing is looked up
    for a waiter that has returned. *)
Definition registered_read (y : system) : Prop :=
  ∀ c ch, waiters (sys_session y) !! c = Some ch →
    ∃ a, a ∈ sys_awaiters y ∧ aw_chan a = Some ch ∧ aw_cmd a = c.

Lemma registered_step y y' : sys_step y y' → registered_read y → registered_read y'.
Proof.
  unfold registered_read. intros Hstep Hreg.
  destruct Hstep as [s s' aws snd pub (_ & Hw & _)|r s aws snd pub|i target r s aws snd pub Hi|c s aws snd pub|i a a' s s' aws snd pub Hi Haw];
    cbn [sys_session sys_awaiters] in *.
  - by rewrite Hw.
  - done.
  - by destruct (send_keeps target r s) as (-> & _).
  - assert (Hold : ∀ c' ch, waiters s !! c' = Some ch → ∀ b,
      ∃ a, a ∈ aws ++ [b] ∧ aw_chan a = Some ch ∧ aw_cmd a = c').
    { intros c' ch Hl b. destruct (Hreg c' ch Hl) as (a & Hin & ?). exists a. split; [apply elem_of_app; by left|done]. }
    unfold Await_start. case_decide; simpl; intros c' ch Hl; [by apply Hold|].
    apply lookup_insert_Some in Hl as [[<- <-]|[_ Hl]]; [|by apply Hold].
    eexists. split; [apply elem_of_app; right; by apply list_elem_of_singleton|done].
  - destruct (aw_step_shape a s a' s' Haw) as (Hcmd & _ & Hshape & _). intros c ch Hl.
    assert (Hl0 : waiters s !! c = Some ch ∧ (aw_chan a' = aw_chan a ∨ aw_cmd a ≠ c)).
    { destruct Hshape as [[? Hw]|(? & ? & _ & _ & Hw)]; rewrite Hw in Hl; [by split; [|left]|].
      apply lookup_delete_Some in Hl as [? ?]. by split; [|right]. }
    destruct Hl0 as [Hl0 Hkind]. destruct (Hreg c ch Hl0) as (b & Hb & Hch & Hc).
    apply list_elem_of_lookup_1 in Hb as [j Hj]. destruct (decide (j = i)) as [->|Hne].
    + assert (b = a) as -> by congruence. exists a'. split_and!; [|destruct Hkind; congruence|congruence].
      eapply list_elem_of_lookup_2. apply list_lookup_insert_eq. by eapply lookup_lt_Some.
    + exists b. split; [|done]. eapply list_elem_of_lookup_2. by rewrite list_lookup_insert_ne.
Qed.

(** Channels are private: no two waiters share one, and all exist. *)
Definition private (y : system) : Prop :=
  ∀ i a ch, sys_awaiters y !! i = Some a → aw_chan a = Some ch →
    ch < length (chans (sys_session y)) ∧
    ∀ j b, sys_awaiters y !! j = Some b → aw_chan b = Some ch → j = i.

Lemma private_step y y' : sys_step y y' → private y → private y'.
Proof.
  unfold private. intros Hstep Hp.
  destruct Hstep as [s s' aws snd pub (_ & _ & Hc)|r s aws snd pub|i target r s aws snd pub Hi|c s aws snd pub|i a a' s s' aws snd pub Hi Haw];
    cbn [sys_session sys_awaiters] in *.
  - by rewrite Hc.
  - done.
  - by destruct (send_keeps target r s) as (_ & -> & _).
  - unfold Await_start. case_decide; simpl.
    { intros i a ch Hi Hch. apply lookup_app_Some in Hi as [Hi|[_ Hi]];
        [|by apply list_lookup_singleton_Some in Hi as [_ <-]].
      destruct (Hp i a ch Hi Hch) as [? Hu]. split; [done|]. intros j b Hj Hb.
      apply lookup_app_Some in Hj as [Hj|[_ Hj]]; [by eapply Hu|].
      by apply list_lookup_singleton_Some in Hj as [_ <-]. }
    assert (Hold : ∀ i a ch, aws !! i = Some a → aw_chan a = Some ch → ch < length (chans s)).
    { intros i a ch Hi Hch. by destruct (Hp i a ch Hi Hch). }
    rewrite length_app. simpl. intros i a ch Hi Hch.
    apply lookup_app_Some in Hi as [Hi|[Hle Hi]].
    + split; [specialize (Hold _ _ _ Hi Hch); lia|]. intros j b Hj Hb.
      apply lookup_app_Some in Hj as [Hj|[_ Hj]]; [by eapply Hp|].
      apply list_lookup_singleton_Some in Hj as [_ <-]. simpl in Hb. simplify_eq.
      specialize (Hold _ _ _ Hi Hch). lia.
    + apply list_lookup_singleton_Some in Hi as [Hi0 <-]. simpl in Hch. simplify_eq. split; [lia|].
      intros j b Hj Hb. apply lookup_app_Some in Hj as [Hj|[Hlj Hj]].
      * specialize (Hold _ _ _ Hj Hb). lia.
      * apply list_lookup_singleton_Some in Hj as [Hj0 _]. lia.
  - destruct (aw_step_shape _ _ _ _ Haw) as (_ & -> & Hshape & _).
    assert (Hch : aw_chan a' = aw_chan a ∨ aw_chan a' = None).
    { destruct Hshape as [[? _]|(? & ? & _ & -> & _)]; [by left|by right]. }
    intros k b ch Hk Hb.
    assert (Hback : ∀ j d, <[i:=a']> aws !! j = Some d → aw_chan d = Some ch →
      ∃ d0, aws !! j = Some d0 ∧ aw_chan d0 = Some ch).
    { intros j d Hj Hd. apply list_lookup_insert_Some in Hj as [(<- & <- & _)|[_ Hj]]; [|by exists d].
      exists a. split; [done|]. destruct Hch; congruence. }
    destruct (Hback k b Hk Hb) as (b0 & Hk0 & Hb0). destruct (Hp k b0 ch Hk0 Hb0) as [? Hu]. split; [done|].
    intros j d Hj Hd. destruct (Hback j d Hj Hd) as (d0 & Hj0 & Hd0). by eapply Hu.
Qed.

(** While its owner waits, nothing takes a result out of a private channel. *)
Lemma own_result_step y y' i c ch r :
  sys_step y y' → private y →
  sys_awaiters y !! i = Some (AwWait c ch) → sys_awaiters y' !! i = Some (AwWait c ch) →
  chans (sys_session y) !! ch = Some (Some r) →
  chans (sys_session y') !! ch = Some (Some r).
Proof.
  intros Hstep Hp Hi Hi' Hr.
  destruct Hstep as [s s' aws snd pub (_ & _ & Hc)|r' s aws snd pub|k target r' s aws snd pub Hk|c' s aws snd pub|j a a' s s' aws snd pub Hj Haw];
    cbn [sys_session sys_awaiters] in *.
  - by rewrite Hc.
  - done.
  - by apply send_keeps.
  - unfold Await_start. case_decide; simpl; [done|]. by apply lookup_app_l_Some.
  - destruct (aw_step_shape _ _ _ _ Haw) as (_ & _ & _ & Hkeep). destruct (decide (j = i)) as [->|Hne].
    + rewrite Hi in Hj. simplify_eq. rewrite list_lookup_insert_eq in Hi' by (by eapply lookup_lt_Some).
      injection Hi' as ->. inversion Haw as [? ? ? ? ? Hm|? ? ? ? ? Hm| | | | |]; subst.
      * unfold recv_mine in Hm. rewrite Hr in Hm. simplify_eq.
      * unfold recv_shared in Hm. destruct (results s); simplify_eq. case_decide; simplify_eq.
    + apply Hkeep; [|done]. intros Ha. destruct (Hp i (AwWait c ch) ch Hi eq_refl) as [_ Hu].
      specialize (Hu j a Hj Ha). congruence.
Qed.

(** *** Counting channels *)

(** Every waiter for a command has made one channel. *)
Definition counted (y : system) : Prop :=
  length (chans (sys_session y)) = length (filter (λ a, aw_cmd a ≠ "") (sys_awaiters y)).

Lemma counted_step y y' : sys_step y y' → counted y → counted y'.
Proof.
  unfold counted. intros Hstep Hn.
  destruct Hstep as [s s' aws snd pub (_ & _ & Hc)|r s aws snd pub|i target r s aws snd pub Hi|c s aws snd pub|i a a' s s' aws snd pub Hi Haw];
    cbn [sys_session sys_awaiters] in *.
  - by rewrite Hc.
  - done.
  - by destruct (send_keeps target r s) as (_ & -> & _).
  - unfold Await_start. case_decide as Hc; cbn; rewrite filter_app.
    + rewrite filter_cons_False by (cbn; tauto). by rewrite app_nil_r.
    + rewrite filter_cons_True by done. by rewrite !length_app, Hn.
  - destruct (aw_step_shape _ _ _ _ Haw) as (Hcmd & -> & _). rewrite Hn.
    rewrite <- (take_drop_middle aws i a Hi) at 1. rewrite insert_take_drop by (by eapply lookup_lt_Some).
    rewrite !filter_app, !filter_cons, Hcmd, !length_app. by case_decide.
Qed.

Lemma omap_ext_in {A B} (f g : A → option B) (l : list A) : (∀ x, x ∈ l → f x = g x) → omap f l = omap g l.
Proof.
  induction l as [|x l IH]; intros Hfg; [done|]. cbn. rewrite (Hfg x) by (by left).
  by rewrite IH by (intros z Hz; apply Hfg; by right).
Qed.

Lemma chan_results_seq cs : chan_results cs = omap (λ ch, mjoin (cs !! ch)) (seq 0 (length cs)).
Proof.
  induction cs as [|o cs IH] using rev_ind; [done|]. unfold chan_results in *.
  rewrite length_app, seq_app, !omap_app, IH. cbn [length seq]. f_equal.
  - apply omap_ext_in. intros ch Hch%elem_of_seq. by rewrite lookup_app_l by lia.
  - simpl. rewrite lookup_app_r, Nat.sub_diag by lia. by destruct o.
Qed.

Lemma chan_results_split P `{!∀ n, Decision (P n)} s :
  chan_results (chans s) ≡ₚ in_chans P s ++ in_chans (λ n, ¬ P n) s.
Proof.
  rewrite chan_results_seq. unfold in_chans. induction (seq _ _) as [|ch l IH]; [done|]. cbn.
  destruct (mjoin _) as [r|]; repeat case_decide; try tauto; rewrite IH; solve_Permutation.
Qed.

Lemma in_chans_length P `{!∀ n, Decision (P n)} s :
  length (in_chans P s) ≤ length (filter P (seq 0 (length (chans s)))).
Proof.
  unfold in_chans. induction (seq _ _) as [|ch l IH]; [done|]. rewrite filter_cons. cbn.
  case_decide; [destruct (mjoin _)|]; simpl in *; lia.
Qed.

Lemma in_chans_elem P `{!∀ n, Decision (P n)} s r :
  r ∈ in_chans P s → ∃ ch, P ch ∧ chans s !! ch = Some (Some r).
Proof.
  unfold in_chans. intros (ch & _ & Hch)%list_elem_of_omap. case_decide; [|done]. exists ch. split; [done|].
  by destruct (chans s !! ch) as [[]|]; simplify_eq/=.
Qed.

(** The channels still read are as many as the waiters that read them. *)
Lemma private_NoDup y : private y → NoDup (omap aw_chan (sys_awaiters y)).
Proof.
  unfold private. generalize (length (chans (sys_session y))) as n. generalize (sys_awaiters y) as l. clear y.
  induction l as [|a l IH]; intros n Hp; [constructor|]. cbn.
  assert (Hl : NoDup (omap aw_chan l)).
  { apply (IH n). intros i b ch Hi Hb. destruct (Hp (S i) b ch Hi Hb) as [? Hu]. split; [done|].
    intros j d Hj Hd. specialize (Hu (S j) d Hj Hd). congruence. }
  destruct (aw_chan a) as [ch|] eqn:Ha; [|done]. constructor; [|done].
  intros (b & Hb & Hch)%list_elem_of_omap. apply list_elem_of_lookup_1 in Hb as [j Hj].
  destruct (Hp 0 a ch eq_refl Ha) as [_ Hu]. specialize (Hu (S j) b Hj Hch). congruence.
Qed.

Lemma stranded_le y owners : counted y → private y → owners_ok owners y →
  length (stranded y) ≤ length (filter has_returned (sys_awaiters y)).
Proof.
  intros Hn Hp Hok. unfold stranded. etransitivity; [apply in_chans_length|].
  set (P := read_by (sys_awaiters y)). set (n := length (chans (sys_session y))) in *.
  pose proof (Permutation_length (filter_app_complement P (seq 0 n))) as Hc. rewrite length_app, length_seq in Hc.
  assert (Hlive : length (omap aw_chan (sys_awaiters y)) ≤ length (filter P (seq 0 n))).
  { apply submseteq_length, NoDup_submseteq; [by apply private_NoDup|]. intros ch (a & Hin & Hch)%list_elem_of_omap.
    apply list_elem_of_filter. split; [apply Exists_exists; by exists a|]. apply elem_of_seq.
    apply list_elem_of_lookup_1 in Hin as [i Hi]. destruct (Hp i a ch Hi Hch). lia. }
  assert (Hcount : length (filter (λ a, aw_cmd a ≠ "") (sys_awaiters y)) =
    length (omap aw_chan (sys_awaiters y)) + length (filter has_returned (sys_awaiters y))).
  { pose proof (ow_aws _ _ Hok) as Ha. clear -Ha. induction (sys_awaiters y) as [|a l IH]; [done|].
    specialize (IH (λ b Hb, Ha b (proj2 (elem_of_cons l b a) (or_intror Hb)))). specialize (Ha a (proj2 (elem_of_cons l a a) (or_introl eq_refl))).
    rewrite !filter_cons. destruct a as [c ch|c ch r t| |c o]; cbn in *.
    - rewrite decide_True by tauto. rewrite decide_False by tauto. simpl. lia.
    - rewrite decide_True by tauto. rewrite decide_False by tauto. simpl. lia.
    - rewrite !decide_False by tauto. done.
    - repeat case_decide; simpl; try tauto; lia. }
  unfold counted in Hn. fold n in Hn. lia.
Qed.

(** ** Properties *)

(** A session nobody waits on yet, with nothing published. *)
Definition initial (s : Session) : system := mkSystem s [] [] [].
Definition idle (s : Session) : Prop := results s = [] ∧ waiters s = ∅ ∧ chans s = [].

Record system_ok (y : system) : Prop := {
  sys_owners : ∃ owners, owners_ok owners y;
  sys_conserved : conserved y;
  sys_private : private y;
  sys_registered : registered_read y;
  sys_counted : counted y }.

Lemma idle_ok s : idle s → system_ok (initial s).
Proof.
  intros (Hr & Hw & Hc). split.
  - exists []. split; cbn.
    + by rewrite Hc.
    + intros c ch. by rewrite Hw, lookup_empty.
    + intros ch r. by rewrite Hc.
    + by intros ch r ?%elem_of_nil.
    + by intros a ?%elem_of_nil.
    + done.
  - exists []. unfold everywhere, held_by. simpl. rewrite Hr, Hc. split; [done|by left].
  - by intros i a ch Hi.
  - intros c ch. simpl. by rewrite Hw, lookup_empty.
  - unfold counted. simpl. by rewrite Hc.
Qed.

Lemma reachable_ok s y : idle s → rtc sys_step (initial s) y → system_ok y.
Proof.
  intros Hs Hrtc. pose proof (idle_ok s Hs) as Hok. clear Hs.
  induction Hrtc as [y|x y z Hstep _ IH]; [done|]. apply IH. destruct Hok as [[owners Ho] H2 H3 H4 H5].
  split; eauto using conserved_step, private_step, registered_step, counted_step.
  destruct (owners_step owners x y Hstep Ho) as [more ?]. by exists (owners ++ more).
Qed.

(** However the callers of [Await] and the session interleave, a caller that
    waits for a command and returns a result returns a result of that command. *)
Theorem await_returns_own_result s y c r :
  idle s → rtc sys_step (initial s) y → AwDone c (Some r) ∈ sys_awaiters y →
  c = "" ∨ tr_CommandID r = c.
Proof.
  intros Hs Hrtc Hin. destruct (sys_owners _ (reachable_ok s y Hs Hrtc)) as [owners Ho].
  by apply (ow_aws _ _ Ho) in Hin.
Qed.

(** C19: What becomes of every published result, however waiters and session
    interleave, between the lookup and the send of a delivery too.  Each is,
    exactly once: within reach, that is on the shared channel, in the channel of a
    waiter that still reads it, in the hands of a waiter or of the session, or
    returned; or stranded in the channel of a waiter for its command that has
    returned, at most one per such waiter; or dropped, and for any dropped result
    256 others were published, the capacity of the shared channel.  And no lookup
    finds a waiter that has returned: whoever is registered still reads its
    channel. *)
Theorem results_conserved s y : idle s → rtc sys_step (initial s) y →
  (∃ dropped, published y ≡ₚ in_reach y ++ stranded y ++ dropped ∧
     (dropped = [] ∨ chan_cap + length dropped ≤ length (published y))) ∧
  (∀ r, r ∈ stranded y → ∃ o, AwDone (tr_CommandID r) o ∈ sys_awaiters y) ∧
  length (stranded y) ≤ length (filter has_returned (sys_awaiters y)) ∧
  (∀ c ch, waiters (sys_session y) !! c = Some ch →
     ∃ a, a ∈ sys_awaiters y ∧ aw_chan a = Some ch ∧ aw_cmd a = c).
Proof.
  intros Hs Hrtc. destruct (reachable_ok s y Hs Hrtc) as [[owners Ho] (dropped & Hp & Hd) Hpriv Hreg Hn]. split_and!.
  - exists dropped. split; [|done]. rewrite Hp. unfold everywhere, held_by, in_reach, stranded.
    rewrite (chan_results_split (read_by (sys_awaiters y)) (sys_session y)). solve_Permutation.
  - intros r (ch & Hnot & Hch)%in_chans_elem. pose proof (ow_chans _ _ Ho _ _ Hch) as Howner.
    by destruct (ow_manned _ _ Ho _ _ Howner).
  - by eapply stranded_le.
  - exact Hreg.
Qed.

(** A result can be stranded: the session has looked the waiter up when the
    waiter's deadline comes, and sends to a channel that nobody reads any more. *)
Lemma late_result_stranded s r : idle s → tr_CommandID r ≠ "" →
  ∃ y, rtc sys_step (initial s) y ∧ sys_awaiters y = [AwDone (tr_CommandID r) None] ∧
    published y = [r] ∧ stranded y = [r] ∧ in_reach y = [].
Proof.
  intros (Hr & Hw & Hc) Hne. set (c := tr_CommandID r).
  destruct s as [ip dev msg q res w cs fl fc lg]. cbn in Hr, Hw, Hc. subst.
  set (s1 := mkSession ip dev msg q [] (<[c := 0]> ∅) [None] fl fc lg).
  set (s2 := mkSession ip dev msg q [] (delete c (<[c := 0]> ∅)) [None] fl fc lg).
  exists (mkSystem (send_result (Some 0) r s2) [AwDone c None] [] [r]). split; [|split_and!; try done].
  eapply rtc_l; [apply (sys_start c)|]. unfold Await_start. rewrite decide_False by done. cbn.
  eapply rtc_l; [apply (sys_publish r)|]. unfold look_up. cbn. fold c. rewrite lookup_insert_eq.
  eapply rtc_l; [apply (sys_aw 0 (AwWait c 0) (AwDone c None) s1 s2); [done|apply aw_timeout]|]. cbn.
  apply rtc_once. apply (sys_send 0 (Some 0) r s2 [AwDone c None] [(Some 0, r)] [r]). done.
Qed.

(** A result delivered for a registered waiter is that waiter's: it lands in
    the private channel, no other caller's steps can take it out, and whenever
    the waiter moves it can return it. *)
Theorem own_result_reserved s y y' i c ch r :
  idle s → rtc sys_step (initial s) y →
  sys_awaiters y !! i = Some (AwWait c ch) → waiters (sys_session y) !! c = Some ch →
  chans (sys_session y) !! ch = Some None → tr_CommandID r = c →
  rtc (λ x x', sys_step x x' ∧ sys_awaiters x' !! i = Some (AwWait c ch))
    (mkSystem (deliver r (sys_session y)) (sys_awaiters y) (sending y) (published y ++ [r])) y' →
  ∃ s', recv_mine c ch (sys_session y') = Some (AwDone c (Some r), s').
Proof.
  intros Hs Hrtc Hi Hw Hch Hid Hrun.
  pose proof (sys_private _ (reachable_ok s y Hs Hrtc)) as Hp.
  set (x := mkSystem _ _ _ _) in Hrun.
  assert (Hr : chans (sys_session x) !! ch = Some (Some r)).
  { simpl. unfold deliver, send_result. rewrite Hid, Hw, Hch. simpl. rewrite list_lookup_insert_eq; [done|]. by eapply lookup_lt_Some. }
  assert (Hx : private x).
  { unfold private, x, deliver. cbn [sys_session sys_awaiters].
    by destruct (send_keeps (waiters (sys_session y) !! tr_CommandID r) r (sys_session y)) as (_ & -> & _). }
  assert (Hix : sys_awaiters x !! i = Some (AwWait c ch)) by done. clearbody x. clear -Hrun Hr Hx Hix.
  assert (Hy : chans (sys_session y') !! ch = Some (Some r)).
  { induction Hrun as [x|x x' z [Hstep Hi'] _ IH]; [done|]. apply IH; [by eapply own_result_step|by eapply private_step|done]. }
  unfold recv_mine. rewrite Hy. by eexists.
Qed.

(** A read that times out leaves its task queued; its late answer waits on the
    shared channel, where the next [Await] under the same CommandID takes it for
    the answer to its own, still unsent, read. *)
Definition read_task (c : string) : Task := mkTask TaskGPV ["Device.X"] [] "" c.

Definition stale_scenario (c old : string) (s : Session) : Session :=
  let s := enqueue (read_task c) s in
  let '(a, s) := Await_start c s in
  let s := (nextTask s).2 in
  let '(_, s) := timeout c s in
  let s := publish (mkResult "" TaskGPV {["Device.X" := old]} [] 0 "") s in
  enqueue (read_task c) s.

Lemma nextTask_read c s : taskQueue s = [read_task c] →
  ∃ m, (nextTask s).2 = logf m (set_inflight (Some (read_task c)) (set_taskQueue [] s)).
Proof. intros Hq. unfold nextTask. rewrite Hq. eexists. reflexivity. Qed.

Definition old_result (c old : string) : TaskResult :=
  mkResult c TaskGPV {["Device.X" := old]} [] 0 "".

Lemma stale_scenario_eq c old ip dev msg fl fc lg :
  c ≠ "" → ∃ m, stale_scenario c old (mkSession ip dev msg [] [] ∅ [] fl fc lg) =
    mkSession ip dev msg [read_task c] [old_result c old] (delete c (<[c:=0]> ∅)) [None] None fc (lg ++ [m]).
Proof.
  intros Hc. unfold stale_scenario.
  change (enqueue (read_task c) (mkSession ip dev msg [] [] ∅ [] fl fc lg))
    with (mkSession ip dev msg [read_task c] [] ∅ [] fl fc lg).
  unfold Await_start. destruct (decide (c = "")) as [|_]; [done|].
  change (waitFor c (mkSession ip dev msg [read_task c] [] ∅ [] fl fc lg))
    with (0, mkSession ip dev msg [read_task c] [] (<[c:=0]> ∅) [None] fl fc lg). cbv beta iota zeta.
  destruct (nextTask_read c (mkSession ip dev msg [read_task c] [] (<[c:=0]> ∅) [None] fl fc lg) eq_refl) as [m ->].
  exists ("[CWMP][" +:+ dev +:+ "] " +:+ m).
  change (timeout c _) with (AwDone c None,
    mkSession ip dev msg [] [] (delete c (<[c:=0]> ∅)) [None] (Some (read_task c)) fc
      (lg ++ ["[CWMP][" +:+ dev +:+ "] " +:+ m])).
  cbv beta iota zeta. unfold publish. cbn [inflight read_task t_CommandID].
  destruct (decide (c ≠ "")) as [_|]; [|done].
  unfold deliver, send_result. cbn [with_CommandID tr_CommandID waiters]. rewrite lookup_delete_eq. reflexivity.
Qed.

(** [Await] can return an answer from before its own request: after a
    timed-out read that was answered late, the next read under the same
    CommandID returns the old values while its own task is still queued. *)
Theorem stale_result_returned c old s :
  c ≠ "" → idle s → taskQueue s = [] →
  let s1 := stale_scenario c old s in
  let '(a, s2) := Await_start c s1 in
  ∃ ch r s3, a = AwWait c ch ∧ recv_shared c ch s2 = Some (AwDone c (Some r), s3) ∧
    tr_Params r = {["Device.X" := old]} ∧ read_task c ∈ taskQueue s3.
Proof.
  intros Hc (Hr & Hw & Hcs) Hq. destruct s as [ip dev msg q res w cs fl fc lg]. cbn in Hr, Hw, Hcs, Hq. subst.
  destruct (stale_scenario_eq c old ip dev msg fl fc lg Hc) as [m ->]. cbv zeta.
  unfold Await_start. destruct (decide (c = "")) as [|_]; [done|].
  eexists 1, (old_result c old), _. split; [reflexivity|]. unfold recv_shared. cbn [results waitFor set_waiters set_chans].
  change (tr_CommandID (old_result c old)) with c. rewrite decide_True by done.
  split; [reflexivity|]. split; [reflexivity|]. by left.
Qed.

(** ** Witnesses *)

Definition ex_result : TaskResult := mkResult "c1" TaskSPV ∅ [] 0 "".
Definition ex_w1 : Session := (Await_start "c1" ex_session).2.
Definition ex_w2 : Session := deliver ex_result ex_w1.
Definition ex_w3 : Session := release "c1" (set_chans [None] ex_w2).

Lemma ex_idle : idle ex_session.
Proof. done. Qed.

Lemma ex_await_start : rtc sys_step (initial ex_session) (mkSystem ex_w1 [AwWait "c1" 0] [] []).
Proof. apply rtc_once. apply (sys_start "c1" ex_session [] [] []). Qed.

Lemma ex_await_run :
  rtc sys_step (initial ex_session) (mkSystem ex_w3 [AwDone "c1" (Some ex_result)] [] [ex_result]).
Proof.
  etrans; [exact ex_await_start|]. etrans; [apply (deliver_run ex_result)|].
  apply rtc_once. apply (sys_aw 0 (AwWait "c1" 0) (AwDone "c1" (Some ex_result)) ex_w2 ex_w3 [AwWait "c1" 0]).
  - reflexivity.
  - apply aw_mine. vm_compute. reflexivity.
Qed.

Lemma await_returns_own_result_witness : "c1" = "" ∨ tr_CommandID ex_result = "c1".
Proof.
  apply (await_returns_own_result ex_session _ "c1" ex_result ex_idle ex_await_run).
  simpl. by left.
Defined.

Lemma results_conserved_witness :
  (∃ dropped, [ex_result] ≡ₚ [ex_result] ++ [] ++ dropped) ∧ waiters ex_w3 !! "c1" = None.
Proof.
  destruct (results_conserved ex_session _ ex_idle ex_await_run) as ((dropped & Hp & _) & _ & _ & Hreg).
  split; [exists dropped; exact Hp|reflexivity].
Defined.

Lemma own_result_reserved_witness :
  ∃ s', recv_mine "c1" 0 ex_w2 = Some (AwDone "c1" (Some ex_result), s').
Proof.
  apply (own_result_reserved ex_session (mkSystem ex_w1 [AwWait "c1" 0] [] []) (mkSystem ex_w2 [AwWait "c1" 0] [] [ex_result])
    0 "c1" 0 ex_result ex_idle ex_await_start); try reflexivity.
Defined.

Lemma stale_result_returned_witness :
  let '(a, s2) := Await_start "snapshot:d" (stale_scenario "snapshot:d" "old" ex_session) in
  ∃ ch r s3, a = AwWait "snapshot:d" ch ∧ recv_shared "snapshot:d" ch s2 = Some (AwDone "snapshot:d" (Some r), s3) ∧
    tr_Params r = {["Device.X" := "old"]} ∧ read_task "snapshot:d" ∈ taskQueue s3.
Proof. apply (stale_result_returned "snapshot:d" "old" ex_session); [done|exact ex_idle|reflexivity]. Defined.
