(* ===== verification/RequestAwait.v ===== *)
(** * Asking a device and waiting for its answer
    (goagent/internal/cwmp/server.go, [Await], [RequestAndAwait], [triggerCR])

    The waiter, the connection-request goroutine and the devices' requests take
    turns on one server.  A call is a function of the turns it is given; its
    runs are runs of the waiters' system of Await.v, so that what is proved
    there holds for it. *)
From S2P Require Import Prelude GoStrings Db CwmpTypes CwmpStore Session Soap Server Await ConnRequest.

(** ** Turns *)

(** What the [select] of [Await] takes, if it is ready. *)
Inductive choice := Mine | Shared | Deadline.

(** A turn: the outside world's, say a device that makes requests; that of the
    [i]-th connection-request goroutine still to run; the waiter's. *)
Inductive turn (O : Type) :=
| Outside (o : O)
| Dial (i : nat)
| Wake (c : choice).
Arguments Outside {O}. Arguments Dial {O}. Arguments Wake {O}.

(** A request that the server handled: the session it went to, what it said and
    the task it was answered with. *)
Record served := mkServed {
  sv_key : string;
  sv_env : option Envelope;
  sv_resp : option Response }.

(** The server's side of the world: the goroutines started by [RequestAndAwait]
    that have not run yet, the turns to come, and what the network leads to. *)
Record net (O W : Type) := mkNet {
  n_srv : Server;
  n_dials : list string;
  n_turns : list (turn O);
  n_out : W }.
Arguments mkNet {O W}. Arguments n_srv {O W}. Arguments n_dials {O W}.
Arguments n_turns {O W}. Arguments n_out {O W}.

(** The waiter's step on its session; a choice that is not ready is not taken. *)
Definition wake (c : choice) (a : awaiter) (s : Session) : awaiter * Session :=
  match a with
  | AwWait id ch =>
      match c with
      | Mine => default (a, s) (recv_mine id ch s)
      | Shared => default (a, s) (recv_shared id ch s)
      | Deadline => timeout id s
      end
  | AwHold id ch r target => put_back id ch r target s
  | AwAny =>
      match c with
      | Deadline => (AwDone "" None, s)
      | _ => default (a, s) (recv_any s)
      end
  | AwDone _ _ => (a, s)
  end.

Section RequestAwait.
Context {S : Type} `{Store S} {O W : Type}.
(** What the world outside does in a turn, with the requests it made of the
    server; the transport of a connection request. *)
Variable outside : O → (Server * S) * W → list served * ((Server * S) * W).
Variable http_Get : string → option string → W → (string + Z * string) * W.
Variable RequestURI : string → option string.

Abbreviation st := (S * net O W)%type.

(** An operation on the server and its store. *)
Definition on_server {A} (f : Server * S → A * (Server * S)) (x : st) : A * st :=
  let '(store, n) := x in
  let '(a, (srv, store)) := f (n_srv n, store) in
  (a, (store, mkNet srv (n_dials n) (n_turns n) (n_out n))).

(** The waiter holds its session: no [session(deviceID)] any more. *)
Definition on_held (id : string) (c : choice) (a : awaiter) (x : st) : awaiter * st :=
  on_server (λ '(srv, store),
    match sessions srv !! id with
    | Some s => let '(a, s) := wake c a s in (a, (set_session id s srv, store))
    | None => (a, (srv, store)) (* unreachable *)
    end) x.

(** Errors of the connection request are logged. *)
Definition triggerCR (id : string) (x : st) : st :=
  let '(url, (store, n)) := on_server (crURL id) x in
  if decide (url = "") then (store, n)
  else
    let '(_, out) := TriggerConnectionRequest http_Get RequestURI url
                       (cr_user (srv_cr (n_srv n))) (cr_pass (srv_cr (n_srv n))) (n_out n) in
    (store, mkNet (n_srv n) (n_dials n) (n_turns n) out).

Definition set_dials (l : list string) (x : st) : st :=
  (x.1, mkNet (n_srv x.2) l (n_turns x.2) (n_out x.2)).
Definition set_turns (l : list (turn O)) (x : st) : st :=
  (x.1, mkNet (n_srv x.2) (n_dials x.2) l (n_out x.2)).

(** A turn of somebody else than the waiter. *)
Definition other_turn (t : turn O) (x : st) : list served * st :=
  match t with
  | Outside o =>
      let '(store, n) := x in
      let '(tr, ((srv, store), out)) := outside o ((n_srv n, store), n_out n) in
      (tr, (store, mkNet srv (n_dials n) (n_turns n) out))
  | Dial i =>
      match n_dials x.2 !! i with
      | Some dev => ([], triggerCR dev (set_dials (delete i (n_dials x.2)) x))
      | None => ([], x)
      end
  | Wake _ => ([], x)
  end.

(** One turn, while [a] waits on the session [id]. *)
Definition take_turn (id : string) (t : turn O) (a : awaiter) (x : st) : list served * (awaiter * st) :=
  match t with
  | Wake c => ([], on_held id c a x)
  | _ => let '(tr, x) := other_turn t x in (tr, (a, x))
  end.

Definition returned (a : awaiter) : option (option TaskResult) :=
  match a with AwDone _ r => Some r | _ => None end.

(** Once no turns are left nothing happens until the deadline: a result in hand
    is put back, and then the [select] takes the deadline. *)
Definition expire (id : string) (a : awaiter) (x : st) : option TaskResult * st :=
  let '(a, x) := match a with AwHold _ _ _ _ => on_held id Deadline a x | _ => (a, x) end in
  let '(a, x) := on_held id Deadline a x in
  (default None (returned a), x).

Fixpoint await_loop (id : string) (turns : list (turn O)) (a : awaiter) (x : st) :
    option TaskResult * list served * st :=
  match returned a with
  | Some r => (r, [], set_turns turns x)
  | None =>
      match turns with
      | [] => let '(r, x) := expire id a (set_turns [] x) in (r, [], x)
      | t :: turns =>
          let '(tr, (a, x)) := take_turn id t a x in
          let '(r, tr', x) := await_loop id turns a x in
          (r, tr ++ tr', x)
      end
  end.

(** [Await]: the turns come from the world. *)
Definition Await (id commandID : string) (x : st) : option TaskResult * list served * st :=
  let '(o, x) := on_server (on_session id (Await_start commandID)) x in
  match o with
  | Some a => await_loop id (n_turns x.2) a x
  | None => (None, [], x) (* unreachable *)
  end.

(** The turns that pass before the caller's goroutine goes on. *)
Fixpoint meanwhile (turns : list (turn O)) (x : st) : list served * st :=
  match turns with
  | [] => ([], set_turns [] x)
  | Wake _ :: turns => ([], set_turns turns x)
  | t :: turns =>
      let '(tr, x) := other_turn t x in
      let '(tr', x) := meanwhile turns x in
      (tr ++ tr', x)
  end.

(** [RequestAndAwait]: queue the task, start the goroutine, wait.  A device may
    come for the task before [Await] has registered. *)
Definition RequestAndAwait (id : string) (t : Task) (x : st) : option TaskResult * list served * st :=
  let '(_, x) := on_server (λ y, (tt, Enqueue id t y)) x in
  let x := set_dials (n_dials x.2 ++ [id]) x in
  let '(tr, x) := meanwhile (n_turns x.2) x in
  let '(r, tr', x) := Await id (t_CommandID t) x in
  (r, tr ++ tr', x).
End RequestAwait.

(** ** Lemmas: what a call does to the store

    A preorder on stores that requests, the registration of sessions and the
    lookup of a URL keep is kept by the whole call. *)
Section Keeps.
Context {S : Type} `{Store S} {O W : Type}.
Variable outside : O → (Server * S) * W → list served * ((Server * S) * W).
Variable http_Get : string → option string → W → (string + Z * string) * W.
Variable RequestURI : string → option string.
Variable R : S → S → Prop.
Context `{!PreOrder R}.
Hypothesis R_outside : ∀ o (x : Server * S) w tr y w', outside o (x, w) = (tr, (y, w')) → R x.2 y.2.
Hypothesis R_session : ∀ A id (f : Session → A * Session) (x : Server * S), R x.2 (on_session id f x).2.2.
Hypothesis R_crURL : ∀ id (x : Server * S), R x.2 (crURL id x).2.2.
Abbreviation st := (S * net O W)%type.

Lemma keeps_on_server {A} (f : Server * S → A * (Server * S)) (x : st) :
  (∀ y, R y.2 (f y).2.2) → R x.1 (on_server f x).2.1.
Proof.
  intros Hf. destruct x as [store n]. unfold on_server. specialize (Hf (n_srv n, store)).
  by destruct (f (n_srv n, store)) as [a [srv store']].
Qed.

Lemma keeps_on_held id c a (x : st) : R x.1 (on_held id c a x).2.1.
Proof.
  apply keeps_on_server. intros [srv store]. destruct (sessions srv !! id) as [s|]; [|done]. by destruct (wake c a s).
Qed.

Lemma keeps_triggerCR id (x : st) : R x.1 (triggerCR http_Get RequestURI id x).1.
Proof.
  unfold triggerCR. pose proof (keeps_on_server (crURL id) x (R_crURL id)) as Hq.
  destruct (on_server (crURL id) x) as [url [store n]]. cbn [fst snd] in Hq. case_decide; [done|].
  by destruct (TriggerConnectionRequest _ _ _ _ _ _).
Qed.

Lemma keeps_other_turn t (x : st) : R x.1 (other_turn outside http_Get RequestURI t x).2.1.
Proof.
  destruct t as [o|i|c]; cbn [other_turn]; [| |done].
  - destruct x as [store n]. destruct (outside o ((n_srv n, store), n_out n)) as [tr [[srv store'] out]] eqn:Ho.
    exact (R_outside _ _ _ _ _ _ Ho).
  - destruct (n_dials x.2 !! i) as [dev|]; [|done]. apply (keeps_triggerCR dev (set_dials _ x)).
Qed.

Lemma keeps_expire id a (x : st) : R x.1 (expire id a x).2.1.
Proof.
  unfold expire. set (p := match a with AwHold _ _ _ _ => _ | _ => _ end).
  assert (Hp : R x.1 p.2.1) by (unfold p; destruct a; try done; apply keeps_on_held). clearbody p.
  destruct p as [b y]. pose proof (keeps_on_held id Deadline b y) as Hh. destruct (on_held id Deadline b y). by etrans.
Qed.

Lemma keeps_await_loop id turns : ∀ a (x : st), R x.1 (await_loop outside http_Get RequestURI id turns a x).2.1.
Proof.
  induction turns as [|t turns IH]; intros a x; cbn [await_loop]; (destruct (returned a); [done|]).
  - pose proof (keeps_expire id a (set_turns [] x)) as He. by destruct (expire id a (set_turns [] x)).
  - assert (Ht : R x.1 (take_turn outside http_Get RequestURI id t a x).2.2.1).
    { unfold take_turn. pose proof (keeps_other_turn t x) as Ho.
      destruct t; [| |apply keeps_on_held]; by destruct (other_turn _ _ _ _ x). }
    destruct (take_turn _ _ _ id t a x) as [tr [b y]]. specialize (IH b y).
    destruct (await_loop _ _ _ id turns b y) as [[] z]. by etrans.
Qed.

Lemma keeps_meanwhile turns : ∀ (x : st), R x.1 (meanwhile outside http_Get RequestURI turns x).2.1.
Proof.
  induction turns as [|t turns IH]; intros x; cbn [meanwhile]; [done|].
  pose proof (keeps_other_turn t x) as Ho. destruct (other_turn outside http_Get RequestURI t x) as [tr y].
  specialize (IH y). destruct (meanwhile outside http_Get RequestURI turns y) as [tr' z].
  destruct t; [by etrans|by etrans|done].
Qed.

Lemma call_keeps id t (x : st) : R x.1 (RequestAndAwait outside http_Get RequestURI id t x).2.1.
Proof.
  unfold RequestAndAwait, Enqueue.
  assert (Hq : R x.1 (on_server (λ y, (tt, (on_session id (λ s, (tt, enqueue t s)) y).2)) x).2.1).
  { apply keeps_on_server. intros y. apply R_session. }
  destruct (on_server _ x) as [u y]. etrans; [exact Hq|]. cbv zeta. cbn [snd].
  match goal with |- context [meanwhile _ _ _ ?l ?z] => pose proof (keeps_meanwhile l z) as Hm;
    destruct (meanwhile outside http_Get RequestURI l z) as [tr1 z1] end.
  etrans; [exact Hm|]. unfold Await.
  pose proof (keeps_on_server (on_session id (Await_start (t_CommandID t))) z1 (R_session _ id _)) as Ha.
  cbn [snd] in *. destruct (on_server _ z1) as [[a|] z2]; [|exact Ha]. etrans; [exact Ha|]. cbn [snd].
  pose proof (keeps_await_loop id (n_turns z2.2) a z2) as Hl. by destruct (await_loop _ _ _ id _ a z2) as [[] z3].
Qed.
End Keeps.

(** ** Lemmas: a session's mail *)

(** The channels of a session. *)
Definition mail (s : Session) : list TaskResult * gmap string nat * list (option TaskResult) :=
  (results s, waiters s, chans s).

(** What a message means as an answer to the task in flight. *)
Definition answer_of (env : option Envelope) (t : Task) : option TaskResult :=
  match env with
  | None => None
  | Some env =>
      let b := e_Body env in
      if b_Inform b is Some _ then None
      else if b_GetRPCMethods b is Some _ then None
      else if b_AutonomousTransferComplete b is Some _ then None
      else if b_TransferComplete b is Some _ then None
      else if b_GetParameterValuesResponse b is Some l then
        Some (mkResult "" TaskGPV (foldl (λ m pv, <[pv_Name pv := v_Text (pv_Value pv)]> m) ∅ l) [] 0 "")
      else if b_SetParameterValuesResponse b is Some status then Some (mkResult "" TaskSPV ∅ [] status "")
      else if b_GetParameterNamesResponse b is Some l then Some (mkResult "" TaskGPN ∅ l 0 "")
      else if b_RebootResponse b is Some _ then Some (empty_result TaskReboot)
      else if b_Fault b is Some f then Some (mkResult "" (t_Type t) ∅ [] 0 (cf_FaultString (f_Detail f)))
      else None
  end.

(** What the session publishes when it reads the message. *)
Definition published (env : option Envelope) (s : Session) : option TaskResult :=
  t ← inflight s; r ← answer_of env t;
  if decide (t_CommandID t = "") then None else Some (with_CommandID (t_CommandID t) r).

Lemma enqueue_mail t s : mail (enqueue t s) = mail s.
Proof. unfold enqueue. by case_decide. Qed.

Lemma nextTask_mail s : mail (nextTask s).2 = mail s.
Proof. unfold nextTask. destruct (taskQueue s) as [|t rest]; [done|]. by destruct (t_Type t). Qed.

Lemma requeue_mail s : mail (requeueOrphanedTask s) = mail s.
Proof. unfold requeueOrphanedTask. destruct (inflight s); [|done]. by repeat case_decide. Qed.

Lemma deliver_mail r s s' : mail s = mail s' → mail (deliver r s) = mail (deliver r s').
Proof.
  intros Hm. pose proof Hm as [= Hr Hw Hc]. unfold deliver, send_result, deliver_shared. rewrite Hw, Hc, Hr.
  repeat case_match; try done; unfold mail; simpl; by rewrite ?Hw, ?Hc, ?Hr.
Qed.

Lemma finish_mail r s s0 : inflight s = inflight s0 → mail s = mail s0 →
  mail (finishInflight r s).2 = mail (match inflight s0 with
    | Some t => if decide (t_CommandID t = "") then s0 else deliver (with_CommandID (t_CommandID t) r) s0
    | None => s0
    end).
Proof.
  intros Hf Hm. unfold finishInflight. rewrite nextTask_mail. unfold publish. rewrite Hf.
  destruct (inflight s0) as [t|]; [|done]. destruct (decide (t_CommandID t = "")) as [He|He].
  - rewrite decide_False by tauto. exact Hm.
  - rewrite decide_True by done. transitivity (mail (deliver (with_CommandID (t_CommandID t) r) s)); [done|]. by apply deliver_mail.
Qed.

(** A reading that finishes the task in flight. *)
Ltac finish_case Hfin :=
  match goal with |- context [finishInflight ?r ?s0] =>
    let Hx := fresh in pose proof (λ o, Hfin r s0 o eq_refl eq_refl) as Hx; destruct (finishInflight r s0);
    apply Hx; [by intros t ->|by intros ->] end.

Section Mail.
Context {S : Type} `{Store S}.

(** A request's whole effect on the channels. *)
Lemma request_mail now env s (store : S) :
  mail (request now env (s, store)).2.1 =
  mail (match published env s with Some r => deliver r s | None => s end).
Proof.
  assert (Hfin : ∀ r s0 o, inflight s0 = inflight s → mail s0 = mail s →
    (∀ t, inflight s = Some t → o = if decide (t_CommandID t = "") then None else Some (with_CommandID (t_CommandID t) r)) →
    (inflight s = None → o = None) →
    mail (finishInflight r s0).2 = mail (match o with Some r => deliver r s | None => s end)).
  { intros r s0 o Hf Hm Ho Hn. rewrite (finish_mail r s0 s) by done. destruct (inflight s) as [t|].
    - rewrite (Ho t) by done. by case_decide.
    - by rewrite Hn. }
  unfold published. destruct env as [env|]; unfold request; cbn [fst snd].
  2: { pose proof (nextTask_mail s). destruct (nextTask s). by destruct (inflight s). }
  assert (Hnone : ∀ s', mail s' = mail s →
    mail s' = mail (match (t ← inflight s; r ← None; if decide (t_CommandID t = "") then None
      else Some (with_CommandID (t_CommandID t) r)) with Some r => deliver r s | None => s end)).
  { intros s' ->. by destruct (inflight s). }
  unfold Handle, answer_of. cbv zeta.
  destruct (b_Inform (e_Body env)) as [inf|].
  { apply Hnone. unfold onInform. cbv zeta.
    destruct (HasWritabilityMap _ _) as [has store']. cbn [fst snd].
    etrans; [|exact (requeue_mail (set_MsgID (e_ID env) s))].
    destruct has; [done|]. destruct (firstContactGPV _); by rewrite ?enqueue_mail. }
  destruct (b_GetRPCMethods (e_Body env)); [by apply Hnone|].
  destruct (b_AutonomousTransferComplete (e_Body env)); [by apply Hnone|].
  destruct (b_TransferComplete (e_Body env)); [by apply Hnone|].
  destruct (b_GetParameterValuesResponse (e_Body env)) as [l|].
  { unfold onGPV. pose proof (foldl_GPV_fst now (s_DeviceID (set_MsgID (e_ID env) s)) l ∅ store) as Hp.
    destruct (foldl _ (∅, store) l) as [ps store']. cbn [fst] in Hp. subst ps. finish_case Hfin. }
  destruct (b_SetParameterValuesResponse (e_Body env)) as [status|]; [unfold onSPV; finish_case Hfin|].
  destruct (b_GetParameterNamesResponse (e_Body env)) as [l|]; [unfold onGPN; finish_case Hfin|].
  destruct (b_RebootResponse (e_Body env)); [finish_case Hfin|].
  destruct (b_Fault (e_Body env)) as [f|].
  - unfold onFault. change (inflight (logf _ (set_MsgID (e_ID env) s))) with (inflight s).
    destruct (inflight s) as [t|] eqn:Hfl; [|done]. cbn [mbind option_bind].
    match goal with |- context [finishInflight ?r ?s0] => pose proof (λ o, Hfin r s0 o Hfl eq_refl) as Hx;
      destruct (finishInflight r s0) end.
    apply Hx; [by intros ? [= ->]|done].
  - apply Hnone. pose proof (nextTask_mail (set_MsgID (e_ID env) s)). by destruct (nextTask _).
Qed.
End Mail.

(** ** Lemmas: a call is a run of the waiters' system *)

(** A sequence of handled requests. *)
Inductive serves {S} `{Store S} : Server * S → list served → Server * S → Prop :=
| serves_nil x : serves x [] x
| serves_cons now host cookie env x key resp hr y tr z :
    serve now host cookie env x = ((key, resp, hr), y) → serves y tr z →
    serves x (mkServed key env resp :: tr) z.

Lemma session_sim s s' o aws sd pub :
  mail s' = mail (match o with Some r => deliver r s | None => s end) →
  rtc sys_step (mkSystem s aws sd pub) (mkSystem s' aws sd (pub ++ option_list o)).
Proof.
  intros Hm. destruct o as [r|].
  - etrans; [apply (deliver_run r)|]. apply rtc_once, sys_session_op. by injection Hm.
  - cbn [option_list]. rewrite app_nil_r. apply rtc_once, sys_session_op. by injection Hm.
Qed.

(** The waiter waits for [c]. *)
Definition waits_for (c : string) (a : awaiter) : Prop :=
  match a with
  | AwWait c' _ | AwHold c' _ _ _ | AwDone c' _ => c' = c
  | AwAny => c = ""
  end.

(** Several steps of a waiter. *)
Definition aw_steps (a : awaiter) (s : Session) (a' : awaiter) (s' : Session) : Prop :=
  rtc (λ x y : awaiter * Session, aw_step x.1 x.2 y.1 y.2) (a, s) (a', s').

Lemma aw_steps_ind (P : awaiter → Session → Prop) a s a' s' :
  (∀ a s a' s', aw_step a s a' s' → P a s → P a' s') → aw_steps a s a' s' → P a s → P a' s'.
Proof.
  intros HP Hs. change (P a s) with ((λ x : awaiter * Session, P x.1 x.2) (a, s)).
  change (P a' s') with ((λ x : awaiter * Session, P x.1 x.2) (a', s')).
  induction Hs as [|x y z Hxy _ IH]; [done|]. intros Hx. apply IH. by eapply HP.
Qed.

Lemma wake_step c a s : aw_steps a s (wake c a s).1 (wake c a s).2.
Proof.
  assert (H0 : aw_steps a s a s) by apply rtc_refl.
  assert (H1 : ∀ x : awaiter * Session, aw_step a s x.1 x.2 → aw_steps a s x.1 x.2).
  { intros x Hx. destruct x. by apply rtc_once. }
  destruct a as [k ch|k ch r target| |]; [destruct c| |destruct c|exact H0]; cbn [wake].
  - destruct (recv_mine k ch s) as [x|] eqn:Hr; [|done]. apply H1, aw_mine. by rewrite Hr, <- surjective_pairing.
  - destruct (recv_shared k ch s) as [x|] eqn:Hr; [|done]. apply H1, aw_shared. by rewrite Hr, <- surjective_pairing.
  - apply H1, aw_timeout.
  - assert (Hsend : ∀ t, aw_step (AwHold k ch r (Some t)) s (put_back k ch r (Some t) s).1 (put_back k ch r (Some t) s).2)
      by (intros t; by apply aw_send).
    destruct target as [t|]; [apply H1, Hsend|].
    apply (rtc_l _ _ (AwHold k ch r (Some (look_up r s)), s)); [apply aw_look|].
    apply rtc_once. apply (Hsend (look_up r s)).
  - destruct (recv_any s) as [x|] eqn:Hr; [|done]. apply H1, aw_any. by rewrite Hr, <- surjective_pairing.
  - destruct (recv_any s) as [x|] eqn:Hr; [|done]. apply H1, aw_any. by rewrite Hr, <- surjective_pairing.
  - apply (H1 (AwDone "" None, s)), aw_timeout_any.
Qed.

Lemma aw_step_waits a s a' s' c : aw_step a s a' s' → waits_for c a → waits_for c a'.
Proof.
  intros Hstep. destruct (aw_step_shape a s a' s' Hstep) as (Hcmd & _).
  assert (Hw : ∀ b, waits_for c b ↔ aw_cmd b = c) by (intros []; simpl; naive_solver). by rewrite !Hw, Hcmd.
Qed.

Lemma wake_waits k c a s : waits_for c a → waits_for c (wake k a s).1.
Proof. apply (aw_steps_ind (λ a _, waits_for c a) a s _ (wake k a s).2); [|apply wake_step]. intros; by eapply aw_step_waits. Qed.

Lemma wake_sim k a s aws sd pub :
  rtc sys_step (mkSystem s (aws ++ [a]) sd pub) (mkSystem (wake k a s).2 (aws ++ [(wake k a s).1]) sd pub).
Proof.
  refine (aw_steps_ind (λ a' s', rtc sys_step (mkSystem s (aws ++ [a]) sd pub) (mkSystem s' (aws ++ [a']) sd pub))
    a s _ _ _ (wake_step k a s) (rtc_refl _ _)).
  intros b u b' u' Hs Hr. eapply rtc_r; [exact Hr|].
  replace (aws ++ [b']) with (<[length aws := b']> (aws ++ [b])).
  2: { by rewrite insert_app_r_alt, Nat.sub_diag by done. }
  apply sys_aw with (a := b); [|done]. by rewrite lookup_app_r, Nat.sub_diag.
Qed.

Section Simulation.
Context {S : Type} `{Store S} {O W : Type}.
Variable outside : O → (Server * S) * W → list served * ((Server * S) * W).
Variable http_Get : string → option string → W → (string + Z * string) * W.
Variable RequestURI : string → option string.
Variable id : string.

(** The world only ever sends requests to the server. *)
Definition serves_only : Prop := ∀ o x w tr y w', outside o (x, w) = (tr, (y, w')) → serves x tr y.
Hypothesis outside_serves : serves_only.

Abbreviation st := (S * net O W)%type.
Definition at_id (x : st) (s : Session) : Prop := sessions (n_srv x.2) !! id = Some s.

(** From [x] to [y] the waiters of the session go from [aws] to [aws']. *)
Definition sim (aws aws' : list awaiter) (x y : st) : Prop :=
  ∀ s, at_id x s → ∃ s', at_id y s' ∧ ∀ sd pub, ∃ pub',
    rtc sys_step (mkSystem s aws sd pub) (mkSystem s' aws' sd pub').

Lemma sim_same aws x y : n_srv y.2 = n_srv x.2 → sim aws aws x y.
Proof. intros Hn s Hs. exists s. unfold at_id in *. rewrite Hn. split; [done|]. intros sd pub. by exists pub. Qed.

Lemma sim_trans aws1 aws2 aws3 x y z : sim aws1 aws2 x y → sim aws2 aws3 y z → sim aws1 aws3 x z.
Proof.
  intros H1 H2 s Hs. destruct (H1 s Hs) as (s1 & Hs1 & Hr1). destruct (H2 s1 Hs1) as (s2 & Hs2 & Hr2).
  exists s2. split; [done|]. intros sd pub. destruct (Hr1 sd pub) as [pub1 ?]. destruct (Hr2 sd pub1) as [pub2 ?].
  exists pub2. by etrans.
Qed.

Lemma serves_sim (x y : Server * S) tr : serves x tr y →
  ∀ s, sessions x.1 !! id = Some s → ∃ s', sessions y.1 !! id = Some s' ∧ ∀ aws sd pub, ∃ pub',
    rtc sys_step (mkSystem s aws sd pub) (mkSystem s' aws sd pub').
Proof.
  induction 1 as [x|now host cookie env [srv store] key resp hr [srv1 store1] tr z Hs _ IH]; intros s Hat.
  { exists s. split; [done|]. intros aws sd pub. by exists pub. }
  apply serve_spec in Hs as (_ & Hoth & _ & s0 & s1 & s2 & store0 & Hcase & Hs1 & Hreq & Hs2 & _). cbn [fst] in *.
  destruct (decide (id = key)) as [<-|Hne].
  - rewrite Hat in Hcase. subst s0. destruct (IH s2 Hs2) as (s3 & Hs3 & Hr). exists s3. split; [done|].
    intros aws sd pub. pose proof (request_mail now env s1 store0) as Hm. rewrite Hreq in Hm. cbn [fst snd] in Hm.
    assert (Hm1 : mail s1 = mail s ∧ published env s1 = published env s) by (rewrite Hs1; by case_decide).
    destruct Hm1 as [Hm1 Hp]. rewrite Hp in Hm.
    assert (Hm' : mail s2 = mail (match published env s with Some r => deliver r s | None => s end)).
    { rewrite Hm. destruct (published env s); [by apply deliver_mail|done]. }
    destruct (Hr aws sd (pub ++ option_list (published env s))) as [pub' ?]. exists pub'.
    etrans; [by apply session_sim|done].
  - apply IH. by rewrite Hoth.
Qed.

Lemma crURL_srv dev (x : Server * S) : (crURL dev x).2.1 = x.1.
Proof.
  destruct x as [srv store]. unfold crURL. case_decide; [done|]. destruct (GetParams _ _ store) as [m store1].
  destruct (m !! _); [case_decide; [done|]|]; by destruct (StoreDeviceIP dev store1).
Qed.

Lemma triggerCR_srv dev (x : st) : n_srv (triggerCR http_Get RequestURI dev x).2 = n_srv x.2.
Proof.
  unfold triggerCR, on_server. destruct x as [store n]. pose proof (crURL_srv dev (n_srv n, store)) as Hu.
  destruct (crURL dev (n_srv n, store)) as [url [srv store1]]. cbn [fst snd] in *. subst srv. case_decide; [done|].
  by destruct (TriggerConnectionRequest _ _ _ _ _ _).
Qed.

Lemma other_turn_sim t (x : st) aws : sim aws aws x (other_turn outside http_Get RequestURI t x).2.
Proof.
  destruct t as [o|i|c]; cbn [other_turn]; [| |by apply sim_same].
  - destruct x as [store n]. destruct (outside o ((n_srv n, store), n_out n)) as [tr [[srv store'] out]] eqn:Ho.
    apply outside_serves in Ho. intros s Hs. destruct (serves_sim _ _ _ Ho s Hs) as (s' & Hs' & Hr). exists s'.
    split; [exact Hs'|]. apply Hr.
  - destruct (n_dials x.2 !! i) as [dev|]; apply sim_same; [|done]. apply (triggerCR_srv dev (set_dials _ x)).
Qed.

Lemma on_held_sim c a (x : st) aws :
  sim (aws ++ [a]) (aws ++ [(on_held id c a x).1]) x (on_held id c a x).2.
Proof.
  intros s Hs. destruct x as [store n]. unfold at_id in Hs. unfold on_held, on_server. cbn [snd] in Hs. rewrite Hs.
  pose proof (wake_sim c a s aws) as Hw. destruct (wake c a s) as [a' s']. exists s'. cbn [fst snd] in *. split.
  - unfold at_id. simpl. by rewrite lookup_insert_eq.
  - intros sd pub. by exists pub.
Qed.

Lemma on_held_waits k c a (x : st) : waits_for c a → waits_for c (on_held id k a x).1.
Proof.
  intros Ha. destruct x as [store n]. unfold on_held, on_server. destruct (sessions (n_srv n) !! id) as [s|]; [|done].
  pose proof (wake_waits k c a s Ha). by destruct (wake k a s).
Qed.

Lemma take_turn_sim t a (x : st) aws :
  let y := take_turn outside http_Get RequestURI id t a x in sim (aws ++ [a]) (aws ++ [y.2.1]) x y.2.2.
Proof.
  assert (Ho : let y := (let '(tr, x) := other_turn outside http_Get RequestURI t x in (tr, (a, x))) in
    sim (aws ++ [a]) (aws ++ [y.2.1]) x y.2.2).
  { pose proof (other_turn_sim t x (aws ++ [a])). by destruct (other_turn _ _ _ t x). }
  destruct t; [exact Ho|exact Ho|]. apply on_held_sim.
Qed.

Lemma take_turn_waits t a (x : st) c : waits_for c a →
  waits_for c (take_turn outside http_Get RequestURI id t a x).2.1.
Proof.
  intros Ha. destruct t; cbn [take_turn]; [by destruct (other_turn _ _ _ _ x)..|]. by apply on_held_waits.
Qed.

(** The [select] takes the deadline: the waiter has returned. *)
Lemma expire_sim c a (x : st) aws : waits_for c a → returned a = None → is_Some (sessions (n_srv x.2) !! id) →
  let y := expire id a x in sim (aws ++ [a]) (aws ++ [AwDone c y.1]) x y.2.
Proof.
  intros Ha Hr [s0 Hs0]. unfold expire.
  set (p := match a with AwHold _ _ _ _ => on_held id Deadline a x | _ => (a, x) end).
  assert (Hp : sim (aws ++ [a]) (aws ++ [p.1]) x p.2 ∧ waits_for c p.1 ∧ is_Some (sessions (n_srv p.2.2) !! id) ∧
    (p.1 = AwAny ∨ ∃ k ch, p.1 = AwWait k ch)).
  { unfold p. destruct a as [k ch|k ch r tg| |]; [| | |done].
    1, 3: split_and!; [by apply sim_same|done|by exists s0|eauto].
    split_and!; [apply on_held_sim|by apply on_held_waits|destruct (on_held_sim Deadline (AwHold k ch r tg) x aws s0 Hs0) as (s' & Hs' & _); by exists s'|].
    unfold on_held, on_server. destruct x as [store n]. cbn [snd] in Hs0. rewrite Hs0. simpl. eauto. }
  destruct p as [b y]. cbn [fst snd] in Hp. destruct Hp as (Hsim & Hb & [s1 Hs1] & Hform).
  pose proof (on_held_sim Deadline b y aws) as Hsim2. pose proof (on_held_waits Deadline c b y Hb) as Hb2.
  assert (Hdone : ∃ k, (on_held id Deadline b y).1 = AwDone k None).
  { unfold on_held, on_server. destruct y as [store n]. cbn [snd] in Hs1. rewrite Hs1.
    destruct Hform as [->|(k & ch & ->)]; simpl; eauto. }
  destruct (on_held id Deadline b y) as [d z]. cbn [fst snd] in *. destruct Hdone as [k ->]. simpl in Hb2. subst k.
  cbn [fst snd returned default]. by eapply sim_trans.
Qed.

Lemma at_id_sim aws aws' (x y : st) : sim aws aws' x y → is_Some (sessions (n_srv x.2) !! id) →
  is_Some (sessions (n_srv y.2) !! id).
Proof. intros Hs [s Hx]. destruct (Hs s Hx) as (s' & Hs' & _). by exists s'. Qed.

Lemma await_loop_sim c turns : ∀ a (x : st) aws, waits_for c a → is_Some (sessions (n_srv x.2) !! id) →
  let y := await_loop outside http_Get RequestURI id turns a x in sim (aws ++ [a]) (aws ++ [AwDone c y.1.1]) x y.2.
Proof.
  induction turns as [|t turns IH]; intros a x aws Ha Hx; cbn [await_loop].
  all: destruct (returned a) as [r|] eqn:Hr.
  1, 3: destruct a as [| | |c' o]; simplify_eq/=; by apply sim_same.
  - pose proof (expire_sim c a (set_turns [] x) aws Ha Hr Hx) as He.
    destruct (expire id a (set_turns [] x)) as [r y]. cbn [fst snd] in *. intros s Hs. exact (He s Hs).
  - pose proof (take_turn_sim t a x aws) as Ht. pose proof (take_turn_waits t a x c Ha) as Hw.
    destruct (take_turn _ _ _ id t a x) as [tr [b y]]. cbn [fst snd] in *.
    pose proof (at_id_sim _ _ _ _ Ht Hx) as Hy. specialize (IH b y aws Hw Hy).
    destruct (await_loop _ _ _ id turns b y) as [[r' tr'] z]. cbn [fst snd] in *. by eapply sim_trans.
Qed.

Lemma Await_start_waits c s : waits_for c (Await_start c s).1.
Proof. unfold Await_start. case_decide; [done|]. done. Qed.

Lemma Await_sim c (x : st) aws : is_Some (sessions (n_srv x.2) !! id) →
  let y := Await outside http_Get RequestURI id c x in sim aws (aws ++ [AwDone c y.1.1]) x y.2.
Proof.
  intros [s0 Hs0]. destruct x as [store n]. cbn [snd] in Hs0. unfold Await, on_server, on_session, deviceSessionLocked.
  rewrite Hs0. cbn [fst snd]. rewrite Hs0.
  pose proof (Await_start_waits c s0) as Hw. pose proof (λ sd pub, sys_start c s0 aws sd pub) as Hst.
  destruct (Await_start c s0) as [a s1]. cbn [fst snd] in *.
  match goal with |- context [await_loop _ _ _ id ?l a ?y] => pose proof (await_loop_sim c l a y aws Hw) as Hl;
    assert (Hat : at_id y s1) by (unfold at_id; simpl; by rewrite lookup_insert_eq);
    destruct (await_loop outside http_Get RequestURI id l a y) as [[r tr] z] end.
  cbn [fst snd n_srv] in *. specialize (Hl (ex_intro _ s1 Hat)). intros s Hs. unfold at_id in Hs. cbn [snd n_srv] in Hs.
  simplify_eq. destruct (Hl s1 Hat) as (s2 & Hs2 & Hr). exists s2. split; [done|]. intros sd pub.
  destruct (Hr sd pub) as [pub' ?]. exists pub'. eapply rtc_l; [apply Hst|done].
Qed.

Lemma meanwhile_sim turns : ∀ (x : st) aws,
  sim aws aws x (meanwhile outside http_Get RequestURI turns x).2.
Proof.
  induction turns as [|t turns IH]; intros x aws; cbn [meanwhile]; [by apply sim_same|].
  assert (Ho : sim aws aws x (let '(tr, x) := other_turn outside http_Get RequestURI t x in
    let '(tr', x) := meanwhile outside http_Get RequestURI turns x in (tr ++ tr', x)).2).
  { pose proof (other_turn_sim t x aws) as H1. destruct (other_turn _ _ _ t x) as [tr y]. specialize (IH y aws).
    destruct (meanwhile _ _ _ turns y) as [tr' z]. by eapply sim_trans. }
  destruct t; [exact Ho|exact Ho|by apply sim_same].
Qed.
End Simulation.

(** ** Lemmas: where a result comes from *)

(** The results a session keeps for its waiters. *)
Definition stored (s : Session) (r : TaskResult) : Prop := r ∈ results s ∨ Some r ∈ chans s.

Lemma stored_mail s s' r : mail s = mail s' → stored s r → stored s' r.
Proof. intros [= Hr _ Hc]. unfold stored. by rewrite Hr, Hc. Qed.

Lemma elem_of_chan {A} (l : list A) i x y : x ∈ <[i := y]> l → x = y ∨ x ∈ l.
Proof.
  intros (j & Hj)%list_elem_of_lookup_1. apply list_lookup_insert_Some in Hj as [(_ & -> & _)|[_ Hj]]; [by left|].
  right. by eapply list_elem_of_lookup_2.
Qed.

Lemma send_stored target r r' s : stored (send_result target r s) r' → r' = r ∨ stored s r'.
Proof.
  unfold stored. destruct (send_cases target r s) as [(ch & _ & _ & ->)|[[_ ->]|[_ ->]]]; simpl; [| |by right].
  - intros [Hr|[Hr|Hr]%elem_of_chan]; [by right; left|left; congruence|by right; right].
  - intros [[Hr|Hr%list_elem_of_singleton]%elem_of_app|Hr]; [by right; left|by left|by right; right].
Qed.

Lemma deliver_stored r r' s : stored (deliver r s) r' → r' = r ∨ stored s r'.
Proof. apply send_stored. Qed.

(** A waiter's step invents no result. *)
Lemma aw_step_stored a s a' s' r : aw_step a s a' s' →
  stored s' r ∨ r ∈ aw_results a' → stored s r ∨ r ∈ aw_results a.
Proof.
  unfold stored. intros Hstep.
  destruct Hstep as [k ch s a s' Hr|k ch s a s' Hr|k ch q s|k ch q target s a s' Hr|s a s' Hr|k ch s|s]; simpl.
  - unfold recv_mine in Hr. destruct (chans s !! ch) as [[q|]|] eqn:Hch; simplify_eq. simpl.
    intros [[Hr|[?|Hr]%elem_of_chan]|Hr%list_elem_of_singleton]; [by left; left|done|by left; right|].
    subst. left. right. by eapply list_elem_of_lookup_2.
  - unfold recv_shared in Hr. destruct (results s) as [|q rest] eqn:Hq; simplify_eq. rewrite elem_of_cons.
    case_decide; simplify_eq; simpl; rewrite list_elem_of_singleton; naive_solver.
  - done.
  - unfold put_back in Hr. simplify_eq. cbn [aw_results].
    rewrite list_elem_of_singleton. intros [Hr|Hr%elem_of_nil]; [|done]. apply send_stored in Hr as [->|?]; [by right|by left].
  - unfold recv_any in Hr. destruct (results s) as [|q rest] eqn:Hq; simplify_eq. simpl.
    rewrite list_elem_of_singleton, elem_of_cons. naive_solver.
  - done.
  - done.
Qed.

Lemma send_queues target r s : queues (send_result target r s) = queues s.
Proof. destruct (send_cases target r s) as [(? & _ & _ & ->)|[[_ ->]|[_ ->]]]; done. Qed.

Lemma aw_step_queues a s a' s' : aw_step a s a' s' → queues s' = queues s.
Proof.
  intros Hstep.
  destruct Hstep as [k ch s a s' Hr|k ch s a s' Hr|k ch q s|k ch q target s a s' Hr|s a s' Hr|k ch s|s]; simpl; try done.
  - unfold recv_mine in Hr. by destruct (chans s !! ch) as [[q|]|]; simplify_eq.
  - unfold recv_shared in Hr. destruct (results s) as [|q rest]; simplify_eq. by case_decide; simplify_eq.
  - unfold put_back in Hr. simplify_eq. apply send_queues.
  - unfold recv_any in Hr. by destruct (results s) as [|q rest]; simplify_eq.
Qed.

Lemma holds_queues s s' u : queues s' = queues s → holds s' u → holds s u.
Proof. intros [= Hq Hf]. unfold holds. by rewrite Hq, Hf. Qed.

(** What a request puts in flight is what it answers with. *)
Lemma request_inflight {S} `{Store S} now env s (store : S) resp s' store' u :
  request now env (s, store) = (resp, (s', store')) → inflight s' = Some u →
  inflight s = Some u ∨ resp = request_of u.
Proof.
  intros Hreq. pose proof (request_refines now env s store) as Hr. rewrite Hreq in Hr. destruct Hr as [Hq Hresp].
  assert (Hpop : ∀ o q, (pop o q).2 = Some u → o = Some u ∨ head q ≫= request_of = request_of u).
  { intros o [|v q]; simpl; [by left|]. intros [= ->]. by right. }
  change (inflight s') with (queues s').2. rewrite Hq. unfold queues.
  destruct (kind_of now env s store); cbn [spec_step snd]; try by left.
  - intros Hp. apply Hpop in Hp as [?|Hp]; [done|]. right. congruence.
  - destruct (inflight s); [|done]. intros Hp. apply Hpop in Hp as [?|Hp]; [done|]. right. congruence.
  - intros Hp. apply Hpop in Hp as [?|Hp]; [by left|]. right. congruence.
Qed.

Section Fresh.
Variables (id : string) (t : Task).
Hypothesis named : t_CommandID t ≠ "".

(** Among the requests [tr], the device was sent the task. *)
Definition asked (tr : list served) : Prop := ∃ env, mkServed id env (request_of t) ∈ tr.

(** It was sent the task, and then [r] is what its session read of a message. *)
Definition answered (tr : list served) (r : TaskResult) : Prop :=
  ∃ pre env resp post r0, tr = pre ++ mkServed id env resp :: post ∧ asked pre ∧
    answer_of env t = Some r0 ∧ r = with_CommandID (t_CommandID t) r0.

(** All that carries the task's CommandID is this task and answers to it. *)
Definition accounted (tr : list served) (s : Session) (a : list TaskResult) : Prop :=
  (∀ u, holds s u → t_CommandID u = t_CommandID t → u = t) ∧
  (inflight s = Some t → asked tr) ∧
  (∀ r, stored s r ∨ r ∈ a → tr_CommandID r = t_CommandID t → answered tr r).

Lemma asked_app tr tr' : asked tr → asked (tr ++ tr').
Proof. intros [env He]. exists env. set_solver. Qed.

Lemma answered_app tr tr' r : answered tr r → answered (tr ++ tr') r.
Proof.
  intros (pre & env & resp & post & r0 & -> & Hr). exists pre, env, resp, (post ++ tr'), r0.
  by rewrite <- app_assoc.
Qed.

Lemma accounted_app tr tr' s a : accounted tr s a → accounted (tr ++ tr') s a.
Proof.
  intros (H1 & H2 & H3). split_and!; [done| |].
  - intros Hf. by apply asked_app, H2.
  - intros r Hr Hc. by apply answered_app, H3.
Qed.

Lemma aw_step_accounted tr a s a' s' : aw_step a s a' s' →
  accounted tr s (aw_results a) → accounted tr s' (aw_results a').
Proof.
  intros Hs (H1 & H2 & H3). pose proof (aw_step_queues _ _ _ _ Hs) as Hq. split_and!.
  - intros u Hu. apply H1. by eapply holds_queues.
  - by injection Hq as _ ->.
  - intros r Hr. apply H3. by eapply aw_step_stored.
Qed.

Lemma request_accounted {S} `{Store S} tr now env s (store : S) resp s' store' a :
  request now env (s, store) = (resp, (s', store')) → accounted tr s a →
  accounted (tr ++ [mkServed id env resp]) s' a.
Proof.
  intros Hreq (H1 & H2 & H3).
  pose proof (request_holds now env s store) as Hh. pose proof (request_mail now env s store) as Hm.
  rewrite Hreq in Hh, Hm. cbn [fst snd] in Hh, Hm. split_and!.
  - intros u Hu Hc. apply Hh in Hu as [Hu|Hu]; [by apply H1|]. exfalso. apply named. rewrite <- Hc.
    unfold first_contact in Hu. apply elem_of_cons in Hu as [->|Hu]; [done|].
    destruct (firstContactGPV s); [by apply elem_of_nil in Hu|]. by apply list_elem_of_singleton in Hu as ->.
  - intros Hf. destruct (request_inflight _ _ _ _ _ _ _ _ Hreq Hf) as [Hf'| ->]; [by apply asked_app, H2|].
    exists env. apply elem_of_app. right. by apply list_elem_of_singleton.
  - intros r Hr Hc. assert (Hold : stored s r ∨ r ∈ a → answered (tr ++ [mkServed id env resp]) r).
    { intros Ho. by apply answered_app, H3. }
    destruct Hr as [Hr|Hr]; [|by apply Hold; right]. apply (stored_mail _ _ _ Hm) in Hr.
    destruct (published env s) as [q|] eqn:Hp; [|by apply Hold; left].
    apply deliver_stored in Hr as [->|Hr]; [|by apply Hold; left].
    unfold published in Hp. destruct (inflight s) as [u|] eqn:Hf; [|done]. cbn [mbind option_bind] in Hp.
    destruct (answer_of env u) as [r0|] eqn:Ha; [|done]. cbn [mbind option_bind] in Hp. case_decide; simplify_eq.
    assert (u = t) as -> by (apply H1; [by right|exact Hc]).
    exists tr, env, resp, [], r0. split_and!; [done|by apply H2|done|done].
Qed.
End Fresh.

Section Account.
Context {S : Type} `{Store S} {O W : Type}.
Variable outside : O → (Server * S) * W → list served * ((Server * S) * W).
Variable http_Get : string → option string → W → (string + Z * string) * W.
Variable RequestURI : string → option string.
Hypothesis outside_serves : serves_only outside.
Variables (id : string) (t : Task).
Hypothesis named : t_CommandID t ≠ "".

Abbreviation st := (S * net O W)%type.
Definition account (tr : list served) (a : list TaskResult) (x : st) : Prop :=
  ∃ s, at_id id x s ∧ accounted id t tr s a.

Lemma account_same tr a (x y : st) : n_srv y.2 = n_srv x.2 → account tr a x → account tr a y.
Proof. intros Hn (s & Hs & ?). exists s. split; [|done]. unfold at_id in *. by rewrite Hn. Qed.

Lemma serves_account (x y : Server * S) tr : serves x tr y → ∀ tr0 a s, sessions x.1 !! id = Some s →
  accounted id t tr0 s a → ∃ s', sessions y.1 !! id = Some s' ∧ accounted id t (tr0 ++ tr) s' a.
Proof.
  induction 1 as [x|now host cookie env [srv store] key resp hr [srv1 store1] tr z Hs _ IH]; intros tr0 a s Hat Hacc.
  { exists s. split; [done|]. by rewrite app_nil_r. }
  apply serve_spec in Hs as (_ & Hoth & _ & s0 & s1 & s2 & store0 & Hcase & Hs1 & Hreq & Hs2 & _). cbn [fst] in *.
  rewrite (cons_middle _ tr0 tr), app_assoc. destruct (decide (id = key)) as [<-|Hne].
  - rewrite Hat in Hcase. subst s0. apply (IH _ _ s2 Hs2). eapply request_accounted; [done|exact Hreq|].
    rewrite Hs1. by case_decide.
  - apply (IH _ _ s); [by rewrite Hoth|]. by apply accounted_app.
Qed.

Lemma other_turn_account n (x : st) tr a : account tr a x →
  let y := other_turn outside http_Get RequestURI n x in account (tr ++ y.1) a y.2.
Proof.
  intros Hx. destruct n as [o|i|c]; cbn [other_turn]; [| |by rewrite app_nil_r].
  - destruct x as [store m]. destruct Hx as (s & Hs & Hacc).
    destruct (outside o ((n_srv m, store), n_out m)) as [tr' [[srv store'] out]] eqn:Ho. apply outside_serves in Ho.
    destruct (serves_account _ _ _ Ho tr a s Hs Hacc) as (s' & Hs' & ?). by exists s'.
  - destruct (n_dials x.2 !! i) as [dev|]; cbn [fst snd]; rewrite app_nil_r; [|done].
    eapply account_same; [|exact Hx]. apply (triggerCR_srv http_Get RequestURI dev (set_dials _ x)).
Qed.

Lemma on_held_account k a (x : st) tr : account tr (aw_results a) x →
  account tr (aw_results (on_held id k a x).1) (on_held id k a x).2.
Proof.
  intros (s & Hs & Hacc). destruct x as [store m]. unfold on_held, on_server. unfold at_id in Hs. cbn [snd] in Hs. rewrite Hs.
  assert (Hw : accounted id t tr (wake k a s).2 (aw_results (wake k a s).1)).
  { refine (aw_steps_ind (λ a' s', accounted id t tr s' (aw_results a')) a s _ _ _ (wake_step k a s) Hacc).
    intros b u b' u' Hstep. by apply aw_step_accounted. }
  destruct (wake k a s) as [a' s']. exists s'. by split; [unfold at_id; simpl; rewrite lookup_insert_eq|].
Qed.

Lemma take_turn_account n a (x : st) tr : account tr (aw_results a) x →
  let y := take_turn outside http_Get RequestURI id n a x in account (tr ++ y.1) (aw_results y.2.1) y.2.2.
Proof.
  intros Hx. assert (Ho : let y := (let '(tr, x) := other_turn outside http_Get RequestURI n x in (tr, (a, x))) in
    account (tr ++ y.1) (aw_results y.2.1) y.2.2).
  { pose proof (other_turn_account n x tr _ Hx). by destruct (other_turn _ _ _ n x). }
  destruct n; [exact Ho|exact Ho|]. cbn [take_turn fst snd]. rewrite app_nil_r. by apply on_held_account.
Qed.

Lemma expire_account a (x : st) tr : account tr (aw_results a) x →
  let y := expire id a x in account tr (option_list y.1) y.2.
Proof.
  intros Hx. unfold expire. set (p := match a with AwHold _ _ _ _ => _ | _ => (a, x) end).
  assert (Hp : account tr (aw_results p.1) p.2) by (unfold p; destruct a; try done; by apply on_held_account).
  destruct p as [b y]. pose proof (on_held_account Deadline b y tr Hp) as (s & Hs & H1 & H2 & H3).
  destruct (on_held id Deadline b y) as [d z]. cbn [fst snd] in *. exists s. split_and!; [done..|].
  split; [done|]. split; [done|]. intros r [Hr|Hr]; apply H3; [by left|]. right.
  destruct d; cbn [returned default from_option aw_results] in *; [..|done]; by apply elem_of_nil in Hr.
Qed.

Lemma await_loop_account turns : ∀ a (x : st) tr, account tr (aw_results a) x →
  let y := await_loop outside http_Get RequestURI id turns a x in account (tr ++ y.1.2) (option_list y.1.1) y.2.
Proof.
  induction turns as [|n turns IH]; intros a x tr Hx; cbn [await_loop].
  all: destruct (returned a) as [r|] eqn:Hr.
  1, 3: destruct a; simplify_eq/=; rewrite app_nil_r; by eapply account_same.
  - pose proof (expire_account a (set_turns [] x) tr (account_same _ _ x _ eq_refl Hx)) as He.
    destruct (expire id a (set_turns [] x)) as [r y]. cbn [fst snd] in *. by rewrite app_nil_r.
  - pose proof (take_turn_account n a x tr Hx) as Ht. destruct (take_turn _ _ _ id n a x) as [tr1 [b y]]. cbn [fst snd] in *.
    specialize (IH b y _ Ht). destruct (await_loop _ _ _ id turns b y) as [[r' tr2] z]. cbn [fst snd] in *.
    by rewrite app_assoc.
Qed.

Lemma meanwhile_account turns : ∀ (x : st) tr, account tr [] x →
  let y := meanwhile outside http_Get RequestURI turns x in account (tr ++ y.1) [] y.2.
Proof.
  induction turns as [|n turns IH]; intros x tr Hx; cbn [meanwhile]; [cbn [fst snd]; rewrite app_nil_r; by eapply account_same|].
  assert (Ho : let y := (let '(tr, x) := other_turn outside http_Get RequestURI n x in
    let '(tr', x) := meanwhile outside http_Get RequestURI turns x in (tr ++ tr', x)) in account (tr ++ y.1) [] y.2).
  { pose proof (other_turn_account n x tr [] Hx) as H1. destruct (other_turn _ _ _ n x) as [tr1 y]. cbn [fst snd] in *.
    specialize (IH y _ H1). destruct (meanwhile _ _ _ turns y) as [tr2 z]. cbn [fst snd] in *. by rewrite app_assoc. }
  destruct n; [exact Ho|exact Ho|]. cbn [fst snd]. rewrite app_nil_r. by eapply account_same.
Qed.

Lemma Await_account c (x : st) tr : account tr [] x →
  let y := Await outside http_Get RequestURI id c x in account (tr ++ y.1.2) (option_list y.1.1) y.2.
Proof.
  intros (s & Hs & Hacc). destruct x as [store m]. unfold at_id in Hs. cbn [snd] in Hs.
  unfold Await, on_server, on_session, deviceSessionLocked. rewrite Hs. cbn [fst snd]. rewrite Hs.
  assert (Hst : accounted id t tr (Await_start c s).2 (aw_results (Await_start c s).1)).
  { unfold Await_start. case_decide; [done|]. destruct Hacc as (H1 & H2 & H3). split_and!; [done..|].
    intros r [[Hr|Hr]|Hr]; apply H3; [by left; left| |by right]. simpl in Hr.
    apply elem_of_app in Hr as [Hr|Hr]; [by left; right|]. by apply list_elem_of_singleton in Hr. }
  destruct (Await_start c s) as [a s1]. cbn [fst snd] in *. apply await_loop_account.
  exists s1. split; [unfold at_id; simpl; by rewrite lookup_insert_eq|done].
Qed.
End Account.

(** ** Requests over HTTP

    The outside world as requests that may come at any time. *)
Section Requests.
Context {S : Type} `{Store S} {W : Type}.
Variable DecodeEnvelope : string → option Envelope.

(** The request that [ServeHTTP] handles, if any. *)
Definition request_env (rq : http_request) : option (option Envelope) :=
  body ← rq_body rq;
  if decide (TrimSpace body = "") then Some None else Some <$> DecodeEnvelope body.

Definition requests (o : Z * http_request) (y : (Server * S) * W) : list served * ((Server * S) * W) :=
  let '(now, rq) := o in
  let '(x, w) := y in
  let tr := match request_env rq with
            | Some env => let '((key, resp, _), _) := serve now (rq_host rq) (rq_cookie rq) env x in [mkServed key env resp]
            | None => []
            end in
  (tr, ((ServeHTTP DecodeEnvelope now rq x).2, w)).

Lemma ServeHTTP_serves now rq (x : Server * S) :
  serves x (match request_env rq with
            | Some env => let '((key, resp, _), _) := serve now (rq_host rq) (rq_cookie rq) env x in [mkServed key env resp]
            | None => []
            end) (ServeHTTP DecodeEnvelope now rq x).2.
Proof.
  unfold ServeHTTP, request_env. destruct (rq_body rq) as [body|]; [|constructor]. cbn [mbind option_bind].
  assert (Hone : ∀ env, serves x (let '((key, resp, _), _) := serve now (rq_host rq) (rq_cookie rq) env x in [mkServed key env resp])
    (let '((_, _, resp), x) := serve now (rq_host rq) (rq_cookie rq) env x in (resp, x)).2).
  { intros env. destruct (serve now (rq_host rq) (rq_cookie rq) env x) as [[[key resp] hr] y] eqn:Hs.
    econstructor; [exact Hs|constructor]. }
  case_decide; [apply Hone|]. destruct (DecodeEnvelope body); [apply Hone|constructor].
Qed.

Lemma requests_serve : serves_only requests.
Proof. intros [now rq] x w tr y w' [= <- <- <-]. apply ServeHTTP_serves. Qed.
End Requests.

(** ** Properties *)

(** A session whose channels are as the waiters' system can have them. *)
Definition sound (s : Session) : Prop :=
  ∃ s0 aws sd pub, idle s0 ∧ rtc sys_step (initial s0) (mkSystem s aws sd pub).

Lemma idle_sound s : idle s → sound s.
Proof. intros Hs. by exists s, [], [], []. Qed.

(** Requests keep every session sound. *)
Definition all_sound (srv : Server) : Prop := ∀ k s, sessions srv !! k = Some s → sound s.

Lemma serves_sound {S} `{Store S} (x y : Server * S) tr k : serves x tr y →
  (∀ s, sessions x.1 !! k = Some s → sound s) → ∀ s, sessions y.1 !! k = Some s → sound s.
Proof.
  induction 1 as [x|now host cookie env [srv store] key resp hr [srv1 store1] tr z Hs _ IH]; intros Hx; [done|].
  apply IH. intros s Hat. cbn [fst] in *. clear IH z.
  pose proof Hs as (_ & Hoth & _ & s0 & s1 & s2 & store0 & Hcase & Hs1 & Hreq & Hs2 & _)%serve_spec.
  destruct (decide (k = key)) as [->|Hne]; [|apply Hx; by rewrite <- Hoth]. simplify_eq.
  assert (Hs0 : sound s0).
  { destruct (sessions srv !! key); [subst; by apply Hx|]. destruct Hcase as [(_ & _ & Hr & Hw & Hc & _) _]. by apply idle_sound. }
  destruct Hs0 as (i & aws & sd & pub & Hi & Hrun). eexists i, aws, sd, _. split; [done|]. etrans; [exact Hrun|].
  apply (session_sim s0 s (published env s0)).
  set (s1 := if decide (host ≠ "") then set_IP host s0 else s0) in *.
  pose proof (request_mail now env s1 store0) as Hm. rewrite Hreq in Hm. cbn [fst snd] in Hm. rewrite Hm.
  assert (Hm1 : mail s1 = mail s0 ∧ published env s1 = published env s0) by (unfold s1; by case_decide).
  destruct Hm1 as [Hm1 ->]. destruct (published env s0); [by apply deliver_mail|done].
Qed.

Section Properties.
Context {S : Type} `{Store S} {O W : Type}.
Variable outside : O → (Server * S) * W → list served * ((Server * S) * W).
Variable http_Get : string → option string → W → (string + Z * string) * W.
Variable RequestURI : string → option string.

Lemma Enqueue_spec id t srv (store : S) :
  let y := Enqueue id t (srv, store) in
  ∃ s, sessions y.1 !! id = Some (enqueue t s) ∧
    match sessions srv !! id with Some s0 => s = s0 | None => fresh s srv end.
Proof.
  unfold Enqueue, on_session. pose proof (deviceSessionLocked_ensures id srv store) as (_ & _ & _ & s & Hs & Hc).
  destruct (deviceSessionLocked id (srv, store)) as [srv1 store1]. cbn [fst snd] in *. rewrite Hs. exists s.
  split; [simpl; by rewrite lookup_insert_eq|]. destruct (sessions srv !! id); [done|]. by destruct Hc.
Qed.

(** What queueing a task and starting the goroutine leaves to wait on. *)
Lemma RequestAndAwait_queued id t (x : S * net O W) :
  ∃ y s, RequestAndAwait outside http_Get RequestURI id t x =
      (let '(tr, z) := meanwhile outside http_Get RequestURI (n_turns y.2) y in
       let '(r, tr', z) := Await outside http_Get RequestURI id (t_CommandID t) z in (r, tr ++ tr', z)) ∧
    at_id id y (enqueue t s) ∧
    match sessions (n_srv x.2) !! id with Some s0 => s = s0 | None => fresh s (n_srv x.2) end.
Proof.
  destruct x as [store n]. pose proof (Enqueue_spec id t (n_srv n) store) as (s & Hs & Hc).
  unfold RequestAndAwait, on_server. destruct (Enqueue id t (n_srv n, store)) as [srv1 store1].
  match goal with |- context [meanwhile _ _ _ (n_turns ?y.2) ?y] => exists y end. exists s. split; [done|]. by split.
Qed.

Hypothesis outside_serves : serves_only outside.

Lemma call_run id t (x : S * net O W) r tr y :
  RequestAndAwait outside http_Get RequestURI id t x = (r, tr, y) →
  ∃ s s', match sessions (n_srv x.2) !! id with Some s0 => s = s0 | None => fresh s (n_srv x.2) end ∧ at_id id y s' ∧
    ∀ aws sd pub, ∃ pub', rtc sys_step (mkSystem s aws sd pub) (mkSystem s' (aws ++ [AwDone (t_CommandID t) r]) sd pub').
Proof.
  intros Hrun. destruct (RequestAndAwait_queued id t x) as (y0 & s & Heq & Hy & Hc). rewrite Heq in Hrun. clear Heq.
  pose proof (λ aws, meanwhile_sim outside http_Get RequestURI id outside_serves (n_turns y0.2) y0 aws) as Hm.
  destruct (meanwhile _ _ _ _ y0) as [tr1 z]. cbn [snd] in Hm.
  pose proof (at_id_sim id [] [] _ _ (Hm []) (ex_intro _ _ Hy)) as Hz.
  pose proof (λ aws, Await_sim outside http_Get RequestURI id outside_serves (t_CommandID t) z aws Hz) as Ha.
  destruct (Await _ _ _ id _ z) as [[r' tr2] z']. simplify_eq. cbn [fst snd] in Ha.
  destruct (sim_trans id [] [] _ _ _ _ (Hm []) (Ha []) (enqueue t s) Hy) as (s' & Hs' & _).
  exists s, s'. split_and!; [done..|]. intros aws sd pub.
  destruct (sim_trans id aws aws _ _ _ _ (Hm aws) (Ha aws) (enqueue t s) Hy) as (s'' & Hs'' & Hr).
  unfold at_id in Hs', Hs''. simplify_eq. destruct (Hr sd pub) as [pub' ?]. exists pub'. eapply rtc_l; [|done].
  apply sys_session_op. by injection (enqueue_mail t s).
Qed.

Lemma fresh_idle s srv : fresh s srv → idle s.
Proof. intros (_ & _ & Hr & Hw & Hc & _). done. Qed.

Lemma fresh_or_sound s id srv : (∀ s0, sessions srv !! id = Some s0 → sound s0) →
  match sessions srv !! id with Some s0 => s = s0 | None => fresh s srv end → sound s.
Proof. intros Hs. destruct (sessions srv !! id); [intros ->; auto|]. intros Hf. by eapply idle_sound, fresh_idle. Qed.

(** The session of a call is still sound afterwards, and what the call returns
    is a result of the task's CommandID. *)
Lemma call_sound id t (x : S * net O W) r tr y :
  (∀ s, at_id id x s → sound s) → RequestAndAwait outside http_Get RequestURI id t x = (r, tr, y) →
  (∃ s', at_id id y s' ∧ sound s') ∧ ∀ q, r = Some q → t_CommandID t = "" ∨ tr_CommandID q = t_CommandID t.
Proof.
  intros Hx Hrun. destruct (call_run id t x r tr y Hrun) as (s & s' & Hc & Hs' & Hr).
  destruct (fresh_or_sound s id _ Hx Hc) as (s0 & aws & sd & pub & Hi & H0).
  destruct (Hr aws sd pub) as [pub' Hr'].
  split; [exists s'; split; [done|]; exists s0, (aws ++ [AwDone (t_CommandID t) r]), sd, pub'; split; [done|by etrans]|].
  intros q ->. eapply (await_returns_own_result s0 (mkSystem s' (aws ++ [AwDone (t_CommandID t) (Some q)]) sd pub') _ _ Hi); [by etrans|].
  cbn. set_solver.
Qed.

(** The other sessions are touched by requests alone. *)
Definition elsewhere (id : string) (x : S * net O W) : Prop :=
  ∀ k s, k ≠ id → at_id k x s → sound s.

Lemma elsewhere_same id (x y : S * net O W) : n_srv y.2 = n_srv x.2 → elsewhere id x → elsewhere id y.
Proof. intros Hn Hx k s Hk Hs. apply (Hx k); [done|]. unfold at_id in *. by rewrite <- Hn. Qed.

Lemma elsewhere_insert id s store (n n' : net O W) :
  sessions (n_srv n') = <[id := s]> (sessions (n_srv n)) → elsewhere id (store, n) → ∀ store', elsewhere id (store', n').
Proof.
  intros Hn Hx store' k s' Hk Hs. apply (Hx k); [done|]. unfold at_id in *. cbn [snd] in *.
  by rewrite Hn, lookup_insert_ne in Hs.
Qed.

Lemma other_turn_elsewhere id n (x : S * net O W) :
  elsewhere id x → elsewhere id (other_turn outside http_Get RequestURI n x).2.
Proof.
  intros Hx. destruct n as [o|i|c]; cbn [other_turn]; [| |done].
  - destruct x as [store m]. destruct (outside o ((n_srv m, store), n_out m)) as [tr [[srv store'] out]] eqn:Ho.
    apply outside_serves in Ho. intros k s Hk Hs. apply (serves_sound _ _ _ k Ho); [|exact Hs]. intros s0. by apply Hx.
  - destruct (n_dials x.2 !! i) as [dev|]; [|done]. eapply elsewhere_same; [|exact Hx].
    apply (triggerCR_srv http_Get RequestURI dev (set_dials _ x)).
Qed.

Lemma on_held_elsewhere id c a (x : S * net O W) : elsewhere id x → elsewhere id (on_held id c a x).2.
Proof.
  intros Hx. destruct x as [store n]. unfold on_held, on_server. destruct (sessions (n_srv n) !! id) as [s|].
  - destruct (wake c a s) as [a' s']. by eapply (elsewhere_insert id s' store n).
  - by eapply (elsewhere_same id (store, n)).
Qed.

Lemma await_loop_elsewhere id turns : ∀ a (x : S * net O W),
  elsewhere id x → elsewhere id (await_loop outside http_Get RequestURI id turns a x).2.
Proof.
  induction turns as [|t turns IH]; intros a x Hx; cbn [await_loop]; (destruct (returned a); [by apply (elsewhere_same id x)|]).
  - apply (elsewhere_same id x (set_turns [] x) eq_refl) in Hx. unfold expire.
    set (p := match a with AwHold _ _ _ _ => _ | _ => _ end).
    assert (Hp : elsewhere id p.2) by (unfold p; destruct a; try exact Hx; by apply on_held_elsewhere).
    destruct p as [b y]. apply (on_held_elsewhere id Deadline b) in Hp. cbn [snd] in *.
    destruct (on_held id Deadline b y) as [d z]. exact Hp.
  - assert (Ht : elsewhere id (take_turn outside http_Get RequestURI id t a x).2.2).
    { unfold take_turn. pose proof (other_turn_elsewhere id t x Hx) as Ho. destruct t; [| |by apply on_held_elsewhere];
        by destruct (other_turn _ _ _ _ x). }
    destruct (take_turn _ _ _ id t a x) as [tr [b y]]. specialize (IH b y Ht).
    by destruct (await_loop _ _ _ id turns b y) as [[]].
Qed.

Lemma meanwhile_elsewhere id turns : ∀ (x : S * net O W),
  elsewhere id x → elsewhere id (meanwhile outside http_Get RequestURI turns x).2.
Proof.
  induction turns as [|t turns IH]; intros x Hx; cbn [meanwhile]; [by apply (elsewhere_same id x)|].
  pose proof (other_turn_elsewhere id t x Hx) as Ho. destruct (other_turn outside http_Get RequestURI t x) as [tr y]. specialize (IH y Ho).
  destruct (meanwhile outside http_Get RequestURI turns y) as [tr' z]. destruct t; [done|done|]. by apply (elsewhere_same id x).
Qed.

Lemma on_session_elsewhere {A} id (f : Session → A * Session) (x : S * net O W) :
  elsewhere id x → elsewhere id (on_server (on_session id f) x).2.
Proof.
  intros Hx k s Hk Hs. apply (Hx k); [done|]. destruct x as [store n]. revert Hs.
  unfold at_id, on_server, on_session.
  pose proof (deviceSessionLocked_ensures id (n_srv n) store) as (_ & _ & Ho & s0 & Hs0 & _).
  destruct (deviceSessionLocked id (n_srv n, store)) as [srv1 store1]. cbn [fst] in *. rewrite Hs0.
  destruct (f s0) as [a s']. cbn [snd n_srv set_session sessions]. by rewrite lookup_insert_ne, Ho by done.
Qed.

Lemma call_elsewhere id t (x : S * net O W) :
  elsewhere id x → elsewhere id (RequestAndAwait outside http_Get RequestURI id t x).2.
Proof.
  intros Hx. unfold RequestAndAwait.
  assert (Hq : elsewhere id (on_server (λ y, (tt, Enqueue id t y)) x).2).
  { pose proof (on_session_elsewhere id (λ s, (tt, enqueue t s)) x Hx) as Ho. unfold on_server, Enqueue in *.
    destruct x as [store n]. by destruct (on_session _ _ _) as [o []]. }
  destruct (on_server _ x) as [u y]. cbn [snd] in Hq. cbv zeta.
  match goal with |- context [meanwhile _ _ _ ?l ?z] =>
    pose proof (meanwhile_elsewhere id l z (elsewhere_same id y _ eq_refl Hq)) as Hz;
    destruct (meanwhile outside http_Get RequestURI l z) as [tr1 z1] end.
  cbn [snd] in Hz. unfold Await. apply (on_session_elsewhere id (Await_start (t_CommandID t))) in Hz.
  destruct (on_server _ z1) as [[a|] z2]; [|exact Hz].
  apply (await_loop_elsewhere id (n_turns z2.2) a) in Hz. cbn [snd] in *.
  destruct (await_loop _ _ _ id _ a z2) as [[] z3]. exact Hz.
Qed.

(** What is sound stays so: the hypothesis of the properties below is an
    invariant of the server. *)
Lemma call_all_sound id t (x : S * net O W) :
  all_sound (n_srv x.2) → all_sound (n_srv (RequestAndAwait outside http_Get RequestURI id t x).2.2).
Proof.
  intros Hall. pose proof (call_elsewhere id t x (λ k s _, Hall k s)) as He.
  destruct (RequestAndAwait outside http_Get RequestURI id t x) as [[r tr] y] eqn:Hrun. cbn [snd] in *.
  destruct (call_sound id t x r tr y (λ s, Hall id s) Hrun) as [(s' & Hs' & Hsound) _].
  intros k s Hs. destruct (decide (k = id)) as [->|Hne]; [|by apply (He k)]. unfold at_id in Hs'. by simplify_eq.
Qed.

(** The session carries the CommandID of [u] for [u] alone; a session that does
    not exist yet carries nothing. *)
Definition accounts (id : string) (u : Task) (tr : list served) (x : S * net O W) : Prop :=
  ∀ s, at_id id x s → accounted id u tr s [].

Lemma fresh_accounted id u s srv tr : fresh s srv → accounted id u tr s [].
Proof.
  intros (Hq & Hf & Hr & Hw & Hc & _). unfold accounted, holds, stored. rewrite Hq, Hf, Hr, Hc. split_and!.
  - intros v [Hv|Hv]; [by apply elem_of_nil in Hv|done].
  - done.
  - intros r [[Hv|Hv]|Hv]; by apply elem_of_nil in Hv.
Qed.

Lemma enqueue_accounted id u t s tr : (t_CommandID t = t_CommandID u → t = u) → accounted id u tr s [] →
  accounted id u tr (enqueue t s) [].
Proof.
  intros Ht (H1 & H2 & H3). pose proof (enqueue_queues t s) as [= Hq Hf]. split_and!.
  - intros v [Hv|Hv] Hid; [|apply H1; [right; congruence|done]]. rewrite Hq in Hv.
    apply put_elem in Hv as [->|Hv]; [by apply Ht|]. apply H1; [by left|done].
  - by rewrite Hf.
  - intros r [Hr|Hr]; apply H3; [left|by right]. by apply (stored_mail (enqueue t s)); [rewrite enqueue_mail|].
Qed.

(** A call keeps the account of any CommandID that it does not use for another
    task, and its result is in the account. *)
Lemma call_account id u t (x : S * net O W) r tr y tr0 :
  t_CommandID u ≠ "" → (t_CommandID t = t_CommandID u → t = u) → accounts id u tr0 x →
  RequestAndAwait outside http_Get RequestURI id t x = (r, tr, y) → account id u (tr0 ++ tr) (option_list r) y.
Proof.
  intros Hne Ht Hx Hrun. destruct (RequestAndAwait_queued id t x) as (z0 & s & Heq & Hz0 & Hc). rewrite Heq in Hrun. clear Heq.
  assert (Hs : accounted id u tr0 s []).
  { destruct (sessions (n_srv x.2) !! id) as [s0|] eqn:Hs0; [subst s0; by apply Hx|by eapply fresh_accounted]. }
  assert (Hacc : account id u tr0 [] z0) by (exists (enqueue t s); split; [done|by apply enqueue_accounted]).
  pose proof (meanwhile_account outside http_Get RequestURI outside_serves id u Hne (n_turns z0.2) z0 tr0 Hacc) as Hm.
  destruct (meanwhile _ _ _ _ z0) as [tr1 z]. cbn [fst snd app] in Hm.
  pose proof (Await_account outside http_Get RequestURI outside_serves id u Hne (t_CommandID t) z _ Hm) as Ha.
  destruct (Await _ _ _ id _ z) as [[r' tr2] z']. simplify_eq. by rewrite app_assoc.
Qed.

Lemma account_accounts id u tr a (x : S * net O W) : account id u tr a x → accounts id u tr x.
Proof.
  intros (s & Hs & H1 & H2 & H3) s' Hs'. unfold at_id in Hs, Hs'. simplify_eq. split_and!; [done..|].
  intros r [Hr|Hr]; [by apply H3; left|by apply elem_of_nil in Hr].
Qed.

(** The CommandID [c] is new to the device's session. *)
Definition unheard (id c : string) (srv : Server) : Prop :=
  ∀ s, sessions srv !! id = Some s →
    (∀ u, holds s u → t_CommandID u ≠ c) ∧ (∀ q, stored s q → tr_CommandID q ≠ c).

Lemma unheard_accounts id u tr (x : S * net O W) : unheard id (t_CommandID u) (n_srv x.2) → accounts id u tr x.
Proof.
  intros Hn s Hs. destruct (Hn s Hs) as [Hh Hst]. split_and!.
  - intros v Hv Hid. by destruct (Hh v Hv).
  - intros Hf. destruct (Hh u); [by right|done].
  - intros r [Hr|Hr] Hid; [by destruct (Hst r Hr)|by apply elem_of_nil in Hr].
Qed.

(** What a call returns for a task whose CommandID is accounted for. *)
Lemma call_answered id t (x : S * net O W) r tr y tr0 :
  t_CommandID t ≠ "" → (∀ s, at_id id x s → sound s) → accounts id t tr0 x →
  RequestAndAwait outside http_Get RequestURI id t x = (Some r, tr, y) →
  tr_CommandID r = t_CommandID t ∧ answered id t (tr0 ++ tr) r.
Proof.
  intros Hne Hsound Hacc Hrun. destruct (call_sound id t x _ _ _ Hsound Hrun) as [_ Hid].
  destruct (Hid r eq_refl) as [?|Hr]; [done|]. split; [exact Hr|].
  destruct (call_account id t t x _ _ _ tr0 Hne (λ _, eq_refl) Hacc Hrun) as (s' & _ & _ & _ & Ha).
  apply (Ha r); [right; by apply list_elem_of_singleton|exact Hr].
Qed.

(** C6: A result that [RequestAndAwait] returns under a CommandID that is new to the
    session is the device's answer to this very task: while the call waited, the
    device's session answered one of its requests with the task, and a later
    message on that session, read as the answer to it, is the result. *)
Theorem fresh_answer_follows_task id t store (n : net O W) r tr store' n' :
  t_CommandID t ≠ "" → all_sound (n_srv n) → unheard id (t_CommandID t) (n_srv n) →
  RequestAndAwait outside http_Get RequestURI id t (store, n) = (Some r, tr, (store', n')) →
  tr_CommandID r = t_CommandID t ∧
  ∃ pre env resp post r0, tr = pre ++ mkServed id env resp :: post ∧
    (∃ env0, mkServed id env0 (request_of t) ∈ pre) ∧
    answer_of env t = Some r0 ∧ r = with_CommandID (t_CommandID t) r0.
Proof.
  intros Hne Hall Hnew Hrun.
  exact (call_answered id t (store, n) r tr _ [] Hne (λ s, Hall id s) (unheard_accounts id t [] (store, n) Hnew) Hrun).
Qed.

(** C14: A call of [RequestAndAwait] on the server, whatever the devices, the
    goroutines and the select do meanwhile, is a run of the waiters' system of
    the device's session, in which a waiter for the task's CommandID starts and
    returns what the call returns. *)
Theorem RequestAndAwait_refines id t store (n : net O W) r tr store' n' s :
  sessions (n_srv n) !! id = Some s →
  RequestAndAwait outside http_Get RequestURI id t (store, n) = (r, tr, (store', n')) →
  ∃ s', sessions (n_srv n') !! id = Some s' ∧
    ∀ aws sd pub, ∃ pub', rtc sys_step (mkSystem s aws sd pub) (mkSystem s' (aws ++ [AwDone (t_CommandID t) r]) sd pub').
Proof.
  intros Hs Hrun. destruct (call_run id t _ _ _ _ Hrun) as (s1 & s' & Hc & Hs' & Hr). cbn [snd] in Hc.
  rewrite Hs in Hc. subst s1. by exists s'.
Qed.
End Properties.

(** ** Witnesses

    A reboot queued for a device that the agent has not read yet: the device
    fetches the read of its tree before the caller is waiting, then the reboot,
    and acknowledges it. *)
Definition ex_decode (body : string) : option Envelope :=
  if decide (body = "R") then Some (mkEnvelope "8" (mkBody None None None None None None None None (Some tt))) else None.
Definition ex_post (body : string) : turn (Z * http_request) :=
  Outside (6%Z, mkReq "10.0.0.9" (Some ex_id) (Some body)).
Definition ex_turns : list (turn (Z * http_request)) :=
  [ex_post ""; Wake Mine; Dial 0; Wake Shared; ex_post " "; ex_post "R"; Wake Mine; ex_post ""].
Definition ex_net : net (Z * http_request) nat := mkNet ex_x1.1 [] ex_turns 0.
Abbreviation ex_call :=
  (RequestAndAwait (requests ex_decode) (λ _ _ w, (inr (200%Z, ""), S w)) (λ _, None) ex_id ex_reboot_task (ex_x1.2, ex_net)).
Definition ex_answer : TaskResult := mkResult "c1" TaskReboot ∅ [] 0 "".
Definition ex_session1 : Session := default (newSessionLocked NewServer) (sessions (ex_x1.1) !! ex_id).

Lemma ex_call_run : ex_call.1.1 = Some ex_answer ∧ length ex_call.1.2 = 3 ∧ n_out ex_call.2.2 = 1 ∧
  n_turns ex_call.2.2 = [ex_post ""].
Proof. vm_compute. done. Qed.

Lemma ex_session1_at : sessions (n_srv ex_net) !! ex_id = Some ex_session1.
Proof. vm_compute. reflexivity. Qed.

Lemma ex_session1_new : sound ex_session1 ∧ taskQueue ex_session1 = [task TaskGPN ["Device."]] ∧
  inflight ex_session1 = None ∧ results ex_session1 = [] ∧ chans ex_session1 = [].
Proof. split; [apply idle_sound|]; vm_compute; done. Qed.

Lemma tuple_eta {A B C D} (x : A * B * (C * D)) a : x.1.1 = a → x = (a, x.1.2, (x.2.1, x.2.2)).
Proof. by destruct x as [[] []]; intros <-. Qed.

Lemma ex_call_eq : ex_call = (Some ex_answer, ex_call.1.2, (ex_call.2.1, ex_call.2.2)).
Proof. exact (tuple_eta _ _ (proj1 ex_call_run)). Qed.

Lemma RequestAndAwait_refines_witness : ∃ s' pub',
  rtc sys_step (mkSystem ex_session1 [] [] []) (mkSystem s' [AwDone "c1" (Some ex_answer)] [] pub').
Proof.
  destruct (RequestAndAwait_refines _ _ _ (requests_serve _) _ _ _ _ _ _ _ _ _ ex_session1_at ex_call_eq) as (s' & _ & Hr).
  destruct (Hr [] [] []) as [pub' ?]. by exists s', pub'.
Defined.

Lemma ex_net_sound : all_sound (n_srv ex_net).
Proof.
  intros k s Hk. assert (Hone : sessions (n_srv ex_net) = {[ex_id := ex_session1]}) by (vm_compute; reflexivity).
  rewrite Hone in Hk. apply lookup_singleton_Some in Hk as [_ <-]. apply ex_session1_new.
Qed.

Lemma ex_net_unheard c : c ≠ "" → unheard ex_id c (n_srv ex_net).
Proof.
  intros Hc0 s Hs. assert (s = ex_session1) as -> by exact (inj Some _ _ (transitivity (symmetry Hs) ex_session1_at)).
  destruct ex_session1_new as (_ & Hq & Hf & Hr & Hc). unfold holds, stored.
  rewrite Hq, Hf, Hr, Hc. split.
  - intros u [->%list_elem_of_singleton|Hu]; [exact (not_eq_sym Hc0)|done].
  - intros q [Hin|Hin]; destruct (proj1 (elem_of_nil _) Hin).
Qed.

Lemma fresh_answer_follows_task_witness : ∃ pre env resp post,
  ex_call.1.2 = pre ++ mkServed ex_id env resp :: post ∧ ∃ env0, mkServed ex_id env0 (Some (Reboot "k")) ∈ pre.
Proof.
  assert (Hne : t_CommandID ex_reboot_task ≠ "") by done.
  destruct (fresh_answer_follows_task _ _ _ (requests_serve _) _ _ _ _ _ _ _ _ Hne ex_net_sound (ex_net_unheard _ Hne) ex_call_eq)
    as (_ & pre & env & resp & post & _ & Heq & Hsent & _).
  exists pre, env, resp, post. exact (conj Heq Hsent).
Defined.
