(* ===== verification/Collector.v ===== *)
(** * FTP log ingestion (goagent/internal/collector/collector.go)

    The collector polls the watch directory, resolves each periodic upload to an
    onboarded device, parses it into events and remembers what it is done with.
    A scan is cut where other goroutines may step in: it begins ([scan_begin]),
    handles the directory entries one by one ([scan_entry]) and ends
    ([scan_finish]). *)
From S2P Require Import Prelude GoStrings DeviceId Regexp GoTime CloudTypes Rules Db Ledger CwmpTypes CwmpStore.

(** ** The ledger interface *)

Class IngestLedger (S : Type) := {
  led_Load : S → result go_error (gmap string FTPStamp) * S;
  led_Mark : Z → list FTPMark → S → result go_error unit * S;
  led_Forget : list string → S → result go_error unit * S }.

#[export] Instance Buffer_IngestLedger : IngestLedger sql := {
  led_Load := LoadFTPIngested;
  led_Mark := MarkFTPIngested;
  led_Forget := ForgetFTPIngested }.

(** ** Constants *)

Definition maxDeferTicks : nat := 30.
Definition resolveRetryTicks : nat := 30.
Definition maxParseRetries : nat := 5.
Definition rewriteCheckTicks : nat := 30.

(** ** State *)

Record eventMark := mkEventMark { em_mark : FTPMark; em_end : nat }.

Record FTPBatch := mkBatch { Events : list EventItem; marks : list eventMark }.

(** [with_ledger] is [c.ledger != nil]; [c_ftpDir] is the watch directory as
    [filepath.Join] cleans it.  A tick or failure count that is absent is Go's
    zero value. *)
Record Collector := mkCollector {
  c_ftpDir : string;
  with_ledger : bool;
  events : list EventItem;
  eventMarks : list eventMark;
  requeued : list FTPMark;
  seenPaths : gmap string FTPStamp;
  deferred : gmap string nat;
  parseFails : gmap string nat;
  scans : nat;
  pendingMarks : list FTPMark }.

Definition New (dir : string) : Collector := mkCollector dir false [] [] [] ∅ ∅ ∅ 0 [].

Definition set_queue v w c := mkCollector (c_ftpDir c) (with_ledger c) v w (requeued c)
  (seenPaths c) (deferred c) (parseFails c) (scans c) (pendingMarks c).
Definition set_requeued v c := mkCollector (c_ftpDir c) (with_ledger c) (events c) (eventMarks c) v
  (seenPaths c) (deferred c) (parseFails c) (scans c) (pendingMarks c).
Definition set_seenPaths v c := mkCollector (c_ftpDir c) (with_ledger c) (events c) (eventMarks c) (requeued c)
  v (deferred c) (parseFails c) (scans c) (pendingMarks c).
Definition set_deferred v c := mkCollector (c_ftpDir c) (with_ledger c) (events c) (eventMarks c) (requeued c)
  (seenPaths c) v (parseFails c) (scans c) (pendingMarks c).
Definition set_parseFails v c := mkCollector (c_ftpDir c) (with_ledger c) (events c) (eventMarks c) (requeued c)
  (seenPaths c) (deferred c) v (scans c) (pendingMarks c).
Definition set_scans v c := mkCollector (c_ftpDir c) (with_ledger c) (events c) (eventMarks c) (requeued c)
  (seenPaths c) (deferred c) (parseFails c) v (pendingMarks c).
Definition set_pendingMarks v c := mkCollector (c_ftpDir c) (with_ledger c) (events c) (eventMarks c) (requeued c)
  (seenPaths c) (deferred c) (parseFails c) (scans c) v.

Definition count (p : string) (m : gmap string nat) : nat := default 0 (m !! p).

(** ** Upload names *)

Definition isPeriodicLog (name : string) : bool :=
  HasSuffix name ".gz" && (HasPrefix name "Log_" || HasPrefix name "ErrorLog_").

Definition isLogUpload (name : string) : bool := isPeriodicLog name.

Definition ouiSerialFromName (path : string) : string * string :=
  let base := Base path in
  if isPeriodicLog base then
    let tail := TrimSuffix base ".gz" in
    let tail := match LastIndexByte tail "_" with
                | Some i => str_drop (S i) tail
                | None => tail
                end in
    match Cut tail "." with
    | Some (o, s) => (o, s)
    | None => ("", "")
    end
  else
    match SplitNByte 3 (TrimSuffix base ".tgz") "_" with
    | o :: s :: _ => (o, s)
    | _ => ("", "")
    end.

(** [mtime] is the result of [os.Stat], [None] when it fails. *)
Definition occurrenceBucket (path : string) (mtime : option Z) : string :=
  let base := Base path in
  let by_mtime := match mtime with Some t => date8 t | None => "" end in
  if isPeriodicLog base then
    let rest := TrimPrefix (TrimPrefix base "ErrorLog_") "Log_" in
    match Cut rest "." with
    | Some (date, _) => if decide (String.length date = 8) then date else by_mtime
    | None => by_mtime
    end
  else by_mtime.

(** ** The directory

    What one poll sees of a directory entry: [en_Info] is [stampOf], [en_Gunzip]
    what reading at most [maxLogBytes] through gzip yields, [en_mtime] what
    [os.Stat] yields; each may fail. *)
Record entry := mkEntry {
  en_Name : string;
  en_IsDir : bool;
  en_Info : option FTPStamp;
  en_Gunzip : option string;
  en_mtime : option Z }.

Definition Join2 (dir name : string) : string := dir +:+ "/" +:+ name.

Definition is_upload (e : entry) : bool := negb (en_IsDir e) && isLogUpload (en_Name e).

(** ** Hand-over to the worker *)

Definition MarksIn (b : FTPBatch) (start end_ : nat) : list FTPMark :=
  em_mark <$> filter (λ m, start < em_end m ∧ em_end m ≤ end_) (marks b).

Definition DrainFTP (c : Collector) : FTPBatch * Collector :=
  (mkBatch (events c) (eventMarks c), set_queue [] [] c).

Definition Requeue (ms : list FTPMark) (c : Collector) : Collector :=
  match ms with
  | [] => c
  | _ => set_requeued (requeued c ++ ms) c
  end.

Definition forget_mark (m : FTPMark) (seen : gmap string FTPStamp) : gmap string FTPStamp :=
  match seen !! Path m with
  | Some st => if decide (st = Stamp m) then delete (Path m) seen else seen
  | None => seen
  end.

Definition takeRequeued (c : Collector) : Collector :=
  set_seenPaths (foldl (flip forget_mark) (seenPaths c) (requeued c)) (set_requeued [] c).

(** ** Scanning *)

Definition markSeen (path : string) (stamp : FTPStamp) (evs : list EventItem) (c : Collector) : Collector :=
  let c := set_seenPaths (<[path := stamp]> (seenPaths c)) c in
  let c := set_deferred (delete path (deferred c)) c in
  let c := set_parseFails (delete path (parseFails c)) c in
  let mark := mkMark path stamp in
  match evs with
  | [] => if with_ledger c then set_pendingMarks (pendingMarks c ++ [mark]) c else c
  | _ =>
      let evs := events c ++ evs in
      set_queue evs (if with_ledger c then eventMarks c ++ [mkEventMark mark (length evs)] else eventMarks c) c
  end.

Section Scan.
Context {S : Type} `{Store S}.
Variable engine : Engine.

Definition eventsFromGzipLog (now : Z) (path : string) (e : entry) (deviceID : string) : option (list EventItem) :=
  content ← en_Gunzip e;
  Some (Apply engine now (SplitByte content (byte_of 10)) deviceID (occurrenceBucket path (en_mtime e))).

Definition parseUpload (now : Z) (path : string) (e : entry) (deviceID : string) : option (list EventItem) :=
  eventsFromGzipLog now path e deviceID.

(** *** The parked readers, which [parseUpload] does not dispatch to *)

(** A bare log; [content] is what [os.ReadFile] yields. *)
Definition eventsFromLog (now : Z) (path : string) (content : option string) (mtime : option Z) (deviceID : string) :
  option (list EventItem) :=
  b ← content;
  Some (Apply engine now (SplitByte b (byte_of 10)) deviceID (occurrenceBucket path mtime)).

(** An entry of a tar archive; [te_Read] is what reading at most 2 MiB of it
    yields, which may fail. *)
Record tar_entry := mkTarEntry { te_IsDir : bool; te_Read : option string }.

(** The loop over the entries; [eof] tells whether [tr.Next] ends with [io.EOF]
    after them or with another error. *)
Fixpoint archive_loop (now : Z) (deviceID bucket : string) (eof : bool) (entries : list tar_entry)
  (out : list EventItem) : option (list EventItem) :=
  match entries with
  | [] => if eof then Some out else None
  | h :: rest =>
      if te_IsDir h then archive_loop now deviceID bucket eof rest out
      else
        b ← te_Read h;
        archive_loop now deviceID bucket eof rest (out ++ Apply engine now (SplitByte b (byte_of 10)) deviceID bucket)
  end.

(** A ring dump; [archive] is [None] when it cannot be opened or is not gzip. *)
Definition eventsFromArchive (now : Z) (path : string) (archive : option (list tar_entry * bool)) (mtime : option Z)
  (deviceID : string) : option (list EventItem) :=
  '(entries, eof) ← archive;
  archive_loop now deviceID (occurrenceBucket path mtime) eof entries [].

(** The loop over the device records. *)
Fixpoint find_device (oui serial : string) (devices : list DeviceRecord) : option string :=
  match devices with
  | [] => None
  | d :: rest =>
      if bool_decide (d_SerialNumber d = serial) && HasPrefix (d_DeviceID d) (oui +:+ "-")
      then Some (d_DeviceID d)
      else find_device oui serial rest
  end.

Definition resolveDeviceID (path : string) (store : S) : option string * S :=
  let '(oui, serial) := ouiSerialFromName path in
  if decide (oui = "" ∨ serial = "") then (None, store)
  else let '(devices, store) := ListDevices store in (find_device oui serial devices, store).

(** The polls on which an upload deferred [tick] times is looked up again. *)
Definition skip_lookup (tick : nat) : bool :=
  bool_decide (maxDeferTicks ≤ tick ∧ (tick - maxDeferTicks) mod resolveRetryTicks ≠ 0).

(** An upload that is not (or no longer) seen. *)
Definition ingest (now : Z) (path : string) (e : entry) (x : Collector * S) : Collector * S :=
  let '(c, store) := x in
  if skip_lookup (count path (deferred c)) then
    (set_deferred (<[path := 1 + count path (deferred c)]> (deferred c)) c, store)
  else
    let '(device, store) := resolveDeviceID path store in
    match device with
    | None => (set_deferred (<[path := 1 + count path (deferred c)]> (deferred c)) c, store)
    | Some deviceID =>
        match en_Info e with
        | None => (c, store)
        | Some stamp =>
            match parseUpload now path e deviceID with
            | None =>
                let c := set_parseFails (<[path := 1 + count path (parseFails c)]> (parseFails c)) c in
                if decide (count path (parseFails c) < maxParseRetries) then (c, store)
                else (markSeen path stamp [] c, store)
            | Some evs => (markSeen path stamp evs c, store)
            end
        end
    end.

(** The body of the loop over the directory entries. *)
Definition scan_entry (now : Z) (checkRewrites : bool) (e : entry) (x : Collector * S) : Collector * S :=
  let '(c, store) := x in
  if is_upload e then
    let path := Join2 (c_ftpDir c) (en_Name e) in
    match seenPaths c !! path with
    | Some st =>
        if checkRewrites then
          match en_Info e with
          | None => x
          | Some cur =>
              if decide (cur = st) then x
              else ingest now path e (set_seenPaths (delete path (seenPaths c)) c, store)
          end
        else x
    | None => ingest now path e x
    end
  else x.

(** Up to the loop: [os.ReadDir] succeeded. *)
Definition scan_begin (c : Collector) : bool * Collector :=
  (bool_decide (scans c mod rewriteCheckTicks = 0), set_scans (1 + scans c) c).

Definition present_paths (dir : string) (entries : list entry) : list string :=
  (λ e, Join2 dir (en_Name e)) <$> filter (λ e, is_upload e = true) entries.
End Scan.

Definition keepPresent (present : list string) (ms : list FTPMark) : list FTPMark :=
  filter (λ m, Path m ∈ present) ms.

Definition keep_eventMarks (present : list string) (ms : list eventMark) : list eventMark :=
  filter (λ m, Path (em_mark m) ∈ present) ms.

Definition keep_paths {A} (present : list string) (m : gmap string A) : gmap string A :=
  filter (λ kv, kv.1 ∈ present) m.

Definition gone_paths (present : list string) (m : gmap string FTPStamp) : list string :=
  (map_to_list (filter (λ kv, kv.1 ∉ present) m)).*1.

Section Finish.
Context {S : Type} `{IngestLedger S}.

Definition persistScan (now : Z) (present gone : list string) (x : Collector * S) : Collector * S :=
  let '(c, store) := x in
  if with_ledger c then
    let '(c, store) :=
      match gone with
      | [] => (c, store)
      | _ =>
          let '(_, store) := led_Forget gone store in (* an error is logged *)
          let c := set_pendingMarks (keepPresent present (pendingMarks c)) c in
          (set_queue (events c) (keep_eventMarks present (eventMarks c)) c, store)
      end in
    match pendingMarks c with
    | [] => (c, store)
    | ms =>
        match led_Mark now ms store with
        | (Err _, store) => (c, store) (* will retry *)
        | (Ok _, store) => (set_pendingMarks [] c, store)
        end
    end
  else x.

(** After the loop. *)
Definition scan_finish (now : Z) (entries : list entry) (x : Collector * S) : Collector * S :=
  let '(c, store) := x in
  let present := present_paths (c_ftpDir c) entries in
  let gone := gone_paths present (seenPaths c) in
  let c := set_seenPaths (keep_paths present (seenPaths c)) c in
  let c := set_deferred (keep_paths present (deferred c)) c in
  let c := set_parseFails (keep_paths present (parseFails c)) c in
  persistScan now present gone (c, store).

(** [UseIngestLedger]. *)
Definition UseIngestLedger (x : Collector * S) : option go_error * (Collector * S) :=
  let '(c, store) := x in
  match led_Load store with
  | (Err e, store) => (Some e, (c, store))
  | (Ok seen, store) =>
      (None, (mkCollector (c_ftpDir c) true (events c) (eventMarks c) (requeued c) seen (deferred c)
                (parseFails c) (scans c) (pendingMarks c), store))
  end.

Context `{Store S}.
Variable engine : Engine.

(** One poll; [entries] is what [os.ReadDir] returns, [None] when it fails. *)
Definition scanFTP (now : Z) (entries : option (list entry)) (x : Collector * S) : Collector * S :=
  let '(c, store) := x in
  let c := takeRequeued c in
  match entries with
  | None => (c, store)
  | Some entries =>
      let '(check, c) := scan_begin c in
      scan_finish now entries (foldl (λ x e, scan_entry engine now check e x) (c, store) entries)
  end.

(** [ScanFTP] runs one poll, as the ticker of [WatchFTP] does. *)
Definition ScanFTP (now : Z) (entries : option (list entry)) (x : Collector * S) : Collector * S := scanFTP now entries x.
End Finish.

(** ** Inventory and cached values *)

Definition truthy (v : string) : bool :=
  bool_decide (v = "1") || EqualFold v "true" || EqualFold v "up".

Definition ToAnyMap (m : gmap string string) : gmap string any := AString <$> m.

Definition pathRFTxStatus : string := "Device.Services.FAPService.1.FAPControl.LTE.RFTxStatus".
Definition pathOpState : string := "Device.Services.FAPService.1.FAPControl.LTE.OpState".
Definition pathLANIP : string := "Device.LAN.IPAddress".
Definition pathWANIP : string := "Device.WAN.IPAddress".
Definition inventoryStatusPaths : list string := [pathRFTxStatus; pathOpState; pathLANIP; pathWANIP].

Section Inventory.
Context {S : Type} `{Store S}.

Definition inventory_item (d : DeviceRecord) (store : S) : InventoryItem * S :=
  let '(st, store) := GetParams (d_DeviceID d) inventoryStatusPaths store in
  (mkItem (d_DeviceID d) (d_SerialNumber d) (d_ProductClass d)
     (default "" (st !! pathLANIP)) (default "" (st !! pathWANIP)) (d_SWVersion d)
     (truthy <$> st !! pathRFTxStatus) (truthy <$> st !! pathOpState)
     (if decide (d_LastInformAt d = 0%Z) then "" else RFC3339 (d_LastInformAt d)), store).

Fixpoint inventory_loop (records : list DeviceRecord) (store : S) : list InventoryItem * S :=
  match records with
  | [] => ([], store)
  | d :: rest =>
      let '(item, store) := inventory_item d store in
      let '(out, store) := inventory_loop rest store in
      (item :: out, store)
  end.

Definition Inventory (store : S) : list InventoryItem * S :=
  let '(records, store) := ListDevices store in inventory_loop records store.
End Inventory.

(** ** Lemmas: what handling one entry can do *)

Section ScanLemmas.
Context {S : Type} `{Store S}.
Variable engine : Engine.

(** The archive reader yields events only when it could read every file to the
    end, and then those of its files in order, as if each were a bare log. *)
Lemma archive_loop_spec now dev bucket eof entries : ∀ out evs,
  archive_loop engine now dev bucket eof entries out = Some evs →
  eof = true ∧ ∃ contents, te_Read <$> filter (λ h, te_IsDir h = false) entries = Some <$> contents ∧
    evs = out ++ (contents ≫= λ b, Apply engine now (SplitByte b (byte_of 10)) dev bucket).
Proof.
  induction entries as [|h entries IH]; intros out evs; cbn [archive_loop].
  - destruct eof; [|done]. intros [= <-]. split; [done|]. exists []. simpl. by rewrite app_nil_r.
  - rewrite filter_cons. destruct (te_IsDir h) eqn:Hd; [by apply IH|].
    destruct (te_Read h) as [b|] eqn:Hb; [|done]. cbn [mbind option_bind].
    intros (-> & contents & Hc & ->)%IH. split; [done|]. exists (b :: contents).
    rewrite decide_True by done. split; [by rewrite !fmap_cons, Hb, Hc|by rewrite bind_cons, app_assoc].
Qed.

Theorem archive_reads_as_logs now path archive mtime dev evs :
  eventsFromArchive engine now path archive mtime dev = Some evs →
  ∃ entries logs, archive = Some (entries, true) ∧
    (λ h, eventsFromLog engine now path (te_Read h) mtime dev) <$> filter (λ h, te_IsDir h = false) entries = Some <$> logs ∧
    evs = concat logs.
Proof.
  unfold eventsFromArchive. destruct archive as [[entries eof]|]; [|done]. cbn [mbind option_bind].
  intros (-> & contents & Hc & ->)%archive_loop_spec.
  exists entries, ((λ b, Apply engine now (SplitByte b (byte_of 10)) dev (occurrenceBucket path mtime)) <$> contents).
  split_and!; [done| |by rewrite <- flat_map_concat_map].
  assert (Hf : ∀ l : list tar_entry, (λ h, eventsFromLog engine now path (te_Read h) mtime dev) <$> l =
    (λ r, eventsFromLog engine now path r mtime dev) <$> (te_Read <$> l)) by (intros l; by rewrite <- list_fmap_compose).
  by rewrite Hf, Hc, <- !list_fmap_compose.
Qed.

(** The upload [path] was resolved to [dev] from the devices the store lists. *)
Definition resolved (path dev : string) (devices : list DeviceRecord) : Prop :=
  ∃ oui serial d, ouiSerialFromName path = (oui, serial) ∧ oui ≠ "" ∧ serial ≠ "" ∧
    d ∈ devices ∧ d_SerialNumber d = serial ∧ d_DeviceID d = dev ∧ HasPrefix dev (oui +:+ "-") = true.

Lemma find_device_spec oui serial devices :
  match find_device oui serial devices with
  | Some dev => ∃ d, d ∈ devices ∧ d_SerialNumber d = serial ∧ d_DeviceID d = dev ∧
                     HasPrefix dev (oui +:+ "-") = true
  | None => ∀ d, d ∈ devices → d_SerialNumber d = serial → HasPrefix (d_DeviceID d) (oui +:+ "-") = false
  end.
Proof.
  induction devices as [|d devices IH]; simpl; [set_solver|].
  destruct (bool_decide (d_SerialNumber d = serial) && HasPrefix (d_DeviceID d) (oui +:+ "-")) eqn:Hd.
  - apply andb_true_iff in Hd as [Hs Hp]. apply bool_decide_eq_true in Hs. exists d. split_and!; try done. by left.
  - destruct (find_device oui serial devices) as [dev|].
    + destruct IH as (d' & Hin & ?). exists d'. split; [by right|done].
    + intros d' [->|Hin]%elem_of_cons Hs; [|by apply IH].
      rewrite bool_decide_true in Hd by done. by destruct (HasPrefix (d_DeviceID d) (oui +:+ "-")).
Qed.

Lemma resolveDeviceID_spec path (store : S) dev store' :
  resolveDeviceID path store = (Some dev, store') →
  resolved path dev (ListDevices store).1 ∧ store' = (ListDevices store).2.
Proof.
  unfold resolveDeviceID. destruct (ouiSerialFromName path) as [oui serial] eqn:Hn.
  case_decide as Hne; [done|]. destruct (ListDevices store) as [devices store1]. intros Heq.
  injection Heq as Hfd <-. cbn [fst snd].
  pose proof (find_device_spec oui serial devices) as Hf. rewrite Hfd in Hf.
  destruct Hf as (d & ? & ? & ? & ?). split; [|done]. exists oui, serial, d.
  split_and!; try done; intros ->; tauto.
Qed.

(** Either the entry is left for a later poll, or it is marked: with no events
    after the last failed read, or with the events of its content, attributed
    to a device the store lists. *)
Definition entry_outcome (now : Z) (path : string) (e : entry) (store : S) (c c' : Collector) : Prop :=
  (∃ df pf, c' = set_deferred df (set_parseFails pf c)) ∨
  (∃ pf stamp evs, en_Info e = Some stamp ∧ c' = markSeen path stamp evs (set_parseFails pf c) ∧
     (evs = [] ∧ en_Gunzip e = None ∨
      ∃ dev, parseUpload engine now path e dev = Some evs ∧ resolved path dev (ListDevices store).1)).

Lemma set_deferred_same c : set_deferred (deferred c) c = c.
Proof. by destruct c. Qed.
Lemma set_parseFails_same c : set_parseFails (parseFails c) c = c.
Proof. by destruct c. Qed.

Lemma ingest_cases now path e c (store : S) :
  entry_outcome now path e store c (ingest engine now path e (c, store)).1.
Proof.
  unfold ingest, entry_outcome. destruct (skip_lookup _).
  { left. eexists _, (parseFails c). by rewrite set_parseFails_same. }
  destruct (resolveDeviceID path store) as [[dev|] store1] eqn:Hr.
  2: { left. eexists _, (parseFails c). by rewrite set_parseFails_same. }
  apply resolveDeviceID_spec in Hr as [Hres _].
  destruct (en_Info e) as [stamp|].
  2: { left. eexists (deferred c), (parseFails c). by rewrite set_parseFails_same, set_deferred_same. }
  destruct (parseUpload engine now path e dev) as [evs|] eqn:Hp.
  - right. exists (parseFails c), stamp, evs. rewrite set_parseFails_same. split_and!; [done|done|].
    right. by exists dev.
  - cbn [fst]. case_decide; cbn [fst].
    + left. exists (deferred c), (<[path := 1 + count path (parseFails c)]> (parseFails c)). by destruct c.
    + right. eexists _, stamp, []. split_and!; [done|done|left]. split; [done|].
      unfold parseUpload, eventsFromGzipLog in Hp. by destruct (en_Gunzip e).
Qed.

(** The collector just before the ingestion of an entry, if it gets that far. *)
Lemma scan_entry_cases now check e c (store : S) :
  (scan_entry engine now check e (c, store)).1 = c ∨
  ∃ c0, (c0 = c ∧ seenPaths c !! Join2 (c_ftpDir c) (en_Name e) = None ∨
         c0 = set_seenPaths (delete (Join2 (c_ftpDir c) (en_Name e)) (seenPaths c)) c) ∧
        is_upload e = true ∧
        entry_outcome now (Join2 (c_ftpDir c) (en_Name e)) e store c0
          (scan_entry engine now check e (c, store)).1.
Proof.
  unfold scan_entry. destruct (is_upload e) eqn:Hu; [|by left]. cbv zeta.
  destruct (seenPaths c !! _) as [st|] eqn:Hs.
  - destruct check; [|by left]. destruct (en_Info e) as [cur|] eqn:Hi; [|by left].
    case_decide; [by left|]. right. eexists. split; [by right|]. split; [done|]. apply ingest_cases.
  - right. exists c. split; [by left|]. split; [done|]. apply ingest_cases.
Qed.

(** *** The marks' indices *)

(** Marks are in order of their ends, and these lie within the queued events. *)
Definition ends_ok (n : nat) (ms : list eventMark) : Prop :=
  StronglySorted (λ a b, em_end a < em_end b) ms ∧ Forall (λ m, 0 < em_end m ∧ em_end m ≤ n) ms.

Lemma ends_ok_nil n : ends_ok n [].
Proof. split; constructor. Qed.

Lemma ends_ok_push n ms mk k : ends_ok n ms → 0 < k → ends_ok (n + k) (ms ++ [mkEventMark mk (n + k)]).
Proof.
  intros [Hs Hb] Hk. split.
  - induction Hs as [|m ms Hs IH Hm]; simpl; [repeat constructor|]. apply Forall_cons in Hb as [Hb Hbs].
    constructor; [auto|]. apply Forall_app. split; [done|]. constructor; [simpl; lia|constructor].
  - apply Forall_app. split; [|constructor; [simpl; lia|constructor]].
    eapply Forall_impl; [done|]. simpl. intros. lia.
Qed.

Lemma ends_ok_filter n ms P `{!∀ m, Decision (P m)} : ends_ok n ms → ends_ok n (filter P ms).
Proof.
  intros [Hs Hb]. split.
  - induction Hs as [|m ms Hs IH Hm]; [constructor|]. apply Forall_cons in Hb as [_ Hb]. rewrite filter_cons.
    case_decide; [|auto]. constructor; [auto|]. rewrite Forall_forall in *. intros x Hx.
    apply Hm. by apply list_elem_of_filter in Hx as [_ ?].
  - rewrite Forall_forall in *. intros x [_ Hx]%list_elem_of_filter. by apply Hb.
Qed.

Definition queue_ok (c : Collector) : Prop := ends_ok (length (events c)) (eventMarks c).

Lemma markSeen_queue path stamp evs c : queue_ok c → queue_ok (markSeen path stamp evs c).
Proof.
  unfold queue_ok, markSeen. intros Hq. destruct evs as [|ev evs]; simpl; [by case_match|].
  rewrite length_app. simpl. destruct (with_ledger c).
  - apply ends_ok_push; [done|lia].
  - destruct Hq as [Hs Hb]. split; [done|]. eapply Forall_impl; [done|]. simpl. intros. lia.
Qed.

Lemma scan_entry_queue now check e c (store : S) :
  queue_ok c → queue_ok (scan_entry engine now check e (c, store)).1.
Proof.
  intros Hq. destruct (scan_entry_cases now check e c store) as [->|(c0 & Hc0 & _ & Ho)]; [done|].
  assert (Hq0 : queue_ok c0) by (by destruct Hc0 as [[-> _]| ->]).
  destruct Ho as [(df & pf & ->)|(pf & stamp & evs & _ & -> & _)]; [done|]. by apply markSeen_queue.
Qed.
End ScanLemmas.

(** *** Splitting a batch's marks between bodies *)

Lemma MarksIn_split b i j k : i ≤ j → j ≤ k → MarksIn b i k ≡ₚ MarksIn b i j ++ MarksIn b j k.
Proof.
  intros Hij Hjk. unfold MarksIn. rewrite <- fmap_app. apply fmap_Permutation.
  induction (marks b) as [|m ms IH]; [done|]. rewrite !filter_cons.
  destruct (decide (i < em_end m ∧ em_end m ≤ k)) as [H1|H1],
    (decide (i < em_end m ∧ em_end m ≤ j)) as [H2|H2],
    (decide (j < em_end m ∧ em_end m ≤ k)) as [H3|H3]; try (exfalso; lia); simpl.
  - by rewrite IH.
  - rewrite IH. by rewrite Permutation_middle.
  - done.
Qed.

Lemma MarksIn_all b : ends_ok (length (Events b)) (marks b) → MarksIn b 0 (length (Events b)) = em_mark <$> marks b.
Proof. intros [_ Hb]. unfold MarksIn. f_equal. by apply list_filter_all. Qed.

(** One event carries at most one mark. *)
Lemma MarksIn_small b i j : ends_ok (length (Events b)) (marks b) → j ≤ S i → length (MarksIn b i j) ≤ 1.
Proof.
  intros [Hs _] Hij. unfold MarksIn. rewrite length_fmap.
  induction Hs as [|m ms Hs IH Hm]; [simpl; lia|]. rewrite filter_cons. case_decide as Hd; [|done].
  rewrite list_filter_none; [simpl; lia|]. eapply Forall_impl; [done|]. simpl. intros. lia.
Qed.

(** *** The end of a scan *)

Section FinishLemmas.
Context {S : Type} `{IngestLedger S}.

Lemma persistScan_keeps now present gone c (store : S) :
  let c' := (persistScan now present gone (c, store)).1 in
  seenPaths c' = seenPaths c ∧ deferred c' = deferred c ∧ parseFails c' = parseFails c ∧
  events c' = events c ∧ requeued c' = requeued c ∧ with_ledger c' = with_ledger c ∧ scans c' = scans c ∧
  c_ftpDir c' = c_ftpDir c ∧
  (eventMarks c' = eventMarks c ∨ eventMarks c' = keep_eventMarks present (eventMarks c)) ∧
  (∀ m, m ∈ pendingMarks c' → m ∈ pendingMarks c).
Proof.
  unfold persistScan. destruct (with_ledger c) eqn:Hw; [|simpl; rewrite Hw; split_and!; auto].
  destruct gone as [|g gone]; simpl.
  - destruct (pendingMarks c) as [|m ms] eqn:Hp; simpl; [rewrite Hw, Hp; split_and!; auto|].
    destruct (led_Mark now (m :: ms) store) as [[[]|e] store']; simpl; rewrite Hw; split_and!; auto; [set_solver|].
    by rewrite Hp.
  - destruct (led_Forget (g :: gone) store) as [r store']. simpl.
    assert (Hk : ∀ x, x ∈ keepPresent present (pendingMarks c) → x ∈ pendingMarks c).
    { intros x [_ Hx]%list_elem_of_filter. done. }
    destruct (keepPresent present (pendingMarks c)) as [|m ms] eqn:Hp; simpl.
    + rewrite Hw. split_and!; auto.
    + destruct (led_Mark now (m :: ms) store') as [[[]|e] store'']; simpl; rewrite Hw; split_and!; auto; set_solver.
Qed.

Lemma keep_paths_dom {A} present (m : gmap string A) p : is_Some (keep_paths present m !! p) → p ∈ present.
Proof. intros [x Hx]. unfold keep_paths in Hx. by apply map_lookup_filter_Some in Hx as [_ ?]. Qed.
End FinishLemmas.

(** *** Upload names *)

(** The name of a periodic upload, as the device builds it. *)
Definition periodic_name (error : bool) (date rest oui serial : string) : string :=
  (if error then "ErrorLog_" else "Log_") +:+ date +:+ "." +:+ rest +:+ "_" +:+ oui +:+ "." +:+ serial +:+ ".gz".

Lemma Base_join dir name : no_byte "/" name = true → Base (Join2 dir name) = name.
Proof.
  intros Hn. unfold Base, Join2. change (dir +:+ "/" +:+ name) with (dir +:+ String "/" name).
  rewrite LastIndexByte_app by done.
  replace (S (String.length dir)) with (String.length dir + 1) by lia. by rewrite str_drop_app_plus.
Qed.

Lemma periodic_name_suffix error date rest oui serial :
  periodic_name error date rest oui serial =
    ((if error then "ErrorLog_" else "Log_") +:+ date +:+ "." +:+ rest +:+ "_" +:+ oui +:+ "." +:+ serial) +:+ ".gz".
Proof. unfold periodic_name. by rewrite !str_app_assoc. Qed.

Lemma periodic_name_is error date rest oui serial : isPeriodicLog (periodic_name error date rest oui serial) = true.
Proof.
  unfold isPeriodicLog. rewrite periodic_name_suffix, HasSuffix_app. simpl. rewrite <- periodic_name_suffix.
  unfold periodic_name. destruct error; rewrite ?HasPrefix_app; [|done]. by rewrite orb_true_r.
Qed.

Lemma ouiSerialFromName_periodic dir error date rest oui serial :
  no_byte "/" (periodic_name error date rest oui serial) = true →
  no_byte "_" oui = true → no_byte "_" serial = true → no_byte "." oui = true →
  ouiSerialFromName (Join2 dir (periodic_name error date rest oui serial)) = (oui, serial).
Proof.
  intros Hn Ho Hs Hd. unfold ouiSerialFromName. rewrite Base_join, periodic_name_is by done.
  rewrite periodic_name_suffix, TrimSuffix_app.
  set (pre := (if error then "ErrorLog_" else "Log_") +:+ date +:+ "." +:+ rest).
  assert (Hsplit : (if error then "ErrorLog_" else "Log_") +:+ date +:+ "." +:+ rest +:+ "_" +:+ oui +:+ "." +:+ serial
    = pre +:+ String "_" (oui +:+ "." +:+ serial)).
  { unfold pre. by rewrite !str_app_assoc. }
  rewrite Hsplit, LastIndexByte_app by (by rewrite !no_byte_app, Ho, Hs).
  replace (str_drop (S (String.length pre)) (pre +:+ String "_" (oui +:+ "." +:+ serial)))
    with (oui +:+ String "." serial).
  - by rewrite Cut_app.
  - replace (S (String.length pre)) with (String.length pre + 1) by lia. by rewrite str_drop_app_plus.
Qed.

Lemma occurrenceBucket_periodic dir error date rest oui serial mtime :
  no_byte "/" (periodic_name error date rest oui serial) = true →
  no_byte "." date = true → String.length date = 8 → HasPrefix date "Log_" = false →
  occurrenceBucket (Join2 dir (periodic_name error date rest oui serial)) mtime = date.
Proof.
  intros Hn Hd Hl Hp. unfold occurrenceBucket. rewrite Base_join, periodic_name_is by done.
  set (tail := rest +:+ "_" +:+ oui +:+ "." +:+ serial +:+ ".gz").
  assert (Hrest : TrimPrefix (TrimPrefix (periodic_name error date rest oui serial) "ErrorLog_") "Log_" = date +:+ String "." tail).
  { unfold periodic_name. fold tail. change (date +:+ "." +:+ rest +:+ _) with (date +:+ String "." tail).
    destruct error.
    - rewrite TrimPrefix_app. unfold TrimPrefix.
      rewrite HasPrefix_app_long by (rewrite Hl; simpl; lia). by rewrite Hp.
    - change (TrimPrefix (TrimPrefix ("Log_" +:+ date +:+ String "." tail) "ErrorLog_") "Log_" = date +:+ String "." tail).
      assert (TrimPrefix ("Log_" +:+ date +:+ String "." tail) "ErrorLog_" = "Log_" +:+ date +:+ String "." tail) as ->
        by done. by rewrite TrimPrefix_app. }
  rewrite Hrest, Cut_app by done. by rewrite decide_True.
Qed.

(** *** Whole polls *)

(** A name gives its path back, so other entries leave a path's bookkeeping
    alone. *)
Lemma Join2_inj dir n n' : Join2 dir n = Join2 dir n' → n = n'.
Proof.
  unfold Join2. intros Heq. apply (f_equal (str_drop (String.length dir))) in Heq.
  rewrite !str_drop_app in Heq. by simplify_eq.
Qed.

Section Polls.
Context {S : Type} `{Store S} `{IngestLedger S}.
Variable engine : Engine.

(** The bookkeeping of one path. *)
Definition at_path (p : string) (c : Collector) : option FTPStamp * nat * nat :=
  (seenPaths c !! p, count p (deferred c), count p (parseFails c)).

Lemma count_insert_ne p q n (m : gmap string nat) : p ≠ q → count p (<[q := n]> m) = count p m.
Proof. intros Hne. unfold count. by rewrite lookup_insert_ne. Qed.
Lemma count_delete_ne p q (m : gmap string nat) : p ≠ q → count p (delete q m) = count p m.
Proof. intros Hne. unfold count. by rewrite lookup_delete_ne. Qed.

Lemma markSeen_other p path stamp evs c : p ≠ path → at_path p (markSeen path stamp evs c) = at_path p c.
Proof.
  intros Hne. unfold at_path, markSeen. destruct evs; simpl; [destruct (with_ledger c)|]; simpl;
    by rewrite lookup_insert_ne, !count_delete_ne.
Qed.

Lemma ingest_other now p path e c (store : S) : p ≠ path →
  at_path p (ingest engine now path e (c, store)).1 = at_path p c ∧
  c_ftpDir (ingest engine now path e (c, store)).1 = c_ftpDir c.
Proof.
  intros Hne. unfold ingest. destruct (skip_lookup _).
  { unfold at_path. simpl. by rewrite count_insert_ne. }
  destruct (resolveDeviceID path store) as [[dev|] store1].
  2: { unfold at_path. simpl. by rewrite count_insert_ne. }
  destruct (en_Info e) as [stamp|]; [|done].
  assert (Hdir : ∀ evs c0, c_ftpDir (markSeen path stamp evs c0) = c_ftpDir c0).
  { intros evs c0. unfold markSeen. destruct evs; simpl; [by case_match|done]. }
  destruct (parseUpload _ _ _ _ _) as [evs|]; [split; [by apply markSeen_other|apply Hdir]|]. cbn [fst].
  case_decide; cbn [fst].
  - unfold at_path. simpl. by rewrite count_insert_ne.
  - rewrite markSeen_other, Hdir by done. unfold at_path. simpl. by rewrite count_insert_ne.
Qed.

Lemma scan_entry_other now check p e c (store : S) : p ≠ Join2 (c_ftpDir c) (en_Name e) →
  at_path p (scan_entry engine now check e (c, store)).1 = at_path p c ∧
  c_ftpDir (scan_entry engine now check e (c, store)).1 = c_ftpDir c.
Proof.
  intros Hne. unfold scan_entry. destruct (is_upload e); [|done]. cbv zeta.
  destruct (seenPaths c !! _) as [st|]; [|by apply ingest_other]. destruct check; [|done].
  destruct (en_Info e) as [cur|]; [|done]. case_decide; [done|].
  match goal with |- context [ingest engine now ?q e (?c0, store)] =>
    destruct (ingest_other now p q e c0 store) as [-> ->]; [done|] end.
  unfold at_path. simpl. by rewrite lookup_delete_ne.
Qed.

(** A known device: whatever the ingestion does to the store, it keeps resolving
    [p] to [dev]. *)
Record device_known (K : S → Prop) (p dev : string) : Prop := {
  known_resolves store : K store → (resolveDeviceID p store).1 = Some dev;
  known_list store : K store → K (ListDevices store).2;
  known_mark now ms store : K store → K (led_Mark now ms store).2;
  known_forget ps store : K store → K (led_Forget ps store).2 }.

Lemma known_resolve K p dev q store : device_known K p dev → K store → K (resolveDeviceID q store).2.
Proof.
  intros HK Hs. unfold resolveDeviceID. destruct (ouiSerialFromName q). case_decide; [done|].
  pose proof (known_list _ _ _ HK store Hs) as Hl. by destruct (ListDevices store).
Qed.

Lemma ingest_known K p dev now q e c store : device_known K p dev → K store →
  K (ingest engine now q e (c, store)).2.
Proof.
  intros HK Hs. unfold ingest. destruct (skip_lookup _); [done|].
  pose proof (known_resolve K p dev q store HK Hs) as Hr.
  destruct (resolveDeviceID q store) as [[d|] store1]; [|done]. destruct (en_Info e); [|done].
  destruct (parseUpload _ _ _ _ _); [done|]. cbn [fst snd] in *. by case_decide.
Qed.

Lemma scan_entry_known K p dev now check e c store : device_known K p dev → K store →
  K (scan_entry engine now check e (c, store)).2.
Proof.
  intros HK Hs. unfold scan_entry. destruct (is_upload e); [|done]. cbv zeta.
  destruct (seenPaths c !! _) as [st|]; [|by eapply ingest_known]. destruct check; [|done].
  destruct (en_Info e) as [cur|]; [|done]. case_decide; [done|]. by eapply ingest_known.
Qed.

(** What the entry itself does when it can be read and its device is known. *)
Lemma scan_entry_self K p dev now check e c store st content :
  device_known K p dev → K store → p = Join2 (c_ftpDir c) (en_Name e) → is_upload e = true →
  en_Info e = Some st → en_Gunzip e = Some content → seenPaths c !! p = None →
  let c' := (scan_entry engine now check e (c, store)).1 in
  c_ftpDir c' = c_ftpDir c ∧
  if skip_lookup (count p (deferred c))
  then seenPaths c' !! p = None ∧ count p (deferred c') = 1 + count p (deferred c)
  else seenPaths c' !! p = Some st.
Proof.
  intros HK Hs Hp Hu Hi Hg Hseen. unfold scan_entry. rewrite Hu. cbv zeta. rewrite <- Hp, Hseen.
  unfold ingest. destruct (skip_lookup (count p (deferred c))) eqn:Hskip.
  { simpl. split_and!; [done|done|]. unfold count at 1. by rewrite lookup_insert_eq. }
  pose proof (known_resolves _ _ _ HK store Hs) as Hr.
  destruct (resolveDeviceID p store) as [[d|] store1]; [|done]. rewrite Hi. unfold parseUpload, eventsFromGzipLog. rewrite Hg. simpl.
  unfold markSeen. destruct (Apply _ _ _ _ _); simpl; [destruct (with_ledger c)|]; simpl; by rewrite lookup_insert_eq.
Qed.

(** One directory listing around the entry. *)
Lemma scan_entries_other now check p l c store :
  p ∉ ((Join2 (c_ftpDir c) ∘ en_Name) <$> l) →
  let c' := (foldl (λ x e, scan_entry engine now check e x) (c, store) l).1 in
  at_path p c' = at_path p c ∧ c_ftpDir c' = c_ftpDir c.
Proof.
  revert c store. induction l as [|e l IH]; intros c store Hp; [done|]. rewrite fmap_cons in Hp.
  apply not_elem_of_cons in Hp as [Hne Hp]. cbn [foldl].
  destruct (scan_entry_other now check p e c store Hne) as [Ha Hd].
  destruct (scan_entry engine now check e (c, store)) as [c1 store1]. cbn [fst] in *.
  destruct (IH c1 store1) as [Ha1 Hd1]; [by rewrite Hd|]. by rewrite Ha1, Hd1.
Qed.

Lemma scan_entries_known K p dev now check l c store : device_known K p dev → K store →
  K (foldl (λ x e, scan_entry engine now check e x) (c, store) l).2.
Proof.
  intros HK. revert c store. induction l as [|e l IH]; intros c store Hs; [done|]. cbn [foldl].
  pose proof (scan_entry_known K p dev now check e c store HK Hs) as Hk.
  destruct (scan_entry engine now check e (c, store)) as [c1 store1]. by apply IH.
Qed.
End Polls.

Section Liveness.
Context {S : Type} `{Store S} `{IngestLedger S}.
Variable engine : Engine.

Definition names_distinct (l : list entry) : Prop := NoDup (en_Name <$> l).

Lemma paths_split dir l e : names_distinct l → e ∈ l →
  ∃ l1 l2, l = l1 ++ e :: l2 ∧ (Join2 dir (en_Name e) ∉ (Join2 dir ∘ en_Name <$> l1)) ∧
           (Join2 dir (en_Name e) ∉ (Join2 dir ∘ en_Name <$> l2)).
Proof.
  intros Hnd Hin. apply list_elem_of_split in Hin as (l1 & l2 & ->). exists l1, l2. split; [done|].
  unfold names_distinct in Hnd. rewrite fmap_app, fmap_cons in Hnd.
  apply NoDup_app in Hnd as (_ & Hd & [Hn _]%NoDup_cons).
  split; intros (e' & Heq & Hin)%list_elem_of_fmap; simpl in Heq; apply Join2_inj in Heq.
  - apply (Hd (en_Name e')); [by apply list_elem_of_fmap_2|]. rewrite <- Heq. by left.
  - apply Hn. rewrite Heq. by apply list_elem_of_fmap_2.
Qed.

(** A poll either ingests the upload or brings its next lookup closer. *)
Lemma poll_progress K p dev now entries e c store st content :
  device_known K p dev → K store → names_distinct entries → e ∈ entries →
  p = Join2 (c_ftpDir c) (en_Name e) → is_upload e = true →
  en_Info e = Some st → en_Gunzip e = Some content → seenPaths c !! p = None →
  let x' := scanFTP engine now (Some entries) (c, store) in
  c_ftpDir x'.1 = c_ftpDir c ∧ K x'.2 ∧
  (seenPaths x'.1 !! p = Some st ∨
   skip_lookup (count p (deferred c)) = true ∧
   seenPaths x'.1 !! p = None ∧ count p (deferred x'.1) = 1 + count p (deferred c)).
Proof.
  intros HK Hs Hnd Hin Hp Hu Hi Hg Hseen. unfold scanFTP. cbv zeta.
  assert (Htake : seenPaths (takeRequeued c) !! p = None).
  { simpl. generalize (requeued c). intros ms. revert Hseen. generalize (seenPaths c).
    induction ms as [|m ms IH]; intros seen Hn; [done|]. simpl. apply IH. unfold flip, forget_mark.
    repeat case_match; try done. by rewrite lookup_delete_None; right. }
  destruct (paths_split (c_ftpDir c) entries e Hnd Hin) as (l1 & l2 & -> & H1 & H2).
  cbn [scan_begin]. set (check := bool_decide _). set (c0 := set_scans _ (takeRequeued c)).
  assert (Hc0 : at_path p c0 = (None, count p (deferred c), count p (parseFails c)) ∧ c_ftpDir c0 = c_ftpDir c).
  { unfold at_path, c0. cbn [seenPaths deferred parseFails set_scans c_ftpDir]. by rewrite Htake. }
  destruct Hc0 as [Hat0 Hdir0]. clearbody c0. rewrite foldl_app. cbn [foldl].
  pose proof (scan_entries_other engine now check p l1 c0 store) as Ho1. rewrite Hdir0 in Ho1.
  specialize (Ho1 ltac:(by rewrite Hp)). cbv zeta in Ho1.
  pose proof (scan_entries_known engine K p dev now check l1 c0 store HK Hs) as HK1.
  destruct (foldl _ (c0, store) l1) as [c1 store1]. cbn [fst snd] in *. destruct Ho1 as [Hat1 Hdir1].
  rewrite Hat0 in Hat1. unfold at_path in Hat1. injection Hat1 as Hs1 Hc1 _.
  pose proof (scan_entry_self engine K p dev now check e c1 store1 st content HK HK1) as Hself.
  rewrite Hdir1, Hc1 in Hself. specialize (Hself Hp Hu Hi Hg Hs1). cbv zeta in Hself.
  pose proof (scan_entry_known engine K p dev now check e c1 store1 HK HK1) as HK2.
  destruct (scan_entry engine now check e (c1, store1)) as [c2 store2]. cbn [fst snd] in *.
  destruct Hself as [Hdir2 Hself].
  pose proof (scan_entries_other engine now check p l2 c2 store2) as Ho3. rewrite Hdir2 in Ho3.
  specialize (Ho3 ltac:(by rewrite Hp)). cbv zeta in Ho3.
  pose proof (scan_entries_known engine K p dev now check l2 c2 store2 HK HK2) as HK3.
  destruct (foldl _ (c2, store2) l2) as [c3 store3]. cbn [fst snd] in *. destruct Ho3 as [Hat3 Hdir3].
  unfold at_path in Hat3. injection Hat3 as Hs3 Hc3 _. unfold scan_finish.
  set (present := present_paths (c_ftpDir c3) (l1 ++ e :: l2)).
  assert (Hpres : p ∈ present).
  { unfold present, present_paths. rewrite Hdir3, Hp. apply list_elem_of_fmap. exists e. split; [done|].
    apply list_elem_of_filter. split; [done|set_solver]. }
  set (c4 := set_parseFails _ _). set (gone := gone_paths _ _).
  destruct (persistScan_keeps now present gone c4 store3) as (Hk1 & Hk2 & _ & _ & _ & _ & _ & Hk8 & _).
  split; [rewrite Hk8; unfold c4; simpl; by rewrite Hdir3|]. split.
  - assert (HKp : K (persistScan now present gone (c4, store3)).2); [|done].
    unfold persistScan. destruct (with_ledger c4); [|done].
    pose proof (known_forget _ _ _ HK gone store3 HK3) as Hf.
    assert (Hm : ∀ c5 store5, K store5 → K (match pendingMarks c5 with [] => (c5, store5) | ms =>
      match led_Mark now ms store5 with (Err _, s) => (c5, s) | (Ok _, s) => (set_pendingMarks [] c5, s) end end).2).
    { intros c5 store5 H5. destruct (pendingMarks c5) as [|m ms]; [done|].
      pose proof (known_mark _ _ _ HK now (m :: ms) store5 H5). by destruct (led_Mark now (m :: ms) store5) as [[[]|] ?]. }
    destruct gone as [|g gone]; [by apply Hm|]. destruct (led_Forget (g :: gone) store3) as [r store4]. by apply Hm.
  - rewrite Hk1, Hk2. unfold c4. cbn [seenPaths deferred set_parseFails set_deferred set_seenPaths].
    assert (Hkeep : ∀ A (m : gmap string A), keep_paths present m !! p = m !! p).
    { intros A m. unfold keep_paths. destruct (m !! p) as [x|] eqn:Hx.
      - apply map_lookup_filter_Some. done.
      - apply map_lookup_filter_None. by left. }
    unfold count at 2. rewrite !Hkeep. fold (count p (deferred c3)). rewrite Hs3, Hc3.
    destruct (skip_lookup (count p (deferred c))); [right|left]; [|done]. by destruct Hself.
Qed.

(** Within 30 polls a deferred upload's lookup comes due. *)
Lemma skip_lookup_due t : ∃ k, k < 30 ∧ skip_lookup (t + k) = false ∧ ∀ j, j < k → skip_lookup (t + j) = true.
Proof.
  unfold skip_lookup, maxDeferTicks, resolveRetryTicks.
  destruct (decide (t < 30)) as [Hlt|Hge].
  { exists 0. split_and!; [lia| |lia]. apply bool_decide_eq_false. lia. }
  destruct (decide ((t - 30) mod 30 = 0)) as [Hz|Hz].
  { exists 0. split_and!; [lia| |lia]. apply bool_decide_eq_false. rewrite Nat.add_0_r. tauto. }
  pose proof (Nat.mod_upper_bound (t - 30) 30). pose proof (Nat.div_mod_eq (t - 30) 30) as Hd.
  set (q := (t - 30) / 30) in *. set (r := (t - 30) mod 30) in *.
  exists (30 - r). split_and!; [lia| |].
  - apply bool_decide_eq_false. intros [_ Hm]. apply Hm.
    replace (t + (30 - r) - 30) with (0 + (q + 1) * 30) by lia. by rewrite Nat.Div0.mod_add.
  - intros j Hj. apply bool_decide_eq_true. split; [lia|].
    replace (t + j - 30) with ((r + j) + q * 30) by lia. rewrite Nat.Div0.mod_add, Nat.mod_small; lia.
Qed.

(** A run of polls. *)
Definition polls (l : list (Z * list entry)) (x : Collector * S) : Collector * S :=
  foldl (λ x p, scanFTP engine p.1 (Some p.2) x) x l.
End Liveness.

(** ** Properties *)

(** The bookkeeping is bounded by the directory: after a poll the collector
    remembers stamps, deferrals and parse failures only for paths the directory
    still holds. *)
Theorem bookkeeping_bounded engine now entries c (s : sql) :
  let '(c', s') := scanFTP engine now (Some entries) (c, s) in
  let present := present_paths (c_ftpDir c') entries in
  (∀ p, is_Some (seenPaths c' !! p) ∨ is_Some (deferred c' !! p) ∨ is_Some (parseFails c' !! p) → p ∈ present) ∧
  c_ftpDir c' = c_ftpDir c.
Proof.
  unfold scanFTP. cbn [scan_begin]. set (check := bool_decide _). set (c0 := set_scans _ _).
  assert (Hdir : ∀ l x, c_ftpDir (foldl (λ x e, scan_entry engine now check e x) x l).1 = c_ftpDir x.1).
  { induction l as [|e l IH]; intros x; [done|]. cbn [foldl]. rewrite IH. destruct x as [c1 s1]. cbn [fst].
    destruct (scan_entry_cases engine now check e c1 s1) as [->|(c2 & Hc2 & _ & Ho)]; [done|].
    assert (Hd2 : c_ftpDir c2 = c_ftpDir c1) by (by destruct Hc2 as [[-> _]| ->]).
    destruct Ho as [(df & pf & ->)|(pf & stamp & evs & _ & -> & _)]; [done|].
    unfold markSeen. destruct evs; simpl; [by case_match|done]. }
  specialize (Hdir entries (c0, s)). destruct (foldl _ (c0, s) entries) as [c1 s1]. cbn [fst] in Hdir.
  unfold scan_finish. set (present := present_paths (c_ftpDir c1) entries).
  set (gone := gone_paths _ _). set (c2 := set_parseFails _ _).
  destruct (persistScan_keeps now present gone c2 s1) as (H1 & H2 & H3 & _ & _ & _ & _ & H8 & _).
  destruct (persistScan now present gone (c2, s1)) as [c' s']. cbn [fst] in *.
  assert (Hd' : c_ftpDir c' = c_ftpDir c1) by (rewrite H8; done).
  split; [|rewrite Hd', Hdir; done]. rewrite H1, H2, H3, Hd'. intros p [Hp|[Hp|Hp]]; by apply keep_paths_dom in Hp.
Qed.

(** An upload is never ingested under a made-up id: the events a directory
    entry adds are all attributed to one device the store lists, whose serial is
    the one in the file name and whose canonical id has the file's OUI. *)
Theorem upload_attributed {S} `{Store S} engine now check e c (store : S) :
  let c' := (scan_entry engine now check e (c, store)).1 in
  ∃ new, events c' = events c ++ new ∧
    (new ≠ [] → ∃ d oui, d ∈ (ListDevices store).1 ∧
       ouiSerialFromName (Join2 (c_ftpDir c) (en_Name e)) = (oui, d_SerialNumber d) ∧
       (∀ ev, ev ∈ new → ev_CWMPID ev = d_DeviceID d) ∧
       (∀ o p s, d_DeviceID d = CanonicalID o p s → no_byte "-" oui = true → enc o = oui)).
Proof.
  cbv zeta. destruct (scan_entry_cases engine now check e c store) as [->|(c0 & Hc0 & _ & Ho)].
  { exists []. by rewrite app_nil_r. }
  assert (He : events c0 = events c) by (by destruct Hc0 as [[-> _]| ->]).
  destruct Ho as [(df & pf & ->)|(pf & stamp & evs & _ & -> & Hevs)].
  { exists []. simpl. by rewrite app_nil_r, He. }
  exists evs. split.
  { unfold markSeen. destruct evs; simpl; [case_match; simpl; by rewrite app_nil_r|by rewrite He]. }
  intros Hne. destruct Hevs as [[-> _]|(dev & Hp & oui & serial & d & Hn & Ho & Hs & Hd & Hser & Hid & Hpre)]; [done|].
  exists d, oui. split_and!; [done|by rewrite Hn, Hser| |].
  - intros ev Hev. unfold parseUpload, eventsFromGzipLog in Hp. destruct (en_Gunzip e) as [content|]; [|done]. simpl in Hp.
    injection Hp as <-. unfold Apply in Hev. apply apply_lines_elem in Hev as (line & _ & Hev).
    apply apply_line_event in Hev as (-> & _). rewrite Hid. rewrite decide_False; [done|].
    intros ->. apply HasPrefix_inv in Hpre as [t Ht]. destruct oui; done.
  - intros o p s Hcan Houi. rewrite <- Hid, Hcan in Hpre. by apply CanonicalID_prefix in Hpre.
Qed.

(** A file name built by a device gives back its OUI and serial number, and
    the occurrence day of its events is the date in the name, whatever the
    file's modification time. *)
Theorem periodic_name_roundtrip dir error date rest oui serial mtime :
  no_byte "/" (periodic_name error date rest oui serial) = true →
  no_byte "_" oui = true → no_byte "." oui = true → no_byte "_" serial = true →
  no_byte "." date = true → String.length date = 8 → HasPrefix date "Log_" = false →
  let path := Join2 dir (periodic_name error date rest oui serial) in
  ouiSerialFromName path = (oui, serial) ∧ occurrenceBucket path mtime = date.
Proof.
  intros. split; [by apply ouiSerialFromName_periodic | by apply occurrenceBucket_periodic].
Qed.

(** C34: No deferred upload is forgotten: once its device is known and the file
    can be read, at most 30 polls later it has been ingested, however long it
    was deferred before. *)
Theorem known_upload_ingested {St} `{Store St} `{IngestLedger St} engine (K : St → Prop) p dev l c store name st content :
  device_known K p dev → K store → p = Join2 (c_ftpDir c) name → seenPaths c !! p = None →
  Forall (λ poll, names_distinct poll.2 ∧ ∃ e, e ∈ poll.2 ∧ en_Name e = name ∧ is_upload e = true ∧
                    en_Info e = Some st ∧ en_Gunzip e = Some content) l →
  length l = 30 →
  ∃ k, k ≤ 30 ∧ seenPaths (polls engine (take k l) (c, store)).1 !! p = Some st.
Proof.
  intros HK Hs Hp Hseen Hl Hlen.
  destruct (skip_lookup_due (count p (deferred c))) as (k & Hk & Hdue & Hskip).
  cut (∃ j, j ≤ S k ∧ seenPaths (polls engine (take j l) (c, store)).1 !! p = Some st).
  { intros (j & Hj & ?). exists j. split; [lia|done]. }
  assert (Hkl : k < length l) by lia. clear Hlen Hk Hskip.
  revert c store l Hs Hp Hseen Hl Hdue Hkl.
  induction k as [|k IH]; intros c store [|[now entries] l] Hs Hp Hseen Hl Hdue Hkl; simpl in Hkl; try lia;
    apply Forall_cons in Hl as [(Hnd & e & Hin & Hname & Hu & Hi & Hg) Hl]; subst name;
    destruct (poll_progress engine K p dev now entries e c store st content HK Hs Hnd Hin Hp Hu Hi Hg Hseen)
      as (Hdir & HK' & [Hdone|(Hsk & Hn & Hc)]);
    try (exists 1; split; [lia|]; cbn [take polls foldl fst snd]; unfold polls; by rewrite take_0).
  - rewrite Nat.add_0_r in Hdue. congruence.
  - destruct (IH (scanFTP engine now (Some entries) (c, store)).1 (scanFTP engine now (Some entries) (c, store)).2 l)
      as (j & Hj & Hseenj); [done|by rewrite Hdir|done| | |lia|].
    + done.
    + rewrite Hc. by replace (1 + count p (deferred c) + k) with (count p (deferred c) + S k) by lia.
    + exists (S j). split; [lia|]. unfold polls in *. cbn [take foldl fst snd].
      by rewrite <- surjective_pairing in Hseenj.
Qed.

(** ** The buffer as device store and ledger *)

Lemma ListDevices_healthy (s : sql) : healthy s →
  ∃ s', ListDevices s = (devices_in_order (sdb s), s') ∧ healthy s' ∧ sdb s' = sdb s.
Proof.
  intros Hs. simpl. unfold Buffer_ListDevices. rewrite SE_bind_unfold.
  destruct (runs_query devices_in_order s Hs) as (rows & s1 & Hq & Hs1). rewrite Hq.
  apply query_sdb in Hq as [Hd Hr]. rewrite (Hr rows eq_refl) in *.
  destruct (read_rows_healthy (devices_in_order (sdb s)) s1 Hs1) as (s2 & -> & Hs2 & Hd2).
  exists s2. split_and!; [done|done|congruence].
Qed.

Definition has_devices (D : gmap string device_row) (s : sql) : Prop :=
  healthy s ∧ cwmp_devices (sdb s) = D.

Definition devices_of (D : gmap string device_row) : list DeviceRecord :=
  device_record <$> merge_sort by_id (map_to_list D).

Lemma buffer_device_known D p dev oui serial :
  ouiSerialFromName p = (oui, serial) → oui ≠ "" → serial ≠ "" →
  find_device oui serial (devices_of D) = Some dev →
  device_known (has_devices D) p dev.
Proof.
  intros Hn Ho Hs Hf. split.
  - intros s [Hh HD]. unfold resolveDeviceID. rewrite Hn, decide_False by tauto.
    destruct (ListDevices_healthy s Hh) as (s' & -> & _). cbn [fst]. rewrite <- Hf. unfold devices_in_order, devices_of.
    by rewrite HD.
  - intros s [Hh HD]. destruct (ListDevices_healthy s Hh) as (s' & -> & Hh' & Hd). cbn [snd].
    split; [done|by rewrite Hd].
  - intros now ms s [Hh HD]. simpl. destruct (runs_MarkFTPIngested now ms s Hh) as ([] & s' & Hm & Hh').
    rewrite Hm. split; [done|]. cbn [snd].
    pose proof (triple_MarkFTPIngested now ms (sdb s) s eq_refl) as Ht. rewrite Hm in Ht. unfold at_db in Ht. rewrite Ht.
    by destruct (upsert_marks_other now ms (sdb s)) as (_ & _ & _ & -> & _).
  - intros ps s [Hh HD]. simpl. destruct (runs_ForgetFTPIngested ps s Hh) as ([] & s' & Hm & Hh').
    rewrite Hm. split; [done|]. cbn [snd].
    pose proof (triple_ForgetFTPIngested ps (sdb s) s eq_refl) as Ht. rewrite Hm in Ht. unfold at_db in Ht. rewrite Ht.
    by destruct (forget_paths_other ps (sdb s)) as (_ & _ & _ & ->).
Qed.

(** ** Witnesses *)

Definition ex_name : string := periodic_name false "20260701" "1000+0000" "8C1F64" "42".
Definition ex_dir : string := "/srv/ftp".
Definition ex_devices : gmap string device_row :=
  {["8C1F64-ENB%2D1-42" := DeviceRow "10.0.0.5" "Acme" "ENB-1" "42" "v9" 5 0]}.
Definition ex_entry : entry :=
  mkEntry ex_name false (Some (mkStamp 10 20)) (Some "1 t [FM] System Reboot") (Some 0%Z).
Definition ex_col_sql : sql := Sql (set_devices ex_devices empty_db) [] 0 4096 0.

Example ex_scan_events :
  ev_CWMPID <$> events (scanFTP DefaultEngine 7 (Some [ex_entry]) (New ex_dir, ex_col_sql)).1 = ["8C1F64-ENB%2D1-42"].
Proof. vm_compute. reflexivity. Qed.

Lemma periodic_name_roundtrip_witness :
  ouiSerialFromName (Join2 ex_dir ex_name) = ("8C1F64", "42") ∧ occurrenceBucket (Join2 ex_dir ex_name) None = "20260701".
Proof. apply (periodic_name_roundtrip ex_dir false "20260701" "1000+0000" "8C1F64" "42" None); reflexivity. Defined.

(** An upload deferred 31 times before its device dialled in. *)
Definition ex_deferred : Collector := set_deferred {[Join2 ex_dir ex_name := 31]} (New ex_dir).

Lemma known_upload_ingested_witness :
  ∃ k, k ≤ 30 ∧ seenPaths (polls DefaultEngine (take k (replicate 30 (7%Z, [ex_entry]))) (ex_deferred, ex_col_sql)).1
                  !! Join2 ex_dir ex_name = Some (mkStamp 10 20).
Proof.
  apply (known_upload_ingested DefaultEngine (has_devices ex_devices) (Join2 ex_dir ex_name) "8C1F64-ENB%2D1-42"
    (replicate 30 (7%Z, [ex_entry])) ex_deferred ex_col_sql ex_name (mkStamp 10 20) "1 t [FM] System Reboot").
  - apply (buffer_device_known ex_devices (Join2 ex_dir ex_name) "8C1F64-ENB%2D1-42" "8C1F64" "42");
      [reflexivity|discriminate|discriminate|reflexivity].
  - split; [constructor|reflexivity].
  - reflexivity.
  - reflexivity.
  - apply Forall_replicate. split; [apply NoDup_singleton|]. exists ex_entry. split; [by left|]. repeat split; reflexivity.
  - reflexivity.
Defined.
