(* ===== verification/FtpSim.v ===== *)
(** * The FTP uploads of the simulated device (testsuite/ftp.go)

    A device uploads its log archives with curl and deletes its own old ones.
    curl is a parameter: it reads its arguments and the scratch file, works on the
    outside world [W], and prints.  Instants are Unix nanoseconds. *)
From S2P Require Import Prelude GoStrings GoTime LogGen NanoConfig DeviceSim Collector.

(** ** The corpus *)

(** The non-blank lines of the embedded fixture. *)
Definition sampleLines (realSampleFixture : string) : list string :=
  filter (λ l, TrimSpace l ≠ "") (SplitByte realSampleFixture (byte_of 10)).

Record ftpUploadConfig := mkUpload {
  uc_host : string;
  uc_user : string;
  uc_pass : string;
  uc_interval : Z;
  uc_scenario : Scenario;
  uc_retention : Z }.

Definition pruneEveryCycles : Z := 10.
Definition deleteBatch : nat := 200.

(** ** Names *)

(** Unix seconds. *)
Definition uploadTime (name oui serial : string) : option Z :=
  rest ← (if HasPrefix name "Log_" then Some (TrimPrefix name "Log_")
          else if HasPrefix name "ErrorLog_" then Some (TrimPrefix name "ErrorLog_") else None);
  let tail := "_" +:+ oui +:+ "." +:+ serial +:+ ".gz" in
  if HasSuffix rest tail then Parse_minute_stamp (TrimSuffix rest tail) else None.

Definition expired (now keep : Z) (oui serial n : string) : bool :=
  match uploadTime n oui serial with
  | Some ts => bool_decide (ts * 1000000000 < now - keep)%Z
  | None => false
  end.

Definition expiredUploads (names : list string) (oui serial : string) (now keep : Z) : list string :=
  if decide (keep ≤ 0)%Z then [] else filter (λ n, expired now keep oui serial n = true) names.

(** ** curl *)

Record curl_out := mkOut {
  co_err : option string; (* the error of [Run], [None] for exit status 0 *)
  co_stdout : string;
  co_stderr : string;
  co_combined : string }.

Section Curl.
Context {W : Type}.
(** Arguments, and the file that [-T] names. *)
Variable curl : list string → option (string * string) → W → curl_out * W.
(** Creating, writing and closing a scratch file: its path, or an error. *)
Variable scratch : string → W → result string string * W.

Definition ftp_url (host path : string) : string := "ftp://" +:+ host +:+ path.
Definition userpass (user pass : string) : string := user +:+ ":" +:+ pass.

Definition curlList (host user pass : string) (w : W) : result string (list string) * W :=
  let '(out, w) := curl ["-sS"; "--list-only"; "-u"; userpass user pass; "--connect-timeout"; "5"; ftp_url host "/"] None w in
  (match co_err out with
   | Some e => Err (e +:+ ": " +:+ TrimSpace (co_stderr out))
   | None => Ok (filter (λ l, l ≠ "") (TrimSpace <$> SplitByte (co_stdout out) (byte_of 10)))
   end, w).

Definition delete_args (host user pass : string) (batch : list string) : list string :=
  ["-sS"; "-I"; "-u"; userpass user pass; "--connect-timeout"; "5"]
  ++ (batch ≫= λ n, ["-Q"; "*DELE " +:+ n]) ++ [ftp_url host "/"].

(** The loop over the batches; it stops at the first invocation that fails. *)
Fixpoint curlDelete_loop (fuel : nat) (host user pass : string) (names : list string) (w : W) : result string unit * W :=
  match fuel, names with
  | S fuel, _ :: _ =>
      let '(out, w) := curl (delete_args host user pass (take deleteBatch names)) None w in
      match co_err out with
      | Some e => (Err (e +:+ ": " +:+ TrimSpace (co_combined out)), w)
      | None => curlDelete_loop fuel host user pass (drop deleteBatch names) w
      end
  | _, _ => (Ok tt, w)
  end.

Definition curlDelete (host user pass : string) (names : list string) (w : W) : result string unit * W :=
  curlDelete_loop (length names) host user pass names w.

Definition curlUpload (host user pass data remotePath : string) (w : W) : result string unit * W :=
  let '(tmp, w) := scratch data w in
  match tmp with
  | Err e => (Err e, w)
  | Ok tmpPath =>
      let '(out, w) := curl ["-sS"; "-T"; tmpPath; "-u"; userpass user pass; "--connect-timeout"; "5"; ftp_url host remotePath]
                         (Some (tmpPath, data)) w in
      (match co_err out with
       | Some e => Err (e +:+ ": " +:+ TrimSpace (co_combined out))
       | None => Ok tt
       end, w)
  end.

(** ** Retention *)

Inductive pruned := ListFailed (e : string) | NothingExpired | DeleteFailed (e : string) | Deleted (n : nat).

Definition pruneOwnUploads (dev : device) (cfg : ftpUploadConfig) (now : Z) (w : W) : pruned * W :=
  let '(names, w) := curlList (uc_host cfg) (uc_user cfg) (uc_pass cfg) w in
  match names with
  | Err e => (ListFailed e, w)
  | Ok names =>
      let old := expiredUploads names (oui dev) (serial dev) now (uc_retention cfg) in
      match old with
      | [] => (NothingExpired, w)
      | _ =>
          let '(r, w) := curlDelete (uc_host cfg) (uc_user cfg) (uc_pass cfg) old w in
          (match r with Err e => DeleteFailed e | Ok _ => Deleted (length old) end, w)
      end
  end.

(** ** One cycle of [runFTPUploadLoop] *)

(** See [LogGen]; [at_] and [at_prune] are the two readings of the clock. *)
Variable Expand : string → string → string.
Variable gzip : string → string.

Definition probe (cfg : ftpUploadConfig) (logGz name : string) (w : W) : W :=
  if decide (uc_scenario cfg = ScenarioFTPPathReject) then
    (curlUpload (uc_host cfg) (uc_user cfg) (uc_pass cfg) logGz ("/uploads/" +:+ name) w).2
  else if decide (uc_scenario cfg = ScenarioFTPAuthFail) then
    (curlUpload (uc_host cfg) (uc_user cfg) (uc_pass cfg +:+ "-wrong") logGz ("/" +:+ name) w).2
  else w.

Definition genCfg (dev : device) (cfg : ftpUploadConfig) (at_ cycle : Z) : LogGen.Config :=
  LogGen.mkConfig (oui dev) (serial dev) (productClass dev) at_ (uc_scenario cfg) cycle.

Definition upload (corpus : list string) (cfg : ftpUploadConfig) (at_ at_prune : Z) (x : Z * (device * W)) : Z * (device * W) :=
  let '(cycle, (dev, w)) := x in
  let gen := genCfg dev cfg at_ cycle in
  let '(logGz, errorLogGz) := Generate Expand gzip gen corpus in
  let '(r, w) := curlUpload (uc_host cfg) (uc_user cfg) (uc_pass cfg) logGz ("/" +:+ LogName gen) w in
  let dev := match r with
             | Ok _ => markTransfer (LogName gen) (Z.of_nat (String.length logGz)) dev
             | Err _ => dev
             end in
  let w := match errorLogGz with
           | Some gz => (curlUpload (uc_host cfg) (uc_user cfg) (uc_pass cfg) gz ("/" +:+ ErrorLogName gen) w).2
           | None => w
           end in
  let w := probe cfg logGz (LogName gen) w in
  let w := if decide (0 < uc_retention cfg ∧ Z.rem cycle pruneEveryCycles = 0)%Z
           then (pruneOwnUploads dev cfg at_prune w).2 else w in
  (int64 (cycle + 1), (dev, w)).

(** ** The loop

    While this goroutine sleeps, the device's others (its CWMP sessions) run:
    a function on the device and the world.  A tick is what happens before it
    and the two readings of the clock of its cycle. *)
Definition others : Type := device * W → device * W.
Record tick := mkTick { tk_others : others; tk_at : Z; tk_prune : Z }.

(** The wait for the first Inform, in naps; [None]: it never came. *)
Fixpoint wait_informed (naps : list others) (x : device * W) : option (device * W) :=
  if decide (informs x.1 = 0)%Z then
    match naps with
    | [] => None
    | nap :: naps => wait_informed naps (nap x)
    end
  else Some x.

Definition on_tick (corpus : list string) (cfg : ftpUploadConfig) (x : Z * (device * W)) (t : tick) : Z * (device * W) :=
  upload corpus cfg (tk_at t) (tk_prune t) (x.1, tk_others t x.2).

(** [runFTPUploadLoop] up to the last of [ticks]; the first upload is made at
    once. *)
Definition runFTPUploadLoop (realSampleFixture : string) (cfg : ftpUploadConfig) (naps : list others) (at_ at_prune : Z)
  (ticks : list tick) (x : device * W) : option (Z * (device * W)) :=
  x ← wait_informed naps x;
  let corpus := sampleLines realSampleFixture in
  Some (foldl (on_tick corpus cfg) (upload corpus cfg at_ at_prune (0%Z, x)) ticks).
End Curl.

(** ** Lemmas on names *)

Lemma getnum_inv s fixed v r : getnum s fixed = Some (v, r) → ∃ w, s = w +:+ r ∧ no_byte "_" w = true.
Proof.
  assert (Hd : ∀ a d, digit_val a = Some d → a ≠ "_"%char) by (intros a d Ha ->; vm_compute in Ha; discriminate).
  unfold getnum. destruct s as [|a s]; [done|]. destruct (digit_val a) as [x|] eqn:Ha; [|done]. cbn [mbind option_bind].
  assert (H1 : no_byte "_" (String a "") = true) by (apply no_byte_cons; split; [by eapply Hd|done]).
  destruct s as [|b s].
  - destruct fixed; [done|]. intros [= <- <-]. by exists (String a "").
  - destruct (digit_val b) as [y|] eqn:Hb.
    + intros [= <- <-]. exists (String a (String b "")). split; [done|].
      apply no_byte_cons. split; [by eapply Hd|]. apply no_byte_cons. split; [by eapply Hd|done].
    + destruct fixed; [done|]. intros [= <- <-]. by exists (String a "").
Qed.

Lemma getzone_inv s v r : getzone s = Some (v, r) → ∃ w, s = w +:+ r ∧ no_byte "_" w = true.
Proof.
  unfold getzone. destruct s as [|sign s]; [done|].
  destruct (getnum s true) as [[h s1]|] eqn:Hh; [|done]. cbn [mbind option_bind].
  destruct (getnum s1 true) as [[mm s2]|] eqn:Hm; [|done]. cbn [mbind option_bind].
  apply getnum_inv in Hh as (w1 & -> & Hw1). apply getnum_inv in Hm as (w2 & -> & Hw2). case_decide; [done|].
  assert (Hout : sign ≠ "_"%char → r = s2 → ∃ w, String sign (w1 +:+ w2 +:+ s2) = w +:+ r ∧ no_byte "_" w = true).
  { intros Hs ->. exists (String sign (w1 +:+ w2)). split; [by rewrite str_app_cons, str_app_assoc|].
    apply no_byte_cons. split; [done|]. by rewrite no_byte_app, Hw1. }
  case_decide as H1; [intros [= _ <-]; apply Hout; [by subst|done]|].
  case_decide as H2; [intros [= _ <-]; apply Hout; [by subst|done]|done].
Qed.

(** A stamp that parses holds no underscore. *)
Lemma Parse_minute_stamp_no_byte s t : Parse_minute_stamp s = Some t → no_byte "_" s = true.
Proof.
  unfold Parse_minute_stamp, getyear.
  destruct (getnum s true) as [[c s1]|] eqn:G1; [|done]. cbn [mbind option_bind].
  destruct (getnum s1 true) as [[y s2]|] eqn:G2; [|done]. cbn [mbind option_bind].
  destruct (getnum s2 true) as [[mo s3]|] eqn:G3; [|done]. cbn [mbind option_bind]. case_decide; [done|].
  destruct (getnum s3 true) as [[d s4]|] eqn:G4; [|done]. cbn [mbind option_bind].
  destruct s4 as [|dot s4]; [done|]. destruct (decide (dot = "."%char)) as [->|Hdot].
  2: { intros Hs. exfalso. destruct dot as [[] [] [] [] [] [] [] []]; discriminate || by apply Hdot. }
  destruct (getnum s4 false) as [[ho s5]|] eqn:G5; [|done]. cbn [mbind option_bind]. case_decide; [done|].
  destruct (getnum s5 true) as [[mi s6]|] eqn:G6; [|done]. cbn [mbind option_bind]. case_decide; [done|].
  destruct (getzone s6) as [[z s7]|] eqn:G7; [|done]. cbn [mbind option_bind]. case_decide as Hend; [done|]. intros _.
  apply getnum_inv in G1 as (w1 & -> & N1), G2 as (w2 & -> & N2), G3 as (w3 & -> & N3), G4 as (w4 & -> & N4),
    G5 as (w5 & -> & N5), G6 as (w6 & -> & N6). apply getzone_inv in G7 as (w7 & -> & N7).
  assert (s7 = "") as -> by (destruct (decide (s7 = "")); tauto). rewrite !no_byte_app.
  change (no_byte "_" (String "." (w5 +:+ w6 +:+ w7 +:+ ""))) with (no_byte "_" (w5 +:+ w6 +:+ w7 +:+ "")).
  rewrite !no_byte_app. repeat (apply andb_true_iff; split); done.
Qed.

Lemma HasSuffix_inv s t : HasSuffix s t = true → ∃ u, s = u +:+ t.
Proof.
  intros [_ Ht]%bool_decide_eq_true. exists (str_take (String.length s - String.length t) s).
  rewrite <- Ht at 2. by rewrite str_take_drop.
Qed.

Definition stamped (error : bool) (stamp oui serial : string) : string :=
  (if error then "ErrorLog_" else "Log_") +:+ stamp +:+ "_" +:+ oui +:+ "." +:+ serial +:+ ".gz".

Lemma uploadTime_spec n oui serial t : uploadTime n oui serial = Some t ↔
  ∃ error stamp, n = stamped error stamp oui serial ∧ Parse_minute_stamp stamp = Some t.
Proof.
  set (tail := "_" +:+ oui +:+ "." +:+ serial +:+ ".gz"). unfold uploadTime. fold tail. split.
  - assert (Hrest : ∀ rest, (if HasSuffix rest tail then Parse_minute_stamp (TrimSuffix rest tail) else None) = Some t →
      ∃ stamp, rest = stamp +:+ tail ∧ Parse_minute_stamp stamp = Some t).
    { intros rest. destruct (HasSuffix rest tail) eqn:Hs; [|done]. apply HasSuffix_inv in Hs as [u ->].
      rewrite TrimSuffix_app. intros Ht. by exists u. }
    destruct (HasPrefix n "Log_") eqn:Hp; [|destruct (HasPrefix n "ErrorLog_") eqn:He; [|done]]; cbn [mbind option_bind].
    + apply HasPrefix_inv in Hp as [u ->]. rewrite TrimPrefix_app. intros (stamp & -> & Ht)%Hrest. by exists false, stamp.
    + apply HasPrefix_inv in He as [u ->]. rewrite TrimPrefix_app. intros (stamp & -> & Ht)%Hrest. by exists true, stamp.
  - intros (error & stamp & -> & Ht). unfold stamped. fold tail. destruct error.
    + change (HasPrefix ("ErrorLog_" +:+ stamp +:+ tail) "Log_") with false. cbv iota.
      rewrite HasPrefix_app. cbn [mbind option_bind]. by rewrite TrimPrefix_app, HasSuffix_app, TrimSuffix_app.
    + rewrite HasPrefix_app. cbn [mbind option_bind]. by rewrite TrimPrefix_app, HasSuffix_app, TrimSuffix_app.
Qed.

Definition is_digit_byte (a : ascii) : bool := bool_decide (48 ≤ nat_of_ascii a ∧ nat_of_ascii a ≤ 57).

Lemma is_digit_byte_char n : is_digit_byte (pretty_N_char n) = true.
Proof. unfold pretty_N_char. repeat case_match; reflexivity. Qed.

Lemma LogName_stamped c : LogName c = stamped false (minute_stamp (At_unix c)) (LogGen.OUI c) (LogGen.Serial c).
Proof. done. Qed.
Lemma ErrorLogName_stamped c : ErrorLogName c = stamped true (minute_stamp (At_unix c)) (LogGen.OUI c) (LogGen.Serial c).
Proof. done. Qed.

Lemma minute_stamp_bytes (f : ascii → bool) unix : (∀ n, f (digit n) = true) → f "."%char = true → f "+"%char = true → f "0"%char = true →
  all_bytes f (minute_stamp unix) = true.
Proof.
  intros Hd Hdot Hplus Hzero. unfold minute_stamp, date8, hhmm, four, two. rewrite !all_bytes_app. cbn [all_bytes].
  by rewrite !Hd, Hdot, Hplus, Hzero.
Qed.

Lemma minute_stamp_no_byte c unix : is_digit_byte c = false → c ≠ "."%char → c ≠ "+"%char → no_byte c (minute_stamp unix) = true.
Proof.
  intros Hc Hdot Hplus. eapply (all_bytes_no_byte (λ a, bool_decide (a ≠ c))); [by apply bool_decide_eq_false; tauto|].
  apply minute_stamp_bytes; [|by apply bool_decide_eq_true..|].
  - intros n. apply bool_decide_eq_true. intros <-. unfold digit in Hc. by rewrite is_digit_byte_char in Hc.
  - apply bool_decide_eq_true. intros <-. vm_compute in Hc. done.
Qed.

Lemma date8_digits unix : all_bytes is_digit_byte (date8 unix) = true.
Proof. unfold date8, four, two, digit. rewrite !all_bytes_app. cbn [all_bytes]. by rewrite !is_digit_byte_char. Qed.

(** A name of another identity is never taken for one's own. *)
Lemma stamped_identity error stamp o s error' stamp' o' s' :
  no_byte "_" stamp = true → no_byte "_" stamp' = true → no_byte "." o = true → no_byte "." o' = true →
  stamped error stamp o s = stamped error' stamp' o' s' → stamp = stamp' ∧ o = o' ∧ s = s'.
Proof.
  intros H1 H2 Ho Ho' Heq.
  assert (Htail : stamp +:+ "_" +:+ o +:+ "." +:+ s +:+ ".gz" = stamp' +:+ "_" +:+ o' +:+ "." +:+ s' +:+ ".gz").
  { unfold stamped in Heq. destruct error, error'; try (by apply str_app_inj_l in Heq); exfalso; by cbn in Heq. }
  assert (Hcut : ∀ c (a b a' b' : string), no_byte c a = true → no_byte c a' = true →
    a +:+ String c b = a' +:+ String c b' → a = a' ∧ b = b').
  { intros c a b a' b' Ha Ha' He. pose proof (Cut_app c a b Ha) as Hc. rewrite He, Cut_app in Hc by done. by simplify_eq. }
  apply (Hcut "_"%char) in Htail as [-> Htail]; [|done..]. split; [done|].
  apply (Hcut "."%char) in Htail as [-> Htail]; [|done..]. split; [done|].
  apply (f_equal (λ x, TrimSuffix x ".gz")) in Htail. by rewrite !TrimSuffix_app in Htail.
Qed.

(** ** Properties *)

(** C31: Retention, on both names that a device gives its uploads, of the log and
    of the error log: with a horizon [keep], a device's sweep selects every upload
    of its own older than [keep], none younger than [keep] by a minute, and no
    upload of a device with another identity. *)
Theorem retention_window now keep oui serial names c name : (0 < keep)%Z → (0 ≤ year_of (At_unix c) < 10000)%Z →
  name ∈ [LogName c; ErrorLogName c] → name ∈ names → no_byte "." oui = true → no_byte "." (LogGen.OUI c) = true →
  let selected := name ∈ expiredUploads names oui serial now keep in
  ((LogGen.OUI c, LogGen.Serial c) = (oui, serial) →
     (At c < now - keep → selected)%Z ∧ (selected → At c < now - keep + 60 * 1000000000)%Z) ∧
  ((LogGen.OUI c, LogGen.Serial c) ≠ (oui, serial) → ¬ selected).
Proof.
  intros Hkeep Hy Hname Hin Ho Hc selected.
  assert (Hst : ∃ error, name = stamped error (minute_stamp (At_unix c)) (LogGen.OUI c) (LogGen.Serial c)).
  { apply elem_of_cons in Hname as [Hname|Hname%list_elem_of_singleton]; rewrite Hname;
      [exists false; apply LogName_stamped|exists true; apply ErrorLogName_stamped]. }
  clear Hname. destruct Hst as [err Hst].
  assert (Hsel : selected ↔ expired now keep oui serial name = true).
  { unfold selected, expiredUploads. rewrite decide_False by lia. rewrite list_elem_of_filter. tauto. }
  assert (Hmin : (At_unix c * 1000000000 ≤ At c < At_unix c * 1000000000 + 1000000000)%Z).
  { unfold At_unix. Z.div_mod_to_equations. lia. }
  rewrite Hsel. unfold expired. split.
  - intros [= <- <-].
    assert (Ht : uploadTime name (LogGen.OUI c) (LogGen.Serial c) = Some (At_unix c - At_unix c mod 60)%Z).
    { apply uploadTime_spec. eexists _, _. split; [exact Hst|]. by apply Parse_minute_stamp_roundtrip. }
    rewrite Ht, bool_decide_eq_true. pose proof (Z.mod_pos_bound (At_unix c) 60). split; intros; lia.
  - intros Hne. destruct (uploadTime name oui serial) as [t|] eqn:Ht; [|done]. exfalso. apply Hne.
    apply uploadTime_spec in Ht as (error & stamp & Hn & Hp). rewrite Hst in Hn.
    apply stamped_identity in Hn as (_ & -> & ->); [done| |by eapply Parse_minute_stamp_no_byte|done|done].
    by apply minute_stamp_no_byte.
Qed.

(** The agent understands the name of an upload: whatever directory it finds
    the file in, it takes it for an upload, attributes it to the device's own
    identity and files it under the day of the upload. *)
Theorem upload_name_understood dir mtime c :
  no_byte "/" (LogGen.OUI c) = true → no_byte "/" (LogGen.Serial c) = true →
  no_byte "_" (LogGen.OUI c) = true → no_byte "_" (LogGen.Serial c) = true → no_byte "." (LogGen.OUI c) = true →
  Forall (λ name, isLogUpload name = true ∧
    ouiSerialFromName (Join2 dir name) = (LogGen.OUI c, LogGen.Serial c) ∧
    occurrenceBucket (Join2 dir name) mtime = date8 (At_unix c)) [LogName c; ErrorLogName c].
Proof.
  intros Ho1 Hs1 Ho2 Hs2 Ho3.
  assert (Hname : ∀ error, stamped error (minute_stamp (At_unix c)) (LogGen.OUI c) (LogGen.Serial c) =
    periodic_name error (date8 (At_unix c)) (hhmm (At_unix c) +:+ "+0000") (LogGen.OUI c) (LogGen.Serial c)).
  { intros error. unfold stamped, periodic_name, minute_stamp. by rewrite !str_app_assoc. }
  assert (Hslash : ∀ error, no_byte "/" (stamped error (minute_stamp (At_unix c)) (LogGen.OUI c) (LogGen.Serial c)) = true).
  { intros error. unfold stamped. rewrite !no_byte_app, Ho1, Hs1, minute_stamp_no_byte by done. by destruct error. }
  assert (Hall : ∀ error, let name := stamped error (minute_stamp (At_unix c)) (LogGen.OUI c) (LogGen.Serial c) in
    isLogUpload name = true ∧ ouiSerialFromName (Join2 dir name) = (LogGen.OUI c, LogGen.Serial c) ∧
    occurrenceBucket (Join2 dir name) mtime = date8 (At_unix c)).
  { intros error name. pose proof (Hslash error) as Hsl. subst name. rewrite Hname in *. split_and!.
    - apply periodic_name_is.
    - by apply ouiSerialFromName_periodic.
    - apply occurrenceBucket_periodic; [done| |done|].
      + eapply all_bytes_no_byte; [|apply date8_digits]. reflexivity.
      + destruct (HasPrefix (date8 (At_unix c)) "Log_") eqn:Hp; [|done]. apply HasPrefix_inv in Hp as [u Hp].
        pose proof (date8_digits (At_unix c)) as Hd. rewrite Hp in Hd. by vm_compute in Hd. }
  rewrite LogName_stamped, ErrorLogName_stamped. repeat constructor; apply Hall.
Qed.

(** ** The loop *)

Section Loop.
Context {W : Type} (curl : list string → option (string * string) → W → curl_out * W)
  (scratch : string → W → result string string * W) (Expand : string → string → string) (gzip : string → string).

Lemma upload_cycle corpus cfg at_ at_prune cycle dw :
  (upload curl scratch Expand gzip corpus cfg at_ at_prune (cycle, dw)).1 = int64 (cycle + 1).
Proof.
  destruct dw as [dev w]. unfold upload. destruct (Generate _ _ _ _) as [log err]. by destruct (curlUpload _ _ _ _ _ _ _ _) as [r w'].
Qed.

(** The uploads are numbered from zero without a gap, so that exactly every
    tenth one sweeps. *)
Lemma ticks_cycle corpus cfg ticks : ∀ x, (0 ≤ x.1)%Z → (x.1 + Z.of_nat (length ticks) < 2 ^ 63)%Z →
  (foldl (on_tick curl scratch Expand gzip corpus cfg) x ticks).1 = (x.1 + Z.of_nat (length ticks))%Z.
Proof.
  induction ticks as [|t ticks IH]; intros x H0 H1; cbn [foldl length] in *; [lia|].
  assert (Hc : (on_tick curl scratch Expand gzip corpus cfg x t).1 = (x.1 + 1)%Z).
  { unfold on_tick. rewrite upload_cycle. unfold int64. rewrite Z.mod_small; lia. }
  rewrite IH; rewrite Hc; lia.
Qed.

(** A device that never informed uploads nothing; otherwise the loop starts
    from the moment its first session was counted. *)
Lemma wait_informed_spec naps : ∀ x y : device * W,
  wait_informed naps x = Some y →
  (informs y.1 ≠ 0)%Z ∧ ∃ n, n ≤ length naps ∧ y = foldl (λ x nap, nap x) x (take n naps).
Proof.
  induction naps as [|nap naps IH]; intros x y; cbn [wait_informed]; case_decide as Hi; try done.
  1, 3: intros [= <-]; split; [done|]; exists 0; split; [lia|by rewrite take_0].
  intros (Hy & n & Hn & ->)%IH. split; [done|]. exists (S n). split; [simpl; lia|done].
Qed.

Theorem loop_numbers_uploads fixture cfg naps at_ at_prune ticks x y : (Z.of_nat (length ticks) < 2 ^ 63 - 1)%Z →
  runFTPUploadLoop curl scratch Expand gzip fixture cfg naps at_ at_prune ticks x = Some y →
  y.1 = (1 + Z.of_nat (length ticks))%Z.
Proof.
  intros Hlen. unfold runFTPUploadLoop. destruct (wait_informed naps x) as [x'|]; [|done].
  pose proof (upload_cycle (sampleLines fixture) cfg at_ at_prune 0%Z x') as Hu. unfold mbind, option_bind. revert Hu.
  generalize (upload curl scratch Expand gzip (sampleLines fixture) cfg at_ at_prune (0%Z, x')). intros z Hu [= <-].
  change (z.1 = 1%Z) in Hu. rewrite ticks_cycle; rewrite Hu; lia.
Qed.
End Loop.

(** ** What a sweep removes *)

Section Sweep.
Context {W : Type} (curl : list string → option (string * string) → W → curl_out * W) (dir : W → list string).

(** curl removes a file from the server only on a quoted DELE command. *)
Definition curl_deletes_on_command : Prop :=
  ∀ args file w n, n ∈ dir w → n ∉ dir (curl args file w).2 → ∃ pre post, args = pre ++ ["-Q"; "*DELE " +:+ n] ++ post.

Hypothesis curl_deletes : curl_deletes_on_command.

Lemma quotes_in_args host user pass batch pre post n :
  delete_args host user pass batch = pre ++ ["-Q"; "*DELE " +:+ n] ++ post → n ∈ batch.
Proof.
  intros Hargs.
  assert (Hu : userpass user pass ≠ "-Q").
  { intros He. apply (f_equal (no_byte ":")) in He. unfold userpass in He. rewrite !no_byte_app in He.
    change (no_byte ":" ":") with false in He. rewrite andb_false_r in He. done. }
  assert (Hstart : ∃ pre', (batch ≫= λ n, ["-Q"; "*DELE " +:+ n]) ++ [ftp_url host "/"] = pre' ++ ["-Q"; "*DELE " +:+ n] ++ post).
  { unfold delete_args in Hargs. cbn [app] in Hargs.
    do 6 (destruct pre as [|? pre]; [exfalso; cbn in Hargs; injection Hargs; intros; done || congruence|];
      injection Hargs as _ Hargs). by exists pre. }
  clear Hargs. destruct Hstart as [pre' Hargs]. revert pre' Hargs. induction batch as [|b batch IH]; intros pre' Hargs.
  - cbn in Hargs. destruct pre' as [|? [|? ?]]; cbn in Hargs; simplify_eq.
  - cbn [mbind list_bind app] in Hargs. destruct pre' as [|? [|? pre']]; cbn [app] in Hargs.
    + injection Hargs as Hn _. change (b = n) in Hn. subst. by left.
    + exfalso. injection Hargs as _ Hn _. done.
    + injection Hargs as _ _ Hargs. right. by apply (IH pre').
Qed.

Lemma curlDelete_keeps host user pass n fuel names w : n ∈ dir w → n ∉ names →
  n ∈ dir (curlDelete_loop curl fuel host user pass names w).2.
Proof.
  revert names w. induction fuel as [|fuel IH]; intros names w Hn Hnot; [done|].
  destruct names as [|x names]; [done|]. cbn [curlDelete_loop].
  assert (Hk : n ∈ dir (curl (delete_args host user pass (take deleteBatch (x :: names))) None w).2).
  { destruct (decide (n ∈ dir (curl (delete_args host user pass (take deleteBatch (x :: names))) None w).2)) as [|Hd]; [done|].
    exfalso. destruct (curl_deletes _ _ _ _ Hn Hd) as (pre & post & Hargs). apply quotes_in_args in Hargs.
    apply Hnot. rewrite <- (take_drop deleteBatch (x :: names)). apply elem_of_app. by left. }
  destruct (curl _ _ _) as [out w1]. destruct (co_err out); [done|]. apply IH; [done|].
  intros Hd. apply Hnot. rewrite <- (take_drop deleteBatch (x :: names)). apply elem_of_app. by right.
Qed.

Lemma curlList_keeps host user pass n w : n ∈ dir w → n ∈ dir (curlList curl host user pass w).2.
Proof.
  intros Hn. unfold curlList. match goal with |- context [curl ?a None w] => set (args := a) end.
  destruct (decide (n ∈ dir (curl args None w).2)) as [|Hd]; [by destruct (curl args None w)|].
  exfalso. destruct (curl_deletes _ _ _ _ Hn Hd) as (pre & post & Hargs).
  assert (Hin : "-Q" ∈ args) by (rewrite Hargs; apply elem_of_app; right; by left).
  unfold args in Hin. rewrite !elem_of_cons, elem_of_nil in Hin.
  destruct Hin as [?|[?|[?|[He|[?|[?|[He|[]]]]]]]]; try done.
  apply (f_equal (no_byte ":")) in He. unfold userpass in He. rewrite !no_byte_app in He.
  change (no_byte ":" ":") with false in He. rewrite andb_false_r in He. done.
Qed.
End Sweep.

(** C30: A retention sweep is harmless: whatever curl answers, fails at or prints,
    a file on the server that is not an expired upload of the sweeping device is
    still there afterwards. *)
Theorem sweep_keeps_others {W} (curl : list string → option (string * string) → W → curl_out * W) dir dev cfg now w n :
  curl_deletes_on_command curl dir → n ∈ dir w → expired now (uc_retention cfg) (oui dev) (serial dev) n = false →
  n ∈ dir (pruneOwnUploads curl dev cfg now w).2.
Proof.
  intros Hcurl Hn Hexp. unfold pruneOwnUploads.
  pose proof (curlList_keeps curl dir Hcurl (uc_host cfg) (uc_user cfg) (uc_pass cfg) n w Hn) as Hl.
  destruct (curlList _ _ _ _ w) as [[names|e] w1]; [|done]. cbn [snd] in Hl.
  set (old := expiredUploads _ _ _ _ _).
  assert (Hnot : n ∉ old).
  { unfold old, expiredUploads. case_decide; [apply not_elem_of_nil|]. rewrite list_elem_of_filter. by rewrite Hexp; intros []. }
  destruct old as [|x old]; [done|].
  pose proof (curlDelete_keeps curl dir Hcurl (uc_host cfg) (uc_user cfg) (uc_pass cfg) n (length (x :: old)) (x :: old) w1 Hl Hnot) as Hd.
  unfold curlDelete. by destruct (curlDelete_loop _ _ _ _ _ _ w1) as [[] w2].
Qed.

(** ** Witnesses: a server that keeps a list of names *)

Fixpoint ex_deletions (args : list string) : list string :=
  match args with
  | a :: rest =>
      match rest with
      | q :: _ => if decide (a = "-Q") then (if HasPrefix q "*DELE " then [TrimPrefix q "*DELE "] else []) else []
      | [] => []
      end ++ ex_deletions rest
  | [] => []
  end.

Definition ex_curl (args : list string) (file : option (string * string)) (w : list string) : curl_out * list string :=
  (mkOut None (Join w newline) "" "", filter (λ n, n ∉ ex_deletions args) w).

Lemma ex_curl_deletes : curl_deletes_on_command ex_curl id.
Proof.
  intros args file w n Hn Hd. assert (Hin : n ∈ ex_deletions args).
  { destruct (decide (n ∈ ex_deletions args)) as [|Hnot]; [done|]. exfalso. apply Hd. simpl.
    apply list_elem_of_filter. by split. }
  clear Hn Hd w file. induction args as [|a rest IH]; cbn [ex_deletions] in Hin; [by apply elem_of_nil in Hin|].
  apply elem_of_app in Hin as [Hin|Hin].
  - destruct rest as [|q rest]; [by apply elem_of_nil in Hin|]. case_decide; [|by apply elem_of_nil in Hin]. subst a.
    destruct (HasPrefix q "*DELE ") eqn:Hp; [|by apply elem_of_nil in Hin].
    apply HasPrefix_inv in Hp as [u ->]. rewrite TrimPrefix_app in Hin. apply list_elem_of_singleton in Hin as <-.
    by exists [], rest.
  - destruct (IH Hin) as (pre & post & ->). by exists (a :: pre), post.
Qed.

Definition ex_dev : device := mkDev ∅ 0 0 None "8C1F64" "ENB-1" "42" "" 0 0 "".
Definition ex_upload_cfg : ftpUploadConfig := mkUpload "ftp" "u" "p" 0 "happy" (3600 * 1000000000).
Definition ex_gen (serial : string) (unix : Z) : LogGen.Config :=
  LogGen.mkConfig "8C1F64" serial "ENB-1" (unix * 1000000000) "happy" 0.
(** An old upload of the device, a fresh one, and an old one of its neighbour. *)
Definition ex_dir : list string :=
  [LogName (ex_gen "42" 1709210096); LogName (ex_gen "42" 1709217296); LogName (ex_gen "43" 1709210096)].

Example ex_sweep : pruneOwnUploads ex_curl ex_dev ex_upload_cfg (1709217300 * 1000000000) ex_dir =
  (Deleted 1, [LogName (ex_gen "42" 1709217296); LogName (ex_gen "43" 1709210096)]).
Proof. vm_compute. reflexivity. Qed.

Lemma sweep_keeps_others_witness :
  LogName (ex_gen "43" 1709210096) ∈ (pruneOwnUploads ex_curl ex_dev ex_upload_cfg (1709217300 * 1000000000) ex_dir).2.
Proof.
  apply (sweep_keeps_others ex_curl id ex_dev ex_upload_cfg (1709217300 * 1000000000) ex_dir (LogName (ex_gen "43" 1709210096))).
  - exact ex_curl_deletes.
  - right. right. by left.
  - vm_compute. reflexivity.
Defined.

Lemma retention_window_witness :
  ErrorLogName (ex_gen "42" 1709210096) ∈
    expiredUploads (ErrorLogName (ex_gen "42" 1709210096) :: ex_dir) "8C1F64" "42" (1709217300 * 1000000000) (3600 * 1000000000).
Proof.
  apply (retention_window (1709217300 * 1000000000) (3600 * 1000000000) "8C1F64" "42"
    (ErrorLogName (ex_gen "42" 1709210096) :: ex_dir) (ex_gen "42" 1709210096)).
  - lia.
  - assert (Hy : year_of (At_unix (ex_gen "42" 1709210096)) = 2024%Z) by (vm_compute; reflexivity). rewrite Hy. lia.
  - right. by left.
  - by left.
  - reflexivity.
  - reflexivity.
  - reflexivity.
  - vm_compute. reflexivity.
Defined.

Lemma upload_name_understood_witness :
  ouiSerialFromName (Join2 "/ftp" (LogName (ex_gen "42" 1709210096))) = ("8C1F64", "42").
Proof.
  pose proof (upload_name_understood "/ftp" None (ex_gen "42" 1709210096) eq_refl eq_refl eq_refl eq_refl eq_refl) as Ht.
  exact (proj1 (proj2 (Forall_inv Ht))).
Defined.
