(* ===== verification/SimMain.v ===== *)
(** * The test suite's process (testsuite/main.go, and the device loop of testsuite/device.go)

    [main] resolves the configuration, builds the mock cloud's state and one
    simulated device per specification, and serves; each device then runs one
    session after the other. *)
From S2P Require Import Prelude GoStrings DeviceId LogGen SimHttp NanoConfig DeviceSim CloudSim FtpSim.

(** ** main *)

Definition env (getenv : string → string) (key fallback : string) : string :=
  if decide (getenv key ≠ "") then getenv key else fallback.

(** [os.Hostname], [None] its error. *)
Definition defaultCRHost (hostname : option string) : string :=
  match hostname with
  | Some h => if decide (h ≠ "") then h else "localhost"
  | None => "localhost"
  end.

(** The body of the loop that gives each device its connection-request URL. *)
Definition advertise (crHost : string) (s : deviceSpec) : deviceSpec :=
  mkSpec (ds_Index s) (ds_OUI s) (ds_ProductClass s) (ds_Serial s) (ds_CWMPID s) (ds_CRPort s)
    ("http://" +:+ crHost +:+ ":" +:+ pretty (ds_CRPort s) +:+ "/") (ds_Params s).

Inductive sim_fatal := FatalConf | FatalSpecs (e : spec_error) | FatalManifest.

(** What the started process works with; [su_acs]: the modes in which only the
    devices and their FTP uploads are served. *)
Record suite := mkSuite {
  su_mode : string;
  su_manifest : manifest;
  su_state : state;
  su_devices : list device;
  su_ftpDir : string;
  su_upload : ftpUploadConfig;
  su_agentURL : string;
  su_acs : bool }.

Section Main.
Variable yaml_Unmarshal : string → nanolinkConfig → option nanolinkConfig.
Variable ParseDuration : string → option Z.
Variable hostname : option string.
(** The file at a path, and the decoded manifest. *)
Variable conf_at : string → conf_file.
Variable embedded : option (list manifestParam).

Definition main (getenv : string → string) : result sim_fatal suite :=
  let mode := ToLower (TrimSpace (env getenv "TESTSUITE_MODE" "full")) in
  match loadNanolinkConfig yaml_Unmarshal (conf_at (env getenv "NANOLINK_CONF" "conf/nanolink.conf")) with
  | None => Err FatalConf
  | Some cfg =>
      let cfg := withEnvOverrides ParseDuration getenv cfg in
      match deviceSpecs cfg with
      | Err e => Err (FatalSpecs e)
      | Ok specs =>
          let fleetMode := match Devices cfg with [] => false | _ => true end in
          let specs :=
            if fleetMode then advertise (env getenv "NANOLINK_CR_HOST" (defaultCRHost hostname)) <$> specs else specs in
          match embedded with
          | None => Err FatalManifest
          | Some params =>
              let m := loadManifest params in
              let st := stateForSpecs (initial_state (default "" (scenarioEventType !! nc_Scenario cfg))) specs fleetMode in
              let devices := newDeviceFromSpec m <$> specs in
              let ftpCfg := mkUpload (ftp_Host (FTP cfg)) (ftp_User (FTP cfg)) (ftp_Pass (FTP cfg))
                (ftp_UploadInterval (FTP cfg)) (nc_Scenario cfg) (ftp_Retention (FTP cfg)) in
              Ok (mkSuite mode m st devices (env getenv "FTP_DIR" "/ftp") ftpCfg
                    (env getenv "AGENT_CWMP_URL" "http://cloudlynet-edgeagent:7547/")
                    (bool_decide (mode = "acsftp" ∨ mode = "acs")))
          end
      end
  end.
End Main.

(** ** The device loop *)

(** The channel [dialNow] has room for one poke; the loop takes it. *)
Definition connection_request (dialNow : nat) : nat := if decide (dialNow < 1) then S dialNow else dialNow.

Section Loop.
(** The parameters of [DeviceSim.runSession]. *)
Context (unicode_name : string → bool) {W : Type} (post : string → device * W → option string * (device * W)).
Context (now : W → Z) (map_range : gmap string string → list string).

(** [n] rounds of [runDeviceLoop]: each round draws a message id and runs a
    session, whichever of the ticker and a poke started it. *)
Fixpoint runDeviceLoop (n : nat) (m : manifest) (x : Z * (device * W)) : Z * (device * W) :=
  match n with
  | 0 => x
  | S n =>
      let '(counter, dw) := x in
      let '(msgID, counter) := nextMsgID counter in
      runDeviceLoop n m (counter, (runSession unicode_name post now map_range m msgID dw).2)
  end.
End Loop.

(** ** Lemmas *)

Lemma mirror_lookup overlay c u m k : k ≠ u → mirror overlay c u m !! k = m !! k.
Proof. intros Hk. unfold mirror. repeat case_match; try done. by rewrite lookup_insert_ne. Qed.

(** A device reports the URL it was given, unless its configuration overrides
    that very parameter. *)
Lemma newDeviceFromSpec_url m s : ds_CRURL s ≠ "" →
  params (newDeviceFromSpec m s) !! connectionRequestURLPath =
    Some (default (ds_CRURL s) (ds_Params s !! connectionRequestURLPath)).
Proof.
  intros Hne. unfold newDeviceFromSpec. cbn [params]. rewrite !mirror_lookup by done. rewrite decide_True by done.
  rewrite lookup_union. destruct (ds_Params s !! connectionRequestURLPath) as [v|]; rewrite lookup_insert_eq; done.
Qed.

Lemma advertised_inj host l : NoDup (ds_CRPort <$> l) → NoDup (ds_CRURL <$> (advertise host <$> l)).
Proof.
  intros Hnd. rewrite <- list_fmap_compose.
  apply (NoDup_fmap_2_strong (λ p : Z, "http://" +:+ host +:+ ":" +:+ pretty p +:+ "/")) in Hnd.
  - rewrite <- list_fmap_compose in Hnd. exact Hnd.
  - intros p q _ _ Heq. do 3 apply str_app_inj_l in Heq. apply (f_equal (λ u, TrimSuffix u "/")) in Heq.
    rewrite !TrimSuffix_app in Heq. by apply (inj pretty) in Heq.
Qed.

Lemma ports_distinct base l specs : length specs = length l →
  (∀ i d s, l !! i = Some d → specs !! i = Some s → spec_for base i d s) → NoDup (ds_CRPort <$> specs).
Proof.
  intros Hl Hspec. apply NoDup_alt. intros i j p Hi Hj. rewrite list_lookup_fmap in Hi, Hj.
  assert (Hport : ∀ k, ds_CRPort <$> specs !! k = Some p → p = (30005 + Z.of_nat k)%Z).
  { intros k. destruct (specs !! k) as [s|] eqn:Hs; [|done]. intros [= <-].
    destruct (lookup_lt_is_Some_2 l k) as [d Hd]; [rewrite <- Hl; by eapply lookup_lt_Some|].
    by destruct (Hspec k d s Hd Hs) as (_ & ? & _). }
  apply Hport in Hi, Hj. lia.
Qed.

(** ** Properties *)

(** A suite started on a fleet configuration simulates that fleet: one device
    per entry, each with its own serial and the canonical id the agent will know
    it by; each advertises a connection-request URL of its own, on port 30005 +
    index, and reports it unless its entry overrides that parameter; and the
    health gate expects exactly these devices. *)
Theorem suite_simulates_fleet yaml_Unmarshal ParseDuration hostname conf_at embedded getenv c su :
  loadNanolinkConfig yaml_Unmarshal (conf_at (env getenv "NANOLINK_CONF" "conf/nanolink.conf")) = Some c →
  Devices c ≠ [] → main yaml_Unmarshal ParseDuration hostname conf_at embedded getenv = Ok su →
  length (su_devices su) = length (Devices c) ∧
  fleet (su_state su) = Some (newFleetHealth (cwmpID <$> su_devices su)) ∧
  NoDup (serial <$> su_devices su) ∧ NoDup (crURL <$> su_devices su) ∧
  ∀ i dc d, Devices c !! i = Some dc → su_devices su !! i = Some d →
    serial d = TrimSpace (dc_Serial dc) ∧ index d = Z.of_nat i ∧ crPort d = (30005 + Z.of_nat i)%Z ∧
    cwmpID d = CanonicalID (oui d) (productClass d) (serial d) ∧
    params d !! connectionRequestURLPath = Some (default (crURL d) (dc_Params dc !! connectionRequestURLPath)).
Proof.
  intros Hc Hne Hmain. unfold main in Hmain. rewrite Hc in Hmain. set (cfg := withEnvOverrides ParseDuration getenv c) in *.
  pose proof (deviceSpecs_fleet cfg Hne) as Hs. destruct (deviceSpecs cfg) as [specs|]; [|done].
  destruct Hs as (Hl & Hnd & Hspec & _). change (Devices cfg) with (Devices c) in *. destruct embedded as [ps|]; [|done].
  set (host := env getenv _ (defaultCRHost hostname)) in *.
  assert (Hfleet : match Devices c with [] => false | _ => true end = true) by (by destruct (Devices c)).
  rewrite Hfleet in Hmain. cbv zeta in Hmain. injection Hmain as <-. cbn [su_devices su_state].
  set (m := loadManifest ps). pose proof (ports_distinct _ _ _ Hl Hspec) as Hports.
  split_and!.
  - by rewrite !length_fmap.
  - simpl. by rewrite <- !list_fmap_compose.
  - by rewrite <- !list_fmap_compose.
  - rewrite <- list_fmap_compose. change (crURL ∘ newDeviceFromSpec m) with ds_CRURL. by apply advertised_inj.
  - intros i dc d Hdc Hd. rewrite !list_lookup_fmap in Hd. destruct (specs !! i) as [s|] eqn:Hi; [|done]. injection Hd as <-.
    destruct (Hspec i dc s Hdc Hi) as (H1 & H2 & H3 & _ & H5 & _ & _ & H8). split_and!; try done.
    rewrite newDeviceFromSpec_url by done. cbn [ds_CRURL ds_Params advertise]. by rewrite H5.
Qed.

(** ** Witnesses *)

Abbreviation ex_main :=
  (main (λ _ _, Some ex_fleet) (λ _, None) (Some "sim") (λ _, ConfBytes "devices: ...") (Some []) (λ _, "")).

Lemma ex_main_urls :
  match ex_main with Ok su => crURL <$> su_devices su = ["http://sim:30005/"; "http://sim:30006/"] | Err _ => False end.
Proof. vm_compute. reflexivity. Qed.

Lemma suite_simulates_fleet_witness :
  match ex_main with
  | Ok su => crURL <$> su_devices su = ["http://sim:30005/"; "http://sim:30006/"] ∧
             fleet (su_state su) = Some (newFleetHealth (cwmpID <$> su_devices su))
  | Err _ => False
  end.
Proof.
  pose proof ex_main_urls as Hu. destruct ex_main as [su|e] eqn:Hm; [|exact Hu]. split; [exact Hu|].
  exact (proj1 (proj2 (suite_simulates_fleet (λ _ _, Some ex_fleet) (λ _, None) (Some "sim") (λ _, ConfBytes "devices: ...")
    (Some []) (λ _, "") ex_fleet su eq_refl ltac:(done) Hm))).
Defined.
