(* ===== verification/Acs.v ===== *)
(** * The ACS and the cloud as the collector and the worker see them

    What goagent/internal/collector and goagent/internal/worker use of
    cwmp.Server.RequestAndAwait and of the cloud client, as an interface. *)
From S2P Require Import Prelude CloudTypes Db CwmpTypes.

(** [RequestAndAwait dev t] queues a task for a device, pokes it and waits: the
    result, or [None] when the deadline passes.  Meanwhile the device's sessions
    run; they work on the buffer's CWMP tables and on the outside world [W], but
    have no access to the table of applied commands. *)
Class Acs (W : Type) := {
  RequestAndAwait : string → Task → sql * W → option TaskResult * (sql * W);
  cloud_Ack : string → AckRequest → W → W; (* an error is logged *)
  cloud_SendSnapshot : string → gmap string any → string → W → W }.

Class AcsLaws (W : Type) `{Acs W} := {
  Acs_applied dev t s w : applied (sdb (RequestAndAwait dev t (s, w)).2.1) = applied (sdb s);
  Acs_healthy dev t s w : healthy s → healthy (RequestAndAwait dev t (s, w)).2.1 }.
