(* ===== verification/Client.v ===== *)
(** * The cloud client (goagent/internal/cloud/client.go)

    Every call is one HTTP exchange with up to three attempts.  The HTTP
    transport is net/http: here a function on the outside world [W]. *)
From S2P Require Import Prelude GoStrings CloudTypes.

(** ** url.PathEscape

    [net/url]'s escaping of a path segment, and its inverse. *)
Definition path_safe (a : ascii) : bool :=
  let n := nat_of_ascii a in
  bool_decide ((65 ≤ n ∧ n ≤ 90) ∨ (97 ≤ n ∧ n ≤ 122) ∨ (48 ≤ n ∧ n ≤ 57) ∨
    n ∈ [45; 95; 46; 126; 36; 38; 43; 61; 58; 64]). (* - _ . ~ $ & + = : @ *)

Definition upper_hex (n : nat) : ascii := ascii_of_nat (if decide (n < 10) then 48 + n else 55 + n).

Fixpoint PathEscape (s : string) : string :=
  match s with
  | "" => ""
  | String a s =>
      if path_safe a then String a (PathEscape s)
      else
        let n := nat_of_ascii a in
        String "%" (String (upper_hex (n / 16)) (String (upper_hex (n mod 16)) (PathEscape s)))
  end.

Definition unhex (a : ascii) : option nat :=
  let n := nat_of_ascii a in
  if decide (48 ≤ n ∧ n ≤ 57) then Some (n - 48)
  else if decide (97 ≤ n ∧ n ≤ 102) then Some (n - 87)
  else if decide (65 ≤ n ∧ n ≤ 70) then Some (n - 55)
  else None.

(** [None]: an invalid escape. *)
Fixpoint PathUnescape (s : string) : option string :=
  match s with
  | "" => Some ""
  | String a s1 =>
      if decide (a = "%"%char) then
        match s1 with
        | String h (String l s2) =>
            h ← unhex h; l ← unhex l; t ← PathUnescape s2; Some (String (ascii_of_nat (16 * h + l)) t)
        | _ => None
        end
      else t ← PathUnescape s1; Some (String a t)
  end.

(** ** Requests *)

Record Client := mkClient { base : string; apiKey : string }.

(** A trailing slash of the base URL is dropped. *)
Definition New (baseURL key : string) : Client := mkClient (TrimRightByte baseURL "/") key.

Record http_request := mkRequest {
  rq_Method : string;
  rq_URL : string;
  rq_EdgeKey : string; (* X-Edge-Key *)
  rq_Body : option string }.

Inductive http_outcome :=
| NetError (msg : string)
| Response (status : Z) (body : string).

Inductive client_error :=
| ErrMarshal (msg : string)             (* json.Marshal *)
| ErrRequest (url : string)             (* http.NewRequest *)
| ErrStatus (method path : string) (status : Z) (body : string)
| ErrDecode (body : string)
| ErrContext (msg : string)             (* ctx.Err *)
| ErrUnreachable (last : string).

Definition url (c : Client) (path : string) : string :=
  if HasSuffix (base c) "/v1" && HasPrefix path "/v1/" then base c +:+ TrimPrefix path "/v1"
  else base c +:+ path.

Section Exchange.
Context {W : Type}.
(** The transport; whether a URL parses; whether the context ended by the time
    a retry waits.  The envelope's raw data and its decoding are
    encoding/json's. *)
Variable http_Do : http_request → W → http_outcome * W.
Variable valid_url : string → bool.
Variable ctx_Err : W → option string.
Context {T : Type}.
Variable json_Envelope : string → option string. (* the raw data *)
Variable json_Unmarshal : string → option T.
Variable zero : T.

Definition decodeEnvelope (body : string) : option T :=
  data ← json_Envelope body;
  if decide (data = "" ∨ data = "null") then Some zero else json_Unmarshal data.

(** What the caller wants decoded: [false] is a nil [out]. *)
Definition finish (wants : bool) (method path : string) (status : Z) (body : string) : result client_error (option T) :=
  if decide (400 ≤ status)%Z then Err (ErrStatus method path status (TrimSpace (str_take 4096 body)))
  else if wants then
    match decodeEnvelope body with
    | Some v => Ok (Some v)
    | None => Err (ErrDecode body)
    end
  else Ok None.

(** The loop, with [n] attempts to go. *)
Fixpoint doRaw_loop (n : nat) (c : Client) (method path : string) (body : option string) (wants : bool)
    (last : string) (w : W) : result client_error (option T) * W :=
  match n with
  | 0 => (Err (ErrUnreachable last), w)
  | S n =>
      if negb (valid_url (url c path)) then (Err (ErrRequest (url c path)), w)
      else
        let '(o, w) := http_Do (mkRequest method (url c path) (apiKey c) body) w in
        let retry (last : string) :=
          match ctx_Err w with
          | Some e => (Err (ErrContext e), w)
          | None => doRaw_loop n c method path body wants last w
          end in
        match o with
        | Response status b =>
            if decide (status < 500)%Z then (finish wants method path status b, w)
            else retry (method +:+ " " +:+ path +:+ " -> " +:+ pretty status)
        | NetError e => retry e
        end
  end.

Definition doRaw (c : Client) (method path : string) (body : option string) (wants : bool) (w : W) :
    result client_error (option T) * W :=
  doRaw_loop 3 c method path body wants "" w.

(** [do]; [None] is a nil [in]. *)
Definition do_ {X} (json_Marshal : X → result string string) (c : Client) (method path : string) (in_ : option X)
    (wants : bool) (w : W) : result client_error (option T) * W :=
  match in_ with
  | None => doRaw c method path None wants w
  | Some v =>
      match json_Marshal v with
      | Err e => (Err (ErrMarshal e), w)
      | Ok body => doRaw c method path (Some body) wants w
      end
  end.

(** [json.Marshal] of each request. *)
Variable Marshal_Register : RegisterRequest → result string string.
Variable Marshal_Heartbeat : HeartbeatRequest → result string string.
Variable Marshal_Telemetry : TelemetryRequest → result string string.
Variable Marshal_Snapshot : SnapshotRequest → result string string.
Variable Marshal_Ack : AckRequest → result string string.

Definition Register (c : Client) (req : RegisterRequest) := do_ Marshal_Register c "POST" "/v1/agent/register" (Some req) false.
Definition Heartbeat (c : Client) (req : HeartbeatRequest) := do_ Marshal_Heartbeat c "POST" "/v1/agent/heartbeat" (Some req) false.
Definition SendTelemetry (c : Client) (req : TelemetryRequest) :=
  do_ Marshal_Telemetry c "POST" "/v1/agent/telemetry" (Some req) false.
Definition SendTelemetryRaw (c : Client) (body : string) := doRaw c "POST" "/v1/agent/telemetry" (Some body) false.
Definition SendSnapshot (c : Client) (cwmpID : string) (req : SnapshotRequest) :=
  do_ Marshal_Snapshot c "POST" ("/v1/agent/devices/" +:+ PathEscape cwmpID +:+ "/config-snapshot") (Some req) false.
Definition Ack (c : Client) (commandID : string) (req : AckRequest) :=
  do_ Marshal_Ack c "POST" ("/v1/agent/commands/" +:+ PathEscape commandID +:+ "/ack") (Some req) false.
End Exchange.

Definition zero_poll : PollData := mkPoll "" [].

(** [Poll] decodes into [PollData]; what is not in the answer is the zero value. *)
Definition Poll {W} (http_Do : http_request → W → http_outcome * W) (valid_url : string → bool) (ctx_Err : W → option string)
    (json_Envelope : string → option string) (json_Unmarshal : string → option PollData) (c : Client) (w : W) :
    result client_error PollData * W :=
  let '(r, w) := do_ http_Do valid_url ctx_Err json_Envelope json_Unmarshal zero_poll (λ _ : unit, Ok "") c "GET"
                   "/v1/agent/poll" None true w in
  (match r with Ok out => Ok (default zero_poll out) | Err e => Err e end, w).

(** ** Lemmas *)

Lemma unhex_upper n : n < 16 → unhex (upper_hex n) = Some n.
Proof. intros Hn. do 16 (destruct n as [|n]; [reflexivity|]). lia. Qed.

Lemma upper_hex_not_slash n : n < 16 → upper_hex n ≠ "/"%char.
Proof. intros Hn. do 16 (destruct n as [|n]; [by vm_compute|]). lia. Qed.

Lemma PathUnescape_escape h l hv lv t u : unhex h = Some hv → unhex l = Some lv → PathUnescape t = Some u →
  PathUnescape (String "%" (String h (String l t))) = Some (String (ascii_of_nat (16 * hv + lv)) u).
Proof.
  intros Hh Hl Ht. cbn [PathUnescape]. rewrite decide_True, Hh, Hl by done. cbn [mbind option_bind]. by rewrite Ht.
Qed.

Lemma path_safe_not_percent a : path_safe a = true → a ≠ "%"%char.
Proof. intros Ha ->. by vm_compute in Ha. Qed.

Lemma path_safe_not_slash a : path_safe a = true → a ≠ "/"%char.
Proof. intros Ha ->. by vm_compute in Ha. Qed.

Lemma nat_of_ascii_lt a : nat_of_ascii a < 256.
Proof. apply Ascii.nat_ascii_bounded. Qed.

Section ExchangeLemmas.
Context {W : Type} (http_Do : http_request → W → http_outcome * W) (valid_url : string → bool) (ctx_Err : W → option string).
Context {T : Type} (json_Envelope : string → option string) (json_Unmarshal : string → option T) (zero : T).

(** Sending the same request [n] times. *)
Fixpoint send_n (n : nat) (rq : http_request) (w : W) : list http_outcome * W :=
  match n with
  | 0 => ([], w)
  | S n =>
      let '(o, w) := http_Do rq w in
      let '(os, w) := send_n n rq w in (o :: os, w)
  end.

Definition transient (o : http_outcome) : Prop :=
  match o with
  | NetError _ => True
  | Response status _ => (500 ≤ status)%Z
  end.

Definition exchange_end (n k : nat) (wants : bool) (method path : string) (o : http_outcome)
    (r : result client_error (option T)) (w' : W) : Prop :=
  (∃ status body, o = Response status body ∧ (status < 500)%Z ∧
     r = finish json_Envelope json_Unmarshal zero wants method path status body) ∨
  (transient o ∧
   ((∃ e, ctx_Err w' = Some e ∧ r = Err (ErrContext e)) ∨
    (k = n ∧ ctx_Err w' = None ∧ ∃ last, r = Err (ErrUnreachable last)))).

Lemma doRaw_loop_spec n c method path body wants : ∀ last w r w',
  0 < n → valid_url (url c path) = true →
  doRaw_loop http_Do valid_url ctx_Err json_Envelope json_Unmarshal zero n c method path body wants last w = (r, w') →
  ∃ k os o, k < n ∧ send_n (S k) (mkRequest method (url c path) (apiKey c) body) w = (os ++ [o], w') ∧
    Forall transient os ∧ exchange_end n (S k) wants method path o r w'.
Proof.
  induction n as [|n IH]; intros last w r w' Hpos Hurl Hrun; [lia|]. cbn [doRaw_loop] in Hrun. rewrite Hurl in Hrun.
  cbn [negb] in Hrun. set (rq := mkRequest method (url c path) (apiKey c) body) in *.
  destruct (http_Do rq w) as [o w1] eqn:Ho.
  assert (Hretry : ∀ last, transient o →
    match ctx_Err w1 with
    | Some e => (Err (ErrContext e), w1)
    | None => doRaw_loop http_Do valid_url ctx_Err json_Envelope json_Unmarshal zero n c method path body wants last w1
    end = (r, w') →
    ∃ k os o, k < S n ∧ send_n (S k) rq w = (os ++ [o], w') ∧ Forall transient os ∧
      exchange_end (S n) (S k) wants method path o r w').
  { intros last1 Htr Hr. destruct (ctx_Err w1) as [e|] eqn:He.
    - injection Hr as <- <-. exists 0, [], o. split_and!; [lia|cbn [send_n]; by rewrite Ho|constructor|].
      right. split; [done|]. left. by exists e.
    - destruct n as [|n].
      + cbn [doRaw_loop] in Hr. injection Hr as <- <-. exists 0, [], o.
        split_and!; [lia|cbn [send_n]; by rewrite Ho|constructor|]. right. split; [done|]. right. by eauto.
      + destruct (IH last1 w1 r w' ltac:(lia) Hurl Hr) as (k & os & o' & Hk & Hs & Hall & Hend).
        exists (S k), (o :: os), o'. split_and!; [lia| |by constructor|].
        * change (send_n (S (S k)) rq w) with (let '(o, w) := http_Do rq w in let '(os, w) := send_n (S k) rq w in (o :: os, w)).
          by rewrite Ho, Hs.
        * destruct Hend as [?|(? & [?|(-> & ?)])]; [by left|right; split; [done|by left]|right; split; [done|right; by split]]. }
  destruct o as [e|status b]; [by eapply Hretry|]. case_decide as Hst.
  - injection Hrun as <- <-. exists 0, [], (Response status b). split_and!; [lia|cbn [send_n]; by rewrite Ho|constructor|].
    left. by eauto.
  - eapply Hretry; [|done]. simpl. lia.
Qed.
End ExchangeLemmas.

(** ** Properties *)

(** C37: A call to the cloud sends one and the same request, authenticated with
    the edge key, at most three times: every answer but the last was a network
    error or a server error, the last decides the result, and the call succeeds
    only if the cloud answered with a status below 400. *)
Theorem doRaw_exchange {W T} http_Do valid_url ctx_Err json_Envelope json_Unmarshal (zero : T) c method path body wants
    (w : W) r w' :
  valid_url (url c path) = true →
  doRaw http_Do valid_url ctx_Err json_Envelope json_Unmarshal zero c method path body wants w = (r, w') →
  ∃ k os o, 1 ≤ k ≤ 3 ∧ send_n http_Do k (mkRequest method (url c path) (apiKey c) body) w = (os ++ [o], w') ∧
    Forall transient os ∧ exchange_end ctx_Err json_Envelope json_Unmarshal zero 3 k wants method path o r w' ∧
    (∀ v, r = Ok v → ∃ status b, o = Response status b ∧ (status < 400)%Z).
Proof.
  intros Hurl Hrun. apply doRaw_loop_spec in Hrun as (k & os & o & Hk & Hs & Hall & Hend); [|lia|done].
  exists (S k), os, o. split_and!; [lia|lia|done|done|done|]. intros v ->.
  destruct Hend as [(status & b & -> & _ & Hf)|(_ & [(e & _ & ?)|(_ & _ & l & ?)])]; [|done|done].
  exists status, b. split; [done|]. unfold finish in Hf. case_decide; [done|lia].
Qed.

(** An escaped id is a single path segment that the cloud decodes to exactly
    the id, percent signs and slashes in it included. *)
Theorem PathEscape_roundtrip s :
  PathUnescape (PathEscape s) = Some s ∧ no_byte "/" (PathEscape s) = true.
Proof.
  induction s as [|a s [IH IHs]]; [done|]. cbn [PathEscape]. destruct (path_safe a) eqn:Ha.
  - cbn [PathUnescape no_byte]. rewrite decide_False by (by apply path_safe_not_percent). rewrite IH. split; [done|].
    by rewrite IHs, bool_decide_true by by apply path_safe_not_slash.
  - pose proof (nat_of_ascii_lt a) as Hlt.
    assert (Hq : nat_of_ascii a / 16 < 16) by (apply Nat.Div0.div_lt_upper_bound; lia).
    assert (Hr : nat_of_ascii a mod 16 < 16) by (apply Nat.mod_upper_bound; lia).
    rewrite (PathUnescape_escape _ _ _ _ _ s (unhex_upper _ Hq) (unhex_upper _ Hr) IH), <- Nat.div_mod_eq.
    rewrite ascii_nat_embedding. split; [done|].
    cbn [no_byte]. rewrite !bool_decide_true by (done || by apply upper_hex_not_slash). by rewrite IHs.
Qed.

(** ** Witnesses *)

(** A transport that plays a script. *)
Definition ex_http (rq : http_request) (w : list http_outcome) : http_outcome * list http_outcome :=
  match w with
  | o :: w => (o, w)
  | [] => (NetError "no route to host", [])
  end.

Lemma doRaw_exchange_witness :
  let '(r, w') := doRaw ex_http (λ _, true) (λ _, None) Some Some "" (New "https://cloud.example/v1/" "key")
    "POST" "/v1/agent/telemetry" (Some "{}") false [Response 503 ""; Response 200 ""; Response 500 ""] in
  r = Ok None ∧ w' = [Response 500 ""] ∧ ∃ status body, (status < 400)%Z ∧ Response status body = Response 200 "".
Proof.
  destruct (doRaw _ _ _ _ _ _ _ _ _ _ _ _) as [r w'] eqn:Hrun.
  assert (Hr : r = Ok None ∧ w' = [Response 500 ""]) by (vm_compute in Hrun; by simplify_eq). destruct Hr as [-> ->].
  split; [reflexivity|]. split; [reflexivity|].
  destruct (doRaw_exchange ex_http (λ _, true) (λ _, None) Some Some "" _ _ _ _ _ _ _ _ eq_refl Hrun)
    as (k & os & o & Hk & Hs & Hall & _ & Hok).
  destruct (Hok None eq_refl) as (status & body & -> & Hlt). exists 200%Z, "". split; [lia|reflexivity].
Defined.
