(* ===== verification/CloudWire.v ===== *)
(** * The client's wire to the mock cloud
    (goagent/internal/cloud/client.go, testsuite/cloud.go)

    The agent's calls over HTTP as the mock cloud answers them: the request goes
    through the client's URL, the escaped path and the mux to the handler, and the
    reply through the envelope back to the caller. *)
From Stdlib Require Import SpecFloat.
From S2P Require Import Prelude GoStrings CloudTypes Db SimHttp DeviceSim CloudSim Client.

(** ** What the worker takes from a call *)

Section Calls.
Context {W : Type}.
(** See [Client]. *)
Variable http_Do : Client.http_request → W → http_outcome * W.
Variable valid_url : string → bool.
Variable ctx_Err : W → option string.
Variable json_Envelope : string → option string.
Variable json_Unmarshal : string → option PollData.
Variable Marshal_Register : RegisterRequest → result string string.
Variable Marshal_Heartbeat : HeartbeatRequest → result string string.
Variable Marshal_Snapshot : SnapshotRequest → result string string.
Variable Marshal_Ack : AckRequest → result string string.
(** The text of an error, which is only logged. *)
Variable Error : client_error → string.
Variable c : Client.

Definition error_of {A} (r : result client_error A) : option client_error :=
  match r with Ok _ => None | Err e => Some e end.

Definition client_Register (req : RegisterRequest) (w : W) : option client_error * W :=
  let '(r, w) := Register http_Do valid_url ctx_Err json_Envelope json_Unmarshal zero_poll Marshal_Register c req w in
  (error_of r, w).
Definition client_Heartbeat (devices : list InventoryItem) (w : W) : option client_error * W :=
  let '(r, w) := Heartbeat http_Do valid_url ctx_Err json_Envelope json_Unmarshal zero_poll Marshal_Heartbeat c
                   (mkHeartbeat devices) w in
  (error_of r, w).
Definition client_Poll (w : W) : result client_error (list Command) * W :=
  let '(r, w) := Poll http_Do valid_url ctx_Err json_Envelope json_Unmarshal c w in
  (match r with Ok d => Ok (pd_Commands d) | Err e => Err e end, w).
Definition client_SendTelemetryRaw (body : string) (w : W) : option go_error * W :=
  let '(r, w) := SendTelemetryRaw http_Do valid_url ctx_Err json_Envelope json_Unmarshal zero_poll c body w in
  ((λ e, ErrSend (Error e)) <$> error_of r, w).
Definition client_SendSnapshot (id : string) (params : gmap string any) (why : string) (w : W) : W :=
  (SendSnapshot http_Do valid_url ctx_Err json_Envelope json_Unmarshal zero_poll Marshal_Snapshot c id (mkSnapshot params why) w).2.
Definition client_Ack (id : string) (ack : AckRequest) (w : W) : W :=
  (Ack http_Do valid_url ctx_Err json_Envelope json_Unmarshal zero_poll Marshal_Ack c id ack w).2.
End Calls.

(** ** What encoding/json makes of a value

    Members that a struct does not name are skipped, members that are missing are
    zero values, a member of another type is an error; names are taken to match
    exactly. *)

Definition object {A} (f : list (string * json) → option A) (zero : A) (j : option json) : option A :=
  match j with
  | None => Some zero
  | Some (JObject m) => f m
  | Some _ => None
  end.

Definition decode_string (j : option json) : option string :=
  match j with None => Some "" | Some (JString s) => Some s | Some _ => None end.
Definition decode_bool (j : option json) : option bool :=
  match j with None => Some false | Some (JBool b) => Some b | Some _ => None end.
Definition decode_list {A} (f : option json → option A) (j : option json) : option (list A) :=
  match j with None => Some [] | Some (JList l) => mapM (λ x, f (Some x)) l | Some _ => None end.

(** Into [any]: numbers become float64. *)
Fixpoint decode_any (j : json) : any :=
  match j with
  | JBool b => ABool b
  | JInt n => AFloat (binary_normalize 53 1024 n 0 false)
  | JString s => AString s
  | JList l => AList (map decode_any l)
  | JObject m => AMap (map (λ kv, (kv.1, decode_any kv.2)) m)
  end.

Definition decode_map (j : option json) : option (gmap string any) :=
  object (λ m, Some (list_to_map ((λ kv, (kv.1, decode_any kv.2)) <$> m))) ∅ j.

Definition decode_write : option json → option Write :=
  object (λ m,
    p ← decode_string (field "path" m);
    t ← decode_string (field "xsd_type" m);
    Some (mkWrite p (from_option decode_any ANil (field "value" m)) t)) (mkWrite "" ANil "").

Definition zero_payload : CommandPayload := mkPayload [] ∅ false [].
Definition decode_payload : option json → option CommandPayload :=
  object (λ m,
    ws ← decode_list decode_write (field "writes" m);
    v ← decode_map (field "verify" m);
    r ← decode_bool (field "rollback_on_fail" m);
    ps ← decode_list decode_string (field "read_paths" m);
    Some (mkPayload ws v r ps)) zero_payload.

Definition decode_command : option json → option Command :=
  object (λ m,
    id ← decode_string (field "id" m);
    dev ← decode_string (field "device_id" m);
    cwmp ← decode_string (field "cwmp_id" m);
    typ ← decode_string (field "type" m);
    p ← decode_payload (field "payload" m);
    Some (mkCommand id dev cwmp typ p)) (mkCommand "" "" "" "" zero_payload).

Definition decode_poll : option json → option PollData :=
  object (λ m,
    t ← decode_string (field "server_time" m);
    l ← decode_list decode_command (field "commands" m);
    Some (mkPoll t l)) zero_poll.

(** The command fixtures as they reach the worker. *)
Definition fixture (id cwmpID typ : string) (p : CommandPayload) : Command :=
  mkCommand id "00000000-0000-0000-0000-000000000201" cwmpID typ p.
Definition configure_cmd (cwmpID : string) : Command :=
  fixture configureCommandID cwmpID "configure"
    (mkPayload [mkWrite refSignalPowerPath (AString configuredRSPower) "xsd:string"] ∅ false []).
Definition query_cmd (cwmpID : string) : Command :=
  fixture queryCommandID cwmpID "query" (mkPayload [] ∅ false [refSignalPowerPath]).
Definition reboot_cmd (cwmpID : string) : Command := fixture rebootCommandID cwmpID "reboot" zero_payload.

(** Those that were not acknowledged yet. *)
Definition offered (cwmpID : string) (st : state) : list Command :=
  filter (λ c, acks st !! cmd_ID c = None) [configure_cmd cwmpID; query_cmd cwmpID; reboot_cmd cwmpID].

(** ** The transport: the mock cloud behind a URL *)

Section Mux.
Context {W : Type}.
(** The suite's devices and the cloud's state in the world. *)
Variable look : W → list device * state.
Variable put : list device * state → W → W.
(** See [CloudSim]. *)
Variable SprintFloat : spec_float → string.
Variable timestamp : string.
Variable json_params : string → string + gmap string string.
Variable json_heartbeat : string → list string.
Variable json_telemetry : string → telemetry_body.
Variable json_snapshot : string → gmap string any.
Variable json_ack : string → string.
(** [json.Encoder]. *)
Variable json_Encode : json → string.
(** Where the cloud listens, as [scheme://host:port]. *)
Variable origin : string.

Definition reply_body (r : reply) : string :=
  match r with
  | ReplyJSON _ j => json_Encode j
  | ReplyError _ text => text +:+ String (byte_of 10) ""
  | ReplyStatus _ => ""
  end.

(** The client's paths have no query.  A handler that panics closes the
    connection. *)
Definition mux_Do (rq : Client.http_request) (w : W) : http_outcome * W :=
  if HasPrefix (rq_URL rq) origin then
    match PathUnescape (TrimPrefix (rq_URL rq) origin) with
    | None => (Response 400 "400 Bad Request", w)
    | Some p =>
        let '(rep, x) := cloudMux SprintFloat timestamp json_params json_heartbeat json_telemetry json_snapshot json_ack
                           (SimHttp.mkRequest (rq_Method rq) p ∅ (default "" (rq_Body rq))) (look w) in
        (match rep with
         | Some rep => Response (reply_status rep) (reply_body rep)
         | None => NetError "EOF"
         end, put x w)
    end
  else (NetError "no such host", w).
End Mux.

(** ** Lemmas: paths *)

Lemma PathUnescape_app a b x y : PathUnescape a = Some x → PathUnescape b = Some y → PathUnescape (a +:+ b) = Some (x +:+ y).
Proof.
  intros Ha Hb. revert x Ha. induction a as [a IH] using (induction_ltof1 _ String.length). intros x Ha. unfold ltof in IH.
  destruct a as [|c a]; [by injection Ha as <-|]. rewrite str_app_cons. cbn [PathUnescape] in Ha |- *. case_decide.
  - destruct a as [|h [|l a]]; [done..|]. rewrite !str_app_cons. cbn [PathUnescape].
    destruct (unhex h) as [hv|]; [|done]. destruct (unhex l) as [lv|]; [|done]. cbn [mbind option_bind] in *.
    destruct (PathUnescape a) as [u|] eqn:Hu; [|done]. cbn [mbind option_bind] in Ha. injection Ha as <-.
    rewrite (IH a ltac:(simpl; lia) u Hu). done.
  - destruct (PathUnescape a) as [u|] eqn:Hu; [|done]. cbn [mbind option_bind] in Ha. injection Ha as <-.
    rewrite (IH a ltac:(simpl; lia) u Hu). done.
Qed.

(** Printable bytes other than the space. *)
Definition graphic (a : ascii) : bool := bool_decide (32 < nat_of_ascii a < 127).

Lemma PathEscape_graphic s : all_bytes graphic (PathEscape s) = true.
Proof.
  assert (Hsafe : ∀ a, path_safe a = true → graphic a = true).
  { intros a. destruct a as [[] [] [] [] [] [] [] []]; by vm_compute. }
  assert (Hhex : ∀ n, n < 16 → graphic (upper_hex n) = true).
  { intros n Hn. do 16 (destruct n as [|n]; [reflexivity|]). lia. }
  induction s as [|a s IH]; [done|]. cbn [PathEscape]. destruct (path_safe a) eqn:Ha.
  - cbn [all_bytes]. by rewrite Hsafe, IH.
  - cbn [all_bytes]. pose proof (Ascii.nat_ascii_bounded a).
    rewrite !Hhex, IH; [done|by apply Nat.mod_upper_bound|by apply Nat.Div0.div_lt_upper_bound; lia].
Qed.

(** The URL of a call, whether or not the base URL already names the version. *)
Lemma url_reaches origin key path : HasSuffix origin "/v1" = false → HasPrefix path "/v1/" = true →
  url (mkClient origin key) path = origin +:+ path ∧ url (mkClient (origin +:+ "/v1") key) path = origin +:+ path.
Proof.
  intros Ho Hp. unfold url. cbn [base]. rewrite Ho, HasSuffix_app, Hp. split; [done|]. cbn [andb].
  apply HasPrefix_inv in Hp as [u ->]. rewrite str_app_assoc. f_equal.
Qed.

(** ** The calls as the cloud handles them *)

(** What the two ends rely on of encoding/json: an envelope's data is the bytes of
    its member, a reply decodes member by member, an acknowledgement whose values
    are strings can be encoded, and its status is read back. *)
Record codec (json_Encode : json → string) (json_Envelope : string → option string)
    (json_Unmarshal : string → option PollData) (Marshal_Ack : AckRequest → result string string)
    (json_ack : string → string) : Prop := {
  co_solid m : json_Encode (JObject m) ≠ "" ∧ json_Encode (JObject m) ≠ "null";
  co_data m data : field "data" m = Some data → json_Envelope (json_Encode (JObject m)) = Some (json_Encode data);
  co_poll j : json_Unmarshal (json_Encode j) = decode_poll (Some j);
  co_ack ack : ar_Mismatch (ack_Result ack) = [] →
    (∀ k v, ar_Readback (ack_Result ack) !! k = Some v → ∃ s, v = AString s) →
    ∃ body, Marshal_Ack ack = Ok body ∧ json_ack body = ack_Status ack }.

Section Reach.
Context {W : Type}.
Variable look : W → list device * state.
Variable put : list device * state → W → W.
Hypothesis put_look : ∀ w, put (look w) w = w.
Variable SprintFloat : spec_float → string.
Variable timestamp : string.
Variable json_params : string → string + gmap string string.
Variable json_heartbeat : string → list string.
Variable json_telemetry : string → telemetry_body.
Variable json_snapshot : string → gmap string any.
Variable json_ack : string → string.
Variable json_Encode : json → string.
Variable origin : string.
Variable valid_url : string → bool.
Variable ctx_Err : W → option string.
Variable json_Envelope : string → option string.
Variable json_Unmarshal : string → option PollData.
Variable Marshal_Snapshot : SnapshotRequest → result string string.
Variable Marshal_Ack : AckRequest → result string string.
Variable c : Client.

Hypothesis valid_origin : ∀ path, PathUnescape path ≠ None → all_bytes graphic path = true → valid_url (origin +:+ path) = true.
Hypothesis origin_ok : HasSuffix origin "/v1" = false.
Hypothesis base_ok : base c = origin ∨ base c = origin +:+ "/v1".

Abbreviation Do := (mux_Do look put SprintFloat timestamp json_params json_heartbeat json_telemetry json_snapshot json_ack json_Encode origin).
Abbreviation mux := (cloudMux SprintFloat timestamp json_params json_heartbeat json_telemetry json_snapshot json_ack).
Abbreviation do_call := (do_ Do valid_url ctx_Err json_Envelope json_Unmarshal zero_poll).

Lemma url_ok path : HasPrefix path "/v1/" = true → url c path = origin +:+ path.
Proof.
  intros Hp. destruct c as [b key]. cbn [base] in base_ok. pose proof (url_reaches origin key path origin_ok Hp) as [H1 H2].
  by destruct base_ok as [->| ->].
Qed.

(** What the mux answers to a request on a path of the client. *)
Lemma Do_answer method path p body key w rep x : PathUnescape path = Some p →
  mux (SimHttp.mkRequest method p ∅ (default "" body)) (look w) = (Some rep, x) →
  Do (Client.mkRequest method (origin +:+ path) key body) w = (Response (reply_status rep) (reply_body json_Encode rep), put x w).
Proof.
  intros Hp Hm. unfold mux_Do. cbn [rq_URL rq_Method rq_Body]. by rewrite HasPrefix_app, TrimPrefix_app, Hp, Hm.
Qed.

Lemma doRaw_answer method path p body wants w rep x : HasPrefix path "/v1/" = true → PathUnescape path = Some p →
  all_bytes graphic path = true → mux (SimHttp.mkRequest method p ∅ (default "" body)) (look w) = (Some rep, x) →
  (reply_status rep < 400)%Z →
  doRaw Do valid_url ctx_Err json_Envelope json_Unmarshal zero_poll c method path body wants w =
    (finish json_Envelope json_Unmarshal zero_poll wants method path (reply_status rep) (reply_body json_Encode rep), put x w).
Proof.
  intros Hv Hp Hg Hm Hs. unfold doRaw. cbn [doRaw_loop]. rewrite url_ok by done.
  rewrite valid_origin by (try done; by rewrite Hp). cbn [negb].
  rewrite (Do_answer method path p body (apiKey c) w rep x Hp Hm). by rewrite decide_True by lia.
Qed.

Lemma post_answered {X} (marshal : X → result string string) path p v body w rep x : HasPrefix path "/v1/" = true →
  PathUnescape path = Some p → all_bytes graphic path = true → marshal v = Ok body →
  mux (SimHttp.mkRequest "POST" p ∅ body) (look w) = (Some rep, x) → (reply_status rep < 400)%Z →
  do_call marshal c "POST" path (Some v) false w = (Ok None, put x w).
Proof.
  intros Hv Hp Hg Hb Hm Hs. unfold do_. rewrite Hb, (doRaw_answer "POST" path p (Some body) false w rep x) by done.
  unfold finish. by rewrite decide_False by lia.
Qed.

(** A path with an escaped id in it. *)
Lemma id_path pre id suf : PathUnescape pre = Some pre → PathUnescape suf = Some suf →
  all_bytes graphic pre = true → all_bytes graphic suf = true →
  PathUnescape (pre +:+ PathEscape id +:+ suf) = Some (pre +:+ id +:+ suf) ∧
  all_bytes graphic (pre +:+ PathEscape id +:+ suf) = true.
Proof.
  intros H1 H2 H3 H4. split.
  - apply PathUnescape_app; [done|]. apply PathUnescape_app; [apply PathEscape_roundtrip|done].
  - by rewrite !all_bytes_app, H3, H4, PathEscape_graphic.
Qed.

Lemma segment_id pre id suf : segment (pre +:+ id +:+ suf) pre suf = id.
Proof. unfold segment. by rewrite TrimPrefix_app, TrimSuffix_app. Qed.

(** An acknowledgement reaches the handler under its own id, with its status. *)
Lemma Ack_reaches id ack body dev0 devs st w : look w = (dev0 :: devs, st) → Marshal_Ack ack = Ok body →
  json_ack body = ack_Status ack →
  Ack Do valid_url ctx_Err json_Envelope json_Unmarshal zero_poll Marshal_Ack c id ack w =
    (Ok None, put (dev0 :: devs, (handle_ack timestamp dev0 ("/v1/agent/commands/" +:+ id +:+ "/ack") (ack_Status ack) st).2) w).
Proof.
  intros Hl Hb Hs. unfold Ack. destruct (id_path "/v1/agent/commands/" id "/ack") as [Hp Hg]; [reflexivity..|].
  eapply (post_answered _ _ _ _ _ _ (handle_ack timestamp dev0 ("/v1/agent/commands/" +:+ id +:+ "/ack") (ack_Status ack) st).1);
    [reflexivity|exact Hp|exact Hg|exact Hb| |reflexivity].
  rewrite Hl. unfold cloudMux. cbn [URLPath ReqBody]. rewrite !decide_False by done.
  change (HasPrefix ("/v1/agent/commands/" +:+ id +:+ "/ack") "/v1/agent/devices/") with false.
  rewrite HasPrefix_app. cbv iota. rewrite <- str_app_assoc, HasSuffix_app, Hs. done.
Qed.

(** A snapshot reaches the handler under the device's own id. *)
Lemma SendSnapshot_reaches id rq body dev0 devs st w : look w = (dev0 :: devs, st) → Marshal_Snapshot rq = Ok body →
  SendSnapshot Do valid_url ctx_Err json_Envelope json_Unmarshal zero_poll Marshal_Snapshot c id rq w =
    (Ok None, put (dev0 :: devs, (handle_snapshot SprintFloat timestamp (dev0 :: devs)
       ("/v1/agent/devices/" +:+ id +:+ "/config-snapshot") (json_snapshot body) st).2) w).
Proof.
  intros Hl Hb. unfold SendSnapshot. destruct (id_path "/v1/agent/devices/" id "/config-snapshot") as [Hp Hg]; [reflexivity..|].
  eapply (post_answered _ _ _ _ _ _ (handle_snapshot SprintFloat timestamp (dev0 :: devs)
    ("/v1/agent/devices/" +:+ id +:+ "/config-snapshot") (json_snapshot body) st).1);
    [reflexivity|exact Hp|exact Hg|exact Hb| |reflexivity].
  rewrite Hl. unfold cloudMux. cbn [URLPath ReqBody]. rewrite !decide_False by done.
  rewrite HasPrefix_app. cbv iota. rewrite <- str_app_assoc, HasSuffix_app. done.
Qed.

(** A poll brings exactly the commands that were not acknowledged. *)
Lemma decode_offer ts st dev0 data : handle_poll ts dev0 st = envelope ts data →
  decode_poll (Some data) = Some (mkPoll ts (offered (cwmpID dev0) st)).
Proof.
  intros Hd. unfold handle_poll, envelope, writeJSON in Hd. injection Hd as <-. unfold offered. rewrite !filter_cons, filter_nil.
  cbn [cmd_ID fixture configure_cmd query_cmd reboot_cmd].
  destruct (acks st !! configureCommandID), (acks st !! queryCommandID), (acks st !! rebootCommandID);
    rewrite ?(decide_True (P := None = None)), ?decide_False by done; reflexivity.
Qed.

Lemma Poll_reaches dev0 devs st w : codec json_Encode json_Envelope json_Unmarshal Marshal_Ack json_ack →
  look w = (dev0 :: devs, st) →
  client_Poll Do valid_url ctx_Err json_Envelope json_Unmarshal c w = (Ok (offered (cwmpID dev0) st), w).
Proof.
  intros Hc Hl. unfold client_Poll, Poll, do_.
  assert (Hm : mux (SimHttp.mkRequest "GET" "/v1/agent/poll" ∅ (default "" None)) (look w) = (Some (handle_poll timestamp dev0 st), look w)).
  { rewrite Hl. unfold cloudMux. cbn [URLPath]. repeat (rewrite decide_False by done). by rewrite decide_True by done. }
  rewrite (doRaw_answer "GET" "/v1/agent/poll" "/v1/agent/poll" None true w _ _ eq_refl eq_refl eq_refl Hm) by done.
  rewrite put_look. unfold finish. change (reply_status (handle_poll timestamp dev0 st)) with 200%Z.
  rewrite decide_False by lia. unfold decodeEnvelope.
  assert (Hbody : ∃ data, handle_poll timestamp dev0 st = envelope timestamp (JObject data)) by (by eexists).
  destruct Hbody as [data' Hbody]. rewrite Hbody. cbn [reply_body envelope writeJSON].
  rewrite (co_data _ _ _ _ _ Hc _ (JObject data')) by reflexivity. cbn [mbind option_bind].
  destruct (co_solid _ _ _ _ _ Hc data') as [H1 H2]. rewrite decide_False by tauto.
  rewrite (co_poll _ _ _ _ _ Hc). by rewrite (decode_offer timestamp st dev0 (JObject data') Hbody).
Qed.
End Reach.

(** ** A codec

    The hypotheses of [codec] can be met: a coding of values by trees, of trees by
    numbers, and of numbers by bits. *)

#[local] Set Warnings "-register-all".
Fixpoint tree_of (j : json) : gen_tree (bool + Z + string) :=
  match j with
  | JBool b => GenLeaf (inl (inl b))
  | JInt n => GenLeaf (inl (inr n))
  | JString s => GenLeaf (inr s)
  | JList l => GenNode 0 (map tree_of l)
  | JObject m => GenNode 1 (map (λ kv, GenNode 0 [GenLeaf (inr kv.1); tree_of kv.2]) m)
  end.

Fixpoint of_tree (t : gen_tree (bool + Z + string)) : json :=
  match t with
  | GenLeaf (inl (inl b)) => JBool b
  | GenLeaf (inl (inr n)) => JInt n
  | GenLeaf (inr s) => JString s
  | GenNode 0 l => JList (map of_tree l)
  | GenNode _ l => JObject (map (λ t, match t with GenNode _ [GenLeaf (inr k); v] => (k, of_tree v) | _ => ("", JBool false) end) l)
  end.

Lemma of_tree_of : ∀ j, of_tree (tree_of j) = j.
Proof.
  fix IH 1. intros [b|n|s|l|m]; cbn [tree_of of_tree]; [done..| |].
  - f_equal. induction l as [|j l IHl]; cbn [map]; [done|]. by rewrite IH, IHl.
  - f_equal. induction m as [|[k v] m IHm]; cbn [map fst snd]; [done|]. by rewrite IH, IHm.
Qed.

Fixpoint bits (p : positive) : string :=
  match p with xH => "1" | xO p => String "0" (bits p) | xI p => String "i" (bits p) end.
Fixpoint unbits (s : string) : positive :=
  match s with
  | String a (String _ _ as rest) => if Ascii.eqb a "0" then xO (unbits rest) else xI (unbits rest)
  | _ => xH
  end.
Lemma unbits_bits p : unbits (bits p) = p.
Proof.
  assert (Hne : ∀ q, ∃ a s, bits q = String a s) by (intros []; cbn [bits]; by eexists _, _).
  induction p as [p IH|p IH|]; [| |done]; cbn [bits]; destruct (Hne p) as (a & s & Hb); rewrite Hb in *; cbn [unbits]; by rewrite <- IH.
Qed.

Definition ex_encode (j : json) : string := "j" +:+ bits (encode (tree_of j)).
Definition ex_decode (s : string) : option json := of_tree <$> decode (unbits (TrimPrefix s "j")).

Lemma ex_decode_encode j : ex_decode (ex_encode j) = Some j.
Proof.
  unfold ex_decode, ex_encode. rewrite TrimPrefix_app, unbits_bits, decode_encode. cbn [fmap option_fmap option_map].
  by rewrite of_tree_of.
Qed.

Definition ex_envelope (s : string) : option string :=
  j ← ex_decode s; match j with JObject m => ex_encode <$> field "data" m | _ => None end.
Definition ex_unmarshal (s : string) : option PollData := j ← ex_decode s; decode_poll (Some j).

Lemma ex_codec : codec ex_encode ex_envelope ex_unmarshal (λ ack, Ok (ack_Status ack)) id.
Proof.
  split.
  - intros m. by split.
  - intros m data Hd. unfold ex_envelope. rewrite ex_decode_encode. cbn [mbind option_bind]. by rewrite Hd.
  - intros j. unfold ex_unmarshal. by rewrite ex_decode_encode.
  - intros ack _ _. by exists (ack_Status ack).
Qed.
