(* ===== verification/Metrics.v ===== *)
(** * Tiered metrics, alarms and snapshots (goagent/internal/collector/metrics.go,
    managed_paths.go and the reading half of collector.go)

    A tier is read from the cached parameters of each device, mapped to the
    cloud's metric keys, and a fresh read of the same paths is queued. *)
From S2P Require Import Prelude GoStrings GoTime CloudTypes Db CwmpTypes CwmpStore Session Server Collector Acs.

(** ** The catalogue *)

Definition fap : string := "Device.Services.FAPService.1.".
Definition sampleSet : string := "Device.PeriodicStatistics.SampleSet.1.".

Record metricDef := mkDef { Key : string; md_Path : string }.

Definition pmValuePath (parameterIndex : Z) : string :=
  sampleSet +:+ "Parameter." +:+ pretty parameterIndex +:+ ".X_8C1F64_CurrentValue".

Definition tier1Metrics : list metricDef :=
  [mkDef "op_state" (fap +:+ "FAPControl.LTE.OpState");
   mkDef "rf_tx_status" (fap +:+ "FAPControl.LTE.RFTxStatus");
   mkDef "admin_state" (fap +:+ "FAPControl.LTE.AdminState");
   mkDef "s1_status" (fap +:+ "FAPControl.LTE.Gateway.X_8C1F64_S1Status");
   mkDef "sctp_status" (fap +:+ "Transport.SCTP.Assoc.1.Status");
   mkDef "connected_ues" (fap +:+ "X_8C1F64_Status.UeNumber");
   mkDef "volte_ues" (fap +:+ "X_8C1F64_Status.VolteUeNumber")].

Definition tier2Metrics : list metricDef :=
  [mkDef "rip_average" (fap +:+ "X_8C1F64_SON.RIP.RIPAverage");
   mkDef "rip_prb" (fap +:+ "X_8C1F64_SON.RIP.RIPPRB");
   mkDef "rip_threshold" (fap +:+ "X_8C1F64_SON.RIP.RIPThreshold");
   mkDef "earfcn_dl_inuse" (fap +:+ "CellConfig.LTE.RAN.RF.X_8C1F64_EARFCNDLInUse");
   mkDef "pci_inuse" (fap +:+ "CellConfig.LTE.RAN.RF.X_8C1F64_PhyCellIDInUse");
   mkDef "rs_power" (fap +:+ "CellConfig.LTE.RAN.RF.ReferenceSignalPower");
   mkDef "dl_bw" (fap +:+ "CellConfig.LTE.RAN.RF.DLBandwidth");
   mkDef "ul_bw" (fap +:+ "CellConfig.LTE.RAN.RF.ULBandwidth")].

Definition tier3Metrics : list metricDef :=
  [mkDef "prb_dl_pct" (pmValuePath 316);
   mkDef "prb_ul_pct" (pmValuePath 315);
   mkDef "sinr_avg_db" (pmValuePath 412);
   mkDef "rrc_conn_mean" (pmValuePath 10);
   mkDef "thp_dl" (pmValuePath 118);
   mkDef "thp_ul" (pmValuePath 119);
   mkDef "uptime" "Device.DeviceInfo.UpTime";
   mkDef "mem_free" "Device.DeviceInfo.MemoryStatus.Free";
   mkDef "mem_total" "Device.DeviceInfo.MemoryStatus.Total";
   mkDef "cpu_usage" "Device.DeviceInfo.ProcessStatus.CPUUsage"].

Definition pathRRCAtt : string := sampleSet +:+ "Parameter.168.X_8C1F64_CurrentValue".
Definition pathRRCSucc : string := sampleSet +:+ "Parameter.170.X_8C1F64_CurrentValue".

Definition maxAlarmRows : nat := 16.

Definition tierDefs (tier : Z) : list metricDef :=
  if decide (tier = 1)%Z then tier1Metrics
  else if decide (tier = 2)%Z then tier2Metrics
  else if decide (tier = 3)%Z then tier3Metrics
  else [].

Definition tierReadPaths (tier : Z) : list string :=
  (md_Path <$> tierDefs tier) ++ (if decide (tier = 3)%Z then [pathRRCAtt; pathRRCSucc] else []).

Definition alarm_base (i : nat) : string := "Device.FaultMgmt.CurrentAlarm." +:+ pretty (Z.of_nat i) +:+ ".".
Definition pathAlarmCount : string := "Device.FaultMgmt.CurrentAlarmNumberOfEntries".

Definition alarmReadPaths : list string :=
  pathAlarmCount ::
  (seq 1 maxAlarmRows ≫= λ i,
     [alarm_base i +:+ "EventType"; alarm_base i +:+ "PerceivedSeverity"; alarm_base i +:+ "EventTime";
      alarm_base i +:+ "SpecificProblem"]).

Definition ManagedPaths : list string :=
  ["Device.Services.FAPService.1.CellConfig.LTE.RAN.RF.PhyCellID";
   "Device.Services.FAPService.1.CellConfig.LTE.RAN.RF.EARFCNDL";
   "Device.Services.FAPService.1.CellConfig.LTE.RAN.RF.EARFCNUL";
   "Device.Services.FAPService.1.CellConfig.LTE.RAN.RF.FreqBandIndicator";
   "Device.Services.FAPService.1.CellConfig.LTE.RAN.RF.DLBandwidth";
   "Device.Services.FAPService.1.CellConfig.LTE.RAN.RF.ULBandwidth";
   "Device.Services.FAPService.1.CellConfig.LTE.RAN.RF.ReferenceSignalPower";
   "Device.Services.FAPService.1.Capabilities.MaxTxPower";
   "Device.Services.FAPService.1.CellConfig.LTE.RAN.PHY.PDSCH.Pa";
   "Device.Services.FAPService.1.CellConfig.LTE.RAN.PHY.PDSCH.Pb";
   "Device.Services.FAPService.1.CellConfig.LTE.RAN.MAC.DRX.DRXEnabled";
   "Device.Services.FAPService.1.CellConfig.LTE.RAN.MAC.DRX.OnDurationTimer";
   "Device.Services.FAPService.1.CellConfig.LTE.RAN.MAC.DRX.DRXInactivityTimer";
   "Device.Services.FAPService.1.CellConfig.LTE.RAN.MAC.DRX.LongDRXCycle";
   "Device.Services.FAPService.1.CellConfig.LTE.RAN.MAC.DRX.ShortDRXCycle";
   "Device.Services.FAPService.1.CellConfig.LTE.RAN.MAC.X_8C1F64_PCH.DefaultPagingCycle";
   "Device.Services.FAPService.1.CellConfig.LTE.RAN.Mobility.IdleMode.IntraFreq.QRxLevMinSIB1";
   "Device.Services.FAPService.1.CellConfig.LTE.RAN.Mobility.IdleMode.IntraFreq.SIntraSearch";
   "Device.Services.FAPService.1.CellConfig.LTE.RAN.Mobility.ConnMode.EUTRA.A2ThresholdRSRP";
   "Device.Services.FAPService.1.CellConfig.LTE.RAN.Mobility.ConnMode.EUTRA.A1ThresholdRSRP";
   "Device.Services.FAPService.1.CellConfig.LTE.RAN.Mobility.ConnMode.EUTRA.Hysteresis";
   "Device.Services.FAPService.1.CellConfig.LTE.RAN.Mobility.ConnMode.EUTRA.TimeToTrigger";
   "Device.ManagementServer.PeriodicInformInterval";
   "Device.X_8C1F64_DebugMgmt.Upload.AutonomousTransferCompletePolicy"].
Definition SnapshotPaths : list string := ManagedPaths.

(** ** Reading values *)

Section Values.
(** [strconv.ParseFloat(s, 64)], [None] its error; [%v] of a float64; and what
    [int] makes of a float64 beyond the range of an int, which Go leaves to the
    implementation. *)
Variable ParseFloat : string → option spec_float.
Variable SprintFloat : spec_float → string.
Variable int_overflow : spec_float → Z.

(** float64 arithmetic and comparison. *)
Definition f64_mul := SFmul 53 1024.
Definition f64_div := SFdiv 53 1024.
Definition f64_100 : spec_float := S754_finite false 7036874417766400 (-46).
Definition f64_le0 (f : spec_float) : bool := SFleb f (S754_zero false).
Definition f64_ge0 (f : spec_float) : bool := SFleb (S754_zero false) f.

(** [int(f)]: towards zero. *)
Definition f64_int (f : spec_float) : Z :=
  match f with
  | S754_zero _ => 0
  | S754_finite s m e =>
      let n := if decide (0 ≤ e)%Z then Z.shiftl (Zpos m) e else Z.quot (Zpos m) (2 ^ (- e)) in
      if decide (n < 2 ^ 63)%Z then (if s then - n else n)%Z else int_overflow f
  | _ => int_overflow f
  end.

(** An absent map entry is Go's nil. *)
Definition lookup_any (raw : gmap string any) (k : string) : any := default ANil (raw !! k).

Definition toFloat (v : any) : option spec_float :=
  match v with
  | AFloat f => Some f
  | AString s => ParseFloat s
  | _ => None
  end.

Definition rrcSuccessPct (raw : gmap string any) : option spec_float :=
  match toFloat (lookup_any raw pathRRCAtt), toFloat (lookup_any raw pathRRCSucc) with
  | Some att, Some succ => if f64_le0 att then None else Some (f64_mul (f64_div succ att) f64_100)
  | _, _ => None
  end.

Definition buildMetrics (tier : Z) (raw : gmap string any) : gmap string any :=
  let metrics := foldl (λ m d, match raw !! md_Path d with Some v => <[Key d := v]> m | None => m end) ∅ (tierDefs tier) in
  if decide (tier = 3)%Z then
    match rrcSuccessPct raw with
    | Some pct => <["rrc_success_pct" := AFloat pct]> metrics
    | None => metrics
    end
  else metrics.

Definition alarmTime (v : any) (fallback : string) : string :=
  match v with
  | ANil => fallback
  | _ => let s := Sprint SprintFloat v in if decide (s = "") then fallback else s
  end.

Definition normalizeSeverity (v : any) : string :=
  let s := Sprint SprintFloat v in
  if decide (s ∈ ["Critical"; "critical"]) then "critical"
  else if decide (s ∈ ["Major"; "major"]) then "major"
  else if decide (s ∈ ["Minor"; "minor"]) then "minor"
  else if decide (s ∈ ["Warning"; "warning"]) then "warning"
  else if decide (s ∈ ["Cleared"; "cleared"; "clear"]) then "clear"
  else "warning".

Definition alarm_limit (raw : gmap string any) : Z :=
  let limit := Z.of_nat maxAlarmRows in
  match toFloat (lookup_any raw pathAlarmCount) with
  | Some count => if f64_ge0 count && bool_decide (f64_int count < limit)%Z then f64_int count else limit
  | None => limit
  end.

(** The body of the loop over the rows. *)
Definition build_alarm (cwmpID ts : string) (raw : gmap string any) (i : nat) : list AlarmItem :=
  let base := alarm_base i in
  match raw !! (base +:+ "EventType") with
  | None => []
  | Some etype =>
      if decide (Sprint SprintFloat etype = "") then []
      else
        [mkAlarm cwmpID (alarmTime (lookup_any raw (base +:+ "EventTime")) ts)
           (normalizeSeverity (lookup_any raw (base +:+ "PerceivedSeverity")))
           (Sprint SprintFloat etype)
           (match raw !! (base +:+ "SpecificProblem") with Some msg => Sprint SprintFloat msg | None => "" end)
           true]
  end.

Definition buildAlarms (cwmpID ts : string) (raw : gmap string any) : list AlarmItem :=
  seq 1 (Z.to_nat (alarm_limit raw)) ≫= build_alarm cwmpID ts raw.

(** ** Collecting a tier *)

Section Collect.
Context {S : Type} `{Store S}.

(** Liveness from the inventory where the cache has none. *)
Definition liveness (key : string) (v : option bool) (m : gmap string any) : gmap string any :=
  match m !! key, v with
  | None, Some b => <[key := ABool b]> m
  | _, _ => m
  end.

Definition readPaths (tier : Z) : list string :=
  tierReadPaths tier ++ (if decide (tier = 3)%Z then alarmReadPaths else []).

(** The body of the loop over the inventory. *)
Definition collect_device (tier : Z) (now : string) (d : InventoryItem) (x : Server * S) :
    list MetricSample * list AlarmItem * (Server * S) :=
  let '(srv, store) := x in
  let '(params, store) := GetParams (it_CWMPID d) (readPaths tier) store in
  let raw := ToAnyMap params in
  let x := Refresh (it_CWMPID d) (readPaths tier) (srv, store) in
  let metrics := buildMetrics tier raw in
  let metrics :=
    if decide (tier = 1)%Z
    then liveness "op_state" (it_OpState d) (liveness "rf_tx_status" (it_RFTxStatus d) metrics)
    else metrics in
  (if decide (metrics = ∅ :> gmap string any) then [] else [mkSample (it_CWMPID d) now tier metrics],
   if decide (tier = 3)%Z then buildAlarms (it_CWMPID d) now raw else [], x).

Fixpoint collect_loop (tier : Z) (now : string) (devices : list InventoryItem) (x : Server * S) :
    list MetricSample * list AlarmItem * (Server * S) :=
  match devices with
  | [] => ([], [], x)
  | d :: rest =>
      let '(samples, alarms, x) := collect_device tier now d x in
      let '(samples', alarms', x) := collect_loop tier now rest x in
      (samples ++ samples', alarms ++ alarms', x)
  end.

Definition CollectTier (tier : Z) (now : Z) (x : Server * S) : list MetricSample * list AlarmItem * (Server * S) :=
  let '(srv, store) := x in
  let '(devices, store) := Inventory store in
  collect_loop tier (RFC3339 now) devices (srv, store).
End Collect.
End Values.

(** [Snapshot]: a fresh read, or else the cached values. *)
Definition Snapshot {W} `{Acs W} (cwmpID : string) (x : sql * W) : gmap string any * (sql * W) :=
  let '(s, w) := x in
  let '(ip, s) := StoreDeviceIP cwmpID s in
  if decide (ip = "") then (∅, (s, w))
  else
    let '(res, (s, w)) := RequestAndAwait cwmpID (mkTask TaskGPV SnapshotPaths [] "" ("snapshot:" +:+ cwmpID)) (s, w) in
    let cached (s : sql) := let '(m, s) := GetParams cwmpID SnapshotPaths s in (ToAnyMap m, (s, w)) in
    match res with
    | Some res => if decide (tr_Params res = ∅ :> gmap string string) then cached s else (ToAnyMap (tr_Params res), (s, w))
    | None => cached s
    end.

(** ** Lemmas *)










Definition severities : list string := ["critical"; "major"; "minor"; "warning"; "clear"].

Lemma normalizeSeverity_known SprintFloat v : normalizeSeverity SprintFloat v ∈ severities.
Proof. unfold normalizeSeverity, severities. repeat case_decide; set_solver. Qed.

Lemma build_alarm_spec SprintFloat dev ts raw i al : al ∈ build_alarm SprintFloat dev ts raw i →
  al_CWMPID al = dev ∧ al_Active al = true ∧ al_Severity al ∈ severities ∧ al_AlarmType al ≠ "" ∧
  (ts ≠ "" → al_Timestamp al ≠ "") ∧
  ∃ v, raw !! (alarm_base i +:+ "EventType") = Some v ∧ al_AlarmType al = Sprint SprintFloat v.
Proof.
  unfold build_alarm. destruct (raw !! _) as [v|] eqn:Hv; [|by intros ?%elem_of_nil].
  case_decide as Hs; [by intros ?%elem_of_nil|]. intros ->%list_elem_of_singleton. simpl.
  split_and!; [done|done|apply normalizeSeverity_known|done| |by exists v].
  intros Hts. unfold alarmTime. destruct (lookup_any raw _); simpl; try done; by case_decide.
Qed.

Lemma build_alarm_length SprintFloat dev ts raw i : length (build_alarm SprintFloat dev ts raw i) ≤ 1.
Proof. unfold build_alarm. destruct (raw !! _); [|simpl; lia]. case_decide; simpl; lia. Qed.

Lemma alarm_limit_le ParseFloat int_overflow raw : (alarm_limit ParseFloat int_overflow raw ≤ 16)%Z.
Proof.
  unfold alarm_limit, maxAlarmRows. destruct (toFloat _ _) as [c|]; [|lia].
  destruct (f64_ge0 c && _) eqn:Hc; [|lia]. apply andb_true_iff in Hc as [_ Hc]. apply bool_decide_eq_true in Hc. lia.
Qed.

(** A device that reports its connection attempts as NaN gets a success rate
    that is not a number, which JSON cannot express. *)
Lemma nan_success_rate ParseFloat raw :
  ParseFloat "NaN" = Some S754_nan → raw !! pathRRCAtt = Some (AString "NaN") →
  is_Some (toFloat ParseFloat (lookup_any raw pathRRCSucc)) →
  buildMetrics ParseFloat 3 raw !! "rrc_success_pct" = Some (AFloat S754_nan).
Proof.
  intros Hnan Hatt [succ Hsucc]. assert (Hpct : rrcSuccessPct ParseFloat raw = Some S754_nan).
  { unfold rrcSuccessPct, lookup_any. fold (lookup_any raw pathRRCSucc). rewrite Hatt. 
    change (toFloat ParseFloat (default ANil (Some (AString "NaN")))) with (ParseFloat "NaN").
    rewrite Hnan, Hsucc. by destruct succ as [| | |[]]. }
  unfold buildMetrics. rewrite decide_True by done. rewrite Hpct. apply lookup_insert_eq.
Qed.

(** ** Properties *)


(** However many alarms a device claims, at most 16 are reported, in row
    order: each is active, belongs to the device, has one of the cloud's five
    severities, a type the device reported, and a time. *)
Theorem buildAlarms_bounded ParseFloat SprintFloat int_overflow dev ts raw :
  let out := buildAlarms ParseFloat SprintFloat int_overflow dev ts raw in
  length out ≤ maxAlarmRows ∧
  (∃ n, n ≤ maxAlarmRows ∧ out = (seq 1 n ≫= build_alarm SprintFloat dev ts raw)) ∧
  (∀ al, al ∈ out → al_CWMPID al = dev ∧ al_Active al = true ∧ al_Severity al ∈ severities ∧
     (ts ≠ "" → al_Timestamp al ≠ "") ∧
     ∃ i v, 1 ≤ i ≤ maxAlarmRows ∧ raw !! (alarm_base i +:+ "EventType") = Some v ∧
       al_AlarmType al = Sprint SprintFloat v ∧ al_AlarmType al ≠ "").
Proof.
  intros out. pose proof (alarm_limit_le ParseFloat int_overflow raw) as Hlim. unfold buildAlarms in out.
  set (n := Z.to_nat _) in out. assert (Hn : n ≤ maxAlarmRows) by (unfold n, maxAlarmRows; lia). split_and!.
  - transitivity n; [|done]. unfold out. clear Hn. generalize n 1. clear. intros n. induction n as [|n IH]; intros k; [done|].
    cbn [seq mbind list_bind]. rewrite length_app. pose proof (build_alarm_length SprintFloat dev ts raw k).
    specialize (IH (S k)). simpl in *. lia.
  - by exists n.
  - intros al (i & Hal & Hi)%list_elem_of_bind. apply elem_of_seq in Hi.
    apply build_alarm_spec in Hal as (? & ? & ? & ? & ? & v & ? & ?). split_and!; try done. exists i, v. split_and!; try done; lia.
Qed.
