(* ===== verification/Manifest.v ===== *)
(** * The embedded parameter manifest (goagent/internal/cwmp/manifest.go)

    The catalogue of the device's parameters with their types, decoded from an
    embedded JSON asset. *)
From S2P Require Import Prelude GoStrings.

Record ParamMeta := mkMeta {
  pm_Path : string;
  pm_Value : string;
  pm_Type : string;
  pm_Writable : bool }.

Record Manifest := mkManifest {
  mf_CanonicalID : string;
  mf_Count : Z;
  mf_Params : list ParamMeta;
  mf_byPath : gmap string ParamMeta }.

(** [LoadManifest] after decoding: a later entry for a path wins. *)
Definition LoadManifest (canonicalID : string) (count : Z) (params : list ParamMeta) : Manifest :=
  mkManifest canonicalID count params
    (foldl (λ m p, <[pm_Path p := p]> m) ∅ params).

Definition xsdFor (t : string) : string :=
  if decide (t = "unsignedInt") then "xsd:unsignedInt"
  else if decide (t = "int") then "xsd:int"
  else if decide (t = "boolean") then "xsd:boolean"
  else if decide (t = "unsignedLong") then "xsd:unsignedLong"
  else if decide (t = "dateTime") then "xsd:dateTime"
  else if decide (t = "hexBinary") then "xsd:hexBinary"
  else "xsd:string".

Definition XSD (m : Manifest) (path : string) : string :=
  match mf_byPath m !! path with
  | Some p => xsdFor (pm_Type p)
  | None => "xsd:string"
  end.

Definition Subtree (m : Manifest) (prefix : string) : list string :=
  pm_Path <$> filter (λ p, HasPrefix (pm_Path p) prefix = true) (mf_Params m).

(** ** Lemmas *)

Lemma XSD_known m path : ∃ t, XSD m path = "xsd:" +:+ t.
Proof.
  unfold XSD, xsdFor. destruct (mf_byPath m !! path) as [p|]; [|by exists "string"].
  repeat case_decide; by eexists.
Qed.
