(* ===== verification/Worker.v ===== *)
(** * The worker (goagent/internal/worker/worker.go)

    The worker polls the cloud for commands, applies them to devices through the
    ACS, and pushes telemetry: the collector's events and the metrics of a tier,
    split into outbox bodies and drained to the cloud. *)
From S2P Require Import Prelude GoStrings GoHash GoTime CloudTypes Db Ledger Outbox.
From S2P Require Import CwmpTypes CwmpStore Session Soap Manifest Rules Collector Acs Metrics.

(** ** Telemetry bodies *)

Definition partsPerCap : Z := 8.

Record telemetryPart := mkPart { pt_body : string; pt_start : nat; pt_end : nat }.

Section Telemetry.
(** [json.Marshal] of a request; [None] is its error. *)
Variable json_Marshal : TelemetryRequest → option string.

(** The error is dropped: a request that cannot be marshalled has an empty
    body. *)
Definition body_of (r : TelemetryRequest) : string := default "" (json_Marshal r).

(** [split]: [fuel] bounds the depth; the length of the event list is enough
    ([split_spec]). *)
Fixpoint split (fuel : nat) (maxBytes : Z) (r : TelemetryRequest) (start : nat) : list telemetryPart :=
  let body := body_of r in
  let n := length (tq_Events r) in
  let whole := [mkPart body start (start + n)] in
  match fuel with
  | 0 => whole
  | S fuel =>
      if decide ((maxBytes ≤ 0)%Z ∨ (blen body ≤ maxBytes)%Z ∨ n ≤ 1) then whole
      else
        let mid := n / 2 in
        split fuel maxBytes (mkTelemetry (tq_Metrics r) (take mid (tq_Events r)) (tq_Alarms r)) start ++
        split fuel maxBytes (mkTelemetry [] (drop mid (tq_Events r)) []) (start + mid)
  end.

Definition splitTelemetry (req : TelemetryRequest) (maxBytes : Z) : list telemetryPart :=
  split (length (tq_Events req)) maxBytes req 0.

(** What enqueueing one part does; [None]: the insert failed and the batch is
    given back. *)
Definition enqueue_part (b : Buffer) (now : Z) (ftp : FTPBatch) (p : telemetryPart)
    (x : Collector * sql) : option bool * (Collector * sql) :=
  let '(c, s) := x in
  let marks := MarksIn ftp (pt_start p) (pt_end p) in
  match EnqueueWithMarks b now "telemetry" (pt_body p) marks s with
  | (Err (ErrPayloadTooLarge _ _ _), s) =>
      match marks with
      | [] => (Some false, (c, s))
      | _ =>
          match MarkFTPIngested now marks s with
          | (Err _, s) => (Some false, (Requeue marks c, s))
          | (Ok _, s) => (Some false, (c, s))
          end
      end
  | (Err _, s) => (None, (c, s))
  | (Ok _, s) => (Some true, (c, s))
  end.

(** The loop over the parts; [n] is [len(req.Events)]. *)
Fixpoint enqueue_parts (b : Buffer) (now : Z) (ftp : FTPBatch) (n : nat) (parts : list telemetryPart)
    (queued : bool) (x : Collector * sql) : bool * (Collector * sql) :=
  match parts with
  | [] => (queued, x)
  | p :: rest =>
      match enqueue_part b now ftp p x with
      | (None, (c, s)) => (queued, (Requeue (MarksIn ftp (pt_start p) n) c, s))
      | (Some q, x) => enqueue_parts b now ftp n rest (queued || q) x
      end
  end.

Definition enqueueTelemetry (b : Buffer) (now : Z) (req : TelemetryRequest) (ftp : FTPBatch)
    (x : Collector * sql) : bool * (Collector * sql) :=
  let parts := splitTelemetry req (Z.quot (b_maxBytes b) partsPerCap) in
  enqueue_parts b now ftp (length (tq_Events req)) parts false x.

Definition eventDedupKey (deviceID eventType message ts : string) : string :=
  hex (sha256 (deviceID +:+ "|" +:+ eventType +:+ "|" +:+ message +:+ "|" +:+ ts)).

Definition cwmp_event (e : StoredEvent) : EventItem :=
  let ts := RFC3339 (se_TS e) in
  mkEvent (se_DeviceID e) ts (se_Module e) (se_EventType e) (se_Severity e) (se_Message e) ∅
    (eventDedupKey (se_DeviceID e) (se_EventType e) (se_Message e) ts).

Definition drainCWMPEvents (s : sql) : list EventItem * sql :=
  let '(stored, s) := DrainEvents s in (cwmp_event <$> stored, s).

(** ** The cloud *)

(** [SendTelemetryRaw] on the cloud's state. *)
Context {W : Type} (SendTelemetryRaw : string → W → option go_error * W).

Definition flush_send (kind body : string) (w : W) : option go_error * W :=
  if decide (kind ≠ "telemetry") then (None, w) else SendTelemetryRaw body w.

Definition flushOutbox (b : Buffer) (s : sql) (w : W) : sql * W :=
  let '(_, s, w) := Drain flush_send b s w in (s, w). (* an error is logged *)

(** [pushTier] after the tier was collected. *)
Definition pushTier (b : Buffer) (now : Z) (metrics : list MetricSample) (alarms : list AlarmItem)
    (x : Collector * sql) (w : W) : (Collector * sql) * W :=
  let '(c, s) := x in
  let '(ftp, c) := DrainFTP c in
  let '(cwmp, s) := drainCWMPEvents s in
  let req := mkTelemetry metrics (Events ftp ++ cwmp) alarms in
  match tq_Metrics req, tq_Events req, tq_Alarms req with
  | [], [], [] => ((c, s), w)
  | _, _, _ =>
      let '(queued, (c, s)) := enqueueTelemetry b now req ftp (c, s) in
      if queued then let '(s, w) := flushOutbox b s w in ((c, s), w) else ((c, s), w)
  end.
End Telemetry.

(** ** Values *)

Section Values.
(** [strconv.FormatFloat(f, 'f', -1, 64)], and [%v] of a float64. *)
Variable FormatFloat : spec_float → string.
Variable SprintFloat : spec_float → string.

Definition formatValue (v : any) : string :=
  match v with
  | AFloat f => FormatFloat f
  | _ => Sprint SprintFloat v
  end.

Definition normalizeValue (s : string) : string :=
  let l := ToLower (TrimSpace s) in
  if decide (l = "true") then "1" else if decide (l = "false") then "0" else s.

Definition valuesMatch (want got : any) : bool :=
  bool_decide (normalizeValue (formatValue want) = normalizeValue (formatValue got)).

Definition toWrite (manifest : option Manifest) (w : Write) : ParameterValueStruct :=
  let xsd := wr_XSDType w in
  let xsd := if decide (xsd = "") then (match manifest with Some m => XSD m (wr_Path w) | None => xsd end) else xsd in
  let xsd := if decide (xsd = "") then "xsd:string" else xsd in
  mkPV (wr_Path w) (mkValue xsd (formatValue (wr_Value w))).

Definition toWrites (writes : list Write) (manifest : option Manifest) : list ParameterValueStruct :=
  toWrite manifest <$> writes.

(** Go's iteration order is unspecified. *)
Definition keysOf (m : gmap string any) : list string := (map_to_list m).*1.

Definition expectedValues (payload : CommandPayload) : gmap string any :=
  if decide (cp_Verify payload = ∅ :> gmap string any) then
    foldl (λ m w, <[wr_Path w := wr_Value w]> m) ∅ (cp_Writes payload)
  else cp_Verify payload.

(** The loop over the map [expected]; Go's iteration order is unspecified. *)
Definition verifyExpected (expected readback : gmap string any) : list Mismatch :=
  omap (λ kv : string * any,
    match readback !! kv.1 with
    | Some got => if valuesMatch kv.2 got then None else Some (mkMismatch kv.1 kv.2 got false)
    | None => Some (mkMismatch kv.1 kv.2 ANil true)
    end) (map_to_list expected).
End Values.

(** ** Commands *)

Section Commands.
Context {W : Type} `{Acs W}.
Variable FormatFloat : spec_float → string.
Variable SprintFloat : spec_float → string.
Variable manifest : option Manifest.
(** [json.Marshal] and [json.Unmarshal] of an [AckResult]. *)
Variable marshal_result : AckResult → string.
Variable unmarshal_result : string → AckResult.
(** [%s] of [CommandVerifyTimeout]; [ctx.Done] while waiting for the device. *)
Variable timeout_text : string.
Variable cancelled : bool.

Abbreviation st := (sql * W)%type.

Definition failed (err : string) : AckRequest :=
  mkAck "failed" (mkAckResult ∅ [] "" err).

Definition apply_write (cmd : Command) (x : st) : AckRequest * st :=
  let writes := toWrites FormatFloat SprintFloat (cp_Writes (cmd_Payload cmd)) manifest in
  match RequestAndAwait (cmd_CWMPID cmd) (mkTask TaskSPV [] writes (cmd_ID cmd) (cmd_ID cmd)) x with
  | (None, x) => (failed ("device session timeout applying " +:+ cmd_ID cmd), x)
  | (Some res, x) =>
      if decide (tr_Err res ≠ "") then (failed ("device rejected write: " +:+ tr_Err res), x)
      else if decide (tr_Status res = 1%Z) then
        (mkAck "applied" (mkAckResult ∅ [] (cmd_ID cmd) "applied; takes effect after device reboot"), x)
      else if cancelled then (failed "context canceled", x)
      else
        let expected := expectedValues (cmd_Payload cmd) in
        match RequestAndAwait (cmd_CWMPID cmd)
                (mkTask TaskGPV (keysOf expected) [] "" (cmd_ID cmd +:+ ":rb")) x with
        | (None, x) => (failed ("read-back timeout for " +:+ cmd_ID cmd), x)
        | (Some rb, x) =>
            let readback := ToAnyMap (tr_Params rb) in
            let mismatch := verifyExpected FormatFloat SprintFloat expected readback in
            match mismatch with
            | [] => (mkAck "applied" (mkAckResult readback [] (cmd_ID cmd) ""), x)
            | _ => (mkAck "failed" (mkAckResult readback mismatch (cmd_ID cmd)
                      ("device read-back did not match the requested value within " +:+ timeout_text)), x)
            end
        end
  end.

Definition apply_query (cmd : Command) (x : st) : AckRequest * st :=
  match RequestAndAwait (cmd_CWMPID cmd)
          (mkTask TaskGPV (cp_ReadPaths (cmd_Payload cmd)) [] "" (cmd_ID cmd)) x with
  | (None, x) => (failed ("query timeout for " +:+ cmd_ID cmd), x)
  | (Some res, x) => (mkAck "applied" (mkAckResult (ToAnyMap (tr_Params res)) [] "" ""), x)
  end.

Definition apply_reboot (cmd : Command) (x : st) : AckRequest * st :=
  match RequestAndAwait (cmd_CWMPID cmd) (mkTask TaskReboot [] [] (cmd_ID cmd) (cmd_ID cmd)) x with
  | (None, x) => (failed ("no reboot ack for " +:+ cmd_ID cmd), x)
  | (Some _, x) => (mkAck "applied" CloudTypes.empty_result, x)
  end.

(** [%q] of the command type is left to its printable case. *)
Definition apply (cmd : Command) (x : st) : AckRequest * st :=
  let '(s, w) := x in
  let '(ip, s) := StoreDeviceIP (cmd_CWMPID cmd) s in
  if decide (ip = "") then (failed ("no CWMP session for device " +:+ cmd_CWMPID cmd), (s, w))
  else if decide (cmd_Type cmd ∈ ["configure"; "optimise"; "heal"; "rollback"]) then apply_write cmd (s, w)
  else if decide (cmd_Type cmd = "query") then apply_query cmd (s, w)
  else if decide (cmd_Type cmd = "reboot") then apply_reboot cmd (s, w)
  else (failed ("unknown command type " +:+ Quote (cmd_Type cmd)), (s, w)).

Definition postCommandSnapshot (cwmpID : string) (readback : gmap string any) (w : W) : W :=
  if decide (readback = ∅ :> gmap string any) then w
  else cloud_SendSnapshot cwmpID readback "command_readback" w.

(** The body of the loop of [handleCommands]; the flag tells whether the command
    was applied (and not merely acknowledged again). *)
Definition handle_command (now : Z) (cmd : Command) (x : st) : bool * st :=
  let '(s, w) := x in
  let run (s : sql) : bool * st :=
    let '(ack, (s, w)) := apply cmd (s, w) in
    let '(_, s) := MarkApplied now (cmd_ID cmd) (ack_Status ack) (marshal_result (ack_Result ack)) s in
    let w := cloud_Ack (cmd_ID cmd) ack w in
    let w := match cp_Writes (cmd_Payload cmd) with
             | [] => w
             | _ => if decide (ack_Status ack = "applied")
                    then postCommandSnapshot (cmd_CWMPID cmd) (ar_Readback (ack_Result ack)) w else w
             end in
    (true, (s, w)) in
  match AlreadyApplied (cmd_ID cmd) s with
  | (Ok (Some (status, result)), s) =>
      (false, (s, cloud_Ack (cmd_ID cmd) (mkAck status (unmarshal_result result)) w))
  | (_, s) => run s
  end.

(** The loop over the polled commands, with the ids of those that were applied. *)
Fixpoint handle_commands (now : Z) (cmds : list Command) (x : st) : list string * st :=
  match cmds with
  | [] => ([], x)
  | cmd :: rest =>
      let '(ran, x) := handle_command now cmd x in
      let '(ids, x) := handle_commands now rest x in
      (if ran then cmd_ID cmd :: ids else ids, x)
  end.

(** The body of the loop of [pushSnapshots]: an empty reading is not posted. *)
Definition push_snapshot (d : InventoryItem) (x : st) : st :=
  let '(params, (s, w)) := Snapshot (it_CWMPID d) x in
  if decide (params = ∅ :> gmap string any) then (s, w)
  else (s, cloud_SendSnapshot (it_CWMPID d) params "agent" w).

Definition pushSnapshots (x : st) : st :=
  let '(devices, s) := Inventory x.1 in
  foldl (λ x d, push_snapshot d x) (s, x.2) devices.

(** ** Lemmas on commands *)

Lemma ignore_StoreDeviceIP dev (s : sql) :
  sdb (StoreDeviceIP dev s).2 = sdb s ∧ (healthy s → healthy (StoreDeviceIP dev s).2).
Proof.
  simpl. unfold Buffer_DeviceIP. pose proof (runs_query (λ x, cwmp_devices x !! dev) s) as Hr.
  destruct (query (λ x, cwmp_devices x !! dev) s) as [r s'] eqn:Hq. apply query_sdb in Hq as [Hd _].
  assert (Hs' : sdb (match r with Ok (Some r0) => (dv_ip r0, s') | _ => ("", s') end).2 = sdb s ∧
    (match r with Ok (Some r0) => (dv_ip r0, s') | _ => ("", s') end).2 = s') by (by destruct r as [[]|]).
  destruct Hs' as [-> ->]. split; [done|]. intros Hs. destruct (Hr Hs) as (a & s1 & [= -> ->] & ?). done.
Qed.

Context `{!AcsLaws W}.

Lemma apply_applied cmd s w :
  applied (sdb (apply cmd (s, w)).2.1) = applied (sdb s) ∧ (healthy s → healthy (apply cmd (s, w)).2.1).
Proof.
  unfold apply. destruct (ignore_StoreDeviceIP (cmd_CWMPID cmd) s) as [Hd Hh].
  destruct (StoreDeviceIP (cmd_CWMPID cmd) s) as [ip s1]. cbn [fst snd] in Hd, Hh.
  assert (Hra : ∀ t s1 w1, applied (sdb s1) = applied (sdb s) ∧ (healthy s → healthy s1) →
    applied (sdb (RequestAndAwait (cmd_CWMPID cmd) t (s1, w1)).2.1) = applied (sdb s) ∧
    (healthy s → healthy (RequestAndAwait (cmd_CWMPID cmd) t (s1, w1)).2.1)).
  { intros t s2 w2 [Ha Hh2]. rewrite Acs_applied. split; [done|]. intros Hs. by apply Acs_healthy, Hh2. }
  assert (Hr1 : applied (sdb s1) = applied (sdb s) ∧ (healthy s → healthy s1)) by (by rewrite Hd).
  case_decide; [done|]. case_decide.
  - unfold apply_write. match goal with |- context [RequestAndAwait _ ?t (s1, w)] => pose proof (Hra t s1 w Hr1) as Hr2 end.
    destruct (RequestAndAwait _ _ (s1, w)) as [[res|] [s2 w2]]; [|done]. cbn [fst snd] in Hr2.
    repeat (case_decide; [done|]). destruct cancelled; [done|].
    match goal with |- context [RequestAndAwait _ ?t (s2, w2)] => pose proof (Hra t s2 w2 Hr2) as Hr3 end.
    destruct (RequestAndAwait _ _ (s2, w2)) as [[rb|] [s3 w3]]; [|done]. by destruct (verifyExpected _ _ _ _).
  - case_decide; [|case_decide; [|done]].
    + unfold apply_query. match goal with |- context [RequestAndAwait _ ?t (s1, w)] => pose proof (Hra t s1 w Hr1) as Hr2 end.
      by destruct (RequestAndAwait _ _ (s1, w)) as [[res|] [s2 w2]].
    + unfold apply_reboot. match goal with |- context [RequestAndAwait _ ?t (s1, w)] => pose proof (Hra t s1 w Hr1) as Hr2 end.
      by destruct (RequestAndAwait _ _ (s1, w)) as [[res|] [s2 w2]].
Qed.

(** One command: applied only if it was not recorded, and recorded then. *)
Lemma handle_command_spec now cmd s w ran s' w' :
  healthy s → handle_command now cmd (s, w) = (ran, (s', w')) →
  healthy s' ∧
  (∀ id, id ≠ cmd_ID cmd ∨ is_Some (applied (sdb s) !! id) → applied (sdb s') !! id = applied (sdb s) !! id) ∧
  is_Some (applied (sdb s') !! cmd_ID cmd) ∧
  (ran = true ↔ applied (sdb s) !! cmd_ID cmd = None).
Proof.
  intros Hs Hrun. unfold handle_command in Hrun.
  destruct (runs_query (λ d, (λ r, (ap_status r, ap_result r)) <$> applied d !! cmd_ID cmd) s Hs) as (o & s1 & Hq & Hs1).
  unfold AlreadyApplied in Hrun. rewrite Hq in Hrun. apply query_sdb in Hq as [Hd Ho]. specialize (Ho o eq_refl).
  destruct o as [[status result]|].
  - injection Hrun as <- <- <-. rewrite Hd. destruct (applied (sdb s) !! cmd_ID cmd) as [row|] eqn:Hr; [|done].
    split_and!; [done|done|by eexists|done].
  - assert (Hnone : applied (sdb s) !! cmd_ID cmd = None) by (by destruct (applied (sdb s) !! cmd_ID cmd)).
    destruct (apply_applied cmd s1 w) as [Ha Hh]. destruct (apply cmd (s1, w)) as [ack [s2 w2]]. cbn [fst snd] in Ha, Hh.
    destruct (runs_exec (λ d, set_applied (<[cmd_ID cmd := AppliedRow (ack_Status ack)
      (marshal_result (ack_Result ack)) now]> (applied d)) d) s2 (Hh Hs1)) as ([] & s3 & Hm & Hs3).
    unfold MarkApplied in Hrun. rewrite Hm in Hrun. apply exec_sdb in Hm. injection Hrun as <- <- _.
    rewrite Hm. simpl. rewrite Ha, Hd. split_and!; [done| |by rewrite lookup_insert_eq; eexists|done].
    intros id [Hid|Hid]; (rewrite lookup_insert_ne; [done|]); intros <-; [done|]. rewrite Hnone in Hid. by destruct Hid.
Qed.

(** What the read-back proves. *)
Lemma verifyExpected_nil expected readback :
  verifyExpected FormatFloat SprintFloat expected readback = [] ↔
  ∀ path want, expected !! path = Some want →
    ∃ got, readback !! path = Some got ∧ valuesMatch FormatFloat SprintFloat want got = true.
Proof.
  unfold verifyExpected. split.
  - intros Hnil path want Hp. apply elem_of_map_to_list in Hp.
    destruct (readback !! path) as [got|] eqn:Hg.
    + exists got. split; [done|]. destruct (valuesMatch _ _ want got) eqn:Hv; [done|]. exfalso.
      assert (Hin : mkMismatch path want got false ∈ omap (λ kv : string * any,
        match readback !! kv.1 with
        | Some got => if valuesMatch FormatFloat SprintFloat kv.2 got then None else Some (mkMismatch kv.1 kv.2 got false)
        | None => Some (mkMismatch kv.1 kv.2 ANil true)
        end) (map_to_list expected)).
      { apply list_elem_of_omap. exists (path, want). split; [done|]. cbn [fst snd]. by rewrite Hg, Hv. }
      rewrite Hnil in Hin. by apply elem_of_nil in Hin.
    + exfalso. assert (Hin : mkMismatch path want ANil true ∈ omap (λ kv : string * any,
        match readback !! kv.1 with
        | Some got => if valuesMatch FormatFloat SprintFloat kv.2 got then None else Some (mkMismatch kv.1 kv.2 got false)
        | None => Some (mkMismatch kv.1 kv.2 ANil true)
        end) (map_to_list expected)).
      { apply list_elem_of_omap. exists (path, want). split; [done|]. cbn [fst snd]. by rewrite Hg. }
      rewrite Hnil in Hin. by apply elem_of_nil in Hin.
  - intros Hall. destruct (omap _ _) as [|m l] eqn:Ho; [done|]. exfalso.
    assert (Hin : m ∈ m :: l) by (by left). rewrite <- Ho in Hin. apply list_elem_of_omap in Hin as ([path want] & Hin & Hm).
    apply elem_of_map_to_list in Hin. destruct (Hall path want Hin) as (got & Hg & Hv). cbn [fst snd] in Hm.
    by rewrite Hg, Hv in Hm.
Qed.
End Commands.

(** ** Lemmas on telemetry *)

(** The parts cover the events from [a] to [b] one after the other. *)
Fixpoint tiles (a b : nat) (parts : list telemetryPart) : Prop :=
  match parts with
  | [] => a = b
  | p :: rest => pt_start p = a ∧ a ≤ pt_end p ∧ tiles (pt_end p) b rest
  end.

(** The request a part stands for; metrics and alarms ride with the first. *)
Definition sub_request (r : TelemetryRequest) (first : bool) (a b : nat) : TelemetryRequest :=
  mkTelemetry (if first then tq_Metrics r else []) (slice a b (tq_Events r)) (if first then tq_Alarms r else []).

Definition part_request (r : TelemetryRequest) (p : telemetryPart) : TelemetryRequest :=
  sub_request r (bool_decide (pt_start p = 0)) (pt_start p) (pt_end p).

Lemma tiles_app a b c l k : tiles a b l → tiles b c k → tiles a c (l ++ k).
Proof. revert a. induction l as [|p l IH]; intros a; simpl; [by intros ->|]. intros (? & ? & ?) ?. auto. Qed.

Lemma tiles_le a b l : tiles a b l → a ≤ b.
Proof. revert a. induction l as [|q l IH]; intros a; simpl; [lia|]. intros (? & ? & Hr). apply IH in Hr. lia. Qed.

Lemma tiles_bounds a b l p : tiles a b l → p ∈ l → a ≤ pt_start p ≤ pt_end p ∧ pt_end p ≤ b.
Proof.
  revert a. induction l as [|q l IH]; intros a Ht Hin; [by apply elem_of_nil in Hin|].
  destruct Ht as (Hs & He & Hr). apply elem_of_cons in Hin as [->|Hin].
  - apply tiles_le in Hr. lia.
  - destruct (IH _ Hr Hin). lia.
Qed.

Section SplitLemmas.
Variable json_Marshal : TelemetryRequest → option string.

(** What [split] makes of a request whose events start at [start]: the first part
    starts there, the others later. *)
Definition part_ok (maxBytes : Z) (r : TelemetryRequest) (start : nat) (first : bool) (p : telemetryPart) : Prop :=
  (if first then pt_start p = start else start < pt_start p) ∧
  pt_body p = body_of json_Marshal (sub_request r first (pt_start p - start) (pt_end p - start)) ∧
  ((maxBytes ≤ 0)%Z ∨ (blen (pt_body p) ≤ maxBytes)%Z ∨ pt_end p ≤ S (pt_start p)).

Lemma part_ok_drop maxBytes r start mid first p : 0 < mid →
  part_ok maxBytes (mkTelemetry [] (drop mid (tq_Events r)) []) (start + mid) first p →
  part_ok maxBytes r start false p.
Proof.
  intros Hmid (Hs & Hb & Hsz). assert (start + mid ≤ pt_start p) by (destruct first; lia).
  split; [lia|]. split; [|done]. rewrite Hb. unfold sub_request, slice. simpl.
  rewrite drop_drop. replace (mid + (pt_start p - (start + mid))) with (pt_start p - start) by lia.
  replace (pt_end p - (start + mid) - (pt_start p - (start + mid))) with (pt_end p - start - (pt_start p - start)) by lia.
  by destruct first.
Qed.

Lemma part_ok_take maxBytes r start mid first p : pt_end p ≤ start + mid →
  part_ok maxBytes (mkTelemetry (tq_Metrics r) (take mid (tq_Events r)) (tq_Alarms r)) start first p →
  part_ok maxBytes r start first p.
Proof.
  intros Hend (Hs & Hb & Hsz). split; [done|]. split; [|done]. rewrite Hb. unfold sub_request, slice. simpl.
  f_equal. f_equal. rewrite skipn_firstn_comm, take_take. f_equal. lia.
Qed.

Lemma split_spec fuel maxBytes r start : length (tq_Events r) ≤ S fuel →
  tiles start (start + length (tq_Events r)) (split json_Marshal fuel maxBytes r start) ∧
  ∃ p rest, split json_Marshal fuel maxBytes r start = p :: rest ∧
    part_ok maxBytes r start true p ∧ Forall (part_ok maxBytes r start false) rest.
Proof.
  revert r start. induction fuel as [|fuel IH]; intros r start Hn; cbn [split];
    (assert (Hw : ∀ P : Prop, P → tiles start (start + length (tq_Events r))
       [mkPart (body_of json_Marshal r) start (start + length (tq_Events r))] ∧ P)
     by (intros P HP; simpl; split_and!; try done; lia)).
  { apply Hw. eexists _, []. split; [done|]. split; [|constructor]. split; [simpl; lia|]. simpl.
    rewrite Nat.sub_diag. replace (start + length (tq_Events r) - start) with (length (tq_Events r)) by lia.
    unfold sub_request. rewrite slice_full. destruct r; simpl in *. split; [done|]. right. right. lia. }
  case_decide as Hd.
  { apply Hw. eexists _, []. split; [done|]. split; [|constructor]. split; [simpl; lia|]. simpl.
    rewrite Nat.sub_diag. replace (start + length (tq_Events r) - start) with (length (tq_Events r)) by lia.
    unfold sub_request. rewrite slice_full. destruct r; simpl in *. split; [done|]. destruct Hd as [?|[?|?]]; auto.
    right. right. lia. }
  assert (Hn2 : 2 ≤ length (tq_Events r)) by (destruct (decide (2 ≤ length (tq_Events r))); [done|exfalso; apply Hd; right; right; lia]).
  set (n := length (tq_Events r)) in *. set (mid := n / 2).
  assert (¬ n ≤ 1) by tauto. assert (Hmid : 0 < mid ∧ mid < n) by (split; [apply Nat.div_str_pos|apply Nat.div_lt]; lia).
  set (r1 := mkTelemetry (tq_Metrics r) (take mid (tq_Events r)) (tq_Alarms r)).
  set (r2 := mkTelemetry [] (drop mid (tq_Events r)) []).
  assert (Hl1 : length (tq_Events r1) = mid) by (simpl; rewrite length_take; unfold n in Hmid; lia).
  assert (Hl2 : length (tq_Events r2) = n - mid) by (simpl; by rewrite length_drop).
  destruct (IH r1 start) as (Ht1 & p1 & l1 & Hp1 & Hok1 & Hl1'); [lia|].
  destruct (IH r2 (start + mid)) as (Ht2 & p2 & l2 & Hp2 & Hok2 & Hl2'); [lia|].
  rewrite Hl1 in Ht1. rewrite Hl2 in Ht2.
  assert (Hb1 : ∀ p, p ∈ p1 :: l1 → pt_end p ≤ start + mid).
  { intros p Hp. rewrite Hp1 in Ht1. eapply tiles_bounds in Ht1; [|done]. lia. }
  split.
  - eapply tiles_app; [done|]. replace (start + n) with (start + mid + (n - mid)) by lia. done.
  - rewrite Hp1, Hp2. exists p1, (l1 ++ p2 :: l2). split; [done|]. split.
    + eapply part_ok_take; [|done]. apply Hb1. by left.
    + rewrite Forall_app, Forall_cons, !Forall_forall. rewrite Forall_forall in Hl1'. rewrite Forall_forall in Hl2'.
      split_and!.
      * intros p Hp. eapply part_ok_take; [|by apply Hl1']. apply Hb1. by right.
      * eapply part_ok_drop; [|done]. lia.
      * intros p Hp. eapply part_ok_drop; [|by apply Hl2']. lia.
Qed.

Lemma splitTelemetry_bodies req maxBytes :
  Forall (λ p, pt_body p = body_of json_Marshal (part_request req p)) (splitTelemetry json_Marshal req maxBytes).
Proof.
  destruct (split_spec (length (tq_Events req)) maxBytes req 0) as (_ & p & rest & Hp & Hok & Hr); [lia|].
  unfold splitTelemetry. rewrite Hp.
  assert (Hall : ∀ first q, part_ok maxBytes req 0 first q → pt_body q = body_of json_Marshal (part_request req q)).
  { intros first q (Hs & Hb & _). rewrite Hb, !Nat.sub_0_r. unfold part_request. do 2 f_equal.
    destruct first; [by rewrite bool_decide_true|rewrite bool_decide_false by lia; done]. }
  constructor; [by eapply Hall|]. eapply Forall_impl; [exact Hr|]. intros q. apply Hall.
Qed.

Lemma halved n : ¬ n ≤ 1 → 1 ≤ n / 2 < n.
Proof. intros Hn. split; [apply (Nat.div_le_lower_bound n 2 1); lia|apply Nat.div_lt; lia]. Qed.

Lemma split_fuel maxBytes f1 : ∀ f2 r start, length (tq_Events r) ≤ f1 → length (tq_Events r) ≤ f2 →
  split json_Marshal f1 maxBytes r start = split json_Marshal f2 maxBytes r start.
Proof.
  assert (Hone : ∀ fuel r start, length (tq_Events r) ≤ 1 → split json_Marshal fuel maxBytes r start =
    [mkPart (body_of json_Marshal r) start (start + length (tq_Events r))]).
  { intros [|fuel] r start Hn; cbn [split]; [done|]. by rewrite decide_True by auto. }
  induction f1 as [|f1 IH]; intros f2 r start H1 H2; [rewrite !Hone by lia; done|].
  destruct f2 as [|f2]; [rewrite !Hone by lia; done|]. cbn [split].
  case_decide as Hd; [done|]. assert (Hn : ¬ length (tq_Events r) ≤ 1) by tauto. apply halved in Hn.
  f_equal; apply IH; cbn [tq_Events]; rewrite ?length_take, ?length_drop; lia.
Qed.

Lemma split_count maxBytes fuel : ∀ r start,
  length (split json_Marshal fuel maxBytes r start) ≤ Nat.max 1 (length (tq_Events r)).
Proof.
  induction fuel as [|fuel IH]; intros r start; cbn [split]; [simpl; lia|]. case_decide as Hd; [simpl; lia|].
  rewrite length_app. set (n := length (tq_Events r)) in *. set (mid := n / 2).
  assert (Hn : 1 ≤ mid < n) by (apply halved; tauto).
  pose proof (IH (mkTelemetry (tq_Metrics r) (take mid (tq_Events r)) (tq_Alarms r)) start) as Hl.
  pose proof (IH (mkTelemetry [] (drop mid (tq_Events r)) []) (start + mid)) as Hr.
  cbn [tq_Events] in Hl, Hr. rewrite length_take in Hl. rewrite length_drop in Hr. fold n in Hl, Hr. lia.
Qed.
End SplitLemmas.

(** *** Queueing the parts *)

Lemma Requeue_app l k c : Requeue (l ++ k) c = Requeue k (Requeue l c).
Proof.
  destruct l as [|m l]; [done|]. destruct k as [|n k]; [by rewrite app_nil_r|]. simpl. unfold set_requeued. simpl.
  by rewrite <- app_assoc.
Qed.

(** What one part leaves behind. *)
Definition part_outcome (b : Buffer) (now : Z) (ms : list FTPMark) (p : telemetryPart) (o : option bool)
    (c : Collector) (s : sql) (c' : Collector) (s' : sql) : Prop :=
  match o with
  | Some true => ¬ over_cap b (pt_body p) ∧ c' = c ∧ sdb s' = enqueue_db b now "telemetry" (pt_body p) ms (sdb s)
  | Some false => over_cap b (pt_body p) ∧
      ∃ kept back, kept ++ back = ms ∧ c' = Requeue back c ∧ sdb s' = upsert_marks_db now kept (sdb s)
  | None => ¬ over_cap b (pt_body p) ∧ c' = c ∧ sdb s' = sdb s
  end.

Lemma enqueue_part_spec b now ftp p c s o c' s' :
  outbox_wf (sdb s) → engine_faults s →
  (over_cap b (pt_body p) → length (MarksIn ftp (pt_start p) (pt_end p)) ≤ 1) →
  enqueue_part b now ftp p (c, s) = (o, (c', s')) →
  engine_faults s' ∧ part_outcome b now (MarksIn ftp (pt_start p) (pt_end p)) p o c s c' s'.
Proof.
  intros Hwf Hf Hms Hrun. unfold enqueue_part in Hrun. set (ms := MarksIn _ _ _) in *.
  pose proof (triple_EnqueueWithMarks b now "telemetry" (pt_body p) ms (sdb s) Hwf s eq_refl) as Ht.
  destruct (decide (over_cap b (pt_body p))) as [Ho|Ho].
  - specialize (Hms Ho). rewrite oversized_refused in Hrun by done. pose proof (engine_MarkFTPIngested now ms s Hf) as Hm.
    pose proof (triple_MarkFTPIngested now ms (sdb s) s eq_refl) as Hd.
    destruct ms as [|m l]; [simplify_eq; split; [done|]; split; [done|]; by exists [], []|].
    destruct (MarkFTPIngested now (m :: l) s) as [[[]|e] s1]; simplify_eq.
    + split; [done|]. split; [done|]. exists (m :: l), []. by rewrite app_nil_r.
    + split; [apply Hm|]. split; [done|]. destruct Hd as (k & Hk & Hd). exists [], (m :: l).
      split_and!; [done|done|]. assert (k = 0) as ->; [|done]. pose proof ledgerChunk_pos as Hpos. clear -Hk Hms Hpos. revert Hk Hms Hpos.
      generalize ledgerChunk (length (m :: l)). intros. nia.
  - pose proof (engine_EnqueueWithMarks b now "telemetry" (pt_body p) ms Ho s Hf) as He.
    destruct (EnqueueWithMarks b now "telemetry" (pt_body p) ms s) as [[[]|e] s1].
    + simplify_eq. split; [done|]. by destruct Ht as [Hd _].
    + destruct Ht as [Hd _]. destruct He as [Hf1 He]. destruct e; simplify_eq; try done; by destruct He.
Qed.

Lemma part_outcome_wf b now ms p o c s c' s' :
  outbox_wf (sdb s) → part_outcome b now ms p o c s c' s' → outbox_wf (sdb s').
Proof.
  intros Hwf. destruct o as [[]|]; simpl.
  - intros (_ & _ & ->). by apply enqueue_db_wf.
  - intros (_ & kept & back & _ & _ & ->). by apply upsert_marks_wf.
  - by intros (_ & _ & ->).
Qed.

(** The bodies a list of parts adds to the outbox when all of it is handled. *)
Definition accepted (b : Buffer) (parts : list telemetryPart) : list string :=
  pt_body <$> filter (λ p, ¬ over_cap b (pt_body p)) parts.

(** What is left when [k] of [parts] have been handled: the marks [kept] are in
    the ledger, the marks [back] are with the collector again. *)
Definition parts_outcome (b : Buffer) (ftp : FTPBatch) (parts : list telemetryPart) (k : nat)
    (kept back : list FTPMark) (c : Collector) (d : db) (c' : Collector) (d' : db) : Prop :=
  k ≤ length parts ∧ c' = Requeue back c ∧
  (∀ p, ledger_stamps d' !! p =
          match last_stamp p kept with Some st => Some st | None => ledger_stamps d !! p end) ∧
  (∃ n, ob_body <$> outbox d' = drop n ((ob_body <$> outbox d) ++ accepted b (take k parts))) ∧
  (∀ m, m ∈ kept → ∃ p, p ∈ take k parts ∧ m ∈ MarksIn ftp (pt_start p) (pt_end p)) ∧
  (∀ p m, p ∈ take k parts → ¬ over_cap b (pt_body p) → m ∈ MarksIn ftp (pt_start p) (pt_end p) → m ∈ kept).

Lemma parts_outcome_queued b now ftp p parts k kept back c d c' d' :
  let ms := MarksIn ftp (pt_start p) (pt_end p) in
  ¬ over_cap b (pt_body p) → parts_outcome b ftp parts k kept back c (enqueue_db b now "telemetry" (pt_body p) ms d) c' d' →
  parts_outcome b ftp (p :: parts) (S k) (ms ++ kept) back c d c' d'.
Proof.
  intros ms Hno (Hk & Hc & Hl & (j & Hb) & Hin & Hout). unfold parts_outcome, accepted. simpl take.
  rewrite filter_cons_True by done. split_and!.
  - simpl. lia.
  - done.
  - intros x. rewrite Hl, last_stamp_app. destruct (last_stamp x kept); [done|]. by rewrite enqueue_db_ledger.
  - rewrite enqueue_db_outbox, fmap_app, fmap_drop in Hb. simpl in Hb. set (o := ob_body <$> outbox d) in *.
    exists (evicted_rows b (pt_body p) d `min` length o + j). rewrite Hb, <- drop_drop. f_equal.
    simpl fmap. fold (accepted b (take k parts)). rewrite <- app_assoc. simpl.
    rewrite (drop_app_le o) by lia. f_equal.
    destruct (Nat.min_spec (evicted_rows b (pt_body p) d) (length o)) as [[? ->]|[? ->]]; [done|].
    by rewrite !drop_ge by lia.
  - intros m [Hm|Hm]%elem_of_app; [exists p; split; [by left|done]|].
    destruct (Hin m Hm) as (r & Hr & ?). exists r. split; [by right|done].
  - intros r m [->|Hr]%elem_of_cons Hnr Hm; apply elem_of_app; [by left|right; by eapply Hout].
Qed.

Lemma parts_outcome_dropped b now ftp p parts k kp bk kept back c d c' d' :
  kp ++ bk = MarksIn ftp (pt_start p) (pt_end p) →
  over_cap b (pt_body p) → parts_outcome b ftp parts k kept back (Requeue bk c) (upsert_marks_db now kp d) c' d' →
  parts_outcome b ftp (p :: parts) (S k) (kp ++ kept) (bk ++ back) c d c' d'.
Proof.
  intros Hkb Hov (Hk & -> & Hl & (j & Hb) & Hin & Hout). unfold parts_outcome, accepted. simpl take.
  rewrite filter_cons_False by tauto. split_and!.
  - simpl. lia.
  - by rewrite Requeue_app.
  - intros x. rewrite Hl, last_stamp_app. destruct (last_stamp x kept); [done|]. by rewrite upsert_marks_lookup.
  - exists j. destruct (upsert_marks_other now kp d) as [Hob _]. by rewrite <- Hob.
  - intros m [Hm|Hm]%elem_of_app; [exists p; split; [by left|]; rewrite <- Hkb; apply elem_of_app; by left|].
    destruct (Hin m Hm) as (r & Hr & ?). exists r. split; [by right|done].
  - intros r m [->|Hr]%elem_of_cons Hnr Hm; [done|]. apply elem_of_app. right. by eapply Hout.
Qed.

(** Nothing (more) handled: everything that is left goes back. *)
Lemma parts_outcome_none b ftp parts back c d : parts_outcome b ftp parts 0 [] back c d (Requeue back c) d.
Proof.
  split_and!; [lia|done|done| |by intros m ?%elem_of_nil|by intros r m ?%elem_of_nil].
  exists 0. by rewrite app_nil_r.
Qed.

Lemma enqueue_parts_spec b now ftp n parts : ∀ a q c s queued c' s',
  outbox_wf (sdb s) → engine_faults s → tiles a n parts →
  Forall (λ p, over_cap b (pt_body p) → length (MarksIn ftp (pt_start p) (pt_end p)) ≤ 1) parts →
  enqueue_parts b now ftp n parts q (c, s) = (queued, (c', s')) →
  ∃ k kept back, kept ++ back ≡ₚ MarksIn ftp a n ∧
    parts_outcome b ftp parts k kept back c (sdb s) c' (sdb s') ∧
    queued = (q || bool_decide (accepted b (take k parts) ≠ [])).
Proof.
  induction parts as [|p parts IH]; intros a q c s queued c' s' Hwf Hf Ht Hsmall Hrun; cbn [enqueue_parts] in Hrun.
  { simplify_eq/=. exists 0, [], []. split_and!; [|apply (parts_outcome_none b ftp [] [])|by rewrite orb_false_r].
    unfold MarksIn. rewrite list_filter_none; [done|]. apply Forall_true. intros. simpl in *. lia. }
  apply Forall_cons in Hsmall as [Hp Hsmall]. destruct Ht as (<- & Hle & Ht).
  destruct (enqueue_part b now ftp p (c, s)) as [o [c1 s1]] eqn:Hpart. rewrite ?Hpart in Hrun.
  destruct (enqueue_part_spec _ _ _ _ _ _ _ _ _ Hwf Hf Hp Hpart) as [Hf1 Ho].
  pose proof (part_outcome_wf _ _ _ _ _ _ _ _ _ Hwf Ho) as Hwf1.
  assert (Hsplit : MarksIn ftp (pt_start p) n ≡ₚ MarksIn ftp (pt_start p) (pt_end p) ++ MarksIn ftp (pt_end p) n).
  { apply MarksIn_split; [done|by eapply tiles_le]. }
  destruct o as [[]|]; simpl in Ho.
  - destruct Ho as (Hno & -> & Hd).
    destruct (IH _ _ _ _ _ _ _ Hwf1 Hf1 Ht Hsmall Hrun) as (k & kept & back & Hperm & Hout & ->). rewrite Hd in Hout.
    eexists (S k), _, back. split_and!; [|by eapply parts_outcome_queued|].
    + by rewrite Hsplit, <- Hperm, app_assoc.
    + unfold accepted. simpl take. rewrite filter_cons_True by done. simpl. by rewrite !orb_true_r.
  - destruct Ho as (Hov & kp & bk & Hkb & -> & Hd).
    destruct (IH _ _ _ _ _ _ _ Hwf1 Hf1 Ht Hsmall Hrun) as (k & kept & back & Hperm & Hout & ->). rewrite Hd in Hout.
    exists (S k), (kp ++ kept), (bk ++ back). split_and!; [|by eapply parts_outcome_dropped|].
    + rewrite Hsplit, <- Hkb, <- Hperm. solve_Permutation.
    + unfold accepted. simpl take. rewrite filter_cons_False by tauto. by rewrite orb_false_r.
  - destruct Ho as (Hno & -> & Hd). simplify_eq. exists 0, [], (MarksIn ftp (pt_start p) n). rewrite Hd.
    split_and!; [done|apply parts_outcome_none|by rewrite orb_false_r].
Qed.

Lemma tiles_first a b p parts : tiles a b (p :: parts) → pt_start p = a.
Proof. by intros [? _]. Qed.

Definition no_tiny_cap (b : Buffer) : Prop := (b_maxBytes b ≤ 0 ∨ partsPerCap ≤ b_maxBytes b)%Z.

(** A part over the whole cap could not be split. *)
Lemma split_parts_small json_Marshal b req ftp p :
  no_tiny_cap b → ends_ok (length (Events ftp)) (marks ftp) →
  p ∈ splitTelemetry json_Marshal req (Z.quot (b_maxBytes b) partsPerCap) →
  over_cap b (pt_body p) → length (MarksIn ftp (pt_start p) (pt_end p)) ≤ 1.
Proof.
  intros Hcap Hends Hp [Hpos Hov]. apply MarksIn_small; [done|].
  destruct (split_spec json_Marshal (length (tq_Events req)) (Z.quot (b_maxBytes b) partsPerCap) req 0) as (_ & q & l & Hq & Hok & Hl);
    [lia|].
  assert (Hsz : (Z.quot (b_maxBytes b) partsPerCap ≤ 0 ∨ blen (pt_body p) ≤ Z.quot (b_maxBytes b) partsPerCap)%Z ∨
                pt_end p ≤ S (pt_start p)).
  { unfold splitTelemetry in Hp. rewrite Hq in Hp. rewrite Forall_forall in Hl.
    apply elem_of_cons in Hp as [->|Hp]; [destruct Hok as (_ & _ & ?)|destruct (Hl p Hp) as (_ & _ & ?)]; tauto. }
  destruct Hsz as [Hsz|?]; [|done]. exfalso. destruct Hcap as [?|Hcap]; [lia|]. unfold partsPerCap in *.
  rewrite Z.quot_div_nonneg in Hsz by lia.
  pose proof (Z.div_le_lower_bound (b_maxBytes b) 8 1). pose proof (Z.div_le_upper_bound (b_maxBytes b) 8 (b_maxBytes b)). lia.
Qed.

(** *** Repeated polls *)

Definition recorded (s : sql) (id : string) : Prop := is_Some (applied (sdb s) !! id).

(** What any run of commands guarantees: what it executed was not recorded, and
    now is. *)
Definition ran_once (s : sql) (polled ids : list string) (s' : sql) : Prop :=
  healthy s' ∧ NoDup ids ∧ (∀ id, id ∈ ids ↔ id ∈ polled ∧ ¬ recorded s id) ∧
  (∀ id, recorded s id → applied (sdb s') !! id = applied (sdb s) !! id) ∧
  (∀ id, recorded s' id ↔ recorded s id ∨ id ∈ polled).

Lemma ran_once_nil s : healthy s → ran_once s [] [] s.
Proof. intros Hs. unfold ran_once. split_and!; try done; try constructor; set_solver. Qed.

Lemma ran_once_app s p1 ids1 s1 p2 ids2 s2 :
  ran_once s p1 ids1 s1 → ran_once s1 p2 ids2 s2 → ran_once s (p1 ++ p2) (ids1 ++ ids2) s2.
Proof.
  intros (Hh1 & Hn1 & Hf1 & Hk1 & Hr1) (Hh2 & Hn2 & Hf2 & Hk2 & Hr2).
  assert (Hmono : ∀ id, recorded s id → recorded s1 id) by (intros id Hid; unfold recorded; by rewrite Hk1).
  split_and!.
  - done.
  - apply NoDup_app. split_and!; [done| |done]. intros id [Hid Hns]%Hf1 [_ Hnr]%Hf2. apply Hnr, Hr1. by right.
  - intros id. rewrite !elem_of_app, Hf1, Hf2, Hr1. destruct (decide (id ∈ p1)); tauto.
  - intros id Hid. by rewrite Hk2, Hk1 by auto.
  - intros id. rewrite Hr2, Hr1, elem_of_app. tauto.
Qed.

Section Polled.
Context {W : Type} `{Acs W} `{!AcsLaws W}.
Variables (FormatFloat SprintFloat : spec_float → string) (manifest : option Manifest).
Variables (marshal_result : AckResult → string) (unmarshal_result : string → AckResult).
Variables (timeout_text : string) (cancelled : bool).

Abbreviation run := (handle_commands FormatFloat SprintFloat manifest marshal_result unmarshal_result timeout_text cancelled).

(** The commands of one poll after another. *)
Fixpoint handle_polls (polls : list (Z * list Command)) (x : sql * W) : list string * (sql * W) :=
  match polls with
  | [] => ([], x)
  | (now, cmds) :: rest =>
      let '(ids, x) := run now cmds x in
      let '(ids', x) := handle_polls rest x in (ids ++ ids', x)
  end.

Lemma ran_once_command now cmd s w ran s' w' : healthy s →
  handle_command FormatFloat SprintFloat manifest marshal_result unmarshal_result timeout_text cancelled now cmd (s, w)
    = (ran, (s', w')) →
  ran_once s [cmd_ID cmd] (if ran then [cmd_ID cmd] else []) s'.
Proof.
  intros Hs Hrun. apply handle_command_spec in Hrun as (Hs' & Hsame & Hrec & Hran); [|done..]. split_and!.
  - done.
  - destruct ran; [apply NoDup_singleton|constructor].
  - intros id. rewrite list_elem_of_singleton. unfold recorded. split.
    + destruct ran; [|by intros ?%elem_of_nil]. intros ->%list_elem_of_singleton. split; [done|].
      rewrite (proj1 Hran eq_refl). by intros [].
    + intros [-> Hn]. rewrite (proj2 Hran); [by apply list_elem_of_singleton|]. by apply eq_None_not_Some.
  - intros id Hid. apply Hsame. by right.
  - intros id. rewrite list_elem_of_singleton. unfold recorded. split.
    + intros Hid. destruct (decide (id = cmd_ID cmd)); [by right|]. left. by rewrite <- Hsame by auto.
    + intros [Hid| ->]; [by rewrite Hsame by auto|done].
Qed.

Lemma ran_once_commands now cmds s w ids s' w' : healthy s → run now cmds (s, w) = (ids, (s', w')) →
  ran_once s (cmd_ID <$> cmds) ids s'.
Proof.
  revert s w ids. induction cmds as [|cmd cmds IH]; intros s w ids Hs Hrun; cbn [handle_commands] in Hrun.
  { simplify_eq. by apply ran_once_nil. }
  destruct (handle_command _ _ _ _ _ _ _ now cmd (s, w)) as [ran [s1 w1]] eqn:Hc.
  destruct (run now cmds (s1, w1)) as [ids1 x1] eqn:Hr. simplify_eq.
  apply ran_once_command in Hc; [|done]. apply IH in Hr; [|by destruct Hc].
  replace (if ran then cmd_ID cmd :: ids1 else ids1) with ((if ran then [cmd_ID cmd] else []) ++ ids1) by (by destruct ran).
  change (cmd_ID <$> cmd :: cmds) with ([cmd_ID cmd] ++ (cmd_ID <$> cmds)). by eapply ran_once_app.
Qed.

Lemma ran_once_polls polls s w ids s' w' : healthy s → handle_polls polls (s, w) = (ids, (s', w')) →
  ran_once s (cmd_ID <$> concat polls.*2) ids s'.
Proof.
  revert s w ids. induction polls as [|[now cmds] polls IH]; intros s w ids Hs Hrun; cbn [handle_polls] in Hrun.
  { simplify_eq. by apply ran_once_nil. }
  destruct (run now cmds (s, w)) as [ids1 [s1 w1]] eqn:Hc.
  destruct (handle_polls polls (s1, w1)) as [ids2 x2] eqn:Hr. simplify_eq.
  apply ran_once_commands in Hc; [|done]. apply IH in Hr; [|by destruct Hc].
  simpl. rewrite fmap_app. by eapply ran_once_app.
Qed.
End Polled.

(** ** Properties *)

(** C25: Halving terminates: the model's fuel, the number of events, is enough (more
    changes nothing), so that splitting satisfies the code's own recursion; and it
    makes at most one part per event, or one part in all. *)
Theorem split_terminates json_Marshal maxBytes r start :
  let run r start := split json_Marshal (length (tq_Events r)) maxBytes r start in
  let n := length (tq_Events r) in let mid := n / 2 in
  (∀ fuel, n ≤ fuel → split json_Marshal fuel maxBytes r start = run r start) ∧
  run r start =
    (if decide ((maxBytes ≤ 0)%Z ∨ (blen (body_of json_Marshal r) ≤ maxBytes)%Z ∨ n ≤ 1)
     then [mkPart (body_of json_Marshal r) start (start + n)]
     else run (mkTelemetry (tq_Metrics r) (take mid (tq_Events r)) (tq_Alarms r)) start ++
          run (mkTelemetry [] (drop mid (tq_Events r)) []) (start + mid)) ∧
  length (run r start) ≤ Nat.max 1 n.
Proof.
  intros run n mid. split_and!; [|unfold run at 1|apply split_count].
  - intros fuel Hf. by apply split_fuel.
  - rewrite (split_fuel json_Marshal maxBytes _ (S n)) by (subst n; lia). cbn [split]. fold n mid.
    case_decide as Hd; [done|]. assert (Hn : 1 ≤ mid < n) by (apply halved; tauto).
    unfold run. f_equal; apply split_fuel; cbn [tq_Events]; rewrite ?length_take, ?length_drop; lia.
Qed.

(** Splitting a telemetry request loses and repeats nothing: the parts cover
    the events from first to last without gap or overlap, each body is the
    marshalled request of just its events, with metrics and alarms in the first
    and only there, and each is within the limit unless it holds a single event
    at most (or there is no limit). *)
Theorem splitTelemetry_partitions json_Marshal req maxBytes :
  let n := length (tq_Events req) in
  let parts := splitTelemetry json_Marshal req maxBytes in
  tiles 0 n parts ∧
  ∃ p rest, parts = p :: rest ∧
    pt_body p = body_of json_Marshal (sub_request req true (pt_start p) (pt_end p)) ∧
    Forall (λ p, pt_body p = body_of json_Marshal (sub_request req false (pt_start p) (pt_end p))) rest ∧
    Forall (λ p, (maxBytes ≤ 0)%Z ∨ (blen (pt_body p) ≤ maxBytes)%Z ∨ pt_end p ≤ S (pt_start p)) parts.
Proof.
  intros n parts.
  destruct (split_spec json_Marshal (length (tq_Events req)) maxBytes req 0) as (Ht & p & rest & Hp & (Hs & Hb & Hz) & Hr); [lia|].
  split; [done|]. exists p, rest. rewrite !Nat.sub_0_r in Hb.
  assert (Hr' := Hr). split_and!; [done|done| |unfold parts, splitTelemetry; rewrite Hp; constructor; [done|]].
  - eapply Forall_impl; [done|]. intros q (_ & Hq & _). by rewrite !Nat.sub_0_r in Hq.
  - eapply Forall_impl; [done|]. by intros q (_ & _ & ?).
Qed.

(** C12: Whatever database statements fail, queueing a batch accounts for every
    upload in it: its mark is either recorded in the ledger or handed back to the
    collector, never both and never neither; the outbox gains exactly the bodies
    of the parts handled so far that fit the cap; a mark is recorded only with the
    part that carries its last event, and always when that part was queued. *)
Theorem telemetry_marks_settled json_Marshal b now req ftp c s queued c' s' :
  outbox_wf (sdb s) → engine_faults s → no_tiny_cap b →
  ends_ok (length (Events ftp)) (marks ftp) → length (Events ftp) ≤ length (tq_Events req) →
  enqueueTelemetry json_Marshal b now req ftp (c, s) = (queued, (c', s')) →
  let parts := splitTelemetry json_Marshal req (Z.quot (b_maxBytes b) partsPerCap) in
  ∃ k kept back, kept ++ back ≡ₚ em_mark <$> marks ftp ∧
    parts_outcome b ftp parts k kept back c (sdb s) c' (sdb s') ∧
    queued = bool_decide (accepted b (take k parts) ≠ []).
Proof.
  intros Hwf Hf Hcap Hends Hlen Hrun parts.
  destruct (split_spec json_Marshal (length (tq_Events req)) (Z.quot (b_maxBytes b) partsPerCap) req 0) as (Ht & _); [lia|].
  eapply enqueue_parts_spec in Hrun as (k & kept & back & Hperm & Ho & ->); [|done|done|exact Ht|].
  - exists k, kept, back. split_and!; [|done|done].
    rewrite Hperm, <- MarksIn_all by done. unfold MarksIn. destruct Hends as [_ Hb].
    rewrite !list_filter_all; [done|..]; (eapply Forall_impl; [done|]); simpl; intros; lia.
  - apply Forall_forall. intros p Hp. by eapply split_parts_small.
Qed.

(** Over any number of polls, on a database that works, a command is applied
    exactly once: the ones applied are the polled ones without a record, each
    once, and every polled command has a record afterwards, which is never
    changed again. *)
Theorem commands_applied_once {W} `{Acs W} `{!AcsLaws W} FormatFloat SprintFloat manifest marshal_result
    unmarshal_result timeout_text cancelled polls s w ids s' w' :
  healthy s →
  handle_polls FormatFloat SprintFloat manifest marshal_result unmarshal_result timeout_text cancelled polls (s, w)
    = (ids, (s', w')) →
  let polled := cmd_ID <$> concat polls.*2 in
  NoDup ids ∧ (∀ id, id ∈ ids ↔ id ∈ polled ∧ ¬ recorded s id) ∧
  (∀ id, recorded s' id ↔ recorded s id ∨ id ∈ polled) ∧
  (∀ id, recorded s id → applied (sdb s') !! id = applied (sdb s) !! id).
Proof. intros Hs Hrun polled. by apply ran_once_polls in Hrun as (_ & ? & ? & ? & ?). Qed.

(** A configuration command is acknowledged as applied only if the device
    accepted the write, and then either announced that it needs a reboot or
    answered the read-back of every expected path with a value that matches. *)
Theorem applied_was_verified {W} `{Acs W} FormatFloat SprintFloat manifest timeout_text cancelled cmd s w ack x :
  cmd_Type cmd ∈ ["configure"; "optimise"; "heal"; "rollback"] → ack_Status ack = "applied" →
  apply FormatFloat SprintFloat manifest timeout_text cancelled cmd (s, w) = (ack, x) →
  let dev := cmd_CWMPID cmd in
  let writes := toWrites FormatFloat SprintFloat (cp_Writes (cmd_Payload cmd)) manifest in
  let expected := expectedValues (cmd_Payload cmd) in
  ∃ s1 res x1, RequestAndAwait dev (mkTask TaskSPV [] writes (cmd_ID cmd) (cmd_ID cmd)) (s1, w) = (Some res, x1) ∧
    tr_Err res = "" ∧
    (tr_Status res = 1%Z ∧ x = x1 ∨
     ∃ rb, RequestAndAwait dev (mkTask TaskGPV (keysOf expected) [] "" (cmd_ID cmd +:+ ":rb")) x1 = (Some rb, x) ∧
       ar_Readback (ack_Result ack) = ToAnyMap (tr_Params rb) ∧
       ∀ path want, expected !! path = Some want → ∃ got, tr_Params rb !! path = Some got ∧
         normalizeValue (formatValue FormatFloat SprintFloat want) = normalizeValue got).
Proof.
  intros Htype Hack Hrun dev writes expected. unfold apply in Hrun.
  destruct (StoreDeviceIP (cmd_CWMPID cmd) s) as [ip s1]. case_decide; [by simplify_eq|].
  rewrite decide_True in Hrun by done. unfold apply_write in Hrun. fold dev writes expected in Hrun.
  destruct (RequestAndAwait dev (mkTask TaskSPV [] writes (cmd_ID cmd) (cmd_ID cmd)) (s1, w)) as [[res|] x1] eqn:Hspv;
    [|by simplify_eq].
  exists s1, res, x1. case_decide as Herr; [by simplify_eq|]. split; [done|]. split; [by destruct (decide (tr_Err res = ""))|].
  case_decide as Hst; [simplify_eq; by left|]. right. destruct cancelled; [by simplify_eq|].
  destruct (RequestAndAwait dev (mkTask TaskGPV _ _ _ _) x1) as [[rb|] x2] eqn:Hgpv; [|by simplify_eq].
  destruct (verifyExpected _ _ expected _) as [|m ms] eqn:Hv; [|by simplify_eq]. simplify_eq.
  exists rb. split_and!; [done|done|]. intros path want Hp.
  destruct (proj1 (verifyExpected_nil _ _ _ _) Hv path want Hp) as (got & Hg & Hm).
  unfold ToAnyMap in Hg. rewrite lookup_fmap in Hg. destruct (tr_Params rb !! path) as [v|]; [|done]. simplify_eq/=.
  exists v. split; [done|]. by apply bool_decide_eq_true in Hm.
Qed.

(** C40: A reboot or a query that the device answers with a fault is acknowledged
    as applied all the same: only the write path looks at the result's error. *)
Theorem rejection_acknowledged_applied {W} `{Acs W} FormatFloat SprintFloat manifest timeout_text cancelled cmd
    s w res x :
  cmd_Type cmd = "reboot" ∨ cmd_Type cmd = "query" →
  (StoreDeviceIP (cmd_CWMPID cmd) s).1 ≠ "" → tr_Err res ≠ "" →
  let task := if decide (cmd_Type cmd = "reboot") then mkTask TaskReboot [] [] (cmd_ID cmd) (cmd_ID cmd)
              else mkTask TaskGPV (cp_ReadPaths (cmd_Payload cmd)) [] "" (cmd_ID cmd) in
  RequestAndAwait (cmd_CWMPID cmd) task ((StoreDeviceIP (cmd_CWMPID cmd) s).2, w) = (Some res, x) →
  ack_Status (apply FormatFloat SprintFloat manifest timeout_text cancelled cmd (s, w)).1 = "applied".
Proof.
  intros Htype Hip Herr task Hreq. unfold apply.
  destruct (StoreDeviceIP (cmd_CWMPID cmd) s) as [ip s1]. cbn [fst snd] in *. rewrite decide_False by done.
  unfold task in Hreq. destruct Htype as [Ht|Ht]; rewrite Ht in *; simpl in Hreq.
  - rewrite decide_False by set_solver. simpl. unfold apply_reboot. by rewrite Hreq.
  - rewrite decide_False by set_solver. simpl. unfold apply_query. by rewrite Hreq.
Qed.

(** A batch that cannot be marshalled (a metric that is not a number) brings
    none of its events to the cloud: its single body is empty.  Either the insert
    fails (the column does not admit NULL) and every upload is handed back to be
    read again, or the empty body is queued and every upload is recorded as
    ingested. *)
Theorem unmarshalable_batch_undelivered json_Marshal b now req ftp c s queued c' s' :
  outbox_wf (sdb s) → engine_faults s → json_Marshal req = None → (0 ≤ b_maxBytes b)%Z →
  ends_ok (length (Events ftp)) (marks ftp) → length (Events ftp) ≤ length (tq_Events req) →
  enqueueTelemetry json_Marshal b now req ftp (c, s) = (queued, (c', s')) →
  (queued = false ∧ sdb s' = sdb s ∧ c' = Requeue (em_mark <$> marks ftp) c) ∨
  (queued = true ∧ c' = c ∧
   (∃ n, ob_body <$> outbox (sdb s') = drop n (ob_body <$> outbox (sdb s)) ++ [""]) ∧
   ∀ p, ledger_stamps (sdb s') !! p =
     match last_stamp p (em_mark <$> marks ftp) with Some st => Some st | None => ledger_stamps (sdb s) !! p end).
Proof.
  intros Hwf Hf Hnone Hmax Hends Hlen Hrun. unfold enqueueTelemetry, splitTelemetry in Hrun.
  assert (Hbody : body_of json_Marshal req = "") by (unfold body_of; by rewrite Hnone).
  assert (Hparts : split json_Marshal (length (tq_Events req)) (Z.quot (b_maxBytes b) partsPerCap) req 0
                   = [mkPart "" 0 (length (tq_Events req))]).
  { destruct (length (tq_Events req)) eqn:Hn; cbn [split]; rewrite Hbody, Hn; [done|].
    rewrite decide_True; [done|]. right. left. change (blen "") with 0%Z. unfold partsPerCap. by apply Z.quot_pos. }
  rewrite Hparts in Hrun. cbn [enqueue_parts pt_start] in Hrun. set (p := mkPart _ _ _) in Hrun.
  assert (Hms : MarksIn ftp 0 (length (tq_Events req)) = em_mark <$> marks ftp).
  { unfold MarksIn. destruct Hends as [_ Hb]. rewrite list_filter_all; [done|]. eapply Forall_impl; [done|].
    simpl. intros. lia. }
  assert (Hno : ¬ over_cap b "") by (unfold over_cap; change (blen "") with 0%Z; lia).
  destruct (enqueue_part b now ftp p (c, s)) as [o [c1 s1]] eqn:Hp. rewrite ?Hp in Hrun.
  apply enqueue_part_spec in Hp as [_ Ho]; [|done|done|done]. simpl in Ho. rewrite Hms in Ho, Hrun.
  destruct o as [[]|]; simpl in Ho.
  - right. destruct Ho as (_ & -> & Hd). simplify_eq. rewrite Hd. split_and!; [done|done| |].
    + eexists. by rewrite enqueue_db_outbox, fmap_app, fmap_drop.
    + intros x. apply enqueue_db_ledger.
  - by destruct Ho.
  - left. destruct Ho as (_ & -> & Hd). by simplify_eq.
Qed.

(** ** Witnesses *)

Definition ex_event (msg : string) : EventItem := mkEvent "8C1F64-FAP-42" "" "mod" "error" "low" msg ∅ msg.

(** A marshaller that keeps the messages only. *)
Definition ex_Marshal (r : TelemetryRequest) : option string :=
  Some (foldr (λ e acc, ev_Message e +:+ acc) "" (tq_Events r)).

Definition ex_batch : FTPBatch :=
  mkBatch [ex_event "aaa"; ex_event "b"; ex_event "c"]
    [mkEventMark (mkMark "/up/1" (mkStamp 1 1)) 1; mkEventMark (mkMark "/up/2" (mkStamp 2 2)) 3].
Definition ex_req : TelemetryRequest := mkTelemetry [] (Events ex_batch) [].
Definition ex_buf : Buffer := mkBuffer "/var/lib/edge.db" 16.
(** The second insert fails. *)
Definition ex_flaky : sql := Sql empty_db (replicate 8 None ++ [Some (ErrDB "disk full")]) 0 4096 0.

Lemma telemetry_marks_settled_witness :
  let '(queued, (c', s')) := enqueueTelemetry ex_Marshal ex_buf 9 ex_req ex_batch (New "/up", ex_flaky) in
  queued = true ∧ requeued c' = [mkMark "/up/2" (mkStamp 2 2)] ∧
  ∃ k kept back, kept ++ back ≡ₚ em_mark <$> marks ex_batch ∧ c' = Requeue back (New "/up") ∧ k ≤ 2.
Proof.
  destruct (enqueueTelemetry ex_Marshal ex_buf 9 ex_req ex_batch (New "/up", ex_flaky)) as [queued [c' s']] eqn:Hrun.
  split; [by vm_compute in Hrun; simplify_eq|]. split; [by vm_compute in Hrun; simplify_eq|].
  destruct (telemetry_marks_settled ex_Marshal ex_buf 9 ex_req ex_batch (New "/up") ex_flaky queued c' s')
    as (k & kept & back & Hp & (Hk & Hc & _) & _); [| | | | |done|exists k, kept, back; split; [exact Hp|split; [exact Hc|]]; exact Hk].
  - repeat split; simpl; done || constructor.
  - repeat constructor.
  - right. done.
  - split; repeat constructor; simpl; lia.
  - done.
Defined.

(** Devices that answer with a script of results. *)
#[local] Instance ex_Acs : Acs (list (option TaskResult)) := {
  RequestAndAwait _ _ x := match x with (s, r :: w) => (r, (s, w)) | (s, []) => (None, x) end;
  cloud_Ack _ _ w := w;
  cloud_SendSnapshot _ _ _ w := w }.
#[local] Instance ex_AcsLaws : AcsLaws (list (option TaskResult)).
Proof. split; intros dev t s [|r w]; simpl; done. Qed.

Definition ex_float (f : spec_float) : string := "5".
Definition ex_worker_sql : sql :=
  Sql (set_devices {["8C1F64-FAP-42" := DeviceRow "10.0.0.9" "Acme" "FAP" "42" "1.0" 0 0]} empty_db) [] 0 4096 0.
Definition ex_command (type : string) : Command :=
  mkCommand "c1" "d1" "8C1F64-FAP-42" type (mkPayload [mkWrite "Device.X.Enable" (ABool true) ""] ∅ false ["Device.X"]).
Definition ex_answer (params : gmap string string) (err : string) : TaskResult :=
  mkResult "c1" TaskSPV params [] 0 err.

Lemma commands_applied_once_witness :
  let '(ids, (s', _)) := handle_polls ex_float ex_float None (λ _, "{}") (λ _, CloudTypes.empty_result) "1m0s" false
    [(1%Z, [ex_command "reboot"; ex_command "reboot"]); (2%Z, [ex_command "reboot"])] (ex_worker_sql, []) in
  ids = ["c1"] ∧ NoDup ids ∧ recorded s' "c1".
Proof.
  destruct (handle_polls _ _ _ _ _ _ _ _ _) as [ids [s' w']] eqn:Hrun.
  destruct (commands_applied_once ex_float ex_float None (λ _, "{}") (λ _, CloudTypes.empty_result) "1m0s" false
    _ ex_worker_sql [] ids s' w' (Forall_nil_2 _) Hrun) as (Hnd & _ & Hrec & _).
  split; [by vm_compute in Hrun; simplify_eq|]. split; [done|]. apply Hrec. right. simpl. by left.
Defined.

Lemma applied_was_verified_witness :
  let '(ack, _) := apply ex_float ex_float None "1m0s" false (ex_command "configure")
    (ex_worker_sql, [Some (ex_answer ∅ ""); Some (ex_answer {["Device.X.Enable" := "1"]} "")]) in
  ack_Status ack = "applied" ∧ ∃ got, ar_Readback (ack_Result ack) !! "Device.X.Enable" = Some (AString got) ∧
    normalizeValue got = "1".
Proof.
  destruct (apply _ _ _ _ _ _ _) as [ack x] eqn:Hrun.
  assert (Hst : ack_Status ack = "applied") by (vm_compute in Hrun; by simplify_eq).
  split; [done|].
  destruct (applied_was_verified ex_float ex_float None "1m0s" false (ex_command "configure") _ _ ack x
    ltac:(by left) Hst Hrun) as (s1 & res & x1 & Hreq & _ & [[Hs _]|(rb & _ & Hrb & Hall)]).
  - cbn [RequestAndAwait ex_Acs] in Hreq. injection Hreq as <- _. discriminate.
  - destruct (Hall "Device.X.Enable" (ABool true)) as (got & Hgot & Hm); [by vm_compute|].
    exists got. split; [rewrite Hrb; unfold ToAnyMap; rewrite lookup_fmap, Hgot; reflexivity|].
    rewrite <- Hm. vm_compute. reflexivity.
Defined.

Lemma rejection_acknowledged_applied_witness :
  ack_Status (apply ex_float ex_float None "1m0s" false (ex_command "reboot")
    (ex_worker_sql, [Some (ex_answer ∅ "9002: internal error")])).1 = "applied".
Proof.
  apply (rejection_acknowledged_applied ex_float ex_float None "1m0s" false (ex_command "reboot") ex_worker_sql
    [Some (ex_answer ∅ "9002: internal error")] (ex_answer ∅ "9002: internal error")
    ((StoreDeviceIP "8C1F64-FAP-42" ex_worker_sql).2, [])); [by left|by vm_compute|done|vm_compute; reflexivity].
Defined.

Lemma unmarshalable_batch_undelivered_witness :
  let '(queued, (c', s')) := enqueueTelemetry (λ _, None) ex_buf 9 ex_req ex_batch (New "/up", ex_flaky) in
  queued = true ∧ ∃ n, ob_body <$> outbox (sdb s') = drop n [] ++ [""].
Proof.
  destruct (enqueueTelemetry (λ _, None) ex_buf 9 ex_req ex_batch (New "/up", ex_flaky)) as [queued [c' s']] eqn:Hrun.
  assert (Hq : queued = true) by (vm_compute in Hrun; by simplify_eq). split; [done|].
  destruct (unmarshalable_batch_undelivered (λ _, None) ex_buf 9 ex_req ex_batch (New "/up") ex_flaky queued c' s')
    as [[Hf _]|(_ & _ & Hb & _)].
  - repeat split; simpl; done || constructor.
  - repeat constructor.
  - done.
  - done.
  - split; repeat constructor; simpl; lia.
  - simpl. lia.
  - exact Hrun.
  - congruence.
  - exact Hb.
Defined.
