(* ===== verification/CommandTable.v ===== *)
(** * Who writes the table of applied commands

    Every component shares one database.  Only [MarkApplied] writes the table
    [applied]; everything else the agent does, on the ACS's side, on the
    collector's and on the worker's, is [quiet]: it leaves that table alone and
    does not make a working connection fail. *)
From S2P Require Import Prelude GoStrings DeviceId GoTime CloudTypes Db Ledger Outbox CwmpTypes CwmpStore Session Soap Server.
From S2P Require Import Rules Collector Acs Metrics Worker.

(** ** Quiet steps of the connection *)

Definition quiet (s s' : sql) : Prop :=
  applied (sdb s') = applied (sdb s) ∧ (healthy s → healthy s').

#[export] Instance quiet_preorder : PreOrder quiet.
Proof. split; [by intros s|]. intros s1 s2 s3 [H1 ?] [H2 ?]. split; [by rewrite H2|auto]. Qed.

(** A computation all of whose runs are quiet, failed or not. *)
Definition quietly {A} (m : DB A) : Prop := ∀ s, quiet s (m s).2.

Definition keeps_applied (f : db → db) : Prop := ∀ d, applied (f d) = applied d.

Create HintDb quiet.

Lemma quietly_ret {A} (a : A) : quietly (mret a).
Proof. by intros s. Qed.
Lemma quietly_throw {A} e : quietly (throw e : DB A).
Proof. by intros s. Qed.

Lemma quietly_bind {A B} (m : DB A) (f : A → DB B) : quietly m → (∀ a, quietly (f a)) → quietly (m ≫= f).
Proof.
  intros Hm Hf s. rewrite SE_bind_unfold. specialize (Hm s). destruct (m s) as [[a|e] s1]; [|done].
  etrans; [exact Hm|apply Hf].
Qed.

Lemma quietly_stmt {A} (f : db → A * db) : (∀ d, applied (f d).2 = applied d) → quietly (stmt f).
Proof.
  intros Hf s. unfold quiet, healthy, stmt. specialize (Hf (sdb s)).
  destruct (faults s) as [|[e|] fs]; simpl.
  - destruct (f (sdb s)). by split.
  - split; [done|]. by intros [_ ?]%Forall_cons.
  - destruct (f (sdb s)). split; [done|]. by intros [_ ?]%Forall_cons.
Qed.

Lemma quietly_query {A} (f : db → A) : quietly (query f).
Proof. by apply quietly_stmt. Qed.
Lemma quietly_exec f : keeps_applied f → quietly (exec f).
Proof. intros Hf. by apply quietly_stmt. Qed.

Lemma quietly_read_rows {A} (rows : list A) : quietly (read_rows rows).
Proof.
  intros s. unfold read_rows. pose proof (quietly_query (λ _, rows) s) as Hq. unfold query in Hq.
  by destruct (stmt _ s) as [[?|[]] ?].
Qed.

Lemma quietly_in_tx {A} (body : DB A) : quietly body → quietly (in_tx body).
Proof.
  intros Hb s. unfold in_tx. assert (Hid : keeps_applied id) by done.
  pose proof (quietly_exec id Hid s) as H1. destruct (exec id s) as [[[]|e] s1]; [|done]. cbn [snd] in H1.
  specialize (Hb s1). destruct (body s1) as [[a|e] s2]; cbn [snd] in *.
  - pose proof (quietly_exec id Hid s2) as H3. destruct (exec id s2) as [[[]|e] s3]; cbn [snd] in *.
    + by rewrite H1, Hb.
    + destruct H1, Hb as [? Hb], H3 as [? H3]. split; [done|]. intros ?. by apply H3, Hb; auto.
  - destruct H1, Hb as [? Hb]. split; [done|]. intros ?. apply Hb; auto.
Qed.

Lemma quietly_recover {A} (m : DB A) h : quietly m → (∀ e, quietly (h e)) → quietly (recover m h).
Proof.
  intros Hm Hh s. unfold recover. specialize (Hm s). destruct (m s) as [[a|e] s1]; [done|].
  etrans; [exact Hm|apply Hh].
Qed.

Lemma quietly_for_each {A} (l : list A) f : (∀ x, quietly (f x)) → quietly (for_each l f).
Proof. intros Hf. induction l; simpl; auto using quietly_ret, quietly_bind. Qed.

#[export] Hint Resolve quietly_ret quietly_throw quietly_bind quietly_query quietly_exec quietly_read_rows
  quietly_in_tx quietly_recover quietly_for_each : quiet.
#[export] Hint Extern 1 (keeps_applied _) => intros ?; reflexivity : quiet.
#[export] Hint Extern 2 (quietly (match ?x with _ => _ end)) => case x; intros : quiet.
#[export] Hint Extern 2 (quietly (if ?x then _ else _)) => destruct x : quiet.


(** The run of a block of statements that the goal computes from [s]. *)
Tactic Notation "quiet_run" constr(s) "as" simple_intropattern(p) ident(Hq) :=
  match goal with
  | |- context [mbind ?f ?m s] =>
      assert (Hq : quietly (m ≫= f)) by auto with quiet; specialize (Hq s); destruct (mbind f m s) as p; cbn [snd] in Hq
  end.

(** ** The buffer *)

Lemma quietly_inChunks n write : (∀ i j, quietly (write i j)) → quietly (inChunks n write).
Proof.
  intros Hw. unfold inChunks. generalize 0 at 1. generalize n at 1.
  intros fuel. induction fuel as [|fuel IH]; intros start; simpl; auto with quiet.
Qed.
#[export] Hint Resolve quietly_inChunks : quiet.

Lemma quietly_MarkFTPIngested now marks : quietly (MarkFTPIngested now marks).
Proof. unfold MarkFTPIngested, upsertMarks. auto 6 with quiet. Qed.
Lemma quietly_ForgetFTPIngested paths : quietly (ForgetFTPIngested paths).
Proof. unfold ForgetFTPIngested. auto 6 with quiet. Qed.

Lemma quietly_reclaimFreePages b : quietly (reclaimFreePages b).
Proof.
  unfold reclaimFreePages. case_decide; [auto with quiet|]. apply quietly_recover; [|auto with quiet].
  assert (Hp : ∀ answer, quietly (pragma answer)) by (intros answer s; apply (quietly_query (λ _, answer s))).
  assert (Hv : quietly incremental_vacuum).
  { intros s. unfold incremental_vacuum. pose proof (quietly_exec id (λ _, eq_refl) s) as Hq.
    by destruct (exec id s) as [[[]|e] s1]. }
  auto with quiet.
Qed.

Lemma quietly_EnqueueWithMarks b now kind body marks : quietly (EnqueueWithMarks b now kind body marks).
Proof.
  unfold EnqueueWithMarks, evictOldest, upsertMarks. case_decide; [auto with quiet|].
  apply quietly_bind; [|auto using quietly_reclaimFreePages with quiet].
  assert (Hd : ∀ last, quietly (stmt (delete_upto last))) by (intros last; by apply quietly_stmt).
  auto 10 with quiet.
Qed.

Lemma quiet_Drain {C} (send : string → string → C → option go_error * C) b s c : quiet s (Drain send b s c).1.2.
Proof.
  unfold Drain.
  quiet_run s as [[batch|e] s1] Hq; [|done]. etrans; [exact Hq|]. clear Hq s.
  assert (Hl : ∀ n s c, quiet s (drain_loop send batch n s c).1.2).
  { induction batch as [|it batch IH]; intros n s c2; simpl; [done|].
    destruct (send _ _ c2) as [[e|] c3]; [done|].
    pose proof (quietly_exec (delete_outbox (ob_id it)) (λ _, eq_refl) s) as Hq.
    destruct (exec _ s) as [[[]|e] s2]; [|done]. etrans; [exact Hq|apply IH]. }
  specialize (Hl 0 s1 c). destruct (drain_loop send batch 0 s1 c) as [[[r n] s2] c2]. cbn [fst snd] in *.
  case_decide; [|done]. etrans; [exact Hl|]. apply quietly_reclaimFreePages.
Qed.

(** *** The CWMP store *)

Lemma quiet_ignore f s : keeps_applied f → quiet s (ignore_err (exec f) s).
Proof. intros Hf. by apply quietly_exec. Qed.

Lemma quiet_UpsertDevice d (s : sql) : quiet s (UpsertDevice d s).
Proof. by apply quiet_ignore. Qed.
Lemma quiet_CacheParam now dev p v (s : sql) : quiet s (CacheParam now dev p v s).
Proof. by apply quiet_ignore. Qed.
Lemma quiet_EmitEvent now dev m ty sev msg (s : sql) : quiet s (EmitEvent now dev m ty sev msg s).
Proof. by apply quiet_ignore. Qed.
Lemma quiet_SaveWritability now dev l (s : sql) : quiet s (SaveWritability now dev l s).
Proof.
  simpl. unfold Buffer_SaveWritability, ignore_err.
  match goal with |- quiet s (?m s).2 => enough (quietly m) by done end. auto 6 with quiet.
Qed.

Lemma quiet_HasWritabilityMap dev (s : sql) : quiet s (HasWritabilityMap dev s).2.
Proof.
  simpl. unfold Buffer_HasWritabilityMap. pose proof (quietly_query (λ x, cwmp_devices x !! dev) s).
  by destruct (query _ s) as [[[]|] ?].
Qed.
Lemma quiet_StoreDeviceIP dev (s : sql) : quiet s (StoreDeviceIP dev s).2.
Proof.
  simpl. unfold Buffer_DeviceIP. pose proof (quietly_query (λ x, cwmp_devices x !! dev) s).
  by destruct (query _ s) as [[[]|] ?].
Qed.

Lemma quiet_GetParams dev paths (s : sql) : quiet s (GetParams dev paths s).2.
Proof.
  simpl. unfold Buffer_GetParams. destruct paths as [|p paths]; [done|].
  by quiet_run s as [[] ?] Hq.
Qed.
Lemma quiet_ListDevices (s : sql) : quiet s (ListDevices s).2.
Proof.
  simpl. unfold Buffer_ListDevices.
  by quiet_run s as [[] ?] Hq.
Qed.
Lemma quiet_DrainEvents (s : sql) : quiet s (DrainEvents s).2.
Proof.
  simpl. unfold Buffer_DrainEvents.
  quiet_run s as [[batch|e] s1] Hq; [|done]. etrans; [exact Hq|]. clear Hq s. revert s1.
  induction batch as [|r batch IH]; intros s; simpl; [done|].
  pose proof (quietly_exec (set_uploaded (er_id r)) (λ _, eq_refl) s) as Hq.
  destruct (exec _ s) as [[[]|e] s1]; cbn [snd] in Hq; (etrans; [exact Hq|]); [|apply IH].
  specialize (IH s1). by destruct (mark_uploaded batch s1).
Qed.

(** ** The ACS *)

Lemma quiet_foldl {A B} (g : B → sql) (f : B → A → B) (l : list A) :
  (∀ b a, quiet (g b) (g (f b a))) → ∀ b, quiet (g b) (g (foldl f b l)).
Proof.
  intros Hf. induction l as [|a l IH]; intros b; simpl; [done|]. etrans; [apply Hf|apply IH].
Qed.

Lemma quiet_onInform now inf s (store : sql) : quiet store (onInform now inf (s, store)).2.2.
Proof.
  unfold onInform. set (dev := CanonicalID _ _ _). cbv zeta.
  match goal with |- context [HasWritabilityMap dev ?st] => pose proof (quiet_HasWritabilityMap dev st) as Hh;
    assert (Hs : quiet store st) end.
  { etrans; [apply quiet_UpsertDevice|]. apply (quiet_foldl (λ st, st)). intros st pv. apply quiet_CacheParam. }
  destruct (HasWritabilityMap dev _) as [has st]. cbn [snd] in *. by etrans.
Qed.

Lemma quiet_onGPV now l s (store : sql) : quiet store (onGPV now l (s, store)).2.2.
Proof.
  unfold onGPV.
  match goal with |- context [foldl ?f ?b l] => pose proof (quiet_foldl (λ a, a.2) f l
    (λ a pv, quiet_CacheParam now (s_DeviceID s) (pv_Name pv) (v_Text (pv_Value pv)) a.2) b) as Hq end.
  destruct (foldl _ _ l) as [params st]. cbn [snd] in *. by destruct (finishInflight _ _).
Qed.

Lemma quiet_Handle now env s (store : sql) : quiet store (Handle now env (s, store)).2.2.
Proof.
  unfold Handle. cbv zeta. generalize (set_MsgID (e_ID env) s). clear s. intros s.
  destruct (b_Inform _); [apply quiet_onInform|]. destruct (b_GetRPCMethods _); [done|].
  destruct (b_AutonomousTransferComplete _); [apply quiet_EmitEvent|]. destruct (b_TransferComplete _); [done|].
  destruct (b_GetParameterValuesResponse _); [apply quiet_onGPV|].
  destruct (b_SetParameterValuesResponse _); [unfold onSPV; by destruct (finishInflight _ _)|].
  destruct (b_GetParameterNamesResponse _);
    [unfold onGPN; destruct (finishInflight _ _); apply quiet_SaveWritability|].
  destruct (b_RebootResponse _); [by destruct (finishInflight _ _)|].
  destruct (b_Fault _); [|by destruct (nextTask _)].
  unfold onFault. destruct (inflight _); [|done]. by destruct (finishInflight _ _).
Qed.

Lemma quiet_request now env s (store : sql) : quiet store (request now env (s, store)).2.2.
Proof. unfold request. destruct env; [apply quiet_Handle|]. by destruct (nextTask _). Qed.

Lemma quiet_deviceSessionLocked id srv (store : sql) : quiet store (deviceSessionLocked id (srv, store)).2.
Proof.
  unfold deviceSessionLocked. destruct (sessions srv !! id); [done|].
  pose proof (quiet_StoreDeviceIP id store). by destruct (StoreDeviceIP id store).
Qed.

Lemma quiet_routeSession host cookie env srv (store : sql) :
  quiet store (routeSession host cookie env (srv, store)).2.2.
Proof.
  unfold routeSession. destruct (env ≫= _); [apply quiet_deviceSessionLocked|]. cbv zeta.
  repeat case_match; done || (simplify_eq; done).
Qed.

Lemma quiet_serve now host cookie env srv (store : sql) : quiet store (serve now host cookie env (srv, store)).2.2.
Proof.
  unfold serve. pose proof (quiet_routeSession host cookie env srv store) as Hr.
  destruct (routeSession _ _ _ _) as [key [srv1 store1]]. cbn [snd] in Hr. destruct (sessions srv1 !! key) as [s|]; [|done].
  match goal with |- context [request now env (?s, store1)] => pose proof (quiet_request now env s store1) as Hq;
    destruct (request now env (s, store1)) as [resp [s' store2]] end.
  cbn [fst snd] in *. by etrans.
Qed.

Lemma quiet_ServeHTTP Decode now rq srv (store : sql) : quiet store (ServeHTTP Decode now rq (srv, store)).2.2.
Proof.
  unfold ServeHTTP. destruct (rq_body rq) as [body|]; [|done]. case_decide.
  - pose proof (quiet_serve now (rq_host rq) (rq_cookie rq) None srv store) as Hq. by destruct (serve _ _ _ _ _) as [[[] ?] ?].
  - destruct (Decode body) as [env|]; [|done].
    pose proof (quiet_serve now (rq_host rq) (rq_cookie rq) (Some env) srv store) as Hq. by destruct (serve _ _ _ _ _) as [[[] ?] ?].
Qed.

Lemma quiet_Refresh id paths srv (store : sql) : quiet store (Refresh id paths (srv, store)).2.
Proof.
  unfold Refresh. destruct paths; [done|]. cbn [fst snd]. pose proof (quiet_StoreDeviceIP id store) as Hq.
  destruct (StoreDeviceIP id store) as [ip store1]. cbn [snd] in Hq. case_decide; [done|]. etrans; [exact Hq|].
  unfold Enqueue, on_session. pose proof (quiet_deviceSessionLocked id srv store1) as Hd.
  destruct (deviceSessionLocked id (srv, store1)) as [srv2 store2]. by destruct (sessions srv2 !! id).
Qed.

(** ** The collector *)

Lemma quiet_inventory_item d (store : sql) : quiet store (inventory_item d store).2.
Proof.
  unfold inventory_item. pose proof (quiet_GetParams (d_DeviceID d) inventoryStatusPaths store).
  by destruct (GetParams _ _ store).
Qed.

Lemma quiet_Inventory (store : sql) : quiet store (Inventory store).2.
Proof.
  unfold Inventory. pose proof (quiet_ListDevices store) as Hl. destruct (ListDevices store) as [records st]. cbn [snd] in Hl.
  etrans; [exact Hl|]. clear Hl. revert st. induction records as [|d records IH]; intros st; simpl; [done|].
  pose proof (quiet_inventory_item d st) as Hi. destruct (inventory_item d st) as [item st1]. cbn [snd] in Hi.
  specialize (IH st1). destruct (inventory_loop records st1). by etrans.
Qed.

Lemma quiet_CollectTier ParseFloat SprintFloat overflow tier now srv (store : sql) :
  quiet store (CollectTier ParseFloat SprintFloat overflow tier now (srv, store)).2.2.
Proof.
  unfold CollectTier. pose proof (quiet_Inventory store) as Hi. destruct (Inventory store) as [devices st]. cbn [snd] in Hi.
  etrans; [exact Hi|]. clear Hi. generalize (RFC3339 now). intros ts. revert srv st.
  induction devices as [|d devices IH]; intros srv st; cbn [collect_loop]; [done|].
  assert (Hd : quiet st (collect_device ParseFloat SprintFloat overflow tier ts d (srv, st)).2.2).
  { unfold collect_device. pose proof (quiet_GetParams (it_CWMPID d) (readPaths tier) st) as Hg.
    destruct (GetParams _ _ st) as [params st1]. cbn [fst snd] in *. etrans; [exact Hg|]. apply quiet_Refresh. }
  destruct (collect_device _ _ _ _ _ _ _) as [[samples alarms] [srv1 st1]]. cbn [fst snd] in Hd.
  specialize (IH srv1 st1). destruct (collect_loop _ _ _ _ _ _ _) as [[samples' alarms'] x]. by etrans.
Qed.

Lemma quiet_ingest engine now path e c (store : sql) : quiet store (ingest engine now path e (c, store)).2.
Proof.
  unfold ingest. destruct (skip_lookup _); [done|].
  assert (Hr : quiet store (resolveDeviceID path store).2).
  { unfold resolveDeviceID. destruct (ouiSerialFromName path) as [oui serial]. case_decide; [done|].
    pose proof (quiet_ListDevices store). by destruct (ListDevices store). }
  destruct (resolveDeviceID path store) as [o st]. cbn [snd] in Hr. by repeat case_match.
Qed.

Lemma quiet_scanFTP engine now entries c (store : sql) : quiet store (scanFTP engine now entries (c, store)).2.
Proof.
  unfold scanFTP. destruct entries as [entries|]; [|done]. unfold scan_begin. set (check := bool_decide _).
  set (c0 := set_scans _ _). pose proof (quiet_foldl snd (λ x e, scan_entry engine now check e x) entries) as Hf.
  specialize (Hf ltac:(intros [c1 s1] e; unfold scan_entry; repeat case_match; try done; apply quiet_ingest) (c0, store)).
  destruct (foldl _ _ entries) as [c1 s1]. cbn [snd] in Hf. etrans; [exact Hf|].
  unfold scan_finish, persistScan. destruct (with_ledger _); [|done].
  match goal with |- context [match gone_paths ?p ?m with _ => _ end] => set (gone := gone_paths p m) end.
  set (c2 := set_parseFails _ _).
  assert (Hg : quiet s1 (match gone with [] => (c2, s1) | _ => let '(_, store) := led_Forget gone s1 in
    (set_queue (events c2) (keep_eventMarks (present_paths (c_ftpDir c1) entries) (eventMarks c2))
      (set_pendingMarks (keepPresent (present_paths (c_ftpDir c1) entries) (pendingMarks c2)) c2), store) end).2).
  { pose proof (quietly_ForgetFTPIngested gone s1) as Hq. destruct gone; [done|]. simpl. by destruct (ForgetFTPIngested _ s1). }
  cbv zeta. destruct (match gone with [] => _ | _ => _ end) as [c3 s3]. cbn [snd] in Hg. etrans; [exact Hg|].
  destruct (pendingMarks c3) as [|m ms]; [done|]. pose proof (quietly_MarkFTPIngested now (m :: ms) s3) as Hm. simpl.
  by destruct (MarkFTPIngested _ _ s3) as [[]].
Qed.

(** ** The worker *)

Lemma quiet_enqueueTelemetry json_Marshal b now req ftp c (s : sql) :
  quiet s (enqueueTelemetry json_Marshal b now req ftp (c, s)).2.2.
Proof.
  unfold enqueueTelemetry. generalize (length (tq_Events req)) as n. intros n.
  generalize false as q. induction (splitTelemetry _ _ _) as [|p parts IH] in c, s |- *; intros q; cbn [enqueue_parts]; [done|].
  assert (Hp : quiet s (enqueue_part b now ftp p (c, s)).2.2).
  { unfold enqueue_part. pose proof (quietly_EnqueueWithMarks b now "telemetry" (pt_body p) (MarksIn ftp (pt_start p) (pt_end p)) s) as He.
    destruct (EnqueueWithMarks _ _ _ _ _ s) as [[[]|e] s1]; cbn [snd] in He; [done|]. destruct e; try done.
    destruct (MarksIn ftp _ _) as [|m ms]; [done|]. etrans; [exact He|].
    pose proof (quietly_MarkFTPIngested now (m :: ms) s1) as Hm. by destruct (MarkFTPIngested _ _ s1) as [[]]. }
  destruct (enqueue_part _ _ _ _ _) as [[q1|] [c1 s1]]; cbn [snd] in Hp; [|done]. etrans; [exact Hp|apply IH].
Qed.

Lemma quiet_drainCWMPEvents (s : sql) : quiet s (drainCWMPEvents s).2.
Proof. unfold drainCWMPEvents. pose proof (quiet_DrainEvents s). by destruct (DrainEvents s). Qed.

Section Cloud.
Context {W : Type} (SendTelemetryRaw : string → W → option go_error * W).

Lemma quiet_flushOutbox b (s : sql) w : quiet s (flushOutbox SendTelemetryRaw b s w).1.
Proof.
  unfold flushOutbox. pose proof (quiet_Drain (flush_send SendTelemetryRaw) b s w).
  by destruct (Drain _ b s w) as [[]].
Qed.

Lemma quiet_pushTier json_Marshal b now metrics alarms c (s : sql) w :
  quiet s (pushTier json_Marshal SendTelemetryRaw b now metrics alarms (c, s) w).1.2.
Proof.
  unfold pushTier. destruct (DrainFTP c) as [ftp c1]. pose proof (quiet_drainCWMPEvents s) as Hd.
  destruct (drainCWMPEvents s) as [cwmp s1]. cbn [snd] in Hd. etrans; [exact Hd|]. cbv zeta.
  set (req := mkTelemetry _ _ _). pose proof (quiet_enqueueTelemetry json_Marshal b now req ftp c1 s1) as He.
  assert (Hq : quiet s1 (let '(queued, (c, s)) := enqueueTelemetry json_Marshal b now req ftp (c1, s1) in
    if queued then let '(s, w) := flushOutbox SendTelemetryRaw b s w in ((c, s), w) else ((c, s), w)).1.2).
  { destruct (enqueueTelemetry _ _ _ _ _ _) as [queued [c2 s2]]. cbn [snd] in He. destruct queued; [|done].
    pose proof (quiet_flushOutbox b s2 w). destruct (flushOutbox _ b s2 w). by etrans. }
  by destruct (tq_Metrics req), (tq_Events req), (tq_Alarms req).
Qed.
End Cloud.

Section Acs.
Context {W : Type} `{Acs W} `{!AcsLaws W}.

Lemma quiet_RequestAndAwait dev t s w : quiet s (RequestAndAwait dev t (s, w)).2.1.
Proof. split; [apply Acs_applied|apply Acs_healthy]. Qed.

Lemma quiet_Snapshot id s w : quiet s (Snapshot id (s, w)).2.1.
Proof.
  unfold Snapshot. pose proof (quiet_StoreDeviceIP id s) as Hd. destruct (StoreDeviceIP id s) as [ip s1]. cbn [snd] in Hd.
  case_decide; [done|]. etrans; [exact Hd|]. clear Hd.
  match goal with |- context [RequestAndAwait id ?t (s1, w)] => pose proof (quiet_RequestAndAwait id t s1 w) as Hr end.
  destruct (RequestAndAwait id _ (s1, w)) as [o [s2 w2]]. cbn [fst snd] in Hr. cbv zeta.
  pose proof (quiet_GetParams id SnapshotPaths s2) as Hg. destruct (GetParams id SnapshotPaths s2) as [m s3]. cbn [snd] in Hg.
  destruct o as [res|]; [|by etrans]. case_decide; [by etrans|done].
Qed.

Lemma quiet_pushSnapshots s w : quiet s (pushSnapshots (s, w)).1.
Proof.
  unfold pushSnapshots. cbn [fst snd]. pose proof (quiet_Inventory s) as Hi. destruct (Inventory s) as [devices s1].
  cbn [snd] in Hi. etrans; [exact Hi|]. apply (quiet_foldl fst (λ x d, push_snapshot d x)).
  intros [s2 w2] d. unfold push_snapshot. pose proof (quiet_Snapshot (it_CWMPID d) s2 w2) as Hp.
  destruct (Snapshot _ (s2, w2)) as [params [s3 w3]]. by case_decide.
Qed.
End Acs.
