(* ===== verification/WorkerRun.v ===== *)
(** * The running agent (goagent/internal/worker/worker.go, Run; goagent/cmd/agent/main.go)

    The worker's loop is a sequence of actions: what it does when it starts, then
    what each ticker that fires asks for.  Between two actions the other
    goroutines take turns: the ACS serves devices and the collector scans the
    watch directory. *)
From S2P Require Import Prelude GoStrings GoTime CloudTypes Db Ledger Outbox CwmpTypes CwmpStore Session Soap Server.
From S2P Require Import Rules Collector Acs Client Config Manifest Metrics Worker CommandTable.

(** ** The cloud as the worker sees it

    A call of cloud.Client and its error.  The ACS the worker shares with the
    devices is part of the same world. *)

Class Cloud (W : Type) := {
  cloud_Register : RegisterRequest → W → option client_error * W;
  cloud_Heartbeat : list InventoryItem → W → option client_error * W;
  cloud_Poll : W → result client_error (list Command) * W;
  cloud_SendTelemetryRaw : string → W → option go_error * W;
  acs : W → Server;
  set_acs : Server → W → W }.

(** ** The worker's own state *)

Definition version : string := "0.1.0".

(** What the worker holds: its flag, and the collector, the connection and the
    world it shares. *)
Record worker (W : Type) := mkWorker {
  registered : bool;
  col : Collector;
  buf : sql;
  world : W }.
Arguments mkWorker {W}. Arguments registered {W}. Arguments col {W}. Arguments buf {W}. Arguments world {W}.

(** What an observer of the cloud's side sees of an action: the answer to a
    registration, a heartbeat with the devices it lists, the commands of a poll
    with those that were applied. *)
Inductive report :=
| Registration (ok : bool)
| Beat (devices : list InventoryItem)
| Commands (polled applied : list string).

(** What the select of [Run] takes. *)
Inductive ready := Done | PollT | HbT | T1 | T2 | T3 | SnapT.

Inductive action := ARegister | AHeartbeat | ATier (tier : Z) | ASnapshots | ACommands | AFlush.

#[export] Instance ready_eq_dec : EqDecision ready.
Proof. solve_decision. Defined.
#[export] Instance action_eq_dec : EqDecision action.
Proof. solve_decision. Defined.

(** The other goroutines' turns: a poll of the watch directory, a request of a
    device. *)
Inductive other :=
| Scan (now : Z) (entries : option (list entry))
| Serve (now : Z) (rq : Server.http_request).

Section Run.
Context {W : Type} `{Acs W} `{Cloud W}.
(** encoding/json, encoding/xml and strconv; what a float64 beyond the range of
    an int becomes. *)
Variable json_Marshal : TelemetryRequest → option string.
Variable marshal_result : AckResult → string.
Variable unmarshal_result : string → AckResult.
Variable DecodeEnvelope : string → option Envelope.
Variables (ParseFloat : string → option spec_float) (SprintFloat FormatFloat : spec_float → string).
Variable int_overflow : spec_float → Z.
(** [%s] of a duration. *)
Variable Duration_String : Z → string.
(** What [main] hands to the worker. *)
Variables (cfg : Config) (engine : Engine) (manifest : option Manifest) (b : Buffer).

Definition register_meta : gmap string any := list_to_map [
  ("edge_id", AString (en_EdgeID (cfg_Enrollment cfg)));
  ("tenant_id", AString (en_TenantID (cfg_Enrollment cfg)));
  ("cwmp_listen", AString (Listen (CWMP cfg)));
  ("ftp_watch_dir", AString (FTPWatchDir cfg));
  ("buffer_db", AString (BufferDB cfg));
  ("agent_runtime", AString "docker-or-systemd")].

Definition register (x : worker W) : list report * worker W :=
  match cloud_Register (mkRegister version register_meta) (world x) with
  | (Some _, w) => ([Registration false], mkWorker (registered x) (col x) (buf x) w)
  | (None, w) => ([Registration true], mkWorker true (col x) (buf x) w)
  end.

Definition heartbeat (x : worker W) : list report * worker W :=
  let '(tr, x) := if registered x then ([], x) else register x in
  let '(devices, s) := Inventory (buf x) in (* returns no error *)
  let '(_, w) := cloud_Heartbeat devices (world x) in (* an error is logged *)
  (tr ++ [Beat devices], mkWorker (registered x) (col x) s w).

(** [pushTier]: collect, then queue and flush ([Worker.pushTier]). *)
Definition push (tier now : Z) (x : worker W) : worker W :=
  let '((metrics, alarms), (srv, s)) :=
    CollectTier ParseFloat SprintFloat int_overflow tier now (acs (world x), buf x) in
  let '((c, s), w) :=
    pushTier json_Marshal cloud_SendTelemetryRaw b now metrics alarms (col x, s) (set_acs srv (world x)) in
  mkWorker (registered x) c s w.

(** [handleCommands]; [cancelled]: the context ends while a write settles. *)
Definition handleCommands (now : Z) (cancelled : bool) (x : worker W) : list report * worker W :=
  match cloud_Poll (world x) with
  | (Err _, w) => ([], mkWorker (registered x) (col x) (buf x) w)
  | (Ok cmds, w) =>
      let '(ids, (s, w)) := handle_commands FormatFloat SprintFloat manifest marshal_result unmarshal_result
        (Duration_String (CommandVerifyTimeout cfg)) cancelled now cmds (buf x, w) in
      ([Commands (cmd_ID <$> cmds) ids], mkWorker (registered x) (col x) s w)
  end.

Definition act (now : Z) (cancelled : bool) (a : action) (x : worker W) : list report * worker W :=
  match a with
  | ARegister => register x
  | AHeartbeat => heartbeat x
  | ATier tier => ([], push tier now x)
  | ASnapshots => let '(s, w) := pushSnapshots (buf x, world x) in ([], mkWorker (registered x) (col x) s w)
  | ACommands => handleCommands now cancelled x
  | AFlush => let '(s, w) := flushOutbox cloud_SendTelemetryRaw b (buf x) (world x) in
              ([], mkWorker (registered x) (col x) s w)
  end.

Definition startup : list action := [ARegister; AHeartbeat; ATier 1; ASnapshots].

Definition on_ready (r : ready) : list action :=
  match r with
  | Done => []
  | PollT => [ACommands; AFlush]
  | HbT => [AHeartbeat]
  | T1 => [ATier 1]
  | T2 => [ATier 2]
  | T3 => [ATier 3]
  | SnapT => [ASnapshots]
  end.

(** Until the context is done. *)
Fixpoint until_done (picks : list ready) : list ready :=
  match picks with
  | [] => []
  | Done :: _ => []
  | r :: rest => r :: until_done rest
  end.

(** [WatchFTP] scans only when a directory is configured. *)
Definition interleave (o : other) (x : worker W) : worker W :=
  match o with
  | Scan now entries =>
      if decide (c_ftpDir (col x) = "") then x
      else let '(c, s) := scanFTP engine now entries (col x, buf x) in mkWorker (registered x) c s (world x)
  | Serve now rq =>
      let '(_, (srv, s)) := ServeHTTP DecodeEnvelope now rq (acs (world x), buf x) in
      mkWorker (registered x) (col x) s (set_acs srv (world x))
  end.

(** What surrounds the [i]-th action: the turns the others take before it, its
    time, and whether the context ends during it. *)
Variable others : nat → list other.
Variable clock : nat → Z.
Variable cancel : nat → bool.

Fixpoint run_actions (i : nat) (acts : list action) (x : worker W) : list report * worker W :=
  match acts with
  | [] => ([], x)
  | a :: rest =>
      let '(tr, x) := act (clock i) (cancel i) a (foldl (λ x o, interleave o x) x (others i)) in
      let '(tr', x) := run_actions (S i) rest x in
      (tr ++ tr', x)
  end.

(** [Run], with the choices of its select. *)
Definition Run (picks : list ready) (x : worker W) : list report * worker W :=
  run_actions 0 (startup ++ (until_done picks ≫= on_ready)) x.

(** ** Lemmas *)

(** What the cloud saw: the answers to the registrations, the heartbeats, the
    commands polled and the commands applied. *)
Definition answers (tr : list report) : list bool :=
  omap (λ r, match r with Registration ok => Some ok | _ => None end) tr.
Definition beats (tr : list report) : list (list InventoryItem) :=
  omap (λ r, match r with Beat devices => Some devices | _ => None end) tr.
Definition polled (tr : list report) : list string :=
  tr ≫= λ r, match r with Commands p _ => p | _ => [] end.
Definition ran (tr : list report) : list string :=
  tr ≫= λ r, match r with Commands _ a => a | _ => [] end.

Lemma answers_app tr tr' : answers (tr ++ tr') = answers tr ++ answers tr'.
Proof. apply omap_app. Qed.
Lemma beats_app tr tr' : beats (tr ++ tr') = beats tr ++ beats tr'.
Proof. apply omap_app. Qed.
Lemma polled_app tr tr' : polled (tr ++ tr') = polled tr ++ polled tr'.
Proof. apply bind_app. Qed.
Lemma ran_app tr tr' : ran (tr ++ tr') = ran tr ++ ran tr'.
Proof. apply bind_app. Qed.

(** *** Registration *)

Lemma interleave_registered o x : registered (interleave o x) = registered x.
Proof.
  destruct o as [now entries|now rq]; cbn [interleave]; [case_decide; [done|]|].
  - by destruct (scanFTP engine _ _ _).
  - by destruct (ServeHTTP DecodeEnvelope _ _ _) as [? []].
Qed.

Lemma others_registered l x : registered (foldl (λ x o, interleave o x) x l) = registered x.
Proof. revert x. induction l as [|o l IH]; intros x; simpl; [done|]. by rewrite IH, interleave_registered. Qed.

Lemma register_answers x : ∃ ok, answers (register x).1 = [ok] ∧ beats (register x).1 = [] ∧
  registered (register x).2 = (ok || registered x).
Proof. unfold register. destruct (cloud_Register _ _) as [[e|] w]; [by exists false|by exists true]. Qed.

Lemma heartbeat_answers x : ∃ devices, beats (heartbeat x).1 = [devices] ∧
  if registered x then answers (heartbeat x).1 = [] ∧ registered (heartbeat x).2 = true
  else ∃ ok, answers (heartbeat x).1 = [ok] ∧ registered (heartbeat x).2 = ok.
Proof.
  unfold heartbeat. destruct (registered x) eqn:Hx.
  - destruct (Inventory _) as [devices s]. destruct (cloud_Heartbeat _ _). by exists devices.
  - destruct (register_answers x) as (ok & Ha & Hb & Hr). destruct (register x) as [tr x1]. cbn [fst snd] in *.
    destruct (Inventory _) as [devices s]. destruct (cloud_Heartbeat _ _). exists devices. cbn [fst snd registered].
    rewrite answers_app, beats_app, Ha, Hb. split; [done|]. exists ok. split; [done|]. by rewrite Hr, Hx, orb_false_r.
Qed.

(** The other actions leave the flag alone and are silent about it. *)
Lemma act_elsewhere now cancelled a x : a ≠ ARegister → a ≠ AHeartbeat →
  answers (act now cancelled a x).1 = [] ∧ beats (act now cancelled a x).1 = [] ∧
  registered (act now cancelled a x).2 = registered x.
Proof.
  intros H1 H2. destruct a; try done; cbn [act].
  - unfold push. by destruct (CollectTier ParseFloat SprintFloat int_overflow _ _ _) as [[] []], (pushTier json_Marshal _ b _ _ _ _ _) as [[] ?].
  - by destruct (pushSnapshots _).
  - unfold handleCommands. destruct (cloud_Poll _) as [[] ?]; [|done]. by destruct (handle_commands FormatFloat SprintFloat manifest marshal_result unmarshal_result _ _ _ _ _) as [? []].
  - by destruct (flushOutbox _ b _ _).
Qed.

(** After [Run]'s first registration only heartbeats register, and only until
    the cloud accepts. *)
Definition settling (hb : nat) (before : bool) (tr : list report) (after : bool) : Prop :=
  length (beats tr) = hb ∧
  if before then answers tr = [] ∧ after = true
  else ∃ n, answers tr = replicate n false ++ (if after then [true] else []) ∧
    if after then n < hb else n = hb.

Lemma settling_app h1 r1 t1 r2 h2 t2 r3 :
  settling h1 r1 t1 r2 → settling h2 r2 t2 r3 → settling (h1 + h2) r1 (t1 ++ t2) r3.
Proof.
  intros [Hb1 H1] [Hb2 H2]. unfold settling. rewrite beats_app, answers_app, length_app. split; [lia|].
  destruct r1; [destruct H1 as [-> ->]; done|]. destruct H1 as (n & -> & Hn). destruct r2.
  - destruct H2 as [-> ->]. exists n. rewrite app_nil_r. split; [done|lia].
  - destruct H2 as (k & -> & Hk). exists (n + k). rewrite app_nil_r, app_assoc, <- replicate_add. split; [done|].
    destruct r3; lia.
Qed.

Definition heartbeats (acts : list action) : nat := length (filter (λ a, a = AHeartbeat) acts).

Lemma heartbeats_app l k : heartbeats (l ++ k) = heartbeats l + heartbeats k.
Proof. unfold heartbeats. by rewrite filter_app, length_app. Qed.

Lemma act_settling now cancelled a x : a ≠ ARegister →
  settling (heartbeats [a]) (registered x) (act now cancelled a x).1 (registered (act now cancelled a x).2).
Proof.
  intros Ha. destruct (decide (a = AHeartbeat)) as [->|Hne].
  - simpl. destruct (heartbeat_answers x) as (devices & Hb & Hr). unfold settling. rewrite Hb. split; [done|].
    destruct (registered x); [done|]. destruct Hr as (ok & -> & ->). destruct ok; [exists 0; split; [done|unfold heartbeats; simpl; lia]|by exists 1].
  - destruct (act_elsewhere now cancelled a x Ha Hne) as (H1 & H2 & H3). unfold settling. rewrite H1, H2, H3.
    assert (heartbeats [a] = 0) as -> by (by destruct a). split; [done|]. destruct (registered x); [done|]. by exists 0.
Qed.

Lemma run_settling acts : ∀ i x tr x', ARegister ∉ acts → run_actions i acts x = (tr, x') →
  settling (heartbeats acts) (registered x) tr (registered x').
Proof.
  induction acts as [|a acts IH]; intros i x tr x' Hn Hrun; cbn [run_actions] in Hrun.
  { simplify_eq. split; [done|]. destruct (registered x'); [done|]. by exists 0. }
  apply not_elem_of_cons in Hn as [Ha Hn]. rewrite <- (others_registered (others i) x).
  destruct (act _ _ a _) as [tr1 x1] eqn:Hact. destruct (run_actions (S i) acts x1) as [tr2 x2] eqn:Hr. simplify_eq.
  change (a :: acts) with ([a] ++ acts). rewrite heartbeats_app. eapply settling_app; [|by eapply IH].
  pose proof (act_settling (clock i) (cancel i) a (foldl (λ x o, interleave o x) x (others i))) as Hs.
  rewrite Hact in Hs. apply Hs. congruence.
Qed.

(** *** Commands *)

Context `{!AcsLaws W}.

Lemma quiet_interleave o x : quiet (buf x) (buf (interleave o x)).
Proof.
  destruct o as [now entries|now rq]; cbn [interleave]; [case_decide; [done|]|].
  - pose proof (quiet_scanFTP engine now entries (col x) (buf x)). by destruct (scanFTP engine _ _ _).
  - pose proof (quiet_ServeHTTP DecodeEnvelope now rq (acs (world x)) (buf x)). by destruct (ServeHTTP DecodeEnvelope _ _ _) as [? []].
Qed.

Lemma quiet_others l x : quiet (buf x) (buf (foldl (λ x o, interleave o x) x l)).
Proof. apply (quiet_foldl buf (λ x o, interleave o x)). intros y o. apply quiet_interleave. Qed.

Lemma quiet_push tier now x : quiet (buf x) (buf (push tier now x)).
Proof.
  unfold push. pose proof (quiet_CollectTier ParseFloat SprintFloat int_overflow tier now (acs (world x)) (buf x)) as Hc.
  destruct (CollectTier ParseFloat SprintFloat int_overflow _ _ _) as [[metrics alarms] [srv s]]. cbn [snd] in Hc. etrans; [exact Hc|].
  pose proof (quiet_pushTier cloud_SendTelemetryRaw json_Marshal b now metrics alarms (col x) s (set_acs srv (world x))) as Hp.
  by destruct (pushTier json_Marshal _ b _ _ _ _ _) as [[] ?].
Qed.

Lemma quiet_heartbeat x : quiet (buf x) (buf (heartbeat x).2) ∧ polled (heartbeat x).1 = [] ∧ ran (heartbeat x).1 = [].
Proof.
  assert (Hr : buf (register x).2 = buf x ∧ polled (register x).1 = [] ∧ ran (register x).1 = []).
  { unfold register. by destruct (cloud_Register _ _) as [[] ?]. }
  unfold heartbeat. destruct (registered x) eqn:Hx; [|destruct (register x) as [tr x1]; destruct Hr as (<- & Hp & Hn)].
  - pose proof (quiet_Inventory (buf x)). destruct (Inventory _) as [devices s]. by destruct (cloud_Heartbeat _ _).
  - cbn [fst snd] in *. pose proof (quiet_Inventory (buf x1)). destruct (Inventory _) as [devices s].
    destruct (cloud_Heartbeat _ _). cbn [fst snd buf]. by rewrite polled_app, ran_app, Hp, Hn.
Qed.

Lemma ran_once_quiet s s' : healthy s → quiet s s' → ran_once s [] [] s'.
Proof.
  intros Hs [Ha Hh]. unfold ran_once, recorded. rewrite Ha. split_and!; [auto|constructor|set_solver|done|set_solver].
Qed.

Lemma act_ran_once now cancelled a x : healthy (buf x) →
  ran_once (buf x) (polled (act now cancelled a x).1) (ran (act now cancelled a x).1) (buf (act now cancelled a x).2).
Proof.
  intros Hs. destruct a; cbn [act].
  - unfold register. by destruct (cloud_Register _ _) as [[] ?]; apply ran_once_nil.
  - destruct (quiet_heartbeat x) as (Hq & -> & ->). by apply ran_once_quiet.
  - by apply ran_once_quiet, quiet_push.
  - pose proof (quiet_pushSnapshots (buf x) (world x)). destruct (pushSnapshots _). by apply ran_once_quiet.
  - unfold handleCommands. destruct (cloud_Poll _) as [[cmds|] w]; [|by apply ran_once_nil].
    destruct (handle_commands FormatFloat SprintFloat manifest marshal_result unmarshal_result _ _ _ _ _) as [ids [s w1]] eqn:Hc. apply ran_once_commands in Hc; [|done].
    simpl. by rewrite !app_nil_r.
  - pose proof (quiet_flushOutbox cloud_SendTelemetryRaw b (buf x) (world x)). destruct (flushOutbox _ b _ _).
    by apply ran_once_quiet.
Qed.

Lemma run_ran_once acts : ∀ i x tr x', healthy (buf x) → run_actions i acts x = (tr, x') →
  ran_once (buf x) (polled tr) (ran tr) (buf x').
Proof.
  induction acts as [|a acts IH]; intros i x tr x' Hs Hrun; cbn [run_actions] in Hrun.
  { simplify_eq. by apply ran_once_nil. }
  pose proof (quiet_others (others i) x) as Hq. set (y := foldl _ x (others i)) in *.
  pose proof (act_ran_once (clock i) (cancel i) a y (proj2 Hq Hs)) as Ha.
  destruct (act (clock i) (cancel i) a y) as [tr1 x1]. destruct (run_actions (S i) acts x1) as [tr2 x2] eqn:Hr. simplify_eq.
  cbn [fst snd] in Ha. rewrite polled_app, ran_app. apply IH in Hr; [|by destruct Ha].
  apply (ran_once_app _ [] [] (buf y)); [by apply ran_once_quiet|]. by eapply ran_once_app.
Qed.
End Run.

(** ** Properties *)

(** The worker registers until the cloud accepts, and not once more: over a
    whole run, whatever its select takes and whatever the other goroutines do,
    the answers to its registrations are refusals followed by at most one
    acceptance, which sets the flag for good; every heartbeat tick sends a
    heartbeat, and as long as no registration was accepted each of them tried
    again. *)
Theorem registers_until_accepted {W} `{Acs W} `{Cloud W} json_Marshal marshal_result unmarshal_result DecodeEnvelope
    ParseFloat SprintFloat FormatFloat int_overflow Duration_String cfg engine manifest b others clock cancel
    picks (x x' : worker W) tr :
  registered x = false →
  Run json_Marshal marshal_result unmarshal_result DecodeEnvelope ParseFloat SprintFloat FormatFloat int_overflow
    Duration_String cfg engine manifest b others clock cancel picks x = (tr, x') →
  let ticks := length (filter (λ r, r = HbT) (until_done picks)) in
  length (beats tr) = 1 + ticks ∧
  ∃ n, answers tr = replicate n false ++ (if registered x' then [true] else []) ∧
    if registered x' then n ≤ 1 + ticks else n = 2 + ticks.
Proof.
  intros Hx Hrun ticks. unfold Run, startup in Hrun. cbn [app run_actions act] in Hrun.
  set (y := foldl _ x (others 0)) in *. assert (Hy : registered y = false) by (unfold y; by rewrite others_registered).
  destruct (register_answers cfg y) as (ok & Ha & Hb & Hr). destruct (register cfg y) as [tr1 x1]. cbn [fst snd] in *.
  match type of Hrun with (let '(_, _) := ?r in _) = _ => destruct r as [tr2 x2] eqn:Hrest end. simplify_eq.
  set (acts := [AHeartbeat; ATier 1; ASnapshots] ++ (until_done picks ≫= on_ready)).
  eapply (run_settling _ _ _ _ _ _ _ _ _ _ _ _ _ _ _ _ acts 1) in Hrest as [Hlen Hans].
  - assert (Hcount : heartbeats acts = 1 + ticks).
    { unfold acts. rewrite heartbeats_app. change (heartbeats [AHeartbeat; ATier 1; ASnapshots]) with 1. f_equal.
      unfold ticks. clear. induction (until_done picks) as [|r l IH]; [done|]. cbn [mbind list_bind].
      rewrite heartbeats_app. rewrite IH, filter_cons. by destruct r. }
    rewrite beats_app, answers_app, Ha, Hb, app_nil_l, Hlen, Hcount. split; [done|]. rewrite Hr, Hy, orb_false_r in Hans. destruct ok.
    + destruct Hans as [-> ->]. exists 0. split; [done|lia].
    + destruct Hans as (n & -> & Hn). exists (S n). split; [done|]. destruct (registered x'); lia.
  - unfold acts. rewrite elem_of_app, list_elem_of_bind. intros [Hin|(r & Hin & _)].
    + by repeat (apply elem_of_cons in Hin as [?|Hin]; [done|]); apply elem_of_nil in Hin.
    + by destruct r; simpl in Hin; repeat (apply elem_of_cons in Hin as [?|Hin]; [done|]); apply elem_of_nil in Hin.
Qed.

(** C7: Over a whole run of the agent on a database that works, with the ACS
    serving devices and the collector scanning in between and the worker pushing
    telemetry and snapshots as its tickers fire, every command is applied exactly
    once: the ones applied are the polled ones without a record, each once; every
    polled command has a record afterwards; a record is never changed. *)
Theorem run_applies_once {W} `{Acs W} `{!AcsLaws W} `{Cloud W} json_Marshal marshal_result unmarshal_result DecodeEnvelope
    ParseFloat SprintFloat FormatFloat int_overflow Duration_String cfg engine manifest b others clock cancel
    picks (x x' : worker W) tr :
  healthy (buf x) →
  Run json_Marshal marshal_result unmarshal_result DecodeEnvelope ParseFloat SprintFloat FormatFloat int_overflow
    Duration_String cfg engine manifest b others clock cancel picks x = (tr, x') →
  NoDup (ran tr) ∧ (∀ id, id ∈ ran tr ↔ id ∈ polled tr ∧ ¬ recorded (buf x) id) ∧
  (∀ id, recorded (buf x') id ↔ recorded (buf x) id ∨ id ∈ polled tr) ∧
  (∀ id, recorded (buf x) id → applied (sdb (buf x')) !! id = applied (sdb (buf x)) !! id).
Proof. intros Hs Hrun. apply run_ran_once in Hrun as (_ & ? & ? & ? & ?); done. Qed.

(** ** Witnesses *)

(** A cloud that refuses the first registration, and hands out one command
    twice; a device that acknowledges its reboot. *)
Record ex_world := mkExWorld { ex_left : nat; ex_srv : Server }.

#[local] Instance ex_Acs : Acs ex_world := {
  RequestAndAwait _ _ x := (Some (mkResult "c1" TaskReboot ∅ [] 0 ""), x);
  cloud_Ack _ _ w := w;
  cloud_SendSnapshot _ _ _ w := w }.
#[local] Instance ex_AcsLaws : AcsLaws ex_world.
Proof. by split. Qed.

#[local] Instance ex_Cloud : Cloud ex_world := {
  cloud_Register _ w :=
    match ex_left w with
    | 0 => (None, w)
    | S n => (Some (ErrUnreachable "refused"), mkExWorld n (ex_srv w))
    end;
  cloud_Heartbeat _ w := (None, w);
  cloud_Poll w := (Ok [mkCommand "c1" "d1" "8C1F64-FAP-42" "reboot" (mkPayload [] ∅ false [])], w);
  cloud_SendTelemetryRaw _ w := (None, w);
  acs := ex_srv;
  set_acs srv w := mkExWorld (ex_left w) srv }.

Definition ex_cfg : Config := defaultConfig.
Definition ex_x : worker ex_world := mkWorker false (Collector.New "/srv/ftp")
  (Sql (set_devices {["8C1F64-FAP-42" := DeviceRow "10.0.0.9" "Acme" "FAP" "42" "1.0" 0 0]} empty_db) [] 0 4096 0)
  (mkExWorld 2 NewServer).
Definition ex_others (i : nat) : list other := [Scan 1 (Some []); Serve 2 (mkReq "10.0.0.9" None (Some ""))].
Abbreviation ex_run picks :=
  (Run (λ _, Some "{}") (λ _, "{}") (λ _, CloudTypes.empty_result) (λ _, None) (λ _, None) (λ _, "") (λ _, "") (λ _, 0%Z)
    (λ _, "15s") ex_cfg [] None (mkBuffer ":memory:" 0) ex_others (λ i, Z.of_nat i) (λ _, false) picks ex_x).

Lemma ex_run_answers : answers (ex_run [PollT; HbT; T2; HbT; PollT; Done; HbT]).1 = [false; false; true].
Proof. vm_compute. reflexivity. Qed.

Lemma ex_run_ran : ran (ex_run [PollT; T3; PollT]).1 = ["c1"].
Proof. vm_compute. reflexivity. Qed.

Lemma registers_until_accepted_witness :
  let tr := (ex_run [PollT; HbT; T2; HbT; PollT; Done; HbT]).1 in
  answers tr = [false; false; true] ∧ length (beats tr) = 3.
Proof.
  intros tr. split; [exact ex_run_answers|].
  exact (proj1 (registers_until_accepted _ _ _ _ _ _ _ _ _ _ _ _ _ _ _ _ _ ex_x _ tr eq_refl (surjective_pairing (ex_run _)))).
Defined.

Lemma run_applies_once_witness :
  ran (ex_run [PollT; T3; PollT]).1 = ["c1"] ∧ recorded (buf (ex_run [PollT; T3; PollT]).2) "c1".
Proof.
  destruct (run_applies_once _ _ _ _ _ _ _ _ _ _ _ _ _ _ _ _ _ ex_x _ _ (Forall_nil_2 _)
    (surjective_pairing (ex_run [PollT; T3; PollT]))) as (_ & Hran & Hrec & _).
  split; [exact ex_run_ran|]. apply Hrec. right. apply (Hran "c1"). rewrite ex_run_ran. by left.
Defined.
