(* ===== verification/ServerAcs.v ===== *)
(** * The server behind the worker's interface
    (goagent/internal/cwmp/server.go, goagent/cmd/agent/main.go)

    [cwmp.Server.RequestAndAwait] implements what the collector and the worker
    use of the ACS, and keeps the laws they rely on, with whatever turns the
    devices, the goroutines and the select take while a call waits.  So the
    worker's theorems hold for the server itself. *)
From S2P Require Import Prelude GoStrings CloudTypes Db CwmpTypes CwmpStore Session Soap Server Await ConnRequest.
From S2P Require Import Rules Collector Acs Client Config Manifest Metrics Worker CommandTable WorkerRun RequestAwait.

(** ** Quiet turns *)

Lemma quiet_serves (x y : Server * sql) tr : serves x tr y → quiet x.2 y.2.
Proof.
  induction 1 as [x|now host cookie env [srv store] key resp hr y tr z Hs _ IH]; [done|]. etrans; [|exact IH].
  pose proof (quiet_serve now host cookie env srv store) as Hq. by rewrite Hs in Hq.
Qed.

Lemma quiet_on_session {A} id (f : Session → A * Session) (x : Server * sql) : quiet x.2 (on_session id f x).2.2.
Proof.
  destruct x as [srv store]. unfold on_session. pose proof (quiet_deviceSessionLocked id srv store) as Hd.
  destruct (deviceSessionLocked id (srv, store)) as [srv1 store1]. destruct (sessions srv1 !! id) as [s|]; [|done].
  by destruct (f s).
Qed.

Lemma quiet_crURL id (x : Server * sql) : quiet x.2 (crURL id x).2.2.
Proof.
  destruct x as [srv store]. unfold crURL. case_decide; [done|].
  pose proof (quiet_GetParams id [connectionRequestURLPath] store) as Hg. destruct (GetParams _ _ store) as [m store1].
  cbn [snd] in Hg. pose proof (quiet_StoreDeviceIP id store1) as Hi.
  destruct (m !! _) as [adv|]; [case_decide; [done|]|]; destruct (StoreDeviceIP id store1) as [ip store2]; by etrans.
Qed.

Lemma quiet_call {O W} (outside : O → (Server * sql) * W → list served * ((Server * sql) * W)) http_Get RequestURI id t
    (x : sql * net O W) : serves_only outside →
  quiet x.1 (RequestAndAwait outside http_Get RequestURI id t x).2.1.
Proof.
  intros Hout. apply (call_keeps outside http_Get RequestURI quiet).
  - intros o y w tr z w' Ho. apply Hout in Ho. exact (quiet_serves _ _ _ Ho).
  - intros A k f y. apply quiet_on_session.
  - intros k y. apply quiet_crURL.
Qed.

(** ** The implementation *)

Section Implementation.
Context {O W : Type}.
Variable outside : O → (Server * sql) * W → list served * ((Server * sql) * W).
Variable http_Get : string → option string → W → (string + Z * string) * W.
Variable RequestURI : string → option string.
(** The calls of the cloud's client, on the network. *)
Variable client_Ack : string → AckRequest → W → W.
Variable client_SendSnapshot : string → gmap string any → string → W → W.
Variable client_Register : RegisterRequest → W → option client_error * W.
Variable client_Heartbeat : list InventoryItem → W → option client_error * W.
Variable client_Poll : W → result client_error (list Command) * W.
Variable client_SendTelemetryRaw : string → W → option go_error * W.

(** The network with, for the statements below, the requests that were handled
    while calls waited; nothing reads them. *)
Abbreviation world := (list served * net O W)%type.
Definition set_srv (srv : Server) (x : world) : world :=
  (x.1, mkNet srv (n_dials x.2) (n_turns x.2) (n_out x.2)).
Definition on_out {A} (f : W → A * W) (x : world) : A * world :=
  let '(a, out) := f (n_out x.2) in (a, (x.1, mkNet (n_srv x.2) (n_dials x.2) (n_turns x.2) out)).
Definition call (id : string) (t : Task) (x : sql * world) : option TaskResult * (sql * world) :=
  let '(s, (log, n)) := x in
  let '(r, tr, (s, n)) := RequestAndAwait outside http_Get RequestURI id t (s, n) in (r, (s, (log ++ tr, n))).

#[local] Instance server_Acs : Acs world := {
  Acs.RequestAndAwait := call;
  cloud_Ack id ack x := (on_out (λ w, (tt, client_Ack id ack w)) x).2;
  cloud_SendSnapshot id params why x := (on_out (λ w, (tt, client_SendSnapshot id params why w)) x).2 }.

#[local] Instance server_Cloud : Cloud world := {
  cloud_Register r := on_out (client_Register r);
  cloud_Heartbeat l := on_out (client_Heartbeat l);
  cloud_Poll := on_out client_Poll;
  cloud_SendTelemetryRaw body := on_out (client_SendTelemetryRaw body);
  acs x := n_srv x.2;
  set_acs := set_srv }.

Lemma server_AcsLaws : serves_only outside → AcsLaws world.
Proof.
  intros Hout. split; intros dev t s [log n]; pose proof (quiet_call outside http_Get RequestURI dev t (s, n) Hout) as [Ha Hh];
    cbn [Acs.RequestAndAwait server_Acs call]; destruct (RequestAndAwait _ _ _ dev t (s, n)) as [[r tr] [s' n']];
    cbn [fst snd] in *; auto.
Qed.

(** ** Properties *)

(** The whole agent applies every command exactly once on its own server: over a
    run of the worker in which each [RequestAndAwait] is the server's, with
    devices making requests, connection requests going out and the select taking
    its channels in any order while it waits. *)
Theorem server_applies_once json_Marshal marshal_result unmarshal_result DecodeEnvelope
    ParseFloat SprintFloat FormatFloat int_overflow Duration_String cfg engine manifest b others clock cancel
    picks (x x' : worker world) tr :
  serves_only outside → healthy (buf x) →
  Run json_Marshal marshal_result unmarshal_result DecodeEnvelope ParseFloat SprintFloat FormatFloat int_overflow
    Duration_String cfg engine manifest b others clock cancel picks x = (tr, x') →
  NoDup (ran tr) ∧ (∀ id, id ∈ ran tr ↔ id ∈ polled tr ∧ ¬ recorded (buf x) id) ∧
  (∀ id, recorded (buf x') id ↔ recorded (buf x) id ∨ id ∈ polled tr).
Proof.
  intros Hout Hs Hrun. pose proof (server_AcsLaws Hout). apply run_ran_once in Hrun as (_ & H2 & H3 & _ & H5); [|done..]. split_and!; [exact H2|exact H3|exact H5].
Qed.

(** C5: A write command that the worker acknowledges as applied reached its device:
    the device's own session was sent SetParameterValues with exactly the
    command's writes and key, and answered without a fault; and then either it
    answered with Status 1, and the acknowledgement says that the write takes
    effect after a reboot and carries no read-back, or it was sent the read-back,
    in its answer every expected value is there and matches, and the
    acknowledgement carries that answer. *)
Theorem applied_write_reached FormatFloat SprintFloat manifest timeout_text cancelled cmd s log n ack s' log' n' :
  serves_only outside → cmd_ID cmd ≠ "" → all_sound (n_srv n) →
  unheard (cmd_CWMPID cmd) (cmd_ID cmd) (n_srv n) → unheard (cmd_CWMPID cmd) (cmd_ID cmd +:+ ":rb") (n_srv n) →
  apply_write FormatFloat SprintFloat manifest timeout_text cancelled cmd (s, (log, n)) = (ack, (s', (log', n'))) →
  ack_Status ack = "applied" →
  ∃ tr, log' = log ++ tr ∧
    let dev := cmd_CWMPID cmd in
    let writes := toWrites FormatFloat SprintFloat (cp_Writes (cmd_Payload cmd)) manifest in
    let expected := expectedValues (cmd_Payload cmd) in
    ∃ pre env resp post r, tr = pre ++ mkServed dev env resp :: post ∧
      (∃ env0, mkServed dev env0 (Some (SetParameterValues writes (cmd_ID cmd))) ∈ pre) ∧
      answer_of env (mkTask TaskSPV [] writes (cmd_ID cmd) (cmd_ID cmd)) = Some r ∧ tr_Err r = "" ∧
      (tr_Status r = 1%Z ∧ ar_Readback (ack_Result ack) = ∅ ∧
         ar_Detail (ack_Result ack) = "applied; takes effect after device reboot" ∨
       tr_Status r ≠ 1%Z ∧ ∃ pre' env' resp' post' rb, tr = pre' ++ mkServed dev env' resp' :: post' ∧
         ar_Readback (ack_Result ack) = ToAnyMap (tr_Params rb) ∧
         (∃ env0, mkServed dev env0 (Some (GetParameterValues (keysOf expected))) ∈ pre') ∧
         answer_of env' (mkTask TaskGPV (keysOf expected) [] "" (cmd_ID cmd +:+ ":rb")) = Some rb ∧
         ∀ path want, expected !! path = Some want →
           ∃ got, ToAnyMap (tr_Params rb) !! path = Some got ∧ valuesMatch FormatFloat SprintFloat want got = true).
Proof.
  intros Hout Hne Hall Hnew Hrb Hrun Happ. unfold apply_write in Hrun. cbv zeta. set (dev := cmd_CWMPID cmd) in *.
  set (writes := toWrites _ _ _ _) in *. set (expected := expectedValues _) in *.
  set (spv := mkTask TaskSPV [] writes (cmd_ID cmd) (cmd_ID cmd)) in *.
  set (gpv := mkTask TaskGPV (keysOf expected) [] "" (cmd_ID cmd +:+ ":rb")) in *.
  cbn [Acs.RequestAndAwait server_Acs call] in Hrun.
  assert (Hdiff : t_CommandID spv = t_CommandID gpv → spv = gpv).
  { intros Heq. exfalso. apply (f_equal String.length) in Heq. simpl in Heq. rewrite str_length_app in Heq. simpl in Heq. lia. }
  assert (Hgne : t_CommandID gpv ≠ "") by (simpl; by destruct (cmd_ID cmd)).
  destruct (RequestAndAwait outside http_Get RequestURI dev spv (s, n)) as [[[res|] tr1] [s1 n1]] eqn:Hspv; [|by simplify_eq].
  destruct (call_answered outside http_Get RequestURI Hout dev spv (s, n) _ _ _ [] Hne (λ k, Hall dev k)
    (unheard_accounts dev spv [] (s, n) Hnew) Hspv) as [_ (pre & env & resp & post & r & Htr & Hasked & Hans & ->)].
  cbn [app] in Htr. cbn [tr_Err tr_Status with_CommandID] in Hrun.
  case_decide as Herr; [by simplify_eq|].
  case_decide as Hst.
  { injection Hrun as <- <- <- <-. exists tr1. split; [done|]. exists pre, env, resp, post, r. split_and!; try done. by left. }
  destruct cancelled; [by simplify_eq|].
  pose proof (account_accounts dev gpv _ _ _ (call_account outside http_Get RequestURI Hout dev gpv spv (s, n) _ _ _ []
    Hgne Hdiff (unheard_accounts dev gpv [] (s, n) Hrb) Hspv)) as Hacc.
  pose proof (call_all_sound outside http_Get RequestURI Hout dev spv (s, n) Hall) as Hall1. rewrite Hspv in Hall1.
  cbn [fst snd app] in Hall1, Hacc. cbn [Acs.RequestAndAwait server_Acs call] in Hrun.
  destruct (RequestAndAwait outside http_Get RequestURI dev gpv (s1, n1)) as [[[rb|] tr2] [s2 n2]] eqn:Hgpv; [|by simplify_eq].
  destruct (call_answered outside http_Get RequestURI Hout dev gpv (s1, n1) _ _ _ _ Hgne (λ k, Hall1 dev k) Hacc Hgpv)
    as [_ (pre' & env' & resp' & post' & rb0 & Htr' & Hasked' & Hans' & ->)].
  destruct (verifyExpected _ _ _ _) as [|mm l] eqn:Hv; [|by simplify_eq]. injection Hrun as <- <- <- <-.
  exists (tr1 ++ tr2). split; [by rewrite app_assoc|]. exists pre, env, resp, (post ++ tr2), r.
  split_and!; [by rewrite Htr, <- app_assoc|done|done|done|]. right.
  split; [done|]. exists pre', env', resp', post', rb0. split_and!; [done|done|done|done|]. by apply verifyExpected_nil.
Qed.
End Implementation.

(** ** Witnesses

    A write of one parameter: the device first has its tree read, then takes the
    write, acknowledges it and reports the new value. *)
Definition ex_cmd : Command :=
  mkCommand "c1" "d1" ex_id "configure" (mkPayload [mkWrite "Device.X" (AString "5") ""] ∅ true []).
Definition ex_body (l : option (list ParameterValueStruct)) (status : option Z) (n : option (list ParameterInfoStruct)) : Body :=
  mkBody None None None None None l status n None.
Definition ex_answers (body : string) : option Envelope :=
  if decide (body = "N") then Some (mkEnvelope "8" (ex_body None None (Some [])))
  else if decide (body = "S") then Some (mkEnvelope "8" (ex_body None (Some 0%Z) None))
  else if decide (body = "G") then
    Some (mkEnvelope "8" (ex_body (Some [mkPV "Device.X" (mkValue "xsd:string" "5")]) None None))
  else None.
Definition ex_apply_turns : list (turn (Z * Server.http_request)) :=
  [ex_post ""; Wake Mine; ex_post "N"; ex_post "S"; Wake Mine; Dial 1; Wake Mine; ex_post ""; ex_post "G"; Wake Mine].
Definition ex_apply_net : net (Z * Server.http_request) nat := mkNet ex_x1.1 [] ex_apply_turns 0.
Abbreviation ex_write := (@apply_write _ (server_Acs (requests ex_answers) (λ _ _ w, (inr (200%Z, ""), S w)) (λ _, None)
  (λ _ _ w, w) (λ _ _ _ w, w)) (λ _, "") (λ _, "") None "15s" false ex_cmd (ex_x1.2, ([], ex_apply_net))).

Lemma ex_write_run : ack_Status ex_write.1 = "applied" ∧ ar_Readback (ack_Result ex_write.1) = {["Device.X" := AString "5"]} ∧
  length ex_write.2.2.1 = 5 ∧ n_turns ex_write.2.2.2 = [].
Proof. vm_compute. done. Qed.

Lemma write_eta {A B C D} (x : A * (B * (C * D))) : x = (x.1, (x.2.1, (x.2.2.1, x.2.2.2))).
Proof. by destruct x as [? [? []]]. Qed.

Lemma applied_write_reached_witness : ∃ tr pre env resp post r, ex_write.2.2.1 = [] ++ tr ∧
  tr = pre ++ mkServed ex_id env resp :: post ∧
  (∃ env0, mkServed ex_id env0 (Some (SetParameterValues [mkPV "Device.X" (mkValue "xsd:string" "5")] "c1")) ∈ pre) ∧
  tr_Err r = "".
Proof.
  destruct (applied_write_reached (requests ex_answers) (λ _ _ w, (inr (200%Z, ""), S w)) (λ _, None) (λ _ _ w, w) (λ _ _ _ w, w)
    (λ _, "") (λ _, "") None "15s" false ex_cmd ex_x1.2 [] ex_apply_net _ _ _ _
    (requests_serve ex_answers) ltac:(discriminate) ex_net_sound (ex_net_unheard "c1" ltac:(discriminate))
    (ex_net_unheard "c1:rb" ltac:(discriminate)) (write_eta _) (proj1 ex_write_run))
    as (tr & Hlog & pre & env & resp & post & r & Htr & Hsent & _ & Herr & _).
  exists tr, pre, env, resp, post, r. exact (conj Hlog (conj Htr (conj Hsent Herr))).
Defined.
