(* ===== verification/EndToEnd.v ===== *)
(** * From the command to the device and back
    (goagent/internal/worker/worker.go, goagent/internal/cwmp, testsuite/device.go)

    The worker's [RequestAndAwait] on the agent's server, with the simulated
    device at the other end: while the call waits, the device's loop wakes up, by
    its ticker or by the agent's connection request, and runs a session over the
    wire; the answer comes back through the session's channels to the waiter. *)
From S2P Require Import Prelude GoStrings DeviceId CloudTypes Db CwmpTypes CwmpStore Session Soap Xml SoapDecode XmlRoundtrip.
From S2P Require Import DeviceSim CloudSim Wire Uplink Server Await ConnRequest ClosedLoop RequestAwait.

(** ** The suite's process *)

(** A device, its HTTP client's cookie jar, how many exchanges it made, the
    message counter, the channel on which its listener wakes its loop, and the
    mock cloud's state. *)
Record plant := mkPlant {
  p_dev : device;
  p_jar : option string;
  p_turns : nat;
  p_msgs : Z;
  p_dial : nat;
  p_cloud : CloudSim.state }.

(** What the select of [runDeviceLoop] takes. *)
Inductive loop_turn := Tick | DialNow.

Section EndToEnd.
Context {S : Type} `{Store S}.
(** See [ClosedLoop]; and the order of [range] over a device's parameters. *)
Variable unicode_name : string → bool.
Variable host : string.
Variables clock dev_clock : nat → Z.
Variable m : manifest.
Variable map_range : gmap string string → list string.
(** The connection-request URLs at which the device's listener is reached; the
    listener answers any request on any path. *)
Variable reachable : string → bool.

Abbreviation lw := (ClosedLoop.world (S := S) * list served)%type.

(** The exchange of [ClosedLoop], with the request that the server handled. *)
Definition logged (text : string) (x : device * lw) : option string * (device * lw) :=
  let '(d, (w, log)) := x in
  let rq := http_request_of host text w in
  let tr := match request_env (DecodeEnvelope unicode_name) rq with
            | Some env => let '((key, resp, _), _) := serve (now clock w) (rq_host rq) (rq_cookie rq) env (w_srv w, w_store w) in
                          [mkServed key env resp]
            | None => []
            end in
  let '(o, (d, w)) := exchange unicode_name host clock text (d, w) in
  (o, (d, (w, log ++ tr))).

(** One session of the device's loop. *)
Definition device_session (y : (Server * S) * plant) : list served * ((Server * S) * plant) :=
  let '((srv, store), p) := y in
  let '(msgID, msgs) := nextMsgID (p_msgs p) in
  let '(_, (d, (w, log))) := runSession unicode_name logged (λ w : lw, dev_now dev_clock w.1) map_range m msgID
    (p_dev p, (mkWorld srv store (p_jar p) (p_turns p), [])) in
  (log, ((w_srv w, w_store w), mkPlant d (w_jar w) (w_turns w) msgs (p_dial p) (p_cloud p))).

Definition set_dial (n : nat) (p : plant) : plant := mkPlant (p_dev p) (p_jar p) (p_turns p) (p_msgs p) n (p_cloud p).

(** A round of [runDeviceLoop]; the select does not take a channel that is
    empty. *)
Definition device_turn (o : loop_turn) (y : (Server * S) * plant) : list served * ((Server * S) * plant) :=
  match o with
  | Tick => device_session y
  | DialNow =>
      match p_dial y.2 with
      | 0 => ([], y)
      | Datatypes.S n => device_session (y.1, set_dial n (y.2))
      end
  end.

(** [runConnRequestListener]: a full channel is left alone. *)
Definition listener (url : string) (header : option string) (p : plant) : (string + Z * string) * plant :=
  if reachable url then (inr (200%Z, ""), set_dial (if decide (p_dial p < 1) then Datatypes.S (p_dial p) else p_dial p) p)
  else (inl "connection refused", p).

Variable RequestURI : string → option string.

Abbreviation call := (RequestAndAwait device_turn listener RequestURI).

(** ** Lemmas: the device only sends requests *)

Lemma logged_exchange text d w log : let '(o, (d', (w', _))) := logged text (d, (w, log)) in
  exchange unicode_name host clock text (d, w) = (o, (d', w')).
Proof. unfold logged. by destruct (exchange unicode_name host clock text (d, w)) as [o [d' w']]. Qed.

Definition w_st (w : ClosedLoop.world (S := S)) : Server * S := (w_srv w, w_store w).

Lemma serves_app (x y z : Server * S) tr tr' : serves x tr y → serves y tr' z → serves x (tr ++ tr') z.
Proof. induction 1; [done|]. intros Hz. simpl. econstructor; [done|]. auto. Qed.

Lemma logged_serves text d w log x0 : serves x0 log (w_st w) →
  let y := logged text (d, (w, log)) in serves x0 y.2.2.2 (w_st y.2.2.1).
Proof.
  intros Hx. unfold logged.
  pose proof (ServeHTTP_serves (DecodeEnvelope unicode_name) (now clock w) (http_request_of host text w) (w_srv w, w_store w)) as Hs.
  unfold exchange. cbn [fst snd]. destruct (ServeHTTP _ _ _ _) as [resp [srv store]].
  destruct (request_env _ _); cbn [fst snd] in *; by eapply serves_app.
Qed.

(** Whatever holds of the world before each message holds after a session. *)
Section Generic.
Context {W : Type} (P : W → Prop) (post : string → device * W → option string * (device * W)) (dnow : W → Z).
Hypothesis post_P : ∀ text d w, P w → P (post text (d, w)).2.2.

Lemma drain_tasks_keeps n msgID : ∀ x, P x.2 → P (drain_tasks unicode_name post map_range n m msgID x).2.
Proof.
  induction n as [|n IH]; intros [d w] Hx; cbn [drain_tasks]; [done|].
  pose proof (post_P "" d w Hx) as H1. destruct (post "" (d, w)) as [[body|] [d1 w1]]; cbn [snd] in H1; [|done].
  case_decide; [done|]. destruct (perform _ _ _ _ _) as [[answer d2]|]; [|done]. apply IH, post_P, H1.
Qed.

Lemma runSession_keeps msgID x : P x.2 → P (runSession unicode_name post dnow map_range m msgID x).2.2.
Proof.
  intros Hx. destruct x as [d w]. unfold runSession. pose proof (post_P (informEnvelope (dnow w) msgID d) d w Hx) as H1.
  cbn [fst snd]. destruct (post _ (d, w)) as [[body|] [d1 w1]]; cbn [fst snd] in *; [|done].
  pose proof (post_P (getRPCMethodsEnvelope msgID) (incInform d1) w1 H1) as H2.
  destruct (post _ (incInform d1, w1)) as [o2 [d2 w2]]. cbn [fst snd] in *.
  pose proof (post_P (transferCompleteEnvelope (dnow w2) msgID) d2 w2 H2) as H3.
  destruct (post _ (d2, w2)) as [o3 [d3 w3]]. cbn [fst snd] in *. destruct (takeTransfer d3) as [[f|] d4].
  - pose proof (post_P (atcEnvelope (dnow w3) msgID (x_name f) (x_size f)) d4 w3 H3) as H4.
    destruct (post _ (d4, w3)) as [o4 [d5 w5]]. by apply drain_tasks_keeps.
  - by apply drain_tasks_keeps.
Qed.
End Generic.

(** A session does not depend on what its world carries besides. *)
Section Project.
Context {W V : Type} (f : W → V).
Variables (post : string → device * W → option string * (device * W)) (dnow : W → Z).
Variables (post' : string → device * V → option string * (device * V)) (dnow' : V → Z).
Definition proj {A} (y : A * (device * W)) : A * (device * V) := (y.1, (y.2.1, f y.2.2)).
Hypothesis post_proj : ∀ text d w, proj (post text (d, w)) = post' text (d, f w).
Hypothesis now_proj : ∀ w, dnow' (f w) = dnow w.

Lemma drain_tasks_project n msgID : ∀ d w,
  let y := drain_tasks unicode_name post map_range n m msgID (d, w) in
  drain_tasks unicode_name post' map_range n m msgID (d, f w) = (y.1, f y.2).
Proof.
  induction n as [|n IH]; intros d w; cbn [drain_tasks]; [done|].
  rewrite <- post_proj. unfold proj. destruct (post "" (d, w)) as [[body|] [d1 w1]]; cbn [fst snd]; [|done].
  case_decide; [done|]. destruct (perform _ _ _ _ _) as [[answer d2]|]; [|done].
  rewrite <- post_proj. unfold proj. destruct (post answer (d2, w1)) as [o [d3 w3]]. apply IH.
Qed.

Lemma runSession_project msgID d w :
  proj (runSession unicode_name post dnow map_range m msgID (d, w)) =
  runSession unicode_name post' dnow' map_range m msgID (d, f w).
Proof.
  unfold runSession. cbn [fst snd]. rewrite now_proj, <- post_proj. unfold proj.
  destruct (post _ (d, w)) as [[body|] [d1 w1]]; cbn [fst snd]; [|done].
  rewrite <- post_proj. unfold proj. destruct (post _ (incInform d1, w1)) as [o2 [d2 w2]]. cbn [fst snd].
  rewrite now_proj, <- post_proj. unfold proj. destruct (post _ (d2, w2)) as [o3 [d3 w3]]. cbn [fst snd].
  destruct (takeTransfer d3) as [[x|] d4].
  - rewrite now_proj, <- post_proj. unfold proj. destruct (post _ (d4, w3)) as [o4 [d5 w5]]. cbn [fst snd].
    rewrite (drain_tasks_project _ _ d5 w5). unfold proj. by destruct (drain_tasks _ _ _ _ _ _ _).
  - rewrite (drain_tasks_project _ _ d4 w3). unfold proj. by destruct (drain_tasks _ _ _ _ _ _ _).
Qed.
End Project.

Lemma device_session_serves x w tr y w' : device_session (x, w) = (tr, (y, w')) → serves x tr y.
Proof.
  destruct x as [srv store]. unfold device_session. destruct (nextMsgID (p_msgs w)) as [msgID msgs].
  pose proof (runSession_keeps (λ v : lw, serves (srv, store) v.2 (w_st v.1)) logged (λ w : lw, dev_now dev_clock w.1)) as Hk.
  specialize (Hk (λ text d '(v, log) Hv, logged_serves text d v log _ Hv)).
  specialize (Hk msgID (p_dev w, (mkWorld srv store (p_jar w) (p_turns w), []))).
  destruct (runSession _ _ _ _ _ _ _) as [reg [d [v log]]]. intros [= <- <- <-]. apply Hk. constructor.
Qed.

Lemma device_turn_serves : serves_only device_turn.
Proof.
  intros [|] x w tr y w'; cbn [device_turn]; [apply device_session_serves|]. cbn [fst snd].
  destruct (p_dial w); [intros [= <- <- <-]; constructor|]. apply device_session_serves.
Qed.

(** ** Lemmas: the channels during a session *)

Abbreviation world := (ClosedLoop.world (S := S)).
Abbreviation exch := (exchange unicode_name host clock).
Definition mail_of (id : string) (w : world) : option (list TaskResult * gmap string nat * list (option TaskResult)) :=
  mail <$> sessions (w_srv w) !! id.

(** A session reads a message as an answer to the task in flight, and publishes
    it. *)
Lemma exchange_mail id text env d w s : reads unicode_name text env →
  route_key host (w_jar w) env (w_srv w) = id → sessions (w_srv w) !! id = Some s →
  mail_of id (exch text (d, w)).2.2 = Some (mail (match published env s with Some r => deliver r s | None => s end)).
Proof.
  intros Hread Hkey Hs. rewrite (exchange_serve _ _ _ _ env) by done.
  destruct (serve _ _ _ _ _) as [[[key resp] hr] [srv' store']] eqn:Hserve.
  apply serve_spec in Hserve as (Hk & _ & _ & s0 & s1 & s2 & store0 & Hcase & Hs1 & Hreq & Hs2 & _).
  rewrite Hkey in Hk. subst key. rewrite Hs in Hcase. subst s0.
  unfold mail_of. cbn [fst snd w_srv]. rewrite Hs2. cbn [fmap option_fmap option_map]. f_equal.
  pose proof (request_mail (now clock w) env s1 store0) as Hm. rewrite Hreq in Hm. cbn [fst snd] in Hm. rewrite Hm.
  assert (Hm1 : mail s1 = mail s ∧ published env s1 = published env s) by (rewrite Hs1; by case_decide).
  destruct Hm1 as [Hm1 ->]. destruct (published env s); [by apply deliver_mail|done].
Qed.

(** In an open session. *)
Lemma linked_mail id msgID q text env d w : id ≠ "" → linked id msgID q w → reads unicode_name text env →
  match env with Some e => b_Inform (e_Body e) = None | None => True end →
  ∃ s, sessions (w_srv w) !! id = Some s ∧ queues s = q ∧
    mail_of id (exch text (d, w)).2.2 = Some (mail (match published env s with Some r => deliver r s | None => s end)).
Proof.
  intros Hid (Hjar & s & Hs & _ & _ & Hq) Hread Henv. exists s. split_and!; [done|done|].
  apply exchange_mail; [done| |done]. unfold route_key. rewrite Hjar, Hs, decide_True by done.
  destruct env as [e|]; [|done]. cbn [mbind option_bind]. by rewrite Henv.
Qed.

(** Nothing is published when no waiter can have asked for what is in flight. *)
Lemma linked_mail_kept id msgID q fl text env d w : id ≠ "" → linked id msgID (q, fl) w → reads unicode_name text env →
  match env with Some e => b_Inform (e_Body e) = None | None => True end →
  (env = None ∨ ∀ t, fl = Some t → t_CommandID t = "") →
  mail_of id (exch text (d, w)).2.2 = mail_of id w.
Proof.
  intros Hid Hl Hread Henv Hfl. destruct (linked_mail id msgID (q, fl) text env d w Hid Hl Hread Henv) as (s & Hs & Hq & Hm).
  assert (Hp : published env s = None).
  { unfold published. injection Hq as _ Hf. rewrite Hf. destruct fl as [t|]; [|done]. cbn [mbind option_bind].
    destruct (answer_of env t) eqn:Ha; [|done]. cbn [mbind option_bind].
    destruct Hfl as [->|Ht]; [done|]. by rewrite decide_True by auto. }
  rewrite Hm, Hp. unfold mail_of. by rewrite Hs.
Qed.

(** Requests leave the channels alone while no task in the session has a
    CommandID. *)
Definition anonymous (id : string) (srv : Server) : Prop :=
  ∀ s, sessions srv !! id = Some s → ∀ t, holds s t → t_CommandID t = "".

Lemma serves_anonymous id (x y : Server * S) tr : serves x tr y → anonymous id x.1 → is_Some (sessions x.1 !! id) →
  anonymous id y.1 ∧ mail <$> sessions y.1 !! id = mail <$> sessions x.1 !! id.
Proof.
  induction 1 as [x|now host' cookie env [srv store] key resp hr [srv1 store1] tr z Hs _ IH]; [done|].
  cbn [fst] in *. intros Ha [s Hat].
  apply serve_spec in Hs as (_ & Hoth & _ & s0 & s1 & s2 & store0 & Hcase & Hs1 & Hreq & Hs2 & _). cbn [fst] in *.
  destruct (decide (id = key)) as [<-|Hne].
  2: { rewrite <- Hoth in Hat |- * by done. apply IH; [|by exists s]. intros s' Hs'. apply Ha. by rewrite <- Hoth. }
  rewrite Hat in Hcase. subst s0. pose proof (Ha s Hat) as Has.
  assert (Hm1 : mail s1 = mail s ∧ published env s1 = published env s ∧ ∀ t, holds s1 t → holds s t) by (rewrite Hs1; by case_decide).
  destruct Hm1 as (Hm1 & Hp1 & Hh1).
  pose proof (request_mail now env s1 store0) as Hm. rewrite Hreq, Hp1 in Hm. cbn [fst snd] in Hm.
  assert (Hp : published env s = None).
  { unfold published. destruct (inflight s) as [t|] eqn:Hf; [|done]. cbn [mbind option_bind].
    destruct (answer_of env t); [|done]. cbn [mbind option_bind]. rewrite decide_True; [done|]. apply Has. by right. }
  rewrite Hp in Hm. destruct IH as [IH1 IH2]; [|by exists s2|].
  - intros s' Hs'. rewrite Hs2 in Hs'. injection Hs' as <-. intros t Ht.
    pose proof (request_holds now env s1 store0 t) as Hh. rewrite Hreq in Hh. destruct (Hh Ht) as [Hold|Hfc]; [by apply Has, Hh1|].
    unfold first_contact in Hfc. apply elem_of_cons in Hfc as [->|Hfc]; [done|].
    destruct (firstContactGPV s1); [by apply elem_of_nil in Hfc|]. by apply list_elem_of_singleton in Hfc as ->.
  - split; [done|]. rewrite IH2, Hs2, Hat. cbn [fmap option_fmap option_map]. by rewrite Hm, Hm1.
Qed.

Lemma exchange_serves text d w x0 : (∃ tr, serves x0 tr (w_st w)) → ∃ tr, serves x0 tr (w_st (exch text (d, w)).2.2).
Proof.
  intros [tr Hx].
  pose proof (ServeHTTP_serves (DecodeEnvelope unicode_name) (now clock w) (http_request_of host text w) (w_srv w, w_store w)) as Hs.
  unfold exchange. cbn [fst snd]. destruct (ServeHTTP _ _ _ _) as [resp [srv store]]. eexists. by eapply serves_app.
Qed.

(** What requests do not change. *)
Lemma serves_keeps id (x y : Server * S) tr s : serves x tr y → sessions x.1 !! id = Some s →
  srv_cr y.1 = srv_cr x.1 ∧ ∃ s', sessions y.1 !! id = Some s' ∧ firstContactGPV s' = firstContactGPV s.
Proof.
  intros Hserves. revert s. induction Hserves as [x|now host' cookie env [srv store] key resp hr [srv1 store1] tr z Hs _ IH]; intros s Hat.
  { split; [done|]. by exists s. }
  cbn [fst] in *. assert (Hcr : srv_cr srv1 = srv_cr srv).
  { unfold serve in Hs. destruct (routeSession host' cookie env (srv, store)) as [k [srv0 store0]] eqn:Hr.
    apply routeSession_spec in Hr as (_ & (_ & Hcr & _) & _). destruct (sessions srv0 !! k); [|by simplify_eq].
    destruct (request _ _ _) as [? []]. by simplify_eq. }
  apply serve_spec in Hs as (_ & Hoth & _ & s0 & s1 & s2 & store0 & Hcase & Hs1 & Hreq & Hs2 & _). cbn [fst] in *.
  rewrite <- Hcr. destruct (decide (id = key)) as [<-|Hne]; [|apply IH; by rewrite Hoth].
  rewrite Hat in Hcase. subst s0. destruct (IH s2 Hs2) as (-> & s' & Hs' & Hf). split; [done|]. exists s'. split; [done|].
  pose proof (request_DeviceID now env s1 store0) as [_ Hf1]. rewrite Hreq in Hf1. cbn [fst snd] in Hf1.
  rewrite Hf, Hf1, Hs1. by case_decide.
Qed.

(** A session with nothing to do: no task queued, none that would come back. *)
Definition settled (s : Session) : Prop := taskQueue s = [] ∧ orphan (inflight s) = [].

Lemma opening_one t fl fc learn : orphan fl = [] → learn = [] ∨ learn = first_contact fc →
  opening learn ([t], fl) = t :: learn.
Proof.
  intros Ho [->| ->]; unfold opening; cbn [fst snd]; rewrite Ho; [done|]. unfold first_contact. by destruct fc.
Qed.

(** *** A session that finds one task *)

Section OneTask.
Variables (id msgID : string) (d : device) (t : Task) (a : message) (d1 : device) (r : TaskResult).
Hypothesis canonical : CanonicalID (oui d) (productClass d) (serial d) = id.
Hypothesis id_ok : id ≠ "" ∧ all_bytes cookie_byte id = true.
Hypothesis msgID_ok : all_bytes is_digit msgID = true ∧ msgID ≠ "".
Hypothesis can_open : opening_ok dev_clock msgID d.
Hypothesis named : t_CommandID t ≠ "".
Hypothesis answers : answer m map_range t (takeTransfer (incInform d)).2 = Some (a, d1).
Hypothesis means : answer_of (Some (mkEnvelope msgID (message_body a))) t = Some r.

Abbreviation sess w := (runSession unicode_name exch (dev_now dev_clock) map_range m msgID (d, w)).

(** The drain loop performs the first task; the others are the agent's own. *)
Lemma drain_delivers rest w s0 : linked id msgID (t :: rest, None) w →
  Forall (λ u, t_CommandID u = "") rest → answers_ok m map_range msgID 64 (t :: rest) (takeTransfer (incInform d)).2 →
  mail_of id w = Some (mail s0) →
  mail_of id (drain_tasks unicode_name exch map_range 64 m msgID ((takeTransfer (incInform d)).2, w)).2 =
    Some (mail (deliver (with_CommandID (t_CommandID t) r) s0)).
Proof.
  intros Hl Hrest Hans Hmail. destruct id_ok as [Hid Hck]. destruct msgID_ok as [Hdig Hne].
  assert (Hplain : plain msgID = true) by (by apply digits_plain).
  set (d0 := (takeTransfer (incInform d)).2) in *. change 64 with (Datatypes.S 63) in *.
  generalize dependent 63. intros n Hans. cbn [drain_tasks answers_ok] in *.
  assert (Hread0 : reads unicode_name "" None) by (split; [done|reflexivity]).
  pose proof (linked_mail_kept id msgID (t :: rest) None "" None d0 w Hid Hl Hread0 I (or_introl eq_refl)) as Hm1.
  destruct (exchange_empty unicode_name host clock id msgID d0 id_ok (t :: rest) None w Hl) as (w1 & Hx1 & Hl1 & _).
  rewrite Hx1 in Hm1 |- *. cbn [fst snd head mbind option_bind pop response_text] in *.
  destruct (request_of t) as [rq|] eqn:Hrq; [|done]. rewrite answers in Hans. destruct Hans as (Hrok & [Haok Hfit] & _).
  cbn [response_text]. rewrite decide_False by apply EncodeResponse_not_blank. rewrite request_parsed by done. cbn [fst snd].
  rewrite (perform_answer m map_range msgID t rq d0 Hrq), answers. cbn [fmap option_fmap option_map fst snd].
  destruct (answer_is_answer _ _ _ _ _ _ answers) as [Hkind Hinf].
  assert (Hread : reads unicode_name (message_text msgID a) (Some (mkEnvelope msgID (message_body a)))) by (by apply message_reads).
  assert (Hni : b_Inform (e_Body (mkEnvelope msgID (message_body a))) = None) by (destruct a; done).
  destruct (linked_mail id msgID (rest, Some t) _ _ d1 w1 Hid Hl1 Hread Hni) as (s1 & Hs1 & Hq1 & Hm2).
  destruct (exchange_message unicode_name host clock id msgID d1 id_ok Hplain a rest (Some t) w1 Hl1 Haok Hfit Hinf)
    as (r2 & w2 & Hx2 & Hl2 & _). rewrite Hx2 in Hm2 |- *. cbn [fst snd] in *. rewrite Hkind in Hl2. cbn [spec_step] in Hl2.
  assert (Hp : published (Some (mkEnvelope msgID (message_body a))) s1 = Some (with_CommandID (t_CommandID t) r)).
  { unfold published. injection Hq1 as _ ->. cbn [mbind option_bind]. rewrite means. cbn [mbind option_bind].
    by rewrite decide_False. }
  rewrite Hp in Hm2.
  assert (Hs10 : mail s1 = mail s0).
  { rewrite Hmail in Hm1. unfold mail_of in Hm1. rewrite Hs1 in Hm1. exact (inj Some _ _ Hm1). }
  rewrite (deliver_mail _ _ _ Hs10) in Hm2.
  destruct (drain_tasks_keeps (λ v : world, ∃ tr, serves (w_st w2) tr (w_st v)) exch
    (λ text d w Hw, exchange_serves text d w _ Hw) n msgID (d1, w2)) as [tr Hs]; [by exists []; constructor|].
  destruct Hl2 as (_ & s2 & Hs2 & _ & _ & Hq2).
  destruct (serves_anonymous id _ _ _ Hs) as [_ Hkept]; [|by exists s2|].
  - intros s' Hs'. cbn [fst w_st] in Hs'. rewrite Hs2 in Hs'. injection Hs' as <-. intros u Hu.
    rewrite Forall_forall in Hrest. unfold holds in Hu. unfold queues in Hq2.
    destruct rest as [|u0 rest0]; cbn [pop] in Hq2; injection Hq2 as Hq2 Hf2; rewrite Hq2, Hf2 in Hu.
    + destruct Hu as [Hu|Hu]; [by apply elem_of_nil in Hu|done].
    + destruct Hu as [Hu|Hu]; apply Hrest; [by right|]. injection Hu as ->. by left.
  - unfold mail_of. cbn [fst w_st] in Hkept. rewrite Hkept. exact Hm2.
Qed.

(** The device's own messages come before the drain loop. *)
Lemma own_message b e q v : linked id msgID (q, None) v → sendable msgID b → answer_kind b = KOwnRPC →
  ∃ o v', exch (message_text msgID b) (e, v) = (o, (e, v')) ∧ linked id msgID (q, None) v' ∧ mail_of id v' = mail_of id v.
Proof.
  intros Hl [Hb Hfit] Hk. destruct id_ok as [Hid _]. pose proof (digits_plain msgID (proj1 msgID_ok)) as Hplain.
  assert (Hni : ∀ u f, b ≠ MInform u f) by (by intros u f ->).
  pose proof (linked_mail_kept id msgID q None _ (Some (mkEnvelope msgID (message_body b))) e v Hid Hl
    (message_reads unicode_name msgID b Hplain Hb Hfit)) as Hm.
  destruct (exchange_message unicode_name host clock id msgID e id_ok Hplain b q None v Hl Hb Hfit Hni) as (o & v' & Hx & Hl' & _).
  rewrite Hx in Hm. rewrite Hk in Hl'. exists (Some (response_text msgID o)), v'. split_and!; [done|done|].
  apply Hm; [by destruct b|by right].
Qed.

Lemma inform_mail w s : sessions (w_srv w) !! id = Some s →
  (∀ learn, learn = [] ∨ learn = first_contact (catalogue id w) → opening learn (held id w) = t :: learn) →
  ∃ learn w1, exch (informEnvelope (dev_now dev_clock w) msgID d) (d, w) = (Some (response_text msgID (Some (InformResponse 1))), (d, w1)) ∧
    (learn = [] ∨ learn = first_contact (catalogue id w)) ∧ linked id msgID (t :: learn, None) w1 ∧ mail_of id w1 = Some (mail s).
Proof.
  intros Hs Hopen. pose proof (digits_plain msgID (proj1 msgID_ok)) as Hplain. destruct can_open as (Hinf & _).
  set (u := dev_now dev_clock w). destruct (Hinf (w_turns w)) as [Hi1 Hi2]. fold (dev_now dev_clock w) in Hi1, Hi2. fold u in Hi1, Hi2.
  pose proof (exchange_mail id _ (Some (mkEnvelope msgID (message_body (MInform u d)))) d w s
    (message_reads unicode_name msgID (MInform u d) Hplain Hi1 Hi2) canonical Hs) as Hm1.
  assert (Hp0 : published (Some (mkEnvelope msgID (message_body (MInform u d)))) s = None).
  { unfold published. by destruct (inflight s). }
  rewrite Hp0 in Hm1. cbn [message_text] in Hm1.
  destruct (exchange_inform unicode_name host clock id msgID d id_ok Hplain u w canonical Hi1 Hi2)
    as (learn & w1 & Hx1 & Hlearn & Hl1 & _).
  rewrite Hx1 in Hm1. rewrite (Hopen _ Hlearn) in Hl1. by exists learn, w1.
Qed.

Lemma session_mail w s : sessions (w_srv w) !! id = Some s →
  (∀ learn, learn = [] ∨ learn = first_contact (catalogue id w) → opening learn (held id w) = t :: learn) →
  (∀ learn, learn = [] ∨ learn = first_contact (catalogue id w) →
     answers_ok m map_range msgID 64 (t :: learn) (takeTransfer (incInform d)).2) →
  mail_of id (sess w).2.2 = Some (mail (deliver (with_CommandID (t_CommandID t) r) s)).
Proof.
  intros Hs Hopen Hans. destruct can_open as (_ & Hrpc & Htc & Hatc).
  unfold runSession. cbn [fst snd].
  destruct (inform_mail w s Hs Hopen) as (learn & w1 & -> & Hlearn & Hl1 & Hm1). cbn [fst snd].
  assert (Hanon : Forall (λ u, t_CommandID u = "") learn).
  { destruct Hlearn as [->| ->]; [by constructor|]. unfold first_contact. constructor; [done|].
    destruct (catalogue id w); [constructor|]. by constructor. }
  destruct (own_message MGetRPCMethods (incInform d) _ w1 Hl1 Hrpc eq_refl) as (o2 & w2 & Hx2 & Hl2 & Hm2).
  cbn [message_text] in Hx2. rewrite Hx2. cbn [fst snd].
  destruct (own_message (MTransferComplete (dev_now dev_clock w2)) (incInform d) _ w2 Hl2 (Htc _) eq_refl) as (o3 & w3 & Hx3 & Hl3 & Hm3).
  cbn [message_text] in Hx3. rewrite Hx3. cbn [fst snd].
  pose proof (drain_delivers learn) as Hdrain. specialize (Hans _ Hlearn).
  destruct (takeTransfer (incInform d)) as [[f|] d0]; cbn [fst snd] in *.
  - destruct (own_message (MATC (dev_now dev_clock w3) (x_name f) (x_size f)) d0 _ w3 Hl3 (Hatc _) eq_refl) as (o4 & w4 & Hx4 & Hl4 & Hm4).
    cbn [message_text] in Hx4. rewrite Hx4. cbn [fst snd]. apply Hdrain; [done..|]. by rewrite Hm4, Hm3, Hm2, Hm1.
  - apply Hdrain; [done..|]. by rewrite Hm3, Hm2, Hm1.
Qed.

Lemma own_reads learn fc : learn = [] ∨ learn = first_contact fc →
  foldl (run_task m map_range) (takeTransfer (incInform d)).2 (evens (take 128 (t :: learn))) = d1 ∧
  ∃ fl, left_over 64 (t :: learn) None = ([], fl) ∧ orphan fl = [].
Proof.
  assert (Hrun : run_task m map_range (takeTransfer (incInform d)).2 t = d1) by (unfold run_task; by rewrite answers).
  unfold first_contact. intros [->| ->]; [|destruct fc as [|p fc]]; cbn [take evens foldl]; rewrite Hrun; split; try done;
    eexists; split; reflexivity.
Qed.

Lemma session_delivers w s : sessions (w_srv w) !! id = Some s → taskQueue s = [t] → orphan (inflight s) = [] →
  (∀ learn, learn = [] ∨ learn = first_contact (firstContactGPV s) →
     answers_ok m map_range msgID 64 (t :: learn) (takeTransfer (incInform d)).2) →
  ∃ w' s', sess w = (false, (d1, w')) ∧ sessions (w_srv w') !! id = Some s' ∧
    mail s' = mail (deliver (with_CommandID (t_CommandID t) r) s) ∧ settled s' ∧
    firstContactGPV s' = firstContactGPV s ∧ srv_cr (w_srv w') = srv_cr (w_srv w).
Proof.
  intros Hs Hq Ho Hans.
  assert (Hcat : catalogue id w = firstContactGPV s) by (unfold catalogue; by rewrite Hs).
  assert (Hheld : held id w = ([t], inflight s)) by (unfold held, queues; by rewrite Hs, Hq).
  assert (Hopen : ∀ learn, learn = [] ∨ learn = first_contact (catalogue id w) → opening learn (held id w) = t :: learn).
  { intros learn Hl. rewrite Hheld. by eapply opening_one. }
  rewrite <- Hcat in Hans. pose proof (session_mail w s Hs Hopen Hans) as Hmail.
  destruct (session_alternates unicode_name host clock dev_clock m map_range id msgID d w canonical (proj1 id_ok) (proj2 id_ok)
    (proj1 msgID_ok) (proj2 msgID_ok) can_open) as (learn & w' & Hlearn & Hrun & Hleft & _).
  { intros learn Hl. rewrite (Hopen _ Hl). by apply Hans. }
  rewrite (Hopen _ Hlearn) in Hrun, Hleft. destruct (own_reads _ _ Hlearn) as [Hd (fl & Hfl & Hofl)].
  rewrite Hd in Hrun. rewrite Hrun in Hmail |- *. cbn [fst snd] in Hmail.
  assert (Hserves : ∃ tr, serves (w_st w) tr (w_st w')).
  { pose proof (runSession_keeps (λ v : world, ∃ tr, serves (w_st w) tr (w_st v)) exch (dev_now dev_clock)
      (λ text d w Hw, exchange_serves text d w _ Hw) msgID (d, w)) as Hk. rewrite Hrun in Hk. apply Hk. by exists []; constructor. }
  destruct Hserves as [tr Hserves]. destruct (serves_keeps id _ _ _ s Hserves Hs) as (Hcr & s' & Hs' & Hfc).
  exists w', s'. cbn [fst w_st] in Hs', Hcr. split_and!; [done|done| | |done|done].
  - unfold mail_of in Hmail. rewrite Hs' in Hmail. exact (inj Some _ _ Hmail).
  - unfold held in Hleft. rewrite Hs' in Hleft. change maxSessionTasks with 64 in Hleft. rewrite Hfl in Hleft.
    unfold settled. injection Hleft as -> ->. done.
Qed.
End OneTask.

(** ** A call that the device answers *)

(** The turns in which the device's loop wakes up, by its ticker, or because the
    connection request that the call sent has reached its listener. *)
Definition visit (dial : bool) : list (turn loop_turn) :=
  if dial then [Dial 0; Outside DialNow] else [Outside Tick].

(** The messages of the device's next session, with the task at the head of the
    queue, can be sent and read; the device turns into [d1], and its answer to the
    task reads as [r]. *)
Record answers_task (id : string) (fc : list string) (msgs : Z) (d : device) (t : Task) (d1 : device) (r : TaskResult) : Prop := {
  at_counter : (0 ≤ msgs)%Z;
  at_canonical : CanonicalID (oui d) (productClass d) (serial d) = id;
  at_open : opening_ok dev_clock (nextMsgID msgs).1 d;
  at_send learn : learn = [] ∨ learn = first_contact fc →
    answers_ok m map_range (nextMsgID msgs).1 64 (t :: learn) (takeTransfer (incInform d)).2;
  at_answer : ∃ a, answer m map_range t (takeTransfer (incInform d)).2 = Some (a, d1) ∧
    answer_of (Some (mkEnvelope (nextMsgID msgs).1 (message_body a))) t = Some r }.

Lemma nextMsgID_digits z : (0 ≤ z)%Z → all_bytes is_digit (nextMsgID z).1 = true ∧ (nextMsgID z).1 ≠ "".
Proof.
  intros Hz. cbn [nextMsgID fst]. split; [|apply pretty_visible]. apply pretty_Z_all; [|left; lia].
  intros x. unfold pretty_N_char. repeat case_match; reflexivity.
Qed.

(** The device's process runs the session of [ClosedLoop]. *)
Lemma device_session_eq srv store p reg d' w' :
  runSession unicode_name exch (dev_now dev_clock) map_range m (nextMsgID (p_msgs p)).1
    (p_dev p, mkWorld srv store (p_jar p) (p_turns p)) = (reg, (d', w')) →
  ∃ log, device_session ((srv, store), p) =
    (log, ((w_srv w', w_store w'), mkPlant d' (w_jar w') (w_turns w') (p_msgs p + 1) (p_dial p) (p_cloud p))).
Proof.
  intros Hrun. unfold device_session. cbn [nextMsgID fst] in *.
  pose proof (runSession_project (W := lw) fst logged (λ w : lw, dev_now dev_clock w.1) exch (dev_now dev_clock)) as Hp.
  specialize (Hp (λ text d w, ltac:(unfold proj, logged; destruct w as [w log]; cbn [fst snd];
    by destruct (exch text (d, w)) as [o [d2 w2]])) (λ w, eq_refl) (pretty (p_msgs p + 1)%Z) (p_dev p)
    (mkWorld srv store (p_jar p) (p_turns p), [])).
  cbn [fst] in Hp. rewrite Hrun in Hp. destruct (runSession unicode_name logged _ _ _ _ _) as [reg' [d2 [w2 log]]].
  unfold proj in Hp. cbn [fst snd] in Hp. injection Hp as -> -> ->. by exists log.
Qed.

(** What a call or a visit keeps. *)
Definition keeps (id : string) (s s' : Session) (n n' : net loop_turn plant) : Prop :=
  firstContactGPV s' = firstContactGPV s ∧ srv_cr (n_srv n') = srv_cr (n_srv n) ∧ p_cloud (n_out n') = p_cloud (n_out n) ∧
  (Forall (eq id) (n_dials n) → Forall (eq id) (n_dials n')).

Section Visit.
Variable id : string.
Hypothesis id_ok : id ≠ "" ∧ all_bytes cookie_byte id = true.

(** The connection request reaches the device. *)
Definition dials (srv : Server) : Prop :=
  cr_urlOverride (srv_cr srv) ≠ "" ∧ reachable (cr_urlOverride (srv_cr srv)) = true.

Lemma session_visit t d1 r srv store p s : sessions srv !! id = Some s → taskQueue s = [t] → orphan (inflight s) = [] →
  t_CommandID t ≠ "" → answers_task id (firstContactGPV s) (p_msgs p) (p_dev p) t d1 r →
  ∃ log srv' store' p' s', device_session ((srv, store), p) = (log, ((srv', store'), p')) ∧
    sessions srv' !! id = Some s' ∧ mail s' = mail (deliver (with_CommandID (t_CommandID t) r) s) ∧ settled s' ∧
    firstContactGPV s' = firstContactGPV s ∧ srv_cr srv' = srv_cr srv ∧ p_cloud p' = p_cloud p ∧ p_dev p' = d1 ∧
    p_msgs p' = (p_msgs p + 1)%Z.
Proof.
  intros Hs Hq Ho Hne [Hc Hcan Hopen Hsend (a & Ha & Hr)].
  destruct (session_delivers id (nextMsgID (p_msgs p)).1 (p_dev p) t a d1 r Hcan id_ok (nextMsgID_digits _ Hc) Hopen Hne Ha Hr
    (mkWorld srv store (p_jar p) (p_turns p)) s Hs Hq Ho Hsend) as (w' & s' & Hrun & Hs' & Hm & Hset & Hfc & Hcr).
  destruct (device_session_eq srv store p _ _ _ Hrun) as [log Hdev].
  eexists log, _, _, _, s'. split; [exact Hdev|]. done.
Qed.

Lemma triggerCR_dials store (n : net loop_turn plant) : dials (n_srv n) →
  triggerCR listener RequestURI id (store, n) = (store, mkNet (n_srv n) (n_dials n) (n_turns n)
    (set_dial (if decide (p_dial (n_out n) < 1) then Datatypes.S (p_dial (n_out n)) else p_dial (n_out n)) (n_out n))).
Proof.
  intros [Hne Hreach]. unfold triggerCR, on_server, crURL. rewrite decide_True by done. rewrite decide_False by done.
  unfold TriggerConnectionRequest, listener. cbn [n_out n_srv n_dials n_turns]. by rewrite Hreach, decide_True.
Qed.

(** Whatever waits, the device's visit is a step of its loop. *)
Lemma visit_steps (dial : bool) t d1 r store (n : net loop_turn plant) s : at_id id (store, n) s → taskQueue s = [t] →
  orphan (inflight s) = [] → t_CommandID t ≠ "" → answers_task id (firstContactGPV s) (p_msgs (n_out n)) (p_dev (n_out n)) t d1 r →
  (if dial then dials (n_srv n) ∧ n_dials n ≠ [] ∧ Forall (eq id) (n_dials n) else True) →
  ∃ log (store' : S) (n' : net loop_turn plant) s', (∀ turns a, returned a = None →
      await_loop device_turn listener RequestURI id (visit dial ++ turns) a (store, n) =
      (let '(q, tr, z) := await_loop device_turn listener RequestURI id turns a (store', n') in (q, log ++ tr, z))) ∧
    at_id id (store', n') s' ∧ mail s' = mail (deliver (with_CommandID (t_CommandID t) r) s) ∧ settled s' ∧
    keeps id s s' n n' ∧ p_dev (n_out n') = d1 ∧ p_msgs (n_out n') = (p_msgs (n_out n) + 1)%Z.
Proof.
  intros Hs Hq Ho Hne Hans Hdial. unfold at_id in Hs. cbn [snd] in Hs. destruct dial.
  - destruct Hdial as (Hd & Hne' & Hall). destruct (n_dials n) as [|dev l] eqn:Hl; [done|].
    apply Forall_cons in Hall as [<- Hall].
    set (p := set_dial (if decide (p_dial (n_out n) < 1) then Datatypes.S (p_dial (n_out n)) else p_dial (n_out n)) (n_out n)).
    assert (Hpd : ∃ k, p_dial p = Datatypes.S k).
    { unfold p. cbn [p_dial set_dial]. case_decide; [by eexists|]. exists (p_dial (n_out n) - 1). lia. }
    destruct Hpd as [k Hk].
    assert (Hans' : answers_task id (firstContactGPV s) (p_msgs (set_dial k p)) (p_dev (set_dial k p)) t d1 r) by (by destruct Hans).
    destruct (session_visit t d1 r (n_srv n) store (set_dial k p) s Hs Hq Ho Hne Hans')
      as (log & srv' & store' & p' & s' & Hdev & Hs' & Hm & Hset & Hfc & Hcr & Hcl & Hd1 & Hms).
    exists log, store', (mkNet srv' l (n_turns n) p'), s'. split_and!; [|done|done|done|split_and!; [done|done|exact Hcl|by intros]|done|exact Hms].
    intros turns a Ha. cbn [visit app await_loop]. rewrite Ha. cbn [take_turn other_turn snd]. rewrite Hl. cbn [lookup list_lookup].
    unfold set_dials. cbn [fst snd]. rewrite (triggerCR_dials store (mkNet _ _ _ _)) by done. fold p.
    cbn [take_turn other_turn device_turn n_out n_srv n_dials n_turns snd]. fold p. rewrite Hk. cbn [fst]. rewrite Hdev, Ha.
    change (delete 0 (id :: l)) with l. by destruct (await_loop _ _ _ _ turns _ _) as [[]].
  - destruct (session_visit t d1 r (n_srv n) store (n_out n) s Hs Hq Ho Hne Hans)
      as (log & srv' & store' & p' & s' & Hdev & Hs' & Hm & Hset & Hfc & Hcr & Hcl & Hd1 & Hms).
    exists log, store', (mkNet srv' (n_dials n) (n_turns n) p'), s'. split_and!; [|done|done|done|done|done|exact Hms].
    intros turns a Ha. cbn [visit app await_loop]. rewrite Ha. cbn [take_turn other_turn device_turn]. rewrite Hdev.
    by destruct (await_loop _ _ _ _ turns _ _) as [[]].
Qed.

(** Queueing the task and registering, with the caller's goroutine going on at
    once. *)
Lemma call_starts t store (n : net loop_turn plant) c s turns : at_id id (store, n) s → settled s → t_CommandID t ≠ "" →
  n_turns n = Wake c :: turns →
  ∃ (n1 : net loop_turn plant) s1 ch,
    call id t (store, n) = await_loop device_turn listener RequestURI id turns (AwWait (t_CommandID t) ch) (store, n1) ∧
    at_id id (store, n1) s1 ∧ taskQueue s1 = [t] ∧ inflight s1 = inflight s ∧ firstContactGPV s1 = firstContactGPV s ∧
    (∀ r, ∃ cs, mail (deliver (with_CommandID (t_CommandID t) r) s1) = (results s, waiters s1, cs) ∧
       cs !! ch = Some (Some (with_CommandID (t_CommandID t) r))) ∧
    srv_cr (n_srv n1) = srv_cr (n_srv n) ∧ n_dials n1 = n_dials n ++ [id] ∧ n_out n1 = n_out n.
Proof.
  intros Hs [Hq Ho] Hne Ht. unfold at_id in Hs. cbn [snd] in Hs.
  assert (Henq : enqueue t s = set_taskQueue [t] s) by (unfold enqueue; by rewrite Hq).
  set (s1 := (waitFor (t_CommandID t) (set_taskQueue [t] s)).2). set (ch := length (chans s)).
  exists (mkNet (set_session id s1 (set_session id (set_taskQueue [t] s) (n_srv n))) (n_dials n ++ [id]) turns (n_out n)), s1, ch.
  split_and!; try done.
  - unfold call, RequestAndAwait, on_server, Enqueue, on_session, deviceSessionLocked. rewrite Hs. cbn [fst snd]. rewrite Hs, Henq.
    unfold set_dials. cbn [snd fst n_turns n_dials n_srv n_out]. rewrite Ht. cbn [meanwhile].
    unfold Await, on_server, on_session, deviceSessionLocked, set_turns. cbn [snd fst n_srv n_dials n_out set_session sessions].
    rewrite lookup_insert_eq. cbn [fst snd set_session sessions]. rewrite lookup_insert_eq. unfold Await_start. rewrite decide_False by done.
    cbn [waitFor fst snd n_turns n_dials n_out]. fold s1. change (length (chans (set_taskQueue [t] s))) with ch.
    by destruct (await_loop device_turn listener RequestURI id turns _ _) as [[]].
  - unfold at_id. cbn [snd n_srv set_session sessions]. by rewrite lookup_insert_eq.
  - intros r. exists (chans s ++ [Some (with_CommandID (t_CommandID t) r)]). split; [|by rewrite lookup_app_r, Nat.sub_diag].
    unfold deliver, send_result, s1. cbn [waitFor snd tr_CommandID with_CommandID waiters set_waiters set_chans]. rewrite lookup_insert_eq.
    cbn [chans set_waiters set_chans set_taskQueue]. rewrite lookup_app_r, Nat.sub_diag by done. cbn.
    unfold mail. cbn. do 2 f_equal. rewrite insert_app_r_alt, Nat.sub_diag by done. done.
Qed.

(** The device's visit, and then the select: the call returns its answer. *)
Lemma call_returns (dial : bool) t d1 r store (n : net loop_turn plant) c s rest :
  at_id id (store, n) s → settled s → t_CommandID t ≠ "" → n_turns n = Wake c :: visit dial ++ Wake Mine :: rest →
  answers_task id (firstContactGPV s) (p_msgs (n_out n)) (p_dev (n_out n)) t d1 r → (dial = true → dials (n_srv n)) → Forall (eq id) (n_dials n) →
  ∃ tr (store' : S) (n' : net loop_turn plant) s',
    call id t (store, n) = (Some (with_CommandID (t_CommandID t) r), tr, (store', n')) ∧
    at_id id (store', n') s' ∧ settled s' ∧ keeps id s s' n n' ∧ n_turns n' = rest ∧
    p_dev (n_out n') = d1 ∧ p_msgs (n_out n') = (p_msgs (n_out n) + 1)%Z.
Proof.
  intros Hs Hset Hne Ht Hans Hd Hall.
  destruct (call_starts t store n c s _ Hs Hset Hne Ht) as (n1 & s1 & ch & -> & Hs1 & Hq1 & Hf1 & Hfc1 & Hdel & Hcr1 & Hdl1 & Hout1).
  destruct (Hdel r) as (cs & Hmail & Hcs).
  destruct (visit_steps dial t d1 r store n1 s1 Hs1 Hq1) as (log & store2 & n2 & s2 & Hloop & Hs2 & Hm2 & Hset2 & Hkeep & Hd2 & Hms2).
  { rewrite Hf1. apply Hset. }
  { done. }
  { by rewrite Hfc1, Hout1. }
  { destruct dial; [|done]. split; [unfold dials; rewrite Hcr1; by apply Hd|]. rewrite Hdl1. split; [by destruct (n_dials n)|].
    apply Forall_app. split; [done|by apply Forall_singleton]. }
  rewrite Hloop by done. cbn [await_loop returned take_turn]. unfold at_id in Hs2. cbn [snd] in Hs2.
  unfold on_held, on_server. rewrite Hs2. unfold wake, recv_mine. rewrite Hmail in Hm2. injection Hm2 as Hr2 Hw2 Hc2.
  rewrite Hc2, Hcs. cbn [default from_option Datatypes.id].
  set (s' := release (t_CommandID t) (set_chans (<[ch:=None]> cs) s2)).
  assert (Hend : ∃ tr, await_loop device_turn listener RequestURI id rest (AwDone (t_CommandID t) (Some (with_CommandID (t_CommandID t) r)))
    (store2, mkNet (set_session id s' (n_srv n2)) (n_dials n2) (n_turns n2) (n_out n2)) =
    (Some (with_CommandID (t_CommandID t) r), tr, (store2, mkNet (set_session id s' (n_srv n2)) (n_dials n2) rest (n_out n2)))).
  { eexists. by destruct rest. }
  destruct Hend as [tr ->]. destruct Hkeep as (Hk1 & Hk2 & Hk4 & Hk3). eexists _, store2, _, s'. split; [reflexivity|].
  split; [unfold at_id; cbn; apply lookup_insert_eq|]. split; [exact Hset2|]. split; [|split; [done|]; split; [exact Hd2|by rewrite <- Hout1]].
  split; [cbn; congruence|]. split; [cbn; congruence|]. split; [cbn; congruence|]. intros _. apply Hk3. rewrite Hdl1. apply Forall_app.
  split; [done|by apply Forall_singleton].
Qed.

(** One call after another, as the worker's goroutine makes them. *)
Fixpoint calls (ts : list Task) (x : S * net loop_turn plant) : list (option TaskResult) * list served * (S * net loop_turn plant) :=
  match ts with
  | [] => ([], [], x)
  | t :: ts =>
      let '(r, tr, x) := call id t x in
      let '(rs, tr', x) := calls ts x in
      (r :: rs, tr ++ tr', x)
  end.

(** A task, how the device comes to visit for it, what the select is ready for
    before, the device after it and its answer. *)
Record job := mkJob { j_task : Task; j_dial : bool; j_first : choice; j_dev : device; j_answer : TaskResult }.

Definition job_turns (j : job) : list (turn loop_turn) := Wake (j_first j) :: visit (j_dial j) ++ [Wake Mine].
Definition job_result (j : job) : option TaskResult := Some (with_CommandID (t_CommandID (j_task j)) (j_answer j)).

(** A device that can answer all the tasks, one after another. *)
Fixpoint answers_all (fc : list string) (msgs : Z) (d : device) (js : list job) : Prop :=
  match js with
  | [] => True
  | j :: js =>
      t_CommandID (j_task j) ≠ "" ∧ answers_task id fc msgs d (j_task j) (j_dev j) (j_answer j) ∧
      answers_all fc (msgs + 1) (j_dev j) js
  end.

(** C8: Calls on a device that visits while each waits, be it by its own clock or
    because the connection request woke it, all return, each with the device's
    answer to its own task, whatever the tasks are and however many; the device
    has performed them all in order, and nothing is left behind in the session. *)
Theorem calls_complete js rest : ∀ store (n : net loop_turn plant) s,
  at_id id (store, n) s → settled s → n_turns n = (js ≫= job_turns) ++ rest →
  answers_all (firstContactGPV s) (p_msgs (n_out n)) (p_dev (n_out n)) js →
  (Exists (λ j, j_dial j = true) js → dials (n_srv n)) → Forall (eq id) (n_dials n) →
  ∃ tr (store' : S) (n' : net loop_turn plant) s',
    calls (j_task <$> js) (store, n) = (job_result <$> js, tr, (store', n')) ∧
    at_id id (store', n') s' ∧ settled s' ∧ n_turns n' = rest ∧
    p_dev (n_out n') = default (p_dev (n_out n)) (last (j_dev <$> js)).
Proof.
  induction js as [|j js IH]; intros store n s Hs Hset Ht Hans Hd Hall; [by eexists [], store, n, s|].
  destruct Hans as (Hne & Hans & Hrest). rewrite bind_cons in Ht.
  assert (Ht' : n_turns n = Wake (j_first j) :: visit (j_dial j) ++ Wake Mine :: (js ≫= job_turns) ++ rest).
  { rewrite Ht. unfold job_turns at 1. simpl. by rewrite <- !app_assoc. }
  destruct (call_returns (j_dial j) (j_task j) _ _ store n _ s _ Hs Hset Hne Ht' Hans (λ Hj, Hd (Exists_cons_hd _ _ _ Hj)) Hall)
    as (tr & store1 & n1 & s1 & Hc & Hs1 & Hset1 & (Hfc & Hcr & _ & Hdl) & Ht1 & Hd1 & Hms1).
  destruct (IH store1 n1 s1 Hs1 Hset1 Ht1) as (tr' & store' & n' & s' & Hcs & Hs' & Hset' & Hend & Hdev).
  { by rewrite Hfc, Hms1, Hd1. }
  { intros Hj. unfold dials. rewrite Hcr. by apply Hd, Exists_cons_tl. }
  { by apply Hdl. }
  exists (tr ++ tr'), store', n', s'. rewrite !fmap_cons. cbn [calls]. rewrite Hc, Hcs.
  split_and!; [done..|]. rewrite Hdev, Hd1. rewrite last_cons. by destruct (last (j_dev <$> js)).
Qed.
End Visit.
End EndToEnd.

(** ** A witness

    The device of [ClosedLoop], poked to take a write and then read on its own
    clock. *)
Definition ex_task : Task := ex_set "Device.A" "1" "c1".
Definition ex_read : Task := mkTask TaskGPV ["Device.A"] [] "" "c2".
Definition ex_agent : Server * sql :=
  deviceSessionLocked ex_id (UseConnRequest "acs" "pw" "http://10.0.0.5:30005/" NewServer, ex_store).
Definition ex_written : device := set [("Device.A", "1")] (takeTransfer (incInform ex_device)).2.
Definition ex_readout : device := (takeTransfer (incInform ex_written)).2.
Definition ex_jobs : list job :=
  [mkJob ex_task true Mine ex_written (mkResult "" TaskSPV ∅ [] 0 "");
   mkJob ex_read false Shared ex_readout (mkResult "" TaskGPV {["Device.A" := "1"]} [] 0 "")].
Definition ex_waiting : net loop_turn plant :=
  mkNet ex_agent.1 [] (ex_jobs ≫= job_turns) (mkPlant ex_device None 0 0 0 (initial_state "")).
Definition ex_waiting_session : Session := default (newSessionLocked NewServer) (sessions ex_agent.1 !! ex_id).

Lemma ex_waiting_at : at_id ex_id (ex_agent.2, ex_waiting) ex_waiting_session ∧ settled ex_waiting_session ∧
  firstContactGPV ex_waiting_session = [] ∧ dials (String.eqb "http://10.0.0.5:30005/") (n_srv ex_waiting).
Proof. split_and!; try (vm_compute; reflexivity); vm_compute; done. Qed.

(** The next session of the device, after it was written to. *)
Lemma ex_reopening msgID d : oui d = oui ex_device → productClass d = productClass ex_device → serial d = serial ex_device →
  get (inform_paths d) d = [] → (takeTransfer (incInform d)).1 = None →
  bool_decide (fits (message_text msgID (MInform 5 d))) = true → bool_decide (fits (message_text msgID MGetRPCMethods)) = true →
  bool_decide (fits (message_text msgID (MTransferComplete 5))) = true →
  opening_ok (λ _, 5%Z) msgID d.
Proof.
  intros Ho Hp Hs Hg Ht H1 H2 H3.
  unfold opening_ok. rewrite Ht. split_and!; [|exact (ex_sendable _ _ H2 I)|intros n; exact (ex_sendable _ _ H3 I)|exact I].
  intros n. apply (ex_sendable _ _ H1). cbn [message_ok]. rewrite Ho, Hp, Hs, Hg. by split_and!.
Qed.

Lemma ex_write_answer : answers_task (λ _, 5%Z) (loadManifest []) paths_of ex_id [] 0 ex_device ex_task ex_written
  (mkResult "" TaskSPV ∅ [] 0 "").
Proof.
  split; [done|reflexivity|exact ex_opening| |by exists MSPVResponse].
  intros learn [->| ->]; (split; [split; [apply Forall_singleton; split_and!|]; reflexivity|]; split; [by apply ex_sendable|exact I]).
Qed.

Lemma ex_read_answer : answers_task (λ _, 5%Z) (loadManifest []) paths_of ex_id [] 1 ex_written ex_read ex_readout
  (mkResult "" TaskGPV {["Device.A" := "1"]} [] 0 "").
Proof.
  assert (Hget : get ["Device.A"] ex_readout = [("Device.A", "1")]) by (vm_compute; reflexivity).
  assert (Hans : answer (loadManifest []) paths_of ex_read ex_readout =
    Some (MGPVResponse (loadManifest []) [("Device.A", "1")], ex_readout)).
  { unfold answer. cbn [request_of ex_read t_Type t_Paths]. by rewrite Hget. }
  split; [done|reflexivity| | |].
  - apply ex_reopening; vm_compute; reflexivity.
  - intros learn Hlearn. fold ex_readout. cbn [answers_ok]. rewrite Hans.
    split; [by repeat constructor|]. split; [apply ex_sendable; [vm_compute; reflexivity|]; repeat constructor|].
    by destruct Hlearn as [->| ->].
  - fold ex_readout. rewrite Hans. by eexists.
Qed.

Abbreviation ex_calls := (calls (λ _, false) "10.0.0.5" (λ _, 5%Z) (λ _, 5%Z) (loadManifest []) paths_of
  (String.eqb "http://10.0.0.5:30005/") (λ _, None) ex_id).

Lemma calls_complete_witness : ∃ tr (store' : sql) n',
  ex_calls [ex_task; ex_read] (ex_agent.2, ex_waiting) =
    ([Some (mkResult "c1" TaskSPV ∅ [] 0 ""); Some (mkResult "c2" TaskGPV {["Device.A" := "1"]} [] 0 "")], tr, (store', n')) ∧
  p_dev (n_out n') = ex_readout.
Proof.
  destruct ex_waiting_at as (Hat & Hset & Hfc & Hd).
  assert (Hid : ex_id ≠ "" ∧ all_bytes cookie_byte ex_id = true) by (split; [done|vm_compute; reflexivity]).
  assert (Hans : answers_all (λ _, 5%Z) (loadManifest []) paths_of ex_id (firstContactGPV ex_waiting_session)
    (p_msgs (n_out ex_waiting)) (p_dev (n_out ex_waiting)) ex_jobs).
  { rewrite Hfc. split; [done|]. split; [exact ex_write_answer|]. split; [done|]. split; [exact ex_read_answer|exact I]. }
  destruct (calls_complete (λ _, false) "10.0.0.5" (λ _, 5%Z) (λ _, 5%Z) (loadManifest []) paths_of
    (String.eqb "http://10.0.0.5:30005/") (λ _, None) ex_id Hid ex_jobs [] ex_agent.2 ex_waiting
    ex_waiting_session Hat Hset (eq_sym (app_nil_r _)) Hans (λ _, Hd) (Forall_nil_2 _)) as (tr & store' & n' & s' & Hrun & _ & _ & _ & Hdev).
  exists tr, store', n'. exact (conj Hrun Hdev).
Defined.
