(* ===== verification/Address.v ===== *)
(** * A device's address in the buffer
    (goagent/internal/buffer/cwmp_store.go, goagent/internal/cwmp/session.go)

    The worker refuses commands for a device whose address the buffer does not
    hold.  The address is written by the device's Inform; from then on no request
    of any device, whatever fails, takes it away. *)
From S2P Require Import Prelude GoStrings DeviceId CloudTypes Db CwmpTypes CwmpStore Session Soap Xml SoapDecode Server Await.
From S2P Require Import DeviceSim CloudSim Wire Uplink ConnRequest ClosedLoop RequestAwait EndToEnd.

Definition known_in (id : string) (x : db) : Prop := ∃ row, cwmp_devices x !! id = Some row ∧ dv_ip row ≠ "".
Definition known (id : string) (s : sql) : Prop := known_in id (sdb s).

Definition addressed (s s' : sql) : Prop := ∀ id, known id s → known id s'.

#[export] Instance addressed_preorder : PreOrder addressed.
Proof. split; [by intros s id|]. intros s1 s2 s3 H1 H2 id H. auto. Qed.

(** ** Statements *)

Definition keeps_address (f : db → db) : Prop := ∀ x id, known_in id x → known_in id (f x).

(** A computation all of whose runs keep the addresses, failed or not. *)
Definition addressing {A} (m : DB A) : Prop := ∀ s, addressed s (m s).2.

Create HintDb address.

Lemma addressing_ret {A} (a : A) : addressing (mret a).
Proof. by intros s. Qed.

Lemma addressing_bind {A B} (m : DB A) (f : A → DB B) : addressing m → (∀ a, addressing (f a)) → addressing (m ≫= f).
Proof.
  intros Hm Hf s. rewrite SE_bind_unfold. specialize (Hm s). destruct (m s) as [[a|e] s1]; [|done].
  etrans; [exact Hm|apply Hf].
Qed.

Lemma addressing_stmt {A} (f : db → A * db) : keeps_address (λ x, (f x).2) → addressing (stmt f).
Proof.
  intros Hf s id. unfold known, stmt. specialize (Hf (sdb s) id).
  cbn beta in Hf. destruct (f (sdb s)) as [a x]. destruct (faults s) as [|[e|] fs]; [exact Hf|by intros ?|exact Hf].
Qed.
Lemma keeps_address_same (f : db → db) : (∀ x, cwmp_devices (f x) = cwmp_devices x) → keeps_address f.
Proof. intros Hf x id. unfold known_in. by rewrite Hf. Qed.

Lemma addressing_query {A} (f : db → A) : addressing (query f).
Proof. by apply addressing_stmt, keeps_address_same. Qed.
Lemma addressing_exec f : keeps_address f → addressing (exec f).
Proof. intros Hf. by apply addressing_stmt. Qed.

Lemma addressing_in_tx {A} (body : DB A) : addressing body → addressing (in_tx body).
Proof.
  intros Hb s. unfold in_tx. assert (Hid : keeps_address id) by by apply keeps_address_same.
  pose proof (addressing_exec id Hid s) as H1. destruct (exec id s) as [[[]|e] s1]; [|done]. cbn [snd] in H1.
  specialize (Hb s1). destruct (body s1) as [[a|e] s2]; cbn [snd] in *; [|exact H1].
  pose proof (addressing_exec id Hid s2) as H3. destruct (exec id s2) as [[[]|e] s3]; cbn [snd] in *; [|exact H1].
  by etrans; [|etrans].
Qed.

Lemma addressing_for_each {A} (l : list A) f : (∀ x, addressing (f x)) → addressing (for_each l f).
Proof. intros Hf. induction l; simpl; auto using addressing_ret, addressing_bind. Qed.

Lemma addressing_read_rows {A} (rows : list A) : addressing (read_rows rows).
Proof.
  intros s. unfold read_rows. pose proof (addressing_query (λ _, rows) s) as Hq. unfold query in Hq.
  by destruct (stmt _ s) as [[?|[]] ?].
Qed.

#[export] Hint Resolve addressing_ret addressing_bind addressing_query addressing_exec addressing_in_tx addressing_for_each
  addressing_read_rows : address.
#[export] Hint Extern 1 (keeps_address _) => by apply keeps_address_same : address.

Lemma keeps_upsert d : d_IP d ≠ "" → keeps_address (upsert_device d).
Proof.
  intros Hip x id (row & Hr & Hne). unfold known_in, upsert_device. simpl. destruct (decide (d_DeviceID d = id)) as [<-|Hd].
  - rewrite lookup_insert_eq. eexists. split; [reflexivity|done].
  - rewrite lookup_insert_ne by done. by exists row.
Qed.

Lemma keeps_set_loaded dev : keeps_address (set_loaded dev).
Proof.
  intros x id (row & Hr & Hne). unfold known_in, set_loaded. simpl. destruct (decide (dev = id)) as [<-|Hd].
  - rewrite lookup_alter_eq, Hr. eexists. split; [reflexivity|done].
  - rewrite lookup_alter_ne by done. by exists row.
Qed.
#[export] Hint Resolve keeps_upsert keeps_set_loaded : address.

(** ** The store's operations *)

Lemma addressed_UpsertDevice d (s : sql) : d_IP d ≠ "" → addressed s (UpsertDevice d s).
Proof. intros Hd. apply (addressing_exec _ (keeps_upsert d Hd)). Qed.
Lemma addressed_CacheParam now dev p v (s : sql) : addressed s (CacheParam now dev p v s).
Proof. by apply addressing_exec, keeps_address_same. Qed.
Lemma addressed_EmitEvent now dev m ty sev msg (s : sql) : addressed s (EmitEvent now dev m ty sev msg s).
Proof. by apply addressing_exec, keeps_address_same. Qed.
Lemma addressed_SaveWritability now dev l (s : sql) : addressed s (SaveWritability now dev l s).
Proof.
  simpl. unfold Buffer_SaveWritability, ignore_err.
  match goal with |- addressed s (?m s).2 => enough (addressing m) by done end. auto 6 with address.
Qed.
Lemma addressed_HasWritabilityMap dev (s : sql) : addressed s (HasWritabilityMap dev s).2.
Proof.
  simpl. unfold Buffer_HasWritabilityMap. pose proof (addressing_query (λ x, cwmp_devices x !! dev) s).
  by destruct (query _ s) as [[[]|] ?].
Qed.
Lemma addressed_StoreDeviceIP dev (s : sql) : addressed s (StoreDeviceIP dev s).2.
Proof.
  simpl. unfold Buffer_DeviceIP. pose proof (addressing_query (λ x, cwmp_devices x !! dev) s).
  by destruct (query _ s) as [[[]|] ?].
Qed.
Lemma addressed_GetParams dev paths (s : sql) : addressed s (GetParams dev paths s).2.
Proof.
  simpl. unfold Buffer_GetParams. destruct paths as [|p paths]; [done|].
  match goal with |- context [mbind ?f ?m s] =>
    assert (Hq : addressing (m ≫= f)) by auto with address; specialize (Hq s); destruct (mbind f m s) as [[] ?] end; done.
Qed.

(** ** Sessions and requests *)

Lemma addressed_foldl {A B} (g : B → sql) (f : B → A → B) (l : list A) :
  (∀ b a, addressed (g b) (g (f b a))) → ∀ b, addressed (g b) (g (foldl f b l)).
Proof. intros Hf. induction l as [|a l IH]; intros b; simpl; [done|]. etrans; [apply Hf|apply IH]. Qed.

Lemma addressed_onInform now inf s (store : sql) : s_IP s ≠ "" → addressed store (onInform now inf (s, store)).2.2.
Proof.
  intros Hip. unfold onInform. set (dev := CanonicalID _ _ _). cbv zeta.
  match goal with |- context [HasWritabilityMap dev ?st] => pose proof (addressed_HasWritabilityMap dev st) as Hh;
    assert (Hs : addressed store st) end.
  { etrans; [|apply (addressed_foldl (λ st, st)); intros st pv; apply addressed_CacheParam]. by apply addressed_UpsertDevice. }
  destruct (HasWritabilityMap dev _) as [has st]. cbn [snd] in *. by etrans.
Qed.

Lemma addressed_onGPV now l s (store : sql) : addressed store (onGPV now l (s, store)).2.2.
Proof.
  unfold onGPV.
  match goal with |- context [foldl ?f ?b l] => pose proof (addressed_foldl (λ a, a.2) f l
    (λ a pv, addressed_CacheParam now (s_DeviceID s) (pv_Name pv) (v_Text (pv_Value pv)) a.2) b) as Hq end.
  destruct (foldl _ _ l) as [params st]. cbn [snd] in *. by destruct (finishInflight _ _).
Qed.

Lemma requeue_IP s : s_IP (requeueOrphanedTask s) = s_IP s.
Proof. unfold requeueOrphanedTask. destruct (inflight s); [|done]. by repeat case_decide. Qed.

Lemma addressed_Handle now env s (store : sql) : s_IP s ≠ "" → addressed store (Handle now env (s, store)).2.2.
Proof.
  intros Hip. unfold Handle. cbv zeta. assert (Hip' : s_IP (set_MsgID (e_ID env) s) ≠ "") by done.
  revert Hip'. generalize (set_MsgID (e_ID env) s). clear s Hip. intros s Hip.
  destruct (b_Inform _); [apply addressed_onInform; by rewrite requeue_IP|]. destruct (b_GetRPCMethods _); [done|].
  destruct (b_AutonomousTransferComplete _); [apply addressed_EmitEvent|]. destruct (b_TransferComplete _); [done|].
  destruct (b_GetParameterValuesResponse _); [apply addressed_onGPV|].
  destruct (b_SetParameterValuesResponse _); [unfold onSPV; by destruct (finishInflight _ _)|].
  destruct (b_GetParameterNamesResponse _);
    [unfold onGPN; destruct (finishInflight _ _); apply addressed_SaveWritability|].
  destruct (b_RebootResponse _); [by destruct (finishInflight _ _)|].
  destruct (b_Fault _); [|by destruct (nextTask _)].
  unfold onFault. destruct (inflight _); [|done]. by destruct (finishInflight _ _).
Qed.

Lemma addressed_deviceSessionLocked id srv (store : sql) : addressed store (deviceSessionLocked id (srv, store)).2.
Proof.
  unfold deviceSessionLocked. destruct (sessions srv !! id); [done|].
  pose proof (addressed_StoreDeviceIP id store). by destruct (StoreDeviceIP id store).
Qed.

(** The address an Inform writes is the request's own. *)
Lemma addressed_serve now host cookie env srv (store : sql) : host ≠ "" →
  addressed store (serve now host cookie env (srv, store)).2.2.
Proof.
  intros Hhost. unfold serve.
  assert (Hr : addressed store (routeSession host cookie env (srv, store)).2.2).
  { unfold routeSession. destruct (env ≫= _); [apply addressed_deviceSessionLocked|]. cbv zeta.
    repeat case_match; done || (simplify_eq; done). }
  destruct (routeSession _ _ _ _) as [key [srv1 store1]]. cbn [snd] in Hr. destruct (sessions srv1 !! key) as [s|]; [|done].
  rewrite decide_True by done.
  assert (Hq : addressed store1 (request now env (set_IP host s, store1)).2.2).
  { unfold request. destruct env; [by apply addressed_Handle|]. by destruct (nextTask _). }
  destruct (request now env (set_IP host s, store1)) as [resp [s' store2]]. cbn [fst snd] in *. by etrans.
Qed.

Lemma addressed_ServeHTTP Decode now rq srv (store : sql) : rq_host rq ≠ "" →
  addressed store (ServeHTTP Decode now rq (srv, store)).2.2.
Proof.
  intros Hhost. unfold ServeHTTP. destruct (rq_body rq) as [body|]; [|done]. case_decide.
  - pose proof (addressed_serve now (rq_host rq) (rq_cookie rq) None srv store Hhost) as Hq.
    by destruct (serve _ _ _ _ _) as [[[] ?] ?].
  - destruct (Decode body) as [env|]; [|done].
    pose proof (addressed_serve now (rq_host rq) (rq_cookie rq) (Some env) srv store Hhost) as Hq.
    by destruct (serve _ _ _ _ _) as [[[] ?] ?].
Qed.

Lemma addressed_on_session {A} id (f : Session → A * Session) (x : Server * sql) : addressed x.2 (on_session id f x).2.2.
Proof.
  destruct x as [srv store]. unfold on_session. pose proof (addressed_deviceSessionLocked id srv store) as Hd.
  destruct (deviceSessionLocked id (srv, store)) as [srv1 store1]. destruct (sessions srv1 !! id) as [s|]; [|done].
  by destruct (f s).
Qed.

Lemma addressed_crURL id (x : Server * sql) : addressed x.2 (Server.crURL id x).2.2.
Proof.
  destruct x as [srv store]. unfold Server.crURL. case_decide; [done|].
  pose proof (addressed_GetParams id [connectionRequestURLPath] store) as Hg. destruct (GetParams _ _ store) as [m store1].
  cbn [snd] in Hg. pose proof (addressed_StoreDeviceIP id store1) as Hi.
  destruct (m !! _) as [adv|]; [case_decide; [done|]|]; destruct (StoreDeviceIP id store1) as [ip store2]; by etrans.
Qed.

(** ** The device's sessions and the worker's calls *)

Section Device.
Variable unicode_name : string → bool.
Variable host : string.
Variables clock dev_clock : nat → Z.
Variable m : manifest.
Variable map_range : gmap string string → list string.
Variable reachable : string → bool.
Variable RequestURI : string → option string.
Hypothesis host_ok : host ≠ "".

Lemma addressed_logged text d w log store : addressed store (w_store w) →
  addressed store (w_store (logged unicode_name host clock text (d, (w, log))).2.2.1).
Proof.
  intros Hs. unfold logged, exchange. cbn [fst snd].
  pose proof (addressed_ServeHTTP (DecodeEnvelope unicode_name) (now clock w) (http_request_of host text w) (w_srv w) (w_store w) host_ok) as Hq.
  destruct (ServeHTTP _ _ _ _) as [resp [srv store']]. cbn [fst snd] in *. by etrans.
Qed.

Lemma addressed_device_session (x : Server * sql) p :
  addressed x.2 (device_session unicode_name host clock dev_clock m map_range (x, p)).2.1.2.
Proof.
  destruct x as [srv store]. unfold device_session. destruct (nextMsgID (p_msgs p)) as [msgID msgs].
  pose proof (runSession_keeps unicode_name m map_range (λ v, addressed store (w_store v.1))
    (logged unicode_name host clock) (λ w, dev_now dev_clock w.1)) as Hk.
  specialize (Hk (λ text d '(v, log) Hv, addressed_logged text d v log store Hv)).
  specialize (Hk msgID (p_dev p, (mkWorld srv store (p_jar p) (p_turns p), []))).
  destruct (runSession _ _ _ _ _ _ _) as [reg [d [v log]]]. by apply Hk.
Qed.

Lemma addressed_device_turn o (x : Server * sql) p :
  addressed x.2 (device_turn unicode_name host clock dev_clock m map_range o (x, p)).2.1.2.
Proof. destruct o; cbn [device_turn]; [apply addressed_device_session|]. cbn [snd]. destruct (p_dial p); [done|apply addressed_device_session]. Qed.

(** A device that the buffer knows stays known while a call waits, whatever it
    sends and whatever of the database fails. *)
Theorem address_kept id t (x : sql * net loop_turn plant) :
  addressed x.1 (RequestAndAwait (device_turn unicode_name host clock dev_clock m map_range) (listener reachable) RequestURI id t x).2.1.
Proof.
  apply (call_keeps _ _ _ addressed).
  - intros o y w tr z w' Ho. pose proof (addressed_device_turn o y w) as Hq. by rewrite Ho in Hq.
  - intros A k f y. apply addressed_on_session.
  - intros k y. apply addressed_crURL.
Qed.
End Device.
