(* ===== verification/PollRound.v ===== *)
(** * One round of commands, end to end
    (goagent/internal/worker/worker.go, goagent/internal/cwmp/server.go,
    goagent/internal/cloud/client.go, testsuite/device.go, testsuite/cloud.go)

    The worker polls the mock cloud over HTTP, carries out what it is offered on a
    device of the suite over CWMP, and acknowledges; the cloud looks at the device
    itself for its verdict. *)
From S2P Require Import Prelude GoStrings DeviceId CloudTypes Db Ledger Outbox CwmpTypes CwmpStore Session Soap Xml SoapDecode XmlRoundtrip.
From S2P Require Import SimHttp DeviceSim CloudSim Wire Uplink Server Await ConnRequest ClosedLoop RequestAwait.
From S2P Require Import Collector Acs Client CloudWire Config Manifest Metrics Worker CommandTable WorkerRun ServerAcs EndToEnd Address.

(** ** Lemmas on values *)

(** Inserting pairs that agree with one map. *)
Lemma foldl_insert_agrees (M : gmap string string) pairs : ∀ (acc : gmap string string) k v,
  (∀ k' v', (k', v') ∈ pairs → M !! k' = Some v') → M !! k = Some v → (acc !! k = Some v ∨ (k, v) ∈ pairs) →
  foldl (λ a p, <[p.1 := p.2]> a) acc pairs !! k = Some v.
Proof.
  induction pairs as [|[k0 v0] pairs IH]; intros acc k v Hall Hk Hor; cbn [foldl fst snd].
  { destruct Hor as [?|Hin]; [done|by apply elem_of_nil in Hin]. }
  apply IH; [intros k' v' Hin; apply Hall; by right|done|].
  destruct (decide (k0 = k)) as [->|Hne].
  - left. rewrite lookup_insert_eq. rewrite <- Hk. symmetry. apply Hall. by left.
  - rewrite lookup_insert_ne by done. destruct Hor as [?|Hin]; [by left|]. apply elem_of_cons in Hin as [[= ? ?]|?]; [congruence|by right].
Qed.

Lemma get_in l d k v : (k, v) ∈ get l d ↔ k ∈ l ∧ params d !! k = Some v.
Proof.
  unfold get. rewrite list_elem_of_omap. split.
  - intros (k' & Hin & Hv). destruct (params d !! k') as [v'|] eqn:Hp; [|done]. cbn in Hv. by injection Hv as <- <-.
  - intros [Hin Hp]. exists k. split; [done|]. by rewrite Hp.
Qed.

Section Values.
Variables FormatFloat SprintFloat : spec_float → string.

(** The last write of a path wins on both sides. *)
Lemma writes_agree ws manifest : ∀ (exp : gmap string any) (m : gmap string string),
  (∀ path want, exp !! path = Some want → m !! path = Some (formatValue FormatFloat SprintFloat want)) →
  ∀ path want, foldl (λ m w, <[wr_Path w := wr_Value w]> m) exp ws !! path = Some want →
    write_all ((λ w, (pv_Name w, v_Text (pv_Value w))) <$> toWrites FormatFloat SprintFloat ws manifest) m !! path =
      Some (formatValue FormatFloat SprintFloat want).
Proof.
  induction ws as [|w ws IH]; intros exp m Hrel path want; cbn; [apply Hrel|]. apply IH. clear IH path want.
  intros path want. destruct (decide (wr_Path w = path)) as [->|Hne].
  - rewrite !lookup_insert_eq. by intros [= ->].
  - rewrite !lookup_insert_ne by done. apply Hrel.
Qed.

Lemma valuesMatch_text want : valuesMatch FormatFloat SprintFloat want (AString (formatValue FormatFloat SprintFloat want)) = true.
Proof. unfold valuesMatch. by apply bool_decide_eq_true. Qed.
End Values.

(** ** A task and what the device makes of it *)

Section PollRound.
Variable unicode_name : string → bool.
Variable host : string.
Variables clock dev_clock : nat → Z.
Variable m : manifest.
Variable map_range : gmap string string → list string.
Variable reachable : string → bool.
Variable RequestURI : string → option string.
Variables FormatFloat SprintFloat : spec_float → string.
Variable manifest : option Manifest.
(** [%s] of a duration, and the worker's configuration. *)
Variable Duration_String : Z → string.
Variable cfg : Config.Config.
Abbreviation timeout_text := (Duration_String (CommandVerifyTimeout cfg)).

(** The device after the session in which it performs the task. *)
Definition after (t : Task) (d : device) : device := run_task m map_range (takeTransfer (incInform d)).2 t.

(** The values that a read returns. *)
Definition values_of (paths : list string) (d : device) : gmap string string :=
  foldl (λ a p, <[p.1 := p.2]> a) ∅ (get paths d).

Definition result_of (t : Task) (d : device) : TaskResult :=
  match t_Type t with
  | TaskSPV => mkResult "" TaskSPV ∅ [] 0 ""
  | TaskGPV => mkResult "" TaskGPV (values_of (t_Paths t) d) [] 0 ""
  | _ => empty_result TaskReboot
  end.

(** A task of a command. *)
Definition commanded (t : Task) : Prop :=
  t_CommandID t ≠ "" ∧ t_Type t ∈ [TaskSPV; TaskGPV; TaskReboot].

Definition write_task (cmd : Command) : Task :=
  mkTask TaskSPV [] (toWrites FormatFloat SprintFloat (cp_Writes (cmd_Payload cmd)) manifest) (cmd_ID cmd) (cmd_ID cmd).
Definition readback_task (cmd : Command) : Task :=
  mkTask TaskGPV (keysOf (expectedValues (cmd_Payload cmd))) [] "" (cmd_ID cmd +:+ ":rb").
Definition query_task (cmd : Command) : Task := mkTask TaskGPV (cp_ReadPaths (cmd_Payload cmd)) [] "" (cmd_ID cmd).
Definition reboot_task (cmd : Command) : Task := mkTask TaskReboot [] [] (cmd_ID cmd) (cmd_ID cmd).

(** What the device sends in its next session, with the task at the head of its
    queue, fits and can be read. *)
Definition can_send (fc : list string) (msgs : Z) (t : Task) (d : device) : Prop :=
  opening_ok dev_clock (nextMsgID msgs).1 d ∧
  ∀ learn, learn = [] ∨ learn = first_contact fc →
    answers_ok m map_range (nextMsgID msgs).1 64 (t :: learn) (takeTransfer (incInform d)).2.

(** And so on, a session for each task. *)
Fixpoint can_answer (fc : list string) (msgs : Z) (d : device) (ts : list Task) : Prop :=
  match ts with
  | [] => True
  | t :: ts => can_send fc msgs t d ∧ can_answer fc (msgs + 1) (after t d) ts
  end.

Lemma device_identity d : oui (takeTransfer (incInform d)).2 = oui d ∧ productClass (takeTransfer (incInform d)).2 = productClass d ∧
  serial (takeTransfer (incInform d)).2 = serial d ∧ params (takeTransfer (incInform d)).2 = params d.
Proof. unfold takeTransfer. by case_decide. Qed.

Lemma task_answered t d : commanded t →
  ∃ a, answer m map_range t d = Some (a, run_task m map_range d t) ∧
    ∀ id, answer_of (Some (mkEnvelope id (message_body a))) t = Some (result_of t d).
Proof.
  intros [_ Ht]. unfold run_task, answer, result_of. rewrite !elem_of_cons, elem_of_nil in Ht.
  destruct Ht as [->|[->|[->|[]]]]; eexists; (split; [reflexivity|]); try done.
  intros id. cbn. unfold values_of. do 2 f_equal. generalize (∅ : gmap string string) as acc.
  induction (get (t_Paths t) d) as [|x l IH]; intros acc; [done|]. apply IH.
Qed.

Lemma after_identity t d : commanded t → oui (after t d) = oui d ∧ productClass (after t d) = productClass d ∧
  serial (after t d) = serial d.
Proof.
  intros [_ Ht]. destruct (device_identity d) as (H1 & H2 & H3 & _). unfold after, run_task, answer.
  rewrite !elem_of_cons, elem_of_nil in Ht. destruct Ht as [->|[->|[->|[]]]]; done.
Qed.

Lemma after_params t d : t_Type t ∈ [TaskGPV; TaskReboot] → params (after t d) = params d.
Proof.
  intros Ht. destruct (device_identity d) as (_ & _ & _ & H). unfold after, run_task, answer.
  rewrite !elem_of_cons, elem_of_nil in Ht. by destruct Ht as [->|[->|[]]].
Qed.

(** What the device was told is what it then tells. *)
Lemma readback_matches cmd d d2 : cp_Verify (cmd_Payload cmd) = ∅ → params d2 = params (after (write_task cmd) d) →
  (∀ path want, expectedValues (cmd_Payload cmd) !! path = Some want →
     params d2 !! path = Some (formatValue FormatFloat SprintFloat want)) ∧
  verifyExpected FormatFloat SprintFloat (expectedValues (cmd_Payload cmd)) (ToAnyMap (values_of (t_Paths (readback_task cmd)) d2)) = [].
Proof.
  intros Hv Hp. assert (Hall : ∀ path want, expectedValues (cmd_Payload cmd) !! path = Some want →
    params d2 !! path = Some (formatValue FormatFloat SprintFloat want)).
  { intros path want. rewrite Hp. unfold expectedValues. rewrite decide_True by done.
    apply (writes_agree FormatFloat SprintFloat _ manifest ∅). intros k v. by rewrite lookup_empty. }
  split; [exact Hall|]. apply verifyExpected_nil. intros path want Hw.
  exists (AString (formatValue FormatFloat SprintFloat want)). split; [|apply valuesMatch_text].
  unfold ToAnyMap. rewrite lookup_fmap. unfold values_of.
  rewrite (foldl_insert_agrees (params d2) _ _ path (formatValue FormatFloat SprintFloat want)); [done| |by apply Hall|].
  - intros k v Hin. by apply get_in in Hin as [_ ?].
  - right. apply get_in. split; [|by apply Hall]. cbn [readback_task t_Paths]. unfold keysOf.
    apply list_elem_of_fmap. exists (path, want). split; [done|]. by apply elem_of_map_to_list.
Qed.

(** ** The world *)

(** The wire to the mock cloud; see [CloudWire]. *)
Variable timestamp : string.
Variable json_params : string → string + gmap string string.
Variable json_heartbeat : string → list string.
Variable json_telemetry : string → telemetry_body.
Variable json_snapshot : string → gmap string any.
Variable json_ack : string → string.
Variable json_Encode : json → string.
Variable origin : string.
Variable valid_url : string → bool.
Variable ctx_Err : plant → option string.
Variable json_Envelope : string → option string.
Variable json_Unmarshal : string → option PollData.
Variable Marshal_Register : RegisterRequest → result string string.
Variable Marshal_Heartbeat : HeartbeatRequest → result string string.
Variable Marshal_Snapshot : SnapshotRequest → result string string.
Variable Marshal_Ack : AckRequest → result string string.
Variable Error : client_error → string.
Variable c : Client.

(** The suite's process serves its one device and the cloud's state. *)
Definition plant_look (p : plant) : list device * state := ([p_dev p], p_cloud p).
Definition plant_put (x : list device * state) (p : plant) : plant :=
  mkPlant (default (p_dev p) (head x.1)) (p_jar p) (p_turns p) (p_msgs p) (p_dial p) x.2.

Definition plant_Do : Client.http_request → plant → http_outcome * plant :=
  mux_Do plant_look plant_put SprintFloat timestamp json_params json_heartbeat json_telemetry json_snapshot json_ack json_Encode origin.

Abbreviation suite := (list served * net loop_turn plant)%type.

#[local] Instance plant_Acs : Acs suite :=
  server_Acs (device_turn unicode_name host clock dev_clock m map_range) (listener reachable) RequestURI
    (client_Ack plant_Do valid_url ctx_Err json_Envelope json_Unmarshal Marshal_Ack c)
    (client_SendSnapshot plant_Do valid_url ctx_Err json_Envelope json_Unmarshal Marshal_Snapshot c).

#[local] Instance plant_Cloud : Cloud suite :=
  server_Cloud
    (client_Register plant_Do valid_url ctx_Err json_Envelope json_Unmarshal Marshal_Register c)
    (client_Heartbeat plant_Do valid_url ctx_Err json_Envelope json_Unmarshal Marshal_Heartbeat c)
    (client_Poll plant_Do valid_url ctx_Err json_Envelope json_Unmarshal c)
    (client_SendTelemetryRaw plant_Do valid_url ctx_Err json_Envelope json_Unmarshal Error c).

Hypothesis host_ok : host ≠ "".
Hypothesis json_ok : codec json_Encode json_Envelope json_Unmarshal Marshal_Ack json_ack.
Hypothesis valid_origin : ∀ path, PathUnescape path ≠ None → all_bytes graphic path = true → valid_url (origin +:+ path) = true.
Hypothesis origin_ok : HasSuffix origin "/v1" = false.
Hypothesis base_ok : base c = origin ∨ base c = origin +:+ "/v1".

Lemma plant_put_look p : plant_put (plant_look p) p = p.
Proof. by destruct p. Qed.

Instance plant_laws : AcsLaws suite.
Proof. apply server_AcsLaws, device_turn_serves. Qed.

(** ** A call that the device answers *)

Section Round.
Variable id : string.
Hypothesis id_ok : id ≠ "" ∧ all_bytes cookie_byte id = true.
(** Whether some visit is due to a connection request. *)
Variable poked : bool.

(** The agent and the device, between two calls. *)
Record ready (store : sql) (n : net loop_turn plant) (s : Session) : Prop := {
  rd_at : at_id id (store, n) s;
  rd_settled : settled s;
  rd_dials : Forall (eq id) (n_dials n);
  rd_reach : poked = true → dials reachable (n_srv n);
  rd_count : (0 ≤ p_msgs (n_out n))%Z;
  rd_id : CanonicalID (oui (p_dev (n_out n))) (productClass (p_dev (n_out n))) (serial (p_dev (n_out n))) = id;
  rd_healthy : healthy store;
  rd_known : known id store }.

(** What the sessions for [ts] move. *)
Definition stepped (ts : list Task) (n n' : net loop_turn plant) (s s' : Session) : Prop :=
  firstContactGPV s' = firstContactGPV s ∧ p_dev (n_out n') = foldl (flip after) (p_dev (n_out n)) ts ∧
  p_msgs (n_out n') = (p_msgs (n_out n) + Z.of_nat (length ts))%Z ∧ p_cloud (n_out n') = p_cloud (n_out n).

Lemma stepped_app ts ts' n n' n'' s s' s'' : stepped ts n n' s s' → stepped ts' n' n'' s' s'' → stepped (ts ++ ts') n n'' s s''.
Proof.
  intros (H1 & H2 & H3 & H4) (H1' & H2' & H3' & H4'). split_and!; [congruence| | |congruence].
  - by rewrite H2', H2, foldl_app.
  - rewrite H3', H3, length_app. lia.
Qed.

(** The turns of one visit: what the select is ready for first, how the device
    comes to dial. *)
Definition visit_turns (v : choice * bool) : list (turn loop_turn) := Wake v.1 :: visit v.2 ++ [Wake Mine].
Definition visits (v : choice * bool) : Prop := v.2 = true → poked = true.

Lemma call_ready v t store log n s rest : ready store n s → visits v → commanded t →
  n_turns n = visit_turns v ++ rest → can_send (firstContactGPV s) (p_msgs (n_out n)) t (p_dev (n_out n)) →
  ∃ store' log' n' s',
    Acs.RequestAndAwait id t (store, (log, n)) =
      (Some (with_CommandID (t_CommandID t) (result_of t (takeTransfer (incInform (p_dev (n_out n)))).2)), (store', (log', n'))) ∧
    ready store' n' s' ∧ applied (sdb store') = applied (sdb store) ∧ n_turns n' = rest ∧ stepped [t] n n' s s'.
Proof.
  intros [Hat Hset Hdl Hre Hms Hcan Hh Hk] Hv Ht Hturns [Hopen Hans].
  destruct (task_answered t (takeTransfer (incInform (p_dev (n_out n)))).2 Ht) as (a & Ha & Hm).
  assert (Hanswers : answers_task dev_clock m map_range id (firstContactGPV s) (p_msgs (n_out n)) (p_dev (n_out n)) t
    (after t (p_dev (n_out n))) (result_of t (takeTransfer (incInform (p_dev (n_out n)))).2)).
  { split; [done..|]. exists a. by split. }
  assert (Hturns' : n_turns n = Wake v.1 :: visit v.2 ++ Wake Mine :: rest).
  { rewrite Hturns. unfold visit_turns. simpl. by rewrite <- app_assoc. }
  destruct (call_returns unicode_name host clock dev_clock m map_range reachable RequestURI id id_ok v.2 t _ _ store n v.1 s rest
    Hat Hset (proj1 Ht) Hturns' Hanswers (λ Hd, Hre (Hv Hd)) Hdl)
    as (tr & store' & n' & s' & Hc & Hat' & Hset' & (Hfc & Hcr & Hcl & Hdl') & Hend & Hdev & Hms').
  pose proof (Acs_applied id t store (log, n)) as Happ. pose proof (Acs_healthy id t store (log, n)) as Hhe.
  pose proof (address_kept unicode_name host clock dev_clock m map_range reachable RequestURI host_ok id t (store, n) id Hk) as Hkn.
  cbn [Acs.RequestAndAwait plant_Acs server_Acs ServerAcs.call] in *. rewrite Hc in *. cbn [fst snd] in *.
  exists store', (log ++ tr), n', s'. split; [done|]. split; [|by repeat split].
  split; [done|done|by apply Hdl'|intros Hp; unfold dials; rewrite Hcr; by apply Hre|lia| |by apply Hhe|exact Hkn].
  rewrite Hdev. destruct (after_identity t (p_dev (n_out n)) Ht) as (-> & -> & ->). exact Hcan.
Qed.

(** ** A command *)

Lemma ready_store store store1 n s : ready store n s → sdb store1 = sdb store → healthy store1 → ready store1 n s.
Proof. intros [] Hs Hh. split; try done. unfold known. by rewrite Hs. Qed.

(** The address is there: the command is dispatched. *)
Lemma address_found store n s : ready store n s → ∃ ip store1, StoreDeviceIP id store = (ip, store1) ∧ ip ≠ "" ∧
  ready store1 n s ∧ sdb store1 = sdb store.
Proof.
  intros Hr. pose proof Hr as [_ _ _ _ _ _ Hh (row & Hrow & Hip)].
  destruct (runs_query (λ x, cwmp_devices x !! id) store Hh) as (o & store1 & Hq & Hh1).
  exists (dv_ip row), store1. pose proof Hq as Hq'. apply query_sdb in Hq' as [Hd Ho]. specialize (Ho o eq_refl). subst o.
  split; [|split; [done|split; [by apply (ready_store store)|done]]]. simpl. unfold Buffer_DeviceIP. by rewrite Hq, Hrow.
Qed.

(** What becomes of a command that the device answers, up to the
    acknowledgement: it is applied, its sessions took place, and its result can
    be encoded. *)
Definition carried_out (ts : list Task) (rest : list (turn loop_turn)) (store : sql) (n : net loop_turn plant) (s : Session)
    (y : AckRequest * (sql * suite)) : Prop :=
  ∃ res store' log' n' s', y = (mkAck "applied" res, (store', (log', n'))) ∧ ready store' n' s' ∧
    applied (sdb store') = applied (sdb store) ∧ n_turns n' = rest ∧ stepped ts n n' s s' ∧
    ar_Mismatch res = [] ∧ ∀ k v, ar_Readback res !! k = Some v → ∃ x, v = AString x.

Lemma ToAnyMap_strings mm k v : ToAnyMap mm !! k = Some v → ∃ x, v = AString x.
Proof. unfold ToAnyMap. rewrite lookup_fmap. destruct (mm !! k) as [x|]; [|done]. intros [= <-]. by exists x. Qed.

Abbreviation apply_to cmd x := (apply FormatFloat SprintFloat manifest timeout_text false cmd x).

Lemma write_carried_out cmd v1 v2 store log n s rest : ready store n s → cmd_CWMPID cmd = id → cmd_ID cmd ≠ "" →
  cmd_Type cmd ∈ ["configure"; "optimise"; "heal"; "rollback"] → cp_Verify (cmd_Payload cmd) = ∅ → visits v1 → visits v2 →
  n_turns n = visit_turns v1 ++ visit_turns v2 ++ rest →
  can_answer (firstContactGPV s) (p_msgs (n_out n)) (p_dev (n_out n)) [write_task cmd; readback_task cmd] →
  carried_out [write_task cmd; readback_task cmd] rest store n s (apply_to cmd (store, (log, n))).
Proof.
  intros Hr Hid Hne Hty Hver Hv1 Hv2 Ht (Hs1 & Hs2 & _).
  destruct (address_found store n s Hr) as (ip & store1 & Hip & Hipne & Hr1 & Hd1).
  unfold apply. rewrite Hid, Hip, decide_False, decide_True by done.
  assert (Hc1 : commanded (write_task cmd)) by (split; [done|left]).
  assert (Hc2 : commanded (readback_task cmd)) by (split; [simpl; by destruct (cmd_ID cmd)|right; left]).
  destruct (call_ready v1 (write_task cmd) store1 log n s _ Hr1 Hv1 Hc1 Ht Hs1)
    as (store2 & log2 & n2 & s2 & Hcall1 & Hr2 & Ha2 & Ht2 & Hst2).
  pose proof Hst2 as (Hfc2 & Hdev2 & Hms2 & _). cbn [foldl flip length] in Hdev2, Hms2. change (Z.of_nat 1) with 1%Z in Hms2.
  destruct (call_ready v2 (readback_task cmd) store2 log2 n2 s2 rest Hr2 Hv2 Hc2 Ht2)
    as (store3 & log3 & n3 & s3 & Hcall2 & Hr3 & Ha3 & Ht3 & Hst3).
  { rewrite Hfc2, Hms2, Hdev2. exact Hs2. }
  destruct (readback_matches cmd (p_dev (n_out n)) (takeTransfer (incInform (p_dev (n_out n2)))).2 Hver) as [_ Hmatch].
  { destruct (device_identity (p_dev (n_out n2))) as (_ & _ & _ & ->). by rewrite Hdev2. }
  unfold apply_write. rewrite Hid. fold (write_task cmd). fold (readback_task cmd). rewrite Hcall1.
  cbn [tr_Err tr_Status with_CommandID result_of write_task t_Type]. rewrite decide_False by tauto. rewrite decide_False by done.
  rewrite Hcall2. cbn [tr_Params with_CommandID result_of readback_task t_Type].
  fold (readback_task cmd). rewrite Hmatch.
  eexists _, store3, log3, n3, s3. split; [reflexivity|]. split; [exact Hr3|]. split; [by rewrite Ha3, Ha2, Hd1|].
  split; [exact Ht3|]. split; [exact (stepped_app [_] [_] _ _ _ _ _ _ Hst2 Hst3)|]. split; [done|]. apply ToAnyMap_strings.
Qed.

Lemma query_carried_out cmd v store log n s rest : ready store n s → cmd_CWMPID cmd = id → cmd_ID cmd ≠ "" →
  cmd_Type cmd = "query" → visits v → n_turns n = visit_turns v ++ rest →
  can_answer (firstContactGPV s) (p_msgs (n_out n)) (p_dev (n_out n)) [query_task cmd] →
  carried_out [query_task cmd] rest store n s (apply_to cmd (store, (log, n))).
Proof.
  intros Hr Hid Hne Hty Hv Ht (Hs & _). destruct (address_found store n s Hr) as (ip & store1 & Hip & Hipne & Hr1 & Hd1).
  unfold apply. rewrite Hid, Hip, Hty, decide_False by done. rewrite decide_False by set_solver. rewrite decide_True by done.
  assert (Hc : commanded (query_task cmd)) by (split; [done|right; left]).
  destruct (call_ready v (query_task cmd) store1 log n s rest Hr1 Hv Hc Ht Hs)
    as (store2 & log2 & n2 & s2 & Hcall & Hr2 & Ha2 & Ht2 & Hst2).
  unfold apply_query. rewrite Hid. fold (query_task cmd). rewrite Hcall.
  eexists _, store2, log2, n2, s2. split; [reflexivity|]. split; [exact Hr2|]. split; [by rewrite Ha2, Hd1|].
  split; [exact Ht2|]. split; [exact Hst2|]. split; [done|]. apply ToAnyMap_strings.
Qed.

Lemma reboot_carried_out cmd v store log n s rest : ready store n s → cmd_CWMPID cmd = id → cmd_ID cmd ≠ "" →
  cmd_Type cmd = "reboot" → visits v → n_turns n = visit_turns v ++ rest →
  can_answer (firstContactGPV s) (p_msgs (n_out n)) (p_dev (n_out n)) [reboot_task cmd] →
  carried_out [reboot_task cmd] rest store n s (apply_to cmd (store, (log, n))).
Proof.
  intros Hr Hid Hne Hty Hv Ht (Hs & _). destruct (address_found store n s Hr) as (ip & store1 & Hip & Hipne & Hr1 & Hd1).
  unfold apply. rewrite Hid, Hip, Hty, decide_False by done. rewrite decide_False by set_solver.
  rewrite decide_False by done. rewrite decide_True by done.
  assert (Hc : commanded (reboot_task cmd)) by (split; [done|right; right; left]).
  destruct (call_ready v (reboot_task cmd) store1 log n s rest Hr1 Hv Hc Ht Hs)
    as (store2 & log2 & n2 & s2 & Hcall & Hr2 & Ha2 & Ht2 & Hst2).
  unfold apply_reboot. rewrite Hid. fold (reboot_task cmd). rewrite Hcall.
  eexists _, store2, log2, n2, s2. split; [reflexivity|]. split; [exact Hr2|]. split; [by rewrite Ha2, Hd1|].
  split; [exact Ht2|]. split; [exact Hst2|]. split; [done|]. intros k v' Hk. exact (False_ind _ (lookup_empty_Some _ _ Hk)).
Qed.

(** ** What the cloud makes of it *)

(** The suite with another state of the cloud. *)
Definition with_cloud (st : state) (p : plant) : plant := plant_put ([p_dev p], st) p.

Definition acked (cmdID : string) (d : device) (st st' : state) : Prop :=
  acks st' = <[cmdID := "applied"]> (acks st) ∧
  ∀ f', fleet st' = Some f' → ∃ f, fleet st = Some f ∧
    actuation f' = if decide (cmdID = configureCommandID) then verdict d else actuation f.

Lemma ack_effect cmdID res p : ar_Mismatch res = [] → (∀ k v, ar_Readback res !! k = Some v → ∃ x, v = AString x) →
  ∃ st', client_Ack plant_Do valid_url ctx_Err json_Envelope json_Unmarshal Marshal_Ack c cmdID (mkAck "applied" res) p = with_cloud st' p ∧
    acked cmdID (p_dev p) (p_cloud p) st'.
Proof.
  intros Hmm Hstr. destruct (co_ack _ _ _ _ _ json_ok (mkAck "applied" res) Hmm Hstr) as (body & Hb & Hst).
  unfold client_Ack, plant_Do.
  rewrite (Ack_reaches plant_look plant_put SprintFloat timestamp json_params json_heartbeat json_telemetry json_snapshot json_ack
    json_Encode origin valid_url ctx_Err json_Envelope json_Unmarshal Marshal_Ack c valid_origin origin_ok base_ok cmdID
    (mkAck "applied" res) body (p_dev p) [] (p_cloud p) p eq_refl Hb Hst).
  eexists. split; [reflexivity|]. cbn [snd ack_Status]. unfold handle_ack. rewrite segment_id. cbn [snd].
  destruct (p_cloud p) as [? ? ? ? ? ? ? ? ? ? ? ? ? fl]. unfold acked. destruct (decide (cmdID = configureCommandID)) as [He|He].
  - rewrite decide_True by done. split; [done|]. cbn. destruct fl as [f|]; [|done]. intros f' [= <-]. by exists f.
  - rewrite decide_False by tauto. split; [done|]. cbn. intros f' ->. by exists f'.
Qed.

Lemma snapshot_effect dev ps why p :
  ∃ st', client_SendSnapshot plant_Do valid_url ctx_Err json_Envelope json_Unmarshal Marshal_Snapshot c dev ps why p = with_cloud st' p ∧
    acks st' = acks (p_cloud p) ∧ ∀ f', fleet st' = Some f' → ∃ f, fleet (p_cloud p) = Some f ∧ actuation f' = actuation f.
Proof.
  unfold client_SendSnapshot, plant_Do. destruct (Marshal_Snapshot (mkSnapshot ps why)) as [body|e] eqn:Hb.
  - rewrite (SendSnapshot_reaches plant_look plant_put SprintFloat timestamp json_params json_heartbeat json_telemetry json_snapshot
      json_ack json_Encode origin valid_url ctx_Err json_Envelope json_Unmarshal Marshal_Snapshot c valid_origin origin_ok base_ok
      dev _ body (p_dev p) [] (p_cloud p) p eq_refl Hb).
    eexists. split; [reflexivity|]. cbn [snd]. unfold handle_snapshot. cbn [snd].
    destruct (p_cloud p) as [? ? ? ? ? ? ? ? ? ? ? ? ? [f|]]; (split; [done|]); intros f' [= <-]. by exists f.
  - exists (p_cloud p). split; [|split; [done|by intros f' ->; exists f']].
    unfold SendSnapshot, do_. rewrite Hb. by destruct p.
Qed.

Lemma ready_cloud store n s st : ready store n s →
  ready store (mkNet (n_srv n) (n_dials n) (n_turns n) (with_cloud st (n_out n))) s.
Proof. intros []. by split. Qed.

(** One command that was not handled before: it is carried out, recorded and
    acknowledged. *)
Lemma handle_carried_out cmd ts rest now marshal_result unmarshal_result store log n s : ready store n s →
  applied (sdb store) !! cmd_ID cmd = None →
  (∀ store1, ready store1 n s → carried_out ts rest store1 n s (apply_to cmd (store1, (log, n)))) →
  ∃ res store' log' n' s',
    handle_command FormatFloat SprintFloat manifest marshal_result unmarshal_result timeout_text false now cmd (store, (log, n)) =
      (true, (store', (log', n'))) ∧ ready store' n' s' ∧
    applied (sdb store') = <[cmd_ID cmd := AppliedRow "applied" (marshal_result res) now]> (applied (sdb store)) ∧
    n_turns n' = rest ∧ firstContactGPV s' = firstContactGPV s ∧ p_dev (n_out n') = foldl (flip after) (p_dev (n_out n)) ts ∧
    p_msgs (n_out n') = (p_msgs (n_out n) + Z.of_nat (length ts))%Z ∧
    acked (cmd_ID cmd) (p_dev (n_out n')) (p_cloud (n_out n)) (p_cloud (n_out n')).
Proof.
  intros Hr Hnone Hrun.
  destruct (runs_query (λ d, (λ r, (ap_status r, ap_result r)) <$> applied d !! cmd_ID cmd) store (rd_healthy _ _ _ Hr))
    as (o & store1 & Hq & Hh1).
  unfold handle_command, AlreadyApplied. cbv zeta. rewrite Hq. apply query_sdb in Hq as [Hdb Ho]. specialize (Ho o eq_refl).
  rewrite Hnone in Ho. subst o. cbn [fmap option_fmap option_map].
  destruct (Hrun store1 (ready_store _ _ _ _ Hr Hdb Hh1)) as (res & store2 & log2 & n2 & s2 & Happ & Hr2 & Ha2 & Ht2 & (Hfc & Hdev & Hms & Hcl) & Hmm & Hstr).
  rewrite Happ. cbn [ack_Status ack_Result].
  destruct (runs_exec (λ d, set_applied (<[cmd_ID cmd := AppliedRow "applied" (marshal_result res) now]> (applied d)) d) store2
    (rd_healthy _ _ _ Hr2)) as ([] & store3 & Hm & Hh3).
  unfold MarkApplied. rewrite Hm. apply exec_sdb in Hm.
  destruct (ack_effect (cmd_ID cmd) res (n_out n2) Hmm Hstr) as (st1 & Hack & Hacks & Hact).
  assert (Hr3 : ready store3 n2 s2).
  { destruct Hr2. split; try done. unfold known. rewrite Hm. by unfold set_applied. }
  assert (Hend : ∃ st', (match cp_Writes (cmd_Payload cmd) with
      | [] => cloud_Ack (cmd_ID cmd) (mkAck "applied" res) (log2, n2)
      | _ => if decide ("applied" = "applied") then postCommandSnapshot (cmd_CWMPID cmd) (ar_Readback res)
               (cloud_Ack (cmd_ID cmd) (mkAck "applied" res) (log2, n2)) else cloud_Ack (cmd_ID cmd) (mkAck "applied" res) (log2, n2)
      end) = (log2, mkNet (n_srv n2) (n_dials n2) (n_turns n2) (with_cloud st' (n_out n2))) ∧
      acked (cmd_ID cmd) (p_dev (n_out n2)) (p_cloud (n_out n2)) st').
  { cbn [cloud_Ack plant_Acs server_Acs on_out fst snd n_out n_srv n_dials n_turns]. rewrite Hack.
    assert (H0 : ∃ st', (log2, mkNet (n_srv n2) (n_dials n2) (n_turns n2) (with_cloud st1 (n_out n2))) =
      (log2, mkNet (n_srv n2) (n_dials n2) (n_turns n2) (with_cloud st' (n_out n2))) ∧
      acked (cmd_ID cmd) (p_dev (n_out n2)) (p_cloud (n_out n2)) st') by by exists st1.
    destruct (cp_Writes (cmd_Payload cmd)); [exact H0|]. rewrite (decide_True (P := "applied" = "applied")) by done.
    unfold postCommandSnapshot. destruct (decide (ar_Readback res = ∅)); [exact H0|].
    cbn [cloud_SendSnapshot plant_Acs server_Acs on_out fst snd n_out n_srv n_dials n_turns].
    destruct (snapshot_effect (cmd_CWMPID cmd) (ar_Readback res) "command_readback" (with_cloud st1 (n_out n2)))
      as (st2 & -> & Hacks2 & Hact2).
    exists st2. split; [done|]. cbn [p_cloud with_cloud plant_put snd] in Hacks2, Hact2. split; [by rewrite Hacks2|].
    intros f' Hf'. destruct (Hact2 f' Hf') as (f1 & Hf1 & ->). by apply Hact. }
  destruct Hend as (st' & -> & Hfin).
  exists res, store3, log2, (mkNet (n_srv n2) (n_dials n2) (n_turns n2) (with_cloud st' (n_out n2))), s2.
  split; [done|]. split; [by apply ready_cloud|]. split; [by rewrite Hm; simpl; rewrite Ha2, Hdb|].
  split; [exact Ht2|]. split; [exact Hfc|]. split; [exact Hdev|]. split; [exact Hms|]. by rewrite <- Hcl.
Qed.

(** ** The round *)

Lemma can_answer_app fc ts ts' : ∀ msgs d, can_answer fc msgs d (ts ++ ts') →
  can_answer fc msgs d ts ∧ can_answer fc (msgs + Z.of_nat (length ts)) (foldl (flip after) d ts) ts'.
Proof.
  induction ts as [|t ts IH]; intros msgs d; cbn [app can_answer foldl length].
  - intros Hc. split; [done|]. by replace (msgs + Z.of_nat 0)%Z with msgs by lia.
  - intros [Ht Hc]. apply IH in Hc as [Hc1 Hc2]. split; [done|].
    by replace (msgs + Z.of_nat (Datatypes.S (length ts)))%Z with (msgs + 1 + Z.of_nat (length ts))%Z by lia.
Qed.

Definition configure_tasks : list Task := [write_task (configure_cmd id); readback_task (configure_cmd id)].
Definition round_tasks : list Task := configure_tasks ++ [query_task (query_cmd id)] ++ [reboot_task (reboot_cmd id)].
Definition fixture_ids : list string := [configureCommandID; queryCommandID; rebootCommandID].

(** After the write the device has the value, and the cloud sees it. *)
Lemma configured d d' : params d' = params (after (write_task (configure_cmd id)) d) →
  params d' !! refSignalPowerPath = Some configuredRSPower ∧ verdict d' = "verified".
Proof.
  intros Hp. destruct (readback_matches (configure_cmd id) d d' eq_refl Hp) as [Hall _].
  assert (Hv : params d' !! refSignalPowerPath = Some configuredRSPower) by (by apply (Hall _ (AString configuredRSPower))).
  split; [exact Hv|]. unfold verdict, get. cbn [omap list_omap]. rewrite Hv. cbn [mbind option_bind fmap option_fmap option_map]. by rewrite decide_True.
Qed.

(** C1: The mock cloud's whole agenda in one poll: the worker is offered the three
    commands; the device, visiting once for each task, is written and read back,
    queried and rebooted; all three are recorded, acknowledged as applied, and
    the cloud, by looking at the device itself, finds the write verified; the next
    poll brings nothing. *)
Theorem poll_settles v1 v2 v3 v4 now marshal_result unmarshal_result reg col0 store log n s rest :
  ready store n s → visits v1 → visits v2 → visits v3 → visits v4 →
  n_turns n = visit_turns v1 ++ visit_turns v2 ++ visit_turns v3 ++ visit_turns v4 ++ rest →
  cwmpID (p_dev (n_out n)) = id →
  can_answer (firstContactGPV s) (p_msgs (n_out n)) (p_dev (n_out n)) round_tasks →
  Forall (λ cid, applied (sdb store) !! cid = None ∧ acks (p_cloud (n_out n)) !! cid = None) fixture_ids →
  ∃ store' log' n',
    handleCommands marshal_result unmarshal_result SprintFloat FormatFloat Duration_String cfg manifest now false
      (mkWorker reg col0 store (log, n)) = ([Commands fixture_ids fixture_ids], mkWorker reg col0 store' (log', n')) ∧
    Forall (λ cid, (ap_status <$> applied (sdb store') !! cid) = Some "applied" ∧
                   acks (p_cloud (n_out n')) !! cid = Some "applied") fixture_ids ∧
    params (p_dev (n_out n')) !! refSignalPowerPath = Some configuredRSPower ∧
    (∀ f, fleet (p_cloud (n_out n')) = Some f → actuation f = "verified") ∧
    cloud_Poll (log', n') = (Ok [], (log', n')).
Proof.
  intros Hr Hv1 Hv2 Hv3 Hv4 Ht Hcw Hans Hnone.
  assert (Hpoll : ∀ lg (nn : net loop_turn plant), cloud_Poll (lg, nn) = (Ok (offered (cwmpID (p_dev (n_out nn))) (p_cloud (n_out nn))), (lg, nn))).
  { intros lg nn. cbn [cloud_Poll plant_Cloud server_Cloud]. unfold on_out, plant_Do. cbn [fst snd].
    rewrite (Poll_reaches plant_look plant_put plant_put_look SprintFloat timestamp json_params json_heartbeat json_telemetry
      json_snapshot json_ack json_Encode origin valid_url ctx_Err json_Envelope json_Unmarshal Marshal_Ack c valid_origin origin_ok
      base_ok (p_dev (n_out nn)) [] (p_cloud (n_out nn)) (n_out nn) json_ok eq_refl). by destruct nn. }
  unfold fixture_ids in Hnone. rewrite !Forall_cons in Hnone. destruct Hnone as ([Ha1 Hk1] & [Ha2 Hk2] & [Ha3 Hk3] & _).
  unfold handleCommands. cbn [WorkerRun.world buf registered col]. rewrite Hpoll, Hcw.
  assert (Hoff : offered id (p_cloud (n_out n)) = [configure_cmd id; query_cmd id; reboot_cmd id]).
  { unfold offered. by rewrite !filter_cons, filter_nil, !decide_True by done. }
  rewrite Hoff. clear Hoff. cbn [handle_commands].
  assert (Hne1 : configureCommandID ≠ "") by done. assert (Hne2 : queryCommandID ≠ "") by done.
  assert (Hne3 : rebootCommandID ≠ "") by done.
  unfold round_tasks in Hans. apply can_answer_app in Hans as [Hans1 Hans2]. apply can_answer_app in Hans2 as [Hans2 Hans3].
  destruct (handle_carried_out (configure_cmd id) configure_tasks (visit_turns v3 ++ visit_turns v4 ++ rest) now marshal_result
    unmarshal_result store log n s Hr Ha1) as (res1 & st1 & log1 & n1 & s1 & Hh1 & Hr1 & Hap1 & Ht1 & Hfc1 & Hd1 & Hm1 & Hac1).
  { intros store1 Hrs. exact (write_carried_out (configure_cmd id) v1 v2 store1 log n s _ Hrs eq_refl Hne1 (list_elem_of_here _ _) eq_refl Hv1 Hv2 Ht Hans1). }
  rewrite Hh1. rewrite <- Hm1, <- Hd1, <- Hfc1 in Hans2, Hans3.
  destruct (handle_carried_out (query_cmd id) [query_task (query_cmd id)] (visit_turns v4 ++ rest) now marshal_result
    unmarshal_result st1 log1 n1 s1 Hr1) as (res2 & st2 & log2 & n2 & s2 & Hh2 & Hr2 & Hap2 & Ht2 & Hfc2 & Hd2 & Hm2 & Hac2).
  { rewrite Hap1. by rewrite lookup_insert_ne. }
  { intros store1 Hrs. exact (query_carried_out (query_cmd id) v3 store1 log1 n1 s1 _ Hrs eq_refl Hne2 eq_refl Hv3 Ht1 Hans2). }
  rewrite Hh2. rewrite <- Hm2, <- Hd2, <- Hfc2 in Hans3.
  destruct (handle_carried_out (reboot_cmd id) [reboot_task (reboot_cmd id)] rest now marshal_result
    unmarshal_result st2 log2 n2 s2 Hr2) as (res3 & st3 & log3 & n3 & s3 & Hh3 & Hr3 & Hap3 & Ht3 & Hfc3 & Hd3 & Hm3 & Hac3).
  { rewrite Hap2, Hap1. by rewrite !lookup_insert_ne. }
  { intros store1 Hrs. exact (reboot_carried_out (reboot_cmd id) v4 store1 log2 n2 s2 _ Hrs eq_refl Hne3 eq_refl Hv4 Ht2 Hans3). }
  rewrite Hh3. cbn [app].
  destruct Hac1 as [Hk1' Hf1], Hac2 as [Hk2' Hf2], Hac3 as [Hk3' Hf3].
  assert (Hp1 : params (p_dev (n_out n1)) = params (after (write_task (configure_cmd id)) (p_dev (n_out n)))).
  { rewrite Hd1. cbn [foldl flip configure_tasks]. by rewrite after_params by left. }
  assert (Hp3 : params (p_dev (n_out n3)) = params (p_dev (n_out n1))).
  { rewrite Hd3, Hd2. cbn [foldl flip]. rewrite (after_params (reboot_task _)) by (right; left). by rewrite after_params by left. }
  destruct (configured (p_dev (n_out n)) (p_dev (n_out n1)) Hp1) as [Hpar Hver].
  assert (Hall : Forall (λ cid, (ap_status <$> applied (sdb st3) !! cid) = Some "applied" ∧
                   acks (p_cloud (n_out n3)) !! cid = Some "applied") fixture_ids).
  { rewrite Hap3, Hap2, Hap1, Hk3', Hk2', Hk1'. unfold fixture_ids. rewrite !Forall_cons.
    cbn [cmd_ID configure_cmd query_cmd reboot_cmd fixture]. split_and!; try done; repeat (rewrite lookup_insert_ne by done); by rewrite lookup_insert_eq. }
  exists st3, log3, n3. split; [done|]. split; [exact Hall|]. split; [by rewrite Hp3|]. split.
  - intros f Hf. destruct (Hf3 f Hf) as (f2 & Hf2' & ->). rewrite decide_False by done.
    destruct (Hf2 f2 Hf2') as (f1 & Hf1' & ->). rewrite decide_False by done. destruct (Hf1 f1 Hf1') as (f0 & _ & ->). by rewrite decide_True.
  - rewrite Hpoll. unfold offered. unfold fixture_ids in Hall. rewrite !Forall_cons in Hall. destruct Hall as ([_ H1] & [_ H2] & [_ H3] & _).
    rewrite !filter_cons, filter_nil. cbn [cmd_ID configure_cmd query_cmd reboot_cmd fixture]. by rewrite H1, H2, H3.
Qed.
End Round.
End PollRound.

(** ** A witness

    The device of [ClosedLoop], poked for the write and on its own clock for the
    rest, and the mock cloud of a fleet of this one device. *)
Definition ex_row := DeviceRow "10.0.0.5" "NybSys" "ENB-1" "42" "1.0" 0 0.
Definition ex_conn : sql := Sql (set_devices {[ex_id := ex_row]} empty_db) [] 0 4096 0.
Definition ex_acs : Server := (deviceSessionLocked ex_id (UseConnRequest "acs" "pw" "http://10.0.0.5:30005/" NewServer, ex_conn)).1.
Definition ex_plant : plant := mkPlant ex_device None 0 0 0 (set_fleet (Some (newFleetHealth [ex_id])) (initial_state "")).
Abbreviation ex_poke := (Mine, true).
Abbreviation ex_tick := (Shared, false).
Definition ex_site : net loop_turn plant :=
  mkNet ex_acs [] (visit_turns ex_poke ++ visit_turns ex_tick ++ visit_turns ex_tick ++ visit_turns ex_tick ++ []) ex_plant.
Definition ex_session0 : Session := set_IP "10.0.0.5" (set_DeviceID ex_id (newSessionLocked NewServer)).
Abbreviation ex_tasks := (round_tasks (λ _, "") (λ _, "") None ex_id).
Abbreviation ex_after t d := (after (loadManifest []) paths_of t d).

Lemma ex_ready : ready (String.eqb "http://10.0.0.5:30005/") ex_id true ex_conn ex_site ex_session0.
Proof.
  split.
  - vm_compute. reflexivity.
  - vm_compute. done.
  - constructor.
  - intros _. vm_compute. done.
  - done.
  - vm_compute. reflexivity.
  - constructor.
  - exists ex_row. vm_compute. done.
Qed.

Lemma ex_can_send msgs t d a d' r : opening_ok (λ _, 5%Z) (nextMsgID msgs).1 d → request_of t = Some r →
  answer (loadManifest []) paths_of t (takeTransfer (incInform d)).2 = Some (a, d') → response_ok r →
  sendable (nextMsgID msgs).1 a → can_send (λ _, 5%Z) (loadManifest []) paths_of [] msgs t d.
Proof.
  intros Ho Hr Ha Hrok Hs. split; [exact Ho|]. intros learn Hl. cbn [answers_ok]. rewrite Hr, Ha.
  split; [exact Hrok|]. split; [exact Hs|]. destruct Hl as [->| ->]; exact I.
Qed.

Definition ex_d1 : device := ex_after (write_task (λ _, "") (λ _, "") None (configure_cmd ex_id)) ex_device.
Definition ex_d2 : device := ex_after (readback_task (configure_cmd ex_id)) ex_d1.
Definition ex_d3 : device := ex_after (query_task (query_cmd ex_id)) ex_d2.

Lemma ex_reads msgs d : oui d = oui ex_device → productClass d = productClass ex_device → serial d = serial ex_device →
  get (inform_paths d) d = [] → (takeTransfer (incInform d)).1 = None →
  get [refSignalPowerPath] (takeTransfer (incInform d)).2 = [(refSignalPowerPath, "-8")] →
  Forall (λ a, bool_decide (fits (message_text (nextMsgID msgs).1 a)) = true)
    [MInform 5 d; MGetRPCMethods; MTransferComplete 5; MGPVResponse (loadManifest []) [(refSignalPowerPath, "-8")]; MRebootResponse] →
  ∀ t, (t_Type t = TaskGPV ∧ t_Paths t = [refSignalPowerPath]) ∨ (t_Type t = TaskReboot ∧ valid_text (t_CmdKey t) = true) →
  can_send (λ _, 5%Z) (loadManifest []) paths_of [] msgs t d.
Proof.
  intros Ho Hp Hs Hinf Hx Hg Hf t Ht. rewrite !Forall_cons in Hf. destruct Hf as (H1 & H2 & H3 & H4 & H5 & _).
  pose proof (ex_reopening _ d Ho Hp Hs Hinf Hx H1 H2 H3) as Hopen.
  destruct Ht as [[Hty Hpa]|[Hty Hkey]].
  - eapply ex_can_send; [exact Hopen|unfold request_of; by rewrite Hty, Hpa|unfold answer; by rewrite Hty, Hpa, Hg| |].
    + apply Forall_singleton. reflexivity.
    + apply (ex_sendable _ _ H4). apply Forall_singleton. split; reflexivity.
  - eapply ex_can_send; [exact Hopen|unfold request_of; by rewrite Hty|unfold answer; by rewrite Hty|exact Hkey|].
    exact (ex_sendable _ _ H5 I).
Qed.

Lemma ex_can_answer : can_answer (λ _, 5%Z) (loadManifest []) paths_of [] 0 ex_device ex_tasks.
Proof.
  assert (Hkeys : t_Paths (readback_task (configure_cmd ex_id)) = [refSignalPowerPath]) by (vm_compute; reflexivity).
  unfold round_tasks, configure_tasks. cbn [app can_answer]. fold ex_d1. fold ex_d2. fold ex_d3. split_and!; [| | | |exact I].
  - eapply ex_can_send; [exact ex_opening|reflexivity|reflexivity| |].
    + split; [|reflexivity]. apply Forall_singleton. split_and!; reflexivity.
    + apply ex_sendable; [vm_compute; reflexivity|exact I].
  - apply ex_reads; [vm_compute; reflexivity..| |left; by split]. repeat (constructor; [vm_compute; reflexivity|]). constructor.
  - apply ex_reads; [vm_compute; reflexivity..| |left; by split]. repeat (constructor; [vm_compute; reflexivity|]). constructor.
  - apply ex_reads; [vm_compute; reflexivity..| |right; by split]. repeat (constructor; [vm_compute; reflexivity|]). constructor.
Qed.

Definition ex_client : Client := Client.New "http://testsuite:9000/" "key".

Lemma poll_settles_witness : ∃ store' log' n',
  handleCommands (W := list served * net loop_turn plant)
    (H := plant_Acs (λ _, false) "10.0.0.5" (λ _, 5%Z) (λ _, 5%Z) (loadManifest []) paths_of (String.eqb "http://10.0.0.5:30005/")
      (λ _, None) (λ _, "") "now" (λ _, inl "") (λ _, []) (λ _, mkTelemetryBody [] []) (λ _, ∅) id ex_encode "http://testsuite:9000"
      (λ _, true) (λ _, None) ex_envelope ex_unmarshal (λ _, Ok "{}") (λ ack, Ok (ack_Status ack)) ex_client)
    (H0 := plant_Cloud (λ _, "") "now" (λ _, inl "") (λ _, []) (λ _, mkTelemetryBody [] []) (λ _, ∅) id ex_encode "http://testsuite:9000"
      (λ _, true) (λ _, None) ex_envelope ex_unmarshal (λ _, Ok "{}") (λ _, Ok "{}") (λ _, "error") ex_client)
    (λ _, "{}") (λ _, CloudTypes.empty_result) (λ _, "") (λ _, "") (λ _, "15s") Config.defaultConfig None 7 false
    (mkWorker true (Collector.New "/ftp") ex_conn ([], ex_site)) =
    ([Commands fixture_ids fixture_ids], mkWorker true (Collector.New "/ftp") store' (log', n')) ∧
  acks (p_cloud (n_out n')) !! rebootCommandID = Some "applied" ∧
  params (p_dev (n_out n')) !! refSignalPowerPath = Some "-8".
Proof.
  assert (Hhost : "10.0.0.5" ≠ "") by done.
  assert (Hid : ex_id ≠ "" ∧ all_bytes cookie_byte ex_id = true) by (split; [done|vm_compute; reflexivity]).
  assert (Hnone : Forall (λ cid, applied (sdb ex_conn) !! cid = None ∧ acks (p_cloud (n_out ex_site)) !! cid = None) fixture_ids).
  { repeat (constructor; [split; vm_compute; reflexivity|]). constructor. }
  assert (Hpoke : visits true ex_poke) by done. assert (Htick : visits true ex_tick) by done.
  destruct (poll_settles (λ _, false) "10.0.0.5" (λ _, 5%Z) (λ _, 5%Z) (loadManifest []) paths_of (String.eqb "http://10.0.0.5:30005/")
    (λ _, None) (λ _, "") (λ _, "") None (λ _, "15s") Config.defaultConfig "now" (λ _, inl "") (λ _, []) (λ _, mkTelemetryBody [] [])
    (λ _, ∅) id ex_encode "http://testsuite:9000" (λ _, true) (λ _, None) ex_envelope ex_unmarshal (λ _, Ok "{}") (λ _, Ok "{}")
    (λ _, Ok "{}") (λ ack, Ok (ack_Status ack)) (λ _, "error") ex_client Hhost ex_codec (λ _ _ _, eq_refl) eq_refl (or_introl eq_refl)
    ex_id Hid true ex_poke ex_tick ex_tick ex_tick 7 (λ _, "{}") (λ _, CloudTypes.empty_result) true (Collector.New "/ftp") ex_conn []
    ex_site ex_session0 [] ex_ready Hpoke Htick Htick Htick eq_refl eq_refl ex_can_answer Hnone)
    as (store' & log' & n' & Hrun & Hall & Hpar & _).
  unfold fixture_ids in Hall. rewrite !Forall_cons in Hall. destruct Hall as (_ & _ & [_ Hack] & _).
  exists store', log', n'. exact (conj Hrun (conj Hack Hpar)).
Defined.
