(* ===== verification/Agent.v ===== *)
(** * The agent: collector, worker and buffer together

    The collector's goroutine scans the watch directory while the worker drains
    what it parsed, queues it in the buffer and hands marks back; the process may
    stop at any point and start again on the same database.  Here these parts are
    one machine whose steps are the pieces of code no other goroutine can cut
    into; any interleaving of them is a run, and each step's database statements
    may fail as they like. *)
From S2P Require Import Prelude GoStrings GoTime CloudTypes Db Ledger Outbox.
From S2P Require Import CwmpTypes CwmpStore Rules Collector Manifest Worker.

(** The telemetry batch the worker is queueing: what was drained, the request
    made of it, and the parts still to be queued. *)
Record job := mkJob {
  j_ftp : FTPBatch;
  j_req : TelemetryRequest;
  j_rest : list telemetryPart }.

(** [looked] and [given] are history: the directory entries the scans looked at,
    and the requests whose bodies were given to the buffer, with whether it queued
    them ([false]: a body over the whole cap, which is dropped). *)
Record agent := mkAgent {
  ag_col : Collector;
  ag_db : db;
  ag_job : option job;
  looked : list (Z * entry);
  given : list (TelemetryRequest * bool) }.

Definition set_col c a := mkAgent c (ag_db a) (ag_job a) (looked a) (given a).

(** ** What single operations do to marks and rows *)

Lemma forget_marks_seen l : ∀ seen p st, foldl (flip forget_mark) seen l !! p = Some st →
  seen !! p = Some st ∧ mkMark p st ∉ l.
Proof.
  induction l as [|m l IH]; intros seen p st; simpl; [intros ?; split; [done|apply not_elem_of_nil]|].
  intros [Hs Hn]%IH. unfold forget_mark in Hs. destruct (seen !! Path m) as [st'|] eqn:Hm.
  - case_decide as Hd.
    + apply lookup_delete_Some in Hs as [Hne Hs]. split; [done|]. intros [Heq|?]%elem_of_cons; [|done]. by subst m.
    + split; [done|]. intros [Heq|?]%elem_of_cons; [|done]. subst m. simpl in *. congruence.
  - split; [done|]. intros [Heq|?]%elem_of_cons; [|done]. subst m. simpl in *. congruence.
Qed.

(** Reading leaves the tables alone. *)
Definition reads (s s' : sql) : Prop := sdb s' = sdb s ∧ (engine_faults s → engine_faults s').

Lemma reads_refl s : reads s s.
Proof. done. Qed.

Lemma Buffer_ListDevices_reads (s : sql) : reads s (Buffer_ListDevices s).2.
Proof.
  unfold Buffer_ListDevices. rewrite SE_bind_unfold. pose proof (engine_query devices_in_order s) as He.
  destruct (query devices_in_order s) as [[rows|e] s1] eqn:Hq; apply query_sdb in Hq as [Hd _];
    [|split; [done|]; intros Hf; by apply He].
  assert (Hrf : engine_faults s1 → engine_faults (read_rows rows s1).2).
  { intros Hf. unfold read_rows. pose proof (engine_stmt (λ d, (rows, d)) s1 Hf) as Hs.
    destruct (stmt _ s1) as [[x|[]] s2]; simpl; by try apply Hs. }
  destruct (read_rows rows s1) as [r s2] eqn:Hr. apply read_rows_sdb in Hr as [Hd2 _].
  destruct r; (split; [simpl; congruence|]); intros Hf; by apply Hrf, He.
Qed.

Lemma scan_entry_reads engine now check e c (s : sql) : reads s (scan_entry engine now check e (c, s)).2.
Proof.
  assert (Hi : ∀ path c, reads s (ingest engine now path e (c, s)).2).
  { intros path c1. unfold ingest. destruct (skip_lookup _); [done|]. unfold resolveDeviceID.
    destruct (ouiSerialFromName path) as [oui serial]. case_decide; [done|].
    pose proof (Buffer_ListDevices_reads s) as Hd. change (ListDevices s) with (Buffer_ListDevices s).
    destruct (Buffer_ListDevices s) as [devices s1]. cbn [snd] in Hd.
    destruct (find_device oui serial devices); [|done]. destruct (en_Info e); [|done].
    destruct (parseUpload _ _ _ _ _); [done|]. by case_decide. }
  unfold scan_entry. destruct (is_upload e); [|done]. destruct (seenPaths c !! _); [|done].
  destruct check; [|done]. destruct (en_Info e); [|done]. by case_decide.
Qed.

(** The ledger after a scan holds what it held, or marks that were pending. *)
Lemma persistScan_ledger now present gone c (s : sql) p st :
  ledger_stamps (sdb (persistScan now present gone (c, s)).2) !! p = Some st →
  ledger_stamps (sdb s) !! p = Some st ∨ mkMark p st ∈ pendingMarks c.
Proof.
  assert (Hmark : ∀ ms s, (∀ m, m ∈ ms → m ∈ pendingMarks c) →
    ledger_stamps (sdb (MarkFTPIngested now ms s).2) !! p = Some st →
    ledger_stamps (sdb s) !! p = Some st ∨ mkMark p st ∈ pendingMarks c).
  { intros ms s0 Hin. pose proof (triple_MarkFTPIngested now ms (sdb s0) s0 eq_refl) as Ht.
    assert (Hl : ∀ l, (∀ m, m ∈ l → m ∈ ms) → ledger_stamps (upsert_marks_db now l (sdb s0)) !! p = Some st →
      ledger_stamps (sdb s0) !! p = Some st ∨ mkMark p st ∈ pendingMarks c).
    { intros l Hl. rewrite upsert_marks_lookup. destruct (last_stamp p l) eqn:Hs; [|by left].
      intros [= ->]. right. by apply Hin, Hl, last_stamp_Some. }
    destruct (MarkFTPIngested now ms s0) as [[[]|e] s1]; cbn [snd].
    - rewrite Ht. by apply Hl.
    - destruct Ht as (k & _ & ->). apply Hl. intros m Hm. by apply elem_of_take_in in Hm. }
  assert (Hforget : ∀ l s, ledger_stamps (sdb (ForgetFTPIngested l s).2) !! p = Some st →
    ledger_stamps (sdb s) !! p = Some st).
  { intros l s0. pose proof (triple_ForgetFTPIngested l (sdb s0) s0 eq_refl) as Ht.
    destruct (ForgetFTPIngested l s0) as [[[]|e] s1]; cbn [snd]; [|destruct Ht as (k & _ & Ht)];
      rewrite Ht, forget_paths_lookup; by case_decide. }
  unfold persistScan. destruct (with_ledger c); [|by left].
  destruct gone as [|g gone].
  - destruct (pendingMarks c) as [|m ms] eqn:Hp; [by left|]. cbn [led_Mark Buffer_IngestLedger].
    pose proof (Hmark (m :: ms) s) as Hm. rewrite ?Hp in Hm.
    destruct (MarkFTPIngested now (m :: ms) s) as [[[]|e] s1]; cbn [snd] in *; by apply Hm.
  - cbn [led_Forget Buffer_IngestLedger]. specialize (Hforget (g :: gone) s).
    destruct (ForgetFTPIngested (g :: gone) s) as [r s1]. cbn [snd] in Hforget. unfold set_pendingMarks. cbn [pendingMarks set_queue events eventMarks].
    assert (Hk : ∀ x, x ∈ keepPresent present (pendingMarks c) → x ∈ pendingMarks c).
    { by intros x [_ Hx]%list_elem_of_filter. }
    destruct (keepPresent present (pendingMarks c)) as [|m ms] eqn:Hp; [intros ?; left; by apply Hforget|].
    cbn [led_Mark Buffer_IngestLedger]. specialize (Hmark (m :: ms) s1 Hk).
    destruct (MarkFTPIngested now (m :: ms) s1) as [[[]|e] s2]; cbn [snd] in *; intros [?|?]%Hmark; auto.
Qed.

(** The ledger's writes leave the outbox alone. *)
Definition same_outbox (d d' : db) : Prop := outbox d' = outbox d ∧ outbox_seq d' = outbox_seq d.

Lemma same_outbox_wf d d' : same_outbox d d' → outbox_wf d → outbox_wf d'.
Proof. unfold outbox_wf. by intros [-> ->]. Qed.

Lemma same_outbox_trans d1 d2 d3 : same_outbox d1 d2 → same_outbox d2 d3 → same_outbox d1 d3.
Proof. intros [H1 H2] [H3 H4]. split; congruence. Qed.

Lemma MarkFTPIngested_outbox now ms (s : sql) : same_outbox (sdb s) (sdb (MarkFTPIngested now ms s).2).
Proof.
  pose proof (triple_MarkFTPIngested now ms (sdb s) s eq_refl) as Ht.
  destruct (MarkFTPIngested now ms s) as [[[]|e] s1]; cbn [snd]; [|destruct Ht as (k & _ & Ht)]; rewrite Ht;
    (split; [by edestruct upsert_marks_other as (-> & _)|by edestruct upsert_marks_other as (_ & -> & _)]).
Qed.

Lemma ForgetFTPIngested_outbox l (s : sql) : same_outbox (sdb s) (sdb (ForgetFTPIngested l s).2).
Proof.
  pose proof (triple_ForgetFTPIngested l (sdb s) s eq_refl) as Ht.
  destruct (ForgetFTPIngested l s) as [[[]|e] s1]; cbn [snd]; [|destruct Ht as (k & _ & Ht)]; rewrite Ht;
    (split; [by edestruct forget_paths_other as (-> & _)|by edestruct forget_paths_other as (_ & -> & _)]).
Qed.

Lemma persistScan_outbox now present gone c (s : sql) :
  same_outbox (sdb s) (sdb (persistScan now present gone (c, s)).2).
Proof.
  unfold persistScan. destruct (with_ledger c); [|done].
  assert (Hend : ∀ c1 s1, same_outbox (sdb s1) (sdb (match pendingMarks c1 with
    | [] => (c1, s1)
    | ms => match led_Mark now ms s1 with
            | (Err _, store) => (c1, store)
            | (Ok _, store) => (set_pendingMarks [] c1, store)
            end
    end).2)).
  { intros c1 s1. destruct (pendingMarks c1) as [|m ms]; [done|]. cbn [led_Mark Buffer_IngestLedger].
    pose proof (MarkFTPIngested_outbox now (m :: ms) s1) as Hm.
    by destruct (MarkFTPIngested now (m :: ms) s1) as [[[]|e] s2]. }
  destruct gone as [|g gone]; [by apply Hend|]. cbn [led_Forget Buffer_IngestLedger].
  pose proof (ForgetFTPIngested_outbox (g :: gone) s) as Hf.
  destruct (ForgetFTPIngested (g :: gone) s) as [r s1]. eapply same_outbox_trans; [exact Hf|apply Hend].
Qed.

Section Agent.
Variable engine : Engine.
Variable json_Marshal : TelemetryRequest → option string.
Variable b : Buffer.
Variable dir : string.

(** A connection to the agent's database; its statements fail as they like. *)
Definition conn_to (a : agent) (s : sql) : Prop := sdb s = ag_db a ∧ engine_faults s.

Definition batch_parts (req : TelemetryRequest) : list telemetryPart :=
  splitTelemetry json_Marshal req (Z.quot (b_maxBytes b) partsPerCap).

(** What the collector and the worker's telemetry do. *)
Inductive own_step : agent → agent → Prop :=
| step_requeued a : (* a poll starts *)
    own_step a (set_col (takeRequeued (ag_col a)) a)
| step_begin a : (* the directory was read *)
    own_step a (set_col (scan_begin (ag_col a)).2 a)
| step_entry a now check e s c' s' :
    conn_to a s → scan_entry engine now check e (ag_col a, s) = (c', s') →
    own_step a (mkAgent c' (sdb s') (ag_job a) (looked a ++ [(now, e)]) (given a))
| step_finish a now entries s c' s' :
    conn_to a s → scan_finish now entries (ag_col a, s) = (c', s') →
    own_step a (mkAgent c' (sdb s') (ag_job a) (looked a) (given a))
| step_drain a metrics alarms cwmp ftp c' :
    ag_job a = None → DrainFTP (ag_col a) = (ftp, c') →
    let req := mkTelemetry metrics (Events ftp ++ cwmp) alarms in
    own_step a (mkAgent c' (ag_db a) (Some (mkJob ftp req (batch_parts req))) (looked a) (given a))
| step_part a ftp req p rest now s q c' s' :
    ag_job a = Some (mkJob ftp req (p :: rest)) → conn_to a s →
    enqueue_part b now ftp p (ag_col a, s) = (Some q, (c', s')) →
    own_step a (mkAgent c' (sdb s') (Some (mkJob ftp req rest)) (looked a) (given a ++ [(part_request req p, q)]))
| step_part_failed a ftp req p rest now s c' s' :
    ag_job a = Some (mkJob ftp req (p :: rest)) → conn_to a s →
    enqueue_part b now ftp p (ag_col a, s) = (None, (c', s')) →
    own_step a (mkAgent (Requeue (MarksIn ftp (pt_start p) (length (tq_Events req))) c') (sdb s') None (looked a) (given a))
| step_queued a ftp req :
    ag_job a = Some (mkJob ftp req []) → own_step a (mkAgent (ag_col a) (ag_db a) None (looked a) (given a))
| step_restart a s r c' s' : (* the process stopped and starts again *)
    conn_to a s → UseIngestLedger (New dir, s) = (r, (c', s')) →
    own_step a (mkAgent c' (sdb s') None (looked a) (given a)).

Inductive step : agent → agent → Prop :=
| step_own a a' : own_step a a' → step a a'
| step_elsewhere a d : (* sessions, commands and the outbox's drain *)
    ledger_stamps d = ledger_stamps (ag_db a) → outbox_wf d →
    step a (mkAgent (ag_col a) d (ag_job a) (looked a) (given a)).

Definition initial : agent := mkAgent (New dir) empty_db None [] [].
Definition reachable (a : agent) : Prop := rtc step initial a.

(** ** What the agent promises *)

(** [evs] are the events of an upload with this mark that some scan read, or the
    upload could not be read and has none. *)
Definition parse_of (a : agent) (m : FTPMark) (evs : list EventItem) : Prop :=
  ∃ now e, (now, e) ∈ looked a ∧ Path m = Join2 dir (en_Name e) ∧ en_Info e = Some (Stamp m) ∧
    (evs = [] ∧ en_Gunzip e = None ∨ ∃ dev, parseUpload engine now (Path m) e dev = Some evs).

(** The event was in a body given to the buffer, which queued it unless it was
    over the cap. *)
Definition handed (a : agent) (ev : EventItem) : Prop :=
  ∃ r q body, (r, q) ∈ given a ∧ ev ∈ tq_Events r ∧ json_Marshal r = Some body ∧ (q = false → over_cap b body).

(** The event was in a request that json.Marshal refused, for which the buffer was
    given an empty body. *)
Definition refused (a : agent) (ev : EventItem) : Prop :=
  ∃ r q, (r, q) ∈ given a ∧ ev ∈ tq_Events r ∧ json_Marshal r = None.

Definition passed_on (a : agent) (ev : EventItem) : Prop := handed a ev ∨ refused a ev.

(** The agent is through with all events of the upload. *)
Definition settled (a : agent) (m : FTPMark) : Prop :=
  ∃ evs, parse_of a m evs ∧ ∀ ev, ev ∈ evs → passed_on a ev.

(** The upload's events are among the first [em_end] of [l]. *)
Definition carried (a : agent) (l : list EventItem) (em : eventMark) : Prop :=
  ∃ evs, parse_of a (em_mark em) evs ∧ ∀ ev, ev ∈ evs → ev ∈ take (em_end em) l.

(** The upload waits in a batch whose events from [from] on are still to be
    handed over. *)
Definition waits_in (from : nat) (j : job) (m : FTPMark) : Prop :=
  ∃ em, em ∈ marks (j_ftp j) ∧ em_mark em = m ∧ from < em_end em.

Definition j_from (j : job) : nat :=
  match j_rest j with
  | p :: _ => pt_start p
  | [] => length (tq_Events (j_req j))
  end.

(** An upload the agent still answers for. *)
Definition in_care (a : agent) (m : FTPMark) : Prop :=
  settled a m ∨ (∃ em, em ∈ eventMarks (ag_col a) ∧ em_mark em = m) ∨ m ∈ requeued (ag_col a) ∨
  (∃ j, ag_job a = Some j ∧ waits_in (j_from j) j m).

(** ** The invariant *)

Definition part_carries (req : TelemetryRequest) (p : telemetryPart) : Prop :=
  pt_body p = body_of json_Marshal (part_request req p).

Record job_ok (a : agent) (j : job) : Prop := {
  job_tiles : tiles (j_from j) (length (tq_Events (j_req j))) (j_rest j);
  job_bodies : Forall (part_carries (j_req j)) (j_rest j);
  job_small : Forall (λ p, over_cap b (pt_body p) → length (MarksIn (j_ftp j) (pt_start p) (pt_end p)) ≤ 1) (j_rest j);
  job_handed : ∀ ev, ev ∈ take (j_from j) (tq_Events (j_req j)) → passed_on a ev;
  job_prefix : ∃ k, tq_Events (j_req j) = Events (j_ftp j) ++ k;
  job_ends : ends_ok (length (Events (j_ftp j))) (marks (j_ftp j));
  job_marks : ∀ em, em ∈ marks (j_ftp j) → carried a (Events (j_ftp j)) em }.

Record agent_ok (a : agent) : Prop := {
  ok_outbox : outbox_wf (ag_db a);
  ok_queue : queue_ok (ag_col a);
  ok_dir : c_ftpDir (ag_col a) = dir;
  ok_ledger : ∀ p st, ledger_stamps (ag_db a) !! p = Some st → settled a (mkMark p st);
  ok_pending : ∀ m, m ∈ pendingMarks (ag_col a) → settled a m;
  ok_events : ∀ em, em ∈ eventMarks (ag_col a) → carried a (events (ag_col a)) em;
  ok_job : ∀ j, ag_job a = Some j → job_ok a j;
  ok_seen : with_ledger (ag_col a) = true → ∀ p st, seenPaths (ag_col a) !! p = Some st → in_care a (mkMark p st) }.

(** *** History only grows *)

Definition extends (a a' : agent) : Prop := looked a ⊆ looked a' ∧ given a ⊆ given a'.

Lemma parse_of_mono a a' m evs : extends a a' → parse_of a m evs → parse_of a' m evs.
Proof. intros [Hl _] (now & e & Hin & ?). exists now, e. split; [by apply Hl|done]. Qed.

Lemma passed_on_mono a a' ev : extends a a' → passed_on a ev → passed_on a' ev.
Proof.
  intros [_ Hb] [(r & q & body & Hin & ?)|(r & q & Hin & ?)]; [left; exists r, q, body|right; exists r, q]; (split; [by apply Hb|done]).
Qed.

Lemma settled_mono a a' m : extends a a' → settled a m → settled a' m.
Proof. intros Hx (evs & Hp & Hh). exists evs. eauto using parse_of_mono, passed_on_mono. Qed.

Lemma carried_mono a a' l em : extends a a' → carried a l em → carried a' l em.
Proof. intros Hx (evs & Hp & Hh). exists evs. eauto using parse_of_mono. Qed.

Lemma carried_app a l k em : carried a l em → carried a (l ++ k) em.
Proof.
  intros (evs & Hp & Hh). exists evs. split; [done|]. intros ev Hev. rewrite take_app. apply elem_of_app. left. by apply Hh.
Qed.

Lemma job_ok_mono a a' j : extends a a' → job_ok a j → job_ok a' j.
Proof. intros Hx []. split; eauto using passed_on_mono, carried_mono. Qed.

Lemma job_ok_same a a' j : looked a' = looked a → given a' = given a → job_ok a j → job_ok a' j.
Proof. intros Hl Hb. apply job_ok_mono. split; by rewrite ?Hl, ?Hb. Qed.

(** What is carried by events passed on is settled. *)
Lemma carried_settled a l em n : carried a l em → em_end em ≤ n → (∀ ev, ev ∈ take n l → passed_on a ev) → settled a (em_mark em).
Proof.
  intros (evs & Hp & Hh) Hn Hall. exists evs. split; [done|]. intros ev Hev. apply Hall.
  apply Hh in Hev. rewrite <- (firstn_skipn (em_end em) (take n l)), take_take, Nat.min_l by done. apply elem_of_app. by left.
Qed.

Lemma settled_nil a m : parse_of a m [] → settled a m.
Proof. intros Hp. exists []. split; [done|]. intros ev Hev. by apply elem_of_nil in Hev. Qed.

(** *** Steps preserve the invariant *)

Context (Hcap : no_tiny_cap b).

Lemma in_care_mono a a' m : extends a a' → eventMarks (ag_col a') = eventMarks (ag_col a) →
  requeued (ag_col a') = requeued (ag_col a) → ag_job a' = ag_job a → in_care a m → in_care a' m.
Proof.
  intros Hx He Hr Hj [Hs|Hc]; [left; by eapply settled_mono|right]. by rewrite He, Hr, Hj.
Qed.

(** Steps that touch only the collector's scan bookkeeping and the database. *)
Lemma agent_ok_db a d : ledger_stamps d = ledger_stamps (ag_db a) → outbox_wf d → agent_ok a →
  agent_ok (mkAgent (ag_col a) d (ag_job a) (looked a) (given a)).
Proof.
  intros Hl Hwf [H1 H2 H3 H4 H5 H6 H7 H8]. split; simpl; rewrite ?Hl; try done.
  intros j Hj. by eapply job_ok_same, H7.
Qed.

Lemma agent_ok_requeued a : agent_ok a → agent_ok (set_col (takeRequeued (ag_col a)) a).
Proof.
  intros [H1 H2 H3 H4 H5 H6 H7 H8]. split; try done; [intros j Hj; by eapply job_ok_same, H7|].
  simpl. intros Hw p st [Hs Hn]%forget_marks_seen.
  destruct (H8 Hw p st Hs) as [?|[?|[?|?]]]; [by left|right; by left|done|right; right; by right].
Qed.

Lemma agent_ok_begin a : agent_ok a → agent_ok (set_col (scan_begin (ag_col a)).2 a).
Proof. intros [H1 H2 H3 H4 H5 H6 H7 H8]. split; try done. intros j Hj. by eapply job_ok_same, H7. Qed.

(** A scan step that queues no events: what it newly holds as seen or pending is
    settled. *)
Lemma agent_ok_unqueued a c lk : let a' := mkAgent c (ag_db a) (ag_job a) (looked a ++ lk) (given a) in
  agent_ok a → c_ftpDir c = dir → events c = events (ag_col a) → eventMarks c = eventMarks (ag_col a) →
  requeued c = requeued (ag_col a) → with_ledger c = with_ledger (ag_col a) →
  (∀ m, m ∈ pendingMarks c → m ∈ pendingMarks (ag_col a) ∨ settled a' m) →
  (∀ p st, seenPaths c !! p = Some st → seenPaths (ag_col a) !! p = Some st ∨ settled a' (mkMark p st)) →
  agent_ok a'.
Proof.
  intros a' [H1 H2 H3 H4 H5 H6 H7 H8] Hdir He Hm Hr Hw Hp Hs.
  assert (Hx : extends a a') by (split; simpl; set_solver). split; try done; simpl.
  - unfold queue_ok. by rewrite He, Hm.
  - intros p st Hin. eapply settled_mono; eauto.
  - intros m [Hin|?]%Hp; [|done]. eapply settled_mono; eauto.
  - intros em Hem. rewrite Hm in Hem. rewrite He. eapply carried_mono; eauto.
  - intros j Hj. eapply job_ok_mono; eauto.
  - rewrite Hw. intros Hw' p st [Hin|?]%Hs; [|by left]. eapply in_care_mono; eauto.
Qed.

(** An upload with events is marked: they are queued, and its mark with them. *)
Lemma agent_ok_marked a c0 path stamp ev evs lk :
  let c := markSeen path stamp (ev :: evs) c0 in
  let a' := mkAgent c (ag_db a) (ag_job a) (looked a ++ lk) (given a) in
  agent_ok a → events c0 = events (ag_col a) → eventMarks c0 = eventMarks (ag_col a) →
  requeued c0 = requeued (ag_col a) → with_ledger c0 = with_ledger (ag_col a) →
  pendingMarks c0 = pendingMarks (ag_col a) → c_ftpDir c0 = dir →
  (∀ p st, seenPaths c0 !! p = Some st → seenPaths (ag_col a) !! p = Some st) →
  parse_of a' (mkMark path stamp) (ev :: evs) → agent_ok a'.
Proof.
  intros c a' [H1 H2 H3 H4 H5 H6 H7 H8] He Hm Hr Hw Hp Hdir Hseen Hparse.
  assert (Hx : extends a a') by (split; simpl; set_solver).
  assert (Hq : queue_ok c) by (apply markSeen_queue; unfold queue_ok; by rewrite He, Hm).
  split; try done; simpl; try (unfold c, markSeen; simpl).
  - intros p st Hin. eapply settled_mono; eauto.
  - intros m Hin. rewrite Hp in Hin. eapply settled_mono; eauto.
  - intros em Hem. rewrite He. destruct (with_ledger c0); rewrite Hm in Hem.
    + apply elem_of_app in Hem as [Hem|Heq]; [apply carried_app; eapply carried_mono; eauto|].
      apply list_elem_of_singleton in Heq as ->. exists (ev :: evs). split; [done|]. simpl.
      rewrite He, take_ge by done. intros x Hx'. apply elem_of_app. by right.
    + apply carried_app. eapply carried_mono; eauto.
  - intros j Hj. eapply job_ok_mono; eauto.
  - rewrite Hw. intros Hwl p st [[<- <-]|[_ Hs]]%lookup_insert_Some.
    + right. left. eexists. split; [simpl; rewrite Hw, Hwl; apply elem_of_app; right; by left|done].
    + apply Hseen in Hs. destruct (H8 Hwl p st Hs) as [Hset|[(em & Hin & Heq)|[Hin|?]]].
      * left. by eapply settled_mono.
      * right. left. exists em. split; [|done]. simpl. rewrite Hw, Hwl, Hm. apply elem_of_app. by left.
      * right. right. left. simpl. by rewrite Hr.
      * right. right. by right.
Qed.

Lemma agent_ok_entry a now check e s c' s' : agent_ok a → conn_to a s →
  scan_entry engine now check e (ag_col a, s) = (c', s') →
  agent_ok (mkAgent c' (sdb s') (ag_job a) (looked a ++ [(now, e)]) (given a)).
Proof.
  intros Hok [Hd Hf] Hrun. pose proof (ok_dir _ Hok) as H3.
  pose proof (scan_entry_reads engine now check e (ag_col a) s) as [Hsdb _].
  pose proof (scan_entry_cases engine now check e (ag_col a) s) as Hcases.
  rewrite Hrun in Hsdb, Hcases. cbn [fst snd] in Hsdb, Hcases. rewrite Hsdb, Hd.
  destruct Hcases as [->|(c0 & Hc0 & _ & Ho)]; [by apply agent_ok_unqueued; auto|].
  assert (Hc0f : events c0 = events (ag_col a) ∧ eventMarks c0 = eventMarks (ag_col a) ∧
    requeued c0 = requeued (ag_col a) ∧ with_ledger c0 = with_ledger (ag_col a) ∧
    pendingMarks c0 = pendingMarks (ag_col a) ∧ c_ftpDir c0 = dir ∧
    ∀ p st, seenPaths c0 !! p = Some st → seenPaths (ag_col a) !! p = Some st).
  { destruct Hc0 as [[-> _]| ->]; simpl; split_and!; try done. by intros p st [_ ?]%lookup_delete_Some. }
  destruct Hc0f as (He & Hm & Hr & Hw & Hp & Hdir & Hseen).
  destruct Ho as [(df & pf & ->)|(pf & stamp & evs & Hinfo & -> & Hevs)].
  { apply agent_ok_unqueued; simpl; rewrite ?Hp; auto. }
  set (path := Join2 (c_ftpDir (ag_col a)) (en_Name e)) in *. set (a' := mkAgent _ _ _ _ _).
  assert (Hparse : parse_of a' (mkMark path stamp) evs).
  { exists now, e. simpl. split_and!; [set_solver|by unfold path; rewrite H3|done|].
    destruct Hevs as [?|(dev & Hev & _)]; [by left|right; by exists dev]. }
  destruct evs as [|ev evs]; [|by eapply (agent_ok_marked a (set_parseFails pf c0))].
  pose proof (settled_nil _ _ Hparse) as Hset. unfold a', markSeen in *. simpl in *. rewrite Hw, Hp in *.
  destruct (with_ledger (ag_col a)) eqn:Hwl; (apply agent_ok_unqueued; simpl; rewrite ?Hwl, ?Hp; auto);
    try (intros p st [[<- <-]|[_ ?]]%lookup_insert_Some; auto).
  intros m [?|Heq]%elem_of_app; [by left|]. apply list_elem_of_singleton in Heq as ->. by right.
Qed.

Lemma agent_ok_finish a now entries s c' s' : agent_ok a → conn_to a s →
  scan_finish now entries (ag_col a, s) = (c', s') →
  agent_ok (mkAgent c' (sdb s') (ag_job a) (looked a) (given a)).
Proof.
  intros [H1 H2 H3 H4 H5 H6 H7 H8] [Hd Hf] Hrun. unfold scan_finish in Hrun.
  set (present := present_paths _ entries) in *. set (gone := gone_paths _ _) in *. set (c2 := set_parseFails _ _) in *.
  pose proof (persistScan_keeps now present gone c2 s) as Hk. cbv zeta in Hk.
  pose proof (persistScan_ledger now present gone c2 s) as Hl.
  pose proof (persistScan_outbox now present gone c2 s) as Ho.
  rewrite Hrun in Hk, Hl, Ho. cbn [fst snd] in Hk, Hl, Ho.
  destruct Hk as (Hs & _ & _ & He & Hr & Hw & _ & Hdir & Hm & Hp). simpl in Hs, He, Hr, Hw, Hdir, Hm, Hp, Hl.
  assert (Hsub : ∀ em, em ∈ eventMarks c' → em ∈ eventMarks (ag_col a)).
  { intros em. destruct Hm as [->| ->]; [done|]. by intros [_ ?]%list_elem_of_filter. }
  split; simpl.
  - rewrite <- Hd in H1. by eapply same_outbox_wf.
  - unfold queue_ok in *. rewrite He. destruct Hm as [->| ->]; [done|]. by apply ends_ok_filter.
  - by rewrite Hdir.
  - intros p st [Hin|Hin]%Hl; [|by apply H5 in Hin]. rewrite Hd in Hin. by apply H4 in Hin.
  - intros m Hin%Hp. by apply H5 in Hin.
  - intros em Hin%Hsub. rewrite He. by apply H6 in Hin.
  - intros j Hj. by eapply job_ok_same, H7.
  - rewrite Hw. intros Hwl p st Hin. rewrite Hs in Hin.
    assert (Hpres : p ∈ present) by (eapply keep_paths_dom; eauto).
    unfold keep_paths in Hin. apply map_lookup_filter_Some in Hin as [Hin _].
    destruct (H8 Hwl p st Hin) as [?|[(em & Hem & Heq)|[?|?]]]; [by left|right; left|right; right; left|right; right; by right].
    + exists em. split; [|done]. destruct Hm as [Hm|Hm]; simpl; rewrite Hm; [done|].
      apply list_elem_of_filter. by rewrite Heq.
    + simpl. by rewrite Hr.
Qed.

Lemma batch_parts_ok req ftp k : tq_Events req = Events ftp ++ k → ends_ok (length (Events ftp)) (marks ftp) →
  let j := mkJob ftp req (batch_parts req) in
  j_from j = 0 ∧ tiles 0 (length (tq_Events req)) (batch_parts req) ∧ Forall (part_carries req) (batch_parts req) ∧
  Forall (λ p, over_cap b (pt_body p) → length (MarksIn ftp (pt_start p) (pt_end p)) ≤ 1) (batch_parts req).
Proof.
  intros Hreq Hends j.
  destruct (split_spec json_Marshal (length (tq_Events req)) (Z.quot (b_maxBytes b) partsPerCap) req 0)
    as (Ht & p & rest & Hp & Hok & Hr); [lia|].
  change (split _ _ _ _ _) with (batch_parts req) in Ht, Hp.
  split_and!.
  - unfold j, j_from. simpl. rewrite Hp in *. by apply tiles_first in Ht.
  - done.
  - apply splitTelemetry_bodies.
  - apply Forall_forall. intros q Hq. by eapply split_parts_small.
Qed.

Lemma agent_ok_drain a metrics alarms cwmp ftp c' : agent_ok a → DrainFTP (ag_col a) = (ftp, c') → ag_job a = None →
  let req := mkTelemetry metrics (Events ftp ++ cwmp) alarms in
  agent_ok (mkAgent c' (ag_db a) (Some (mkJob ftp req (batch_parts req))) (looked a) (given a)).
Proof.
  intros [H1 H2 H3 H4 H5 H6 H7 H8] Hdr Hno req. unfold DrainFTP in Hdr. injection Hdr as <- <-.
  destruct (batch_parts_ok req (mkBatch (events (ag_col a)) (eventMarks (ag_col a))) cwmp eq_refl H2)
    as (Hfrom & Ht & Hc & Hsm).
  split; simpl; try done.
  - split; [constructor|constructor].
  - intros em Hem. by apply elem_of_nil in Hem.
  - intros j [= <-]. split; simpl; try done.
    + by rewrite Hfrom.
    + rewrite Hfrom. intros ev Hev. by apply elem_of_nil in Hev.
    + by exists cwmp.
  - intros Hw p st Hs. destruct (H8 Hw p st Hs) as [?|[(em & Hin & Heq)|[?|(j & Hj & _)]]];
      [by left|right; right; right|right; right; by left|congruence].
    eexists. split; [done|]. exists em. split_and!; [done|done|]. rewrite Hfrom.
    destruct H2 as [_ H2]. rewrite Forall_forall in H2. by apply H2.
Qed.

Lemma job_advances a ftp req p rest : job_ok a (mkJob ftp req (p :: rest)) → j_from (mkJob ftp req rest) = pt_end p.
Proof. intros []. simpl in *. destruct job_tiles0 as (_ & _ & Ht). destruct rest; simpl in *; [done|by destruct Ht]. Qed.

(** Once a part is given to the buffer, all events up to its end are passed on. *)
Lemma job_ok_part a a' ftp req p rest q :
  job_ok a (mkJob ftp req (p :: rest)) → looked a' = looked a → given a' = given a ++ [(part_request req p, q)] →
  (q = false → over_cap b (pt_body p)) → job_ok a' (mkJob ftp req rest).
Proof.
  intros Hj Hl Hb Hq. pose proof (job_advances _ _ _ _ _ Hj) as Hadv.
  assert (Hx : extends a a') by (split; rewrite ?Hl, ?Hb; set_solver).
  destruct (job_ok_mono _ _ _ Hx Hj) as [Ht Hbod Hsm Hh Hpre Hends Hm]. simpl in *.
  apply Forall_cons in Hbod as [Hr Hbod]. apply Forall_cons in Hsm as [_ Hsm].
  destruct Ht as (_ & Hle & Ht). split; simpl; try done.
  - by rewrite Hadv.
  - rewrite Hadv. intros ev Hev. rewrite <- (take_slice _ _ _ Hle) in Hev. apply elem_of_app in Hev as [Hev|Hev]; [by apply Hh|].
    assert (Hin : (part_request req p, q) ∈ given a') by (rewrite Hb; apply elem_of_app; right; by left).
    unfold part_carries, body_of in Hr. destruct (json_Marshal (part_request req p)) as [body|] eqn:Hbody.
    + left. exists (part_request req p), q, body. split_and!; [done|done|done|]. intros Hf. change (pt_body p = body) in Hr. rewrite <- Hr. by apply Hq.
    + right. by exists (part_request req p), q.
Qed.

(** A mark whose end is behind the front of its batch is settled. *)
Lemma job_settled a j em : job_ok a j → em ∈ marks (j_ftp j) → em_end em ≤ j_from j → settled a (em_mark em).
Proof.
  intros [Ht Hbod Hsm Hh Hpre Hends Hm] Hin Hle. destruct Hpre as [k Hk].
  eapply (carried_settled a (tq_Events (j_req j))); [rewrite Hk; by apply carried_app, Hm|done|done].
Qed.

Lemma Requeue_fields back c : let c1 := Requeue back c in
  events c1 = events c ∧ eventMarks c1 = eventMarks c ∧ with_ledger c1 = with_ledger c ∧ seenPaths c1 = seenPaths c ∧
  pendingMarks c1 = pendingMarks c ∧ c_ftpDir c1 = c_ftpDir c ∧ ∀ m, m ∈ requeued c1 ↔ m ∈ requeued c ∨ m ∈ back.
Proof. unfold Requeue. destruct back; simpl; split_and!; try done; set_solver. Qed.

(** The ledger gains at most the marks of the part. *)
Lemma part_outcome_ledger now ms p o c s c' s' x st :
  part_outcome b now ms p o c s c' s' → ledger_stamps (sdb s') !! x = Some st →
  ledger_stamps (sdb s) !! x = Some st ∨ mkMark x st ∈ ms.
Proof.
  destruct o as [[]|]; simpl.
  - intros (_ & _ & ->). rewrite enqueue_db_ledger. destruct (last_stamp x ms) eqn:Hls; [|by left].
    intros [= ->]. right. by apply last_stamp_Some.
  - intros (_ & kp & bk & <- & _ & ->). rewrite upsert_marks_lookup. destruct (last_stamp x kp) eqn:Hls; [|by left].
    intros [= ->]. right. apply elem_of_app. left. by apply last_stamp_Some.
  - intros (_ & _ & ->). by left.
Qed.

Lemma part_outcome_col now ms p o c s c' s' :
  part_outcome b now ms p o c s c' s' → ∃ back, c' = Requeue back c.
Proof.
  destruct o as [[]|]; simpl; [intros (_ & -> & _); by exists []| |intros (_ & -> & _); by exists []].
  intros (_ & kp & bk & _ & -> & _). by exists bk.
Qed.

Lemma job_part_small a ftp req p rest : job_ok a (mkJob ftp req (p :: rest)) →
  over_cap b (pt_body p) → length (MarksIn ftp (pt_start p) (pt_end p)) ≤ 1.
Proof. intros []. simpl in *. by apply Forall_cons in job_small0 as [? _]. Qed.

Lemma agent_ok_part a ftp req p rest now s q c' s' : agent_ok a → conn_to a s →
  ag_job a = Some (mkJob ftp req (p :: rest)) →
  enqueue_part b now ftp p (ag_col a, s) = (Some q, (c', s')) →
  agent_ok (mkAgent c' (sdb s') (Some (mkJob ftp req rest)) (looked a) (given a ++ [(part_request req p, q)])).
Proof.
  intros [H1 H2 H3 H4 H5 H6 H7 H8] [Hd Hf] Hj Hrun. pose proof (H7 _ Hj) as Hok.
  apply enqueue_part_spec in Hrun as [_ Ho]; [|by rewrite Hd|done|by eapply job_part_small].
  pose proof (part_outcome_wf _ _ _ _ _ _ _ _ _ ltac:(by rewrite Hd) Ho) as Hwf.
  set (a' := mkAgent c' (sdb s') (Some (mkJob ftp req rest)) (looked a) (given a ++ [(part_request req p, q)])).
  assert (Hx : extends a a') by (split; simpl; set_solver).
  assert (Hov : q = false → over_cap b (pt_body p)) by (destruct q; [done|by destruct Ho]).
  pose proof (job_ok_part a a' ftp req p rest q Hok eq_refl eq_refl Hov) as Hok'.
  pose proof (job_advances _ _ _ _ _ Hok) as Hadv.
  assert (Hset : ∀ m, m ∈ MarksIn ftp (pt_start p) (pt_end p) → settled a' m).
  { intros m [em [-> [[_ He] Hin]%list_elem_of_filter]]%list_elem_of_fmap. eapply (job_settled a' _ em Hok'); [done|].
    by rewrite Hadv. }
  pose proof (λ x st, part_outcome_ledger _ _ _ _ _ _ _ _ x st Ho) as Hled. rewrite Hd in Hled.
  apply part_outcome_col in Ho as [back ->].
  destruct (Requeue_fields back (ag_col a)) as (He & Hm & Hw & Hs & Hp & Hdir & Hrq).
  split; simpl; rewrite ?Hp, ?Hm, ?He, ?Hw, ?Hs.
  - done.
  - unfold queue_ok. by rewrite He, Hm.
  - by rewrite Hdir.
  - intros x st [Hin|Hin]%Hled; [eapply settled_mono; eauto|by apply Hset].
  - intros m Hin. eapply settled_mono; eauto.
  - intros em Hin. eapply carried_mono; eauto.
  - intros j [= <-]. done.
  - intros Hwl x st Hin. destruct (H8 Hwl x st Hin) as [?|[(em & Hem & Heq)|[Hr|(j & Hj' & em & Hem & Heq & Hlt)]]].
    + left. by eapply settled_mono.
    + right. left. exists em. split; [|done]. simpl. by rewrite Hm.
    + right. right. left. simpl. apply Hrq. by left.
    + rewrite Hj in Hj'. injection Hj' as <-. simpl in Hem. destruct (decide (em_end em ≤ pt_end p)) as [Hle|Hgt].
      * left. rewrite <- Heq. eapply (job_settled a' _ em Hok'); [done|]. by rewrite Hadv.
      * right. right. right. eexists. split; [done|]. exists em. split_and!; [done|done|]. rewrite Hadv. lia.
Qed.

Lemma agent_ok_failed a ftp req p rest now s c' s' : agent_ok a → conn_to a s →
  ag_job a = Some (mkJob ftp req (p :: rest)) →
  enqueue_part b now ftp p (ag_col a, s) = (None, (c', s')) →
  agent_ok (mkAgent (Requeue (MarksIn ftp (pt_start p) (length (tq_Events req))) c') (sdb s') None (looked a) (given a)).
Proof.
  intros [H1 H2 H3 H4 H5 H6 H7 H8] [Hd Hf] Hj Hrun. pose proof (H7 _ Hj) as Hok.
  apply enqueue_part_spec in Hrun as [_ (_ & -> & Hs')]; [|by rewrite Hd|done|by eapply job_part_small].
  rewrite Hs', Hd. set (back := MarksIn _ _ _).
  destruct (Requeue_fields back (ag_col a)) as (He & Hm & Hw & Hs & Hp & Hdir & Hrq).
  split; simpl; rewrite ?Hp, ?Hm, ?He, ?Hw, ?Hs; try done.
  - unfold queue_ok. by rewrite He, Hm.
  - by rewrite Hdir.
  - intros Hwl x st Hin. destruct (H8 Hwl x st Hin) as [?|[(em & Hem & Heq)|[Hr|(j & Hj' & em & Hem & Heq & Hlt)]]].
    + by left.
    + right. left. exists em. split; [|done]. simpl. by rewrite Hm.
    + right. right. left. simpl. apply Hrq. by left.
    + rewrite Hj in Hj'. injection Hj' as <-. simpl in Hem, Hlt. right. right. left. simpl. apply Hrq. right.
      unfold back, MarksIn. rewrite <- Heq. apply list_elem_of_fmap_2, list_elem_of_filter. split; [|done]. split; [done|].
      destruct Hok as [_ _ _ _ [k Hk] [_ Hends] _]. simpl in *. rewrite Forall_forall in Hends. apply Hends in Hem.
      rewrite Hk, length_app. lia.
Qed.

Lemma agent_ok_queued a ftp req : agent_ok a → ag_job a = Some (mkJob ftp req []) →
  agent_ok (mkAgent (ag_col a) (ag_db a) None (looked a) (given a)).
Proof.
  intros [H1 H2 H3 H4 H5 H6 H7 H8] Hj. split; simpl; try done.
  intros Hwl x st Hin. destruct (H8 Hwl x st Hin) as [?|[?|[?|(j & Hj' & em & Hem & Heq & Hlt)]]].
  - by left.
  - right. by left.
  - right. right. by left.
  - exfalso. rewrite Hj in Hj'. injection Hj' as <-. unfold j_from in Hlt. simpl in *. destruct (H7 _ Hj) as [_ _ _ _ [k Hk] [_ Hends] _].
    simpl in *. rewrite Forall_forall in Hends. apply Hends in Hem. rewrite Hk, length_app in Hlt. lia.
Qed.

Lemma agent_ok_restart a s r c' s' : agent_ok a → conn_to a s → UseIngestLedger (New dir, s) = (r, (c', s')) →
  agent_ok (mkAgent c' (sdb s') None (looked a) (given a)).
Proof.
  intros [H1 H2 H3 H4 H5 H6 H7 H8] [Hd Hf] Hrun. unfold UseIngestLedger in Hrun. cbn [led_Load Buffer_IngestLedger] in Hrun.
  pose proof (triple_LoadFTPIngested (sdb s) s eq_refl) as Ht.
  destruct (LoadFTPIngested s) as [[seen|e] s1]; simplify_eq; [destruct Ht as [Ht ->]|]; rewrite Ht, Hd;
    (split; simpl; try done; try apply ends_ok_nil; try by intros ? ?%elem_of_nil).
  intros _ p st Hin. left. by apply H4.
Qed.

Lemma agent_ok_initial : agent_ok initial.
Proof.
  split; simpl; try done; try apply ends_ok_nil; try by intros ? ?%elem_of_nil.
Qed.

Lemma step_preserves a a' : step a a' → agent_ok a → agent_ok a'.
Proof.
  destruct 1 as [a a' Hown|a d Hl Hwf]; [|by apply agent_ok_db].
  destruct Hown; intros Hok; eauto using agent_ok_requeued, agent_ok_begin, agent_ok_entry, agent_ok_finish, agent_ok_drain,
    agent_ok_part, agent_ok_failed, agent_ok_queued, agent_ok_restart.
Qed.

Lemma reachable_agent_ok a : reachable a → agent_ok a.
Proof.
  unfold reachable. assert (Hi := agent_ok_initial). generalize dependent initial. intros a0 Hi Hr.
  induction Hr; eauto using step_preserves.
Qed.

Lemma own_steps a a' : rtc own_step a a' → rtc step a a'.
Proof. intros Hr. induction Hr as [|x y z Hxy _ IH]; [done|]. eapply rtc_l; [by apply step_own|done]. Qed.

Lemma reachable_own a a' : reachable a → rtc own_step a a' → reachable a'.
Proof. intros Ha Hr. unfold reachable. etransitivity; [exact Ha|by apply own_steps]. Qed.

(** What the agent's own steps do to the outbox: nothing, or a body is given to
    it, for which the cap may drop the oldest rows. *)
Lemma own_outbox a a' : own_step a a' → agent_ok a →
  (outbox (ag_db a') = outbox (ag_db a) ∧ given a' = given a) ∨
  (∃ n r q rows, given a' = given a ++ [(r, q)] ∧ outbox (ag_db a') = drop n (outbox (ag_db a)) ++ rows ∧
     (0 < n → (0 < b_maxBytes b)%Z) ∧ (q = true → ∃ row, row ∈ rows ∧ ob_kind row = "telemetry" ∧ ob_body row = body_of json_Marshal r)).
Proof.
  intros Hown Hok. destruct Hown as [| |a now check e s c' s' [Hd Hf] Hrun|a now entries s c' s' [Hd Hf] Hrun|
    |a ftp req p rest now s q c' s' Hj [Hd Hf] Hrun|a ftp req p rest now s c' s' Hj [Hd Hf] Hrun| |a s r c' s' [Hd Hf] Hrun];
    try (by left); simpl.
  - left. pose proof (scan_entry_reads engine now check e (ag_col a) s) as [Hs _]. rewrite Hrun in Hs. simpl in Hs.
    by rewrite Hs, Hd.
  - left. unfold scan_finish in Hrun. match type of Hrun with persistScan _ ?pr ?g (?c, _) = _ =>
      pose proof (persistScan_outbox now pr g c s) as [Ho _] end. rewrite Hrun in Ho. simpl in Ho. by rewrite Ho, Hd.
  - pose proof (ok_job _ Hok _ Hj) as Hjob.
    apply enqueue_part_spec in Hrun as [_ Ho]; [|rewrite Hd; apply Hok|done|by eapply job_part_small].
    assert (Hbody : pt_body p = body_of json_Marshal (part_request req p)).
    { pose proof (job_bodies _ _ Hjob) as Hb. by apply Forall_cons in Hb as [Hb _]. }
    right. exists (if q then evicted_rows b (pt_body p) (sdb s) else 0), (part_request req p), q. destruct q; simpl in Ho.
    + destruct Ho as (_ & _ & ->). eexists. rewrite enqueue_db_outbox, Hd. split_and!; [done|done| |].
      * unfold evicted_rows. case_decide; [done|lia].
      * intros _. eexists. split; [by apply list_elem_of_singleton|done].
    + destruct Ho as (_ & kept & back & _ & _ & ->). exists []. rewrite app_nil_r, drop_0.
      destruct (upsert_marks_other now kept (sdb s)) as [-> _]. rewrite Hd. split_and!; [done|done|lia|done].
  - left. pose proof (ok_job _ Hok _ Hj) as Hjob.
    apply enqueue_part_spec in Hrun as [_ (_ & _ & Hs)]; [|rewrite Hd; apply Hok|done|by eapply job_part_small].
    by rewrite Hs, Hd.
  - left. unfold UseIngestLedger in Hrun. cbn [led_Load Buffer_IngestLedger] in Hrun.
    pose proof (triple_LoadFTPIngested (sdb s) s eq_refl) as Ht.
    destruct (LoadFTPIngested s) as [[seen|e] s1]; simplify_eq; [destruct Ht as [Ht _]|]; by rewrite Ht, Hd.
Qed.

(** *** The code's functions are runs of the machine *)

Lemma scan_loop_run now check l : ∀ a s c' s', conn_to a s →
  foldl (λ x e, scan_entry engine now check e x) (ag_col a, s) l = (c', s') →
  rtc own_step a (mkAgent c' (sdb s') (ag_job a) (looked a ++ ((λ e, (now, e)) <$> l)) (given a)) ∧ engine_faults s'.
Proof.
  induction l as [|e l IH]; intros a s c' s' [Hd Hf] Hrun; cbn [foldl fmap list_fmap] in *.
  { injection Hrun as <- <-. rewrite app_nil_r, Hd. split; [|done]. by destruct a. }
  pose proof (scan_entry_reads engine now check e (ag_col a) s) as [Hsdb Hfl].
  destruct (scan_entry engine now check e (ag_col a, s)) as [c1 s1] eqn:He. cbn [snd] in *.
  destruct (IH (mkAgent c1 (sdb s1) (ag_job a) (looked a ++ [(now, e)]) (given a)) s1 c' s') as [Hr Hf'];
    [split; [done|by apply Hfl]|done|].
  split; [|done]. eapply rtc_l; [by eapply step_entry|]. simpl in Hr. by rewrite <- app_assoc in Hr.
Qed.

Lemma scanFTP_run now entries a s c' s' : conn_to a s → scanFTP engine now entries (ag_col a, s) = (c', s') →
  ∃ l, rtc own_step a (mkAgent c' (sdb s') (ag_job a) (looked a ++ l) (given a)).
Proof.
  intros [Hd Hf] Hrun. unfold scanFTP in Hrun. destruct entries as [entries|].
  - unfold scan_begin in Hrun. set (check := bool_decide _) in Hrun.
    set (a1 := set_col (takeRequeued (ag_col a)) a). set (a2 := set_col (scan_begin (ag_col a1)).2 a1).
    destruct (foldl _ _ entries) as [c2 s2] eqn:Hloop.
    destruct (scan_loop_run now check entries a2 s c2 s2) as [Hr Hf2]; [done|done|].
    exists ((λ e, (now, e)) <$> entries). eapply rtc_l; [apply step_requeued|]. eapply rtc_l; [apply step_begin|].
    etransitivity; [exact Hr|]. apply rtc_once.
    by apply (step_finish (mkAgent c2 (sdb s2) (ag_job a2) (looked a2 ++ ((λ e, (now, e)) <$> entries)) (given a2))
      now entries s2 c' s').
  - injection Hrun as <- <-. exists []. rewrite app_nil_r, Hd. by apply rtc_once, step_requeued.
Qed.

Lemma enqueue_parts_run now ftp req parts : ∀ a s q queued c' s',
  agent_ok a → conn_to a s → ag_job a = Some (mkJob ftp req parts) →
  enqueue_parts b now ftp (length (tq_Events req)) parts q (ag_col a, s) = (queued, (c', s')) →
  ∃ l, rtc own_step a (mkAgent c' (sdb s') None (looked a) (given a ++ l)) ∧ engine_faults s'.
Proof.
  induction parts as [|p parts IH]; intros a s q queued c' s' Hok [Hd Hf] Hj Hrun; cbn [enqueue_parts] in Hrun.
  { injection Hrun as <- <- <-. exists []. rewrite app_nil_r, Hd. split; [eapply rtc_once, step_queued, Hj|done]. }
  destruct (enqueue_part b now ftp p (ag_col a, s)) as [o [c1 s1]] eqn:Hp.
  assert (Hf1 : engine_faults s1).
  { pose proof (ok_job _ Hok _ Hj) as Hjob.
    apply enqueue_part_spec in Hp; [by destruct Hp|rewrite Hd; apply Hok|done|by eapply job_part_small]. }
  destruct o as [q1|].
  - pose proof (agent_ok_part _ _ _ _ _ _ _ _ _ _ Hok (conj Hd Hf) Hj Hp) as Hok1.
    edestruct (IH (mkAgent c1 (sdb s1) (Some (mkJob ftp req parts)) (looked a) (given a ++ [(part_request req p, q1)]))) as (l & Hr & ?);
      [done|done|done|exact Hrun|].
    eexists ([(part_request req p, q1)] ++ l). split; [|done].
    eapply rtc_l; [eapply step_part; done|]. simpl in Hr. by rewrite <- app_assoc in Hr.
  - injection Hrun as <- <- <-. exists []. rewrite app_nil_r. split; [eapply rtc_once, step_part_failed; done|done].
Qed.

Lemma enqueueTelemetry_run now metrics alarms cwmp ftp a s c1 queued c' s' :
  agent_ok a → conn_to a s → ag_job a = None → DrainFTP (ag_col a) = (ftp, c1) →
  enqueueTelemetry json_Marshal b now (mkTelemetry metrics (Events ftp ++ cwmp) alarms) ftp (c1, s) = (queued, (c', s')) →
  ∃ l, rtc own_step a (mkAgent c' (sdb s') None (looked a) (given a ++ l)) ∧ engine_faults s'.
Proof.
  intros Hok Hc Hno Hdr Hrun. set (req := mkTelemetry _ _ _) in *.
  pose proof (agent_ok_drain a metrics alarms cwmp ftp c1 Hok Hdr Hno) as Hok1. fold req in Hok1. cbv zeta in Hok1.
  edestruct (enqueue_parts_run now ftp req (batch_parts req) (mkAgent c1 (ag_db a) (Some (mkJob ftp req (batch_parts req)))
    (looked a) (given a))) as (l & Hr & ?); [done|exact Hc|done|exact Hrun|].
  exists l. split; [|done]. eapply rtc_l; [by eapply (step_drain a metrics alarms cwmp)|]. exact Hr.
Qed.
End Agent.

(** ** Properties *)

(** An upload recorded as ingested has lost nothing: in every reachable
    state, whatever failed and however often the process was restarted, each row
    of the ingest ledger is the stamp of an upload some scan looked at, and every
    event parsed from it was in a body the buffer queued, or refused for being
    over the whole cap, or in a request that json.Marshal refused. *)
Theorem ledger_rows_settled engine json_Marshal b dir a p st :
  no_tiny_cap b → reachable engine json_Marshal b dir a →
  ledger_stamps (ag_db a) !! p = Some st →
  settled engine json_Marshal b dir a (mkMark p st).
Proof. intros Hcap Hr. eapply ok_ledger. by apply reachable_agent_ok. Qed.

(** C4: No upload is forgotten: as long as the ledger is in use, an upload the
    collector will not read again is settled, or its events are queued in the
    collector, or in the batch the worker is queueing, or its mark was handed
    back so that the next poll reads it again.  Settled: each of its events was in
    a body that the buffer queued, or in one over the whole cap, or in a request
    that json.Marshal refused. *)
Theorem seen_upload_in_care engine json_Marshal b dir a p st :
  no_tiny_cap b → reachable engine json_Marshal b dir a →
  with_ledger (ag_col a) = true → seenPaths (ag_col a) !! p = Some st →
  in_care engine json_Marshal b dir a (mkMark p st).
Proof. intros Hcap Hr Hw. apply ok_seen; [by apply reachable_agent_ok|done]. Qed.

(** The code's own functions are runs of the machine: from a reachable state,
    a whole poll ([scanFTP]) and a whole batch ([DrainFTP], then
    [enqueueTelemetry]) each end in a reachable state. *)
Theorem code_runs_reachable engine json_Marshal b dir a s :
  no_tiny_cap b → reachable engine json_Marshal b dir a → conn_to a s →
  (∀ now entries c' s', scanFTP engine now entries (ag_col a, s) = (c', s') →
     ∃ l, reachable engine json_Marshal b dir (mkAgent c' (sdb s') (ag_job a) (looked a ++ l) (given a))) ∧
  (∀ now metrics alarms cwmp ftp c1 queued c' s', ag_job a = None → DrainFTP (ag_col a) = (ftp, c1) →
     enqueueTelemetry json_Marshal b now (mkTelemetry metrics (Events ftp ++ cwmp) alarms) ftp (c1, s) = (queued, (c', s')) →
     ∃ l, reachable engine json_Marshal b dir (mkAgent c' (sdb s') None (looked a) (given a ++ l))).
Proof.
  intros Hcap Hr Hc. pose proof (reachable_agent_ok _ _ _ _ Hcap a Hr) as Hok. split.
  - intros now entries c' s' Hrun. destruct (scanFTP_run engine json_Marshal b dir now entries a s c' s' Hc Hrun) as [l Hl].
    exists l. by eapply reachable_own.
  - intros now metrics alarms cwmp ftp c1 queued c' s' Hno Hdr Hrun.
    destruct (enqueueTelemetry_run engine json_Marshal b dir Hcap now metrics alarms cwmp ftp a s c1 queued c' s' Hok Hc Hno Hdr Hrun)
      as (l & Hl & _). exists l. by eapply reachable_own.
Qed.

(** ** Witnesses *)

Definition ex_big : Buffer := mkBuffer "/var/lib/edge.db" 4096.
Lemma ex_big_cap : no_tiny_cap ex_big.
Proof. by right. Qed.

Abbreviation ex_reachable := (reachable DefaultEngine ex_Marshal ex_big ex_dir).

(** The agent starts, a device dials in, and a first poll finds an upload. *)
Definition ex_started : Collector := (UseIngestLedger (New ex_dir, Sql empty_db [] 0 4096 0)).2.1.
Definition ex_agent : agent := mkAgent ex_started (sdb ex_col_sql) None [] [].
Definition ex_polled : Collector * sql := scanFTP DefaultEngine 7 (Some [ex_entry]) (ex_started, ex_col_sql).
Definition ex_queued : bool * (Collector * sql) :=
  let '(ftp, c) := DrainFTP ex_polled.1 in
  enqueueTelemetry ex_Marshal ex_big 8 (mkTelemetry [] (Events ftp ++ []) []) ftp (c, ex_polled.2).

Lemma ex_agent_reachable : ex_reachable ex_agent.
Proof.
  eapply rtc_l.
  { eapply step_own, (step_restart _ _ _ _ _ (Sql empty_db [] 0 4096 0) None ex_started); [split; [done|constructor]|reflexivity]. }
  apply rtc_once. apply (step_elsewhere _ _ _ _ (mkAgent ex_started empty_db None [] []) (sdb ex_col_sql)); [done|].
  repeat split; simpl; done || constructor.
Qed.

Lemma ex_polled_reachable : ∃ l, ex_reachable (mkAgent ex_polled.1 (sdb ex_polled.2) None l []).
Proof.
  destruct (scanFTP_run DefaultEngine ex_Marshal ex_big ex_dir 7 (Some [ex_entry]) ex_agent ex_col_sql
    ex_polled.1 ex_polled.2) as [l Hl]; [split; [done|constructor]|exact (surjective_pairing ex_polled)|].
  exists l. exact (reachable_own _ _ _ _ _ _ ex_agent_reachable Hl).
Qed.

Lemma ex_queued_eta : ex_queued = (ex_queued.1, (ex_queued.2.1, ex_queued.2.2)).
Proof. by destruct ex_queued as [? []]. Qed.

Lemma ex_queued_reachable : ∃ l k, ex_reachable (mkAgent ex_queued.2.1 (sdb ex_queued.2.2) None l k).
Proof.
  destruct ex_polled_reachable as [l Hl].
  pose proof (reachable_agent_ok _ _ _ _ ex_big_cap _ Hl) as Hok.
  destruct (enqueueTelemetry_run DefaultEngine ex_Marshal ex_big ex_dir ex_big_cap 8 [] [] []
    (DrainFTP ex_polled.1).1 (mkAgent ex_polled.1 (sdb ex_polled.2) None l []) ex_polled.2 (DrainFTP ex_polled.1).2
    ex_queued.1 ex_queued.2.1 ex_queued.2.2 Hok) as (k & Hk & _).
  - split; [done|]. assert (Hf : faults ex_polled.2 = []) by (vm_compute; reflexivity). unfold engine_faults. rewrite Hf. constructor.
  - done.
  - reflexivity.
  - exact ex_queued_eta.
  - exists l, ([] ++ k). exact (reachable_own _ _ _ _ _ _ Hl Hk).
Qed.

Lemma ledger_rows_settled_witness :
  ∃ a, ledger_stamps (ag_db a) !! Join2 ex_dir ex_name = Some (mkStamp 10 20) ∧
    settled DefaultEngine ex_Marshal ex_big ex_dir a (mkMark (Join2 ex_dir ex_name) (mkStamp 10 20)).
Proof.
  destruct ex_queued_reachable as (l & k & Hr). eexists.
  assert (Hled : ledger_stamps (sdb ex_queued.2.2) !! Join2 ex_dir ex_name = Some (mkStamp 10 20)) by (vm_compute; reflexivity).
  split; [|exact (ledger_rows_settled _ _ _ _ _ (Join2 ex_dir ex_name) (mkStamp 10 20) ex_big_cap Hr Hled)].
  exact Hled.
Defined.

Lemma seen_upload_in_care_witness :
  ∃ a, seenPaths (ag_col a) !! Join2 ex_dir ex_name = Some (mkStamp 10 20) ∧
    in_care DefaultEngine ex_Marshal ex_big ex_dir a (mkMark (Join2 ex_dir ex_name) (mkStamp 10 20)).
Proof.
  destruct ex_polled_reachable as (l & Hr). eexists.
  assert (Hseen : seenPaths ex_polled.1 !! Join2 ex_dir ex_name = Some (mkStamp 10 20)) by (vm_compute; reflexivity).
  split; [|exact (seen_upload_in_care _ _ _ _ _ (Join2 ex_dir ex_name) (mkStamp 10 20) ex_big_cap Hr
    ltac:(vm_compute; reflexivity) Hseen)].
  exact Hseen.
Defined.

Lemma code_runs_reachable_witness :
  ∃ l, ex_reachable (mkAgent ex_polled.1 (sdb ex_polled.2) None l []) ∧ length (events ex_polled.1) = 1.
Proof.
  assert (Hc : conn_to ex_agent ex_col_sql) by (split; [reflexivity|constructor]).
  destruct (proj1 (code_runs_reachable DefaultEngine ex_Marshal ex_big ex_dir ex_agent ex_col_sql ex_big_cap
    ex_agent_reachable Hc) 7%Z (Some [ex_entry]) ex_polled.1 ex_polled.2) as [l Hl]; [exact (surjective_pairing ex_polled)|].
  exists ([] ++ l). split; [exact Hl|vm_compute; reflexivity].
Defined.
