(* ===== verification/Delivery.v ===== *)
(** * From an upload to the cloud's count
    (goagent/internal/collector, goagent/internal/worker, goagent/internal/buffer,
    goagent/internal/cloud/client.go, testsuite/cloud.go)

    The agent of [Agent], its outbox drained by the client over a network that
    loses requests and replies, into the mock cloud. *)
From Stdlib Require Import SpecFloat.
From S2P Require Import Prelude GoStrings GoHash CloudTypes Db Ledger Outbox CwmpTypes CwmpStore Rules Collector Manifest Worker.
From S2P Require Import SimHttp DeviceSim CloudSim Gate Client CloudWire Agent.

(** ** The network *)

(** What becomes of a request: the cloud answers it; it never arrives; it is
    handled, but the answer is lost. *)
Inductive fate := Through | Lost | Unanswered.

#[export] Instance outbox_row_eq_dec : EqDecision outbox_row.
Proof. solve_decision. Defined.

(** The cloud's end, with the fates of the requests to come; past the end of the
    list every request comes through. *)
Record site := mkSite { s_fates : list fate; s_devices : list device; s_cloud : state }.

Definition look (w : site) : list device * state := (s_devices w, s_cloud w).
Definition put (x : list device * state) (w : site) : site := mkSite (s_fates w) x.1 x.2.
Definition seen (w : site) : gset string := seenDedup (s_cloud w).

Section Delivery.
(** See [CloudSim], [CloudWire] and [Client]. *)
Variable SprintFloat : spec_float → string.
Variable json_params : string → string + gmap string string.
Variable json_heartbeat : string → list string.
Variable json_telemetry : string → telemetry_body.
Variable json_snapshot : string → gmap string any.
Variable json_ack : string → string.
Variable json_Encode : json → string.
Variable origin : string.
Variable valid_url : string → bool.
Variable ctx_Err : site → option string.
Variable json_Envelope : string → option string.
Variable json_Unmarshal : string → option PollData.
Variable Error : client_error → string.
Variable c : Client.

Abbreviation mux ts := (cloudMux SprintFloat ts json_params json_heartbeat json_telemetry json_snapshot json_ack).
Abbreviation direct_Do ts :=
  (mux_Do look put SprintFloat ts json_params json_heartbeat json_telemetry json_snapshot json_ack json_Encode origin).

Definition flaky_Do (ts : string) (rq : Client.http_request) (w : site) : http_outcome * site :=
  match s_fates w with
  | [] => direct_Do ts rq w
  | f :: fates =>
      let w := mkSite fates (s_devices w) (s_cloud w) in
      match f with
      | Through => direct_Do ts rq w
      | Lost => (NetError "connection refused", w)
      | Unanswered => (NetError "EOF", (direct_Do ts rq w).2)
      end
  end.

(** The worker's [flushOutbox] over this network. *)
Definition send (ts : string) : string → site → option go_error * site :=
  client_SendTelemetryRaw (flaky_Do ts) valid_url ctx_Err json_Envelope json_Unmarshal Error c.
Definition flush (b : Buffer) (ts : string) (s : sql) (w : site) : sql * site := flushOutbox (send ts) b s w.

(** The cloud has seen every event of the body that carries a key. *)
Definition absorbed (body : string) (w : site) : Prop :=
  ∀ en, en ∈ tb_Events (json_telemetry body) → ee_DedupKey en ≠ "" → ee_DedupKey en ∈ seen w.

Lemma absorbed_mono body w w' : seen w ⊆ seen w' → absorbed body w → absorbed body w'.
Proof. intros Hs Ha en Hin Hk. by apply Hs, Ha. Qed.

(** *** The cloud *)

Lemma record_event_seen ev st : seenDedup st ⊆ seenDedup (record_event st ev) ∧
  (ee_DedupKey ev ≠ "" → ee_DedupKey ev ∈ seenDedup (record_event st ev)).
Proof. destruct st. unfold record_event, count_event, see_key. cbn. repeat case_decide; cbn; set_solver. Qed.

Lemma record_events_seen evs : ∀ st, seenDedup st ⊆ seenDedup (foldl record_event st evs) ∧
  ∀ ev, ev ∈ evs → ee_DedupKey ev ≠ "" → ee_DedupKey ev ∈ seenDedup (foldl record_event st evs).
Proof.
  induction evs as [|x evs IH]; intros st; [split; [done|by intros ev ?%elem_of_nil]|]. cbn [foldl].
  destruct (IH (record_event st x)) as [H1 H2], (record_event_seen x st) as [H3 H4]. split; [by etransitivity|].
  intros ev [->|Hin]%elem_of_cons Hk; [by apply H1, H4|by apply H2].
Qed.

(** Whatever the cloud is asked, it forgets no key; a post of telemetry that it
    accepts is absorbed. *)
Lemma mux_seen ts rq x : let y := mux ts rq x in
  seenDedup x.2 ⊆ seenDedup y.2.2 ∧
  (URLPath rq = "/v1/agent/telemetry" → ∀ rep, y.1 = Some rep → (reply_status rep < 400)%Z →
   ∀ en, en ∈ tb_Events (json_telemetry (ReqBody rq)) → ee_DedupKey en ≠ "" → ee_DedupKey en ∈ seenDedup y.2.2).
Proof.
  destruct x as [devs st]. destruct (decide (URLPath rq = "/v1/agent/telemetry")) as [Hp|Hp].
  2: { pose proof (after_view SprintFloat json_params json_heartbeat json_telemetry json_snapshot json_ack
         (mkTurn ts devs rq) st Hp) as [_ Hv]. unfold after in Hv. cbn [tn_time tn_devices tn_req] in Hv. cbn zeta.
       split; [by rewrite Hv|done]. }
  unfold cloudMux. rewrite Hp. destruct devs as [|dev0 devs]; [done|].
  repeat (rewrite (decide_False (P := "/v1/agent/telemetry" = _)) by discriminate).
  rewrite (decide_True (P := "/v1/agent/telemetry" = "/v1/agent/telemetry")) by done. unfold handle_telemetry.
  case_decide; cbn [fst snd].
  - split; [by destruct st|]. by intros _ rep [= <-].
  - set (st1 := on_fleet _ _). assert (Hs : seenDedup st1 = seenDedup st).
    { unfold st1. match goal with |- context [on_fleet ?g ?u] => destruct (on_fleet_view g u) as [_ ->] end. by destruct st. }
    destruct (record_events_seen (tb_Events (json_telemetry (ReqBody rq))) st1) as [H1 H2]. rewrite <- Hs. split; [done|].
    intros _ rep _ _ en Hin Hk. by apply H2.
Qed.

(** *** The client *)

Hypothesis origin_ok : HasSuffix origin "/v1" = false.
Hypothesis base_ok : base c = origin ∨ base c = origin +:+ "/v1".

Abbreviation telemetry_path := "/v1/agent/telemetry".
Abbreviation telemetry_rq body := (Client.mkRequest "POST" (url c telemetry_path) (apiKey c) (Some body)).

Lemma url_telemetry : url c telemetry_path = origin +:+ telemetry_path.
Proof.
  destruct c as [bs key]. cbn [base] in base_ok. destruct (url_reaches origin key telemetry_path origin_ok eq_refl) as [H1 H2].
  by destruct base_ok as [->| ->].
Qed.

Lemma direct_telemetry ts body w o w' : direct_Do ts (telemetry_rq body) w = (o, w') →
  seen w ⊆ seen w' ∧ (∀ status text, o = Response status text → (status < 400)%Z → absorbed body w').
Proof.
  rewrite url_telemetry. unfold mux_Do. cbn [Client.rq_URL Client.rq_Method Client.rq_Body default].
  rewrite HasPrefix_app, TrimPrefix_app. change (PathUnescape telemetry_path) with (Some telemetry_path). cbv iota beta.
  pose proof (mux_seen ts (SimHttp.mkRequest "POST" telemetry_path ∅ body) (look w)) as [H1 H2].
  destruct (mux ts _ (look w)) as [rep x]. cbn [fst snd] in *. specialize (H2 eq_refl). intros [= <- <-].
  split; [exact H1|]. intros status text Ho Hst. destruct rep as [rep|]; [|done]. injection Ho as <- <-.
  exact (H2 rep eq_refl Hst).
Qed.

(** A post that succeeds was absorbed, and no post takes anything away, whatever
    the network does. *)
Lemma flaky_telemetry ts body w o w' : flaky_Do ts (telemetry_rq body) w = (o, w') →
  seen w ⊆ seen w' ∧ (∀ status text, o = Response status text → (status < 400)%Z → absorbed body w').
Proof.
  unfold flaky_Do. destruct (s_fates w) as [|f fates]; [apply direct_telemetry|].
  set (w1 := mkSite _ _ _). change (seen w) with (seen w1). destruct f; [apply direct_telemetry|by intros [= <- <-]|].
  destruct (direct_Do ts (telemetry_rq body) w1) as [o1 w2] eqn:Hd. apply direct_telemetry in Hd as [Hs _].
  by intros [= <- <-].
Qed.

Lemma doRaw_telemetry ts n body : ∀ last w r w',
  doRaw_loop (flaky_Do ts) valid_url ctx_Err json_Envelope json_Unmarshal zero_poll n c "POST" telemetry_path (Some body)
    false last w = (r, w') →
  seen w ⊆ seen w' ∧ (∀ v, r = Ok v → absorbed body w').
Proof.
  induction n as [|n IH]; intros last w r w' Hrun; cbn [doRaw_loop] in Hrun; [by simplify_eq|].
  destruct (negb _); [by simplify_eq|].
  destruct (flaky_Do ts (telemetry_rq body) w) as [o w1] eqn:Ho. apply flaky_telemetry in Ho as [H1 H2].
  assert (Hretry : ∀ last, match ctx_Err w1 with
    | Some e => (Err (ErrContext e), w1)
    | None => doRaw_loop (flaky_Do ts) valid_url ctx_Err json_Envelope json_Unmarshal zero_poll n c "POST" telemetry_path
                (Some body) false last w1
    end = (r, w') → seen w ⊆ seen w' ∧ (∀ v, r = Ok v → absorbed body w')).
  { intros last1. destruct (ctx_Err w1); [by intros [= <- <-]|]. intros [H3 H4]%IH. split; [by etransitivity|done]. }
  destruct o as [e|status text]; [by eapply Hretry|]. case_decide as Hst; [|by eapply Hretry].
  injection Hrun as <- <-. split; [done|]. intros v Hv. eapply H2; [done|]. unfold finish in Hv.
  case_decide; [done|lia].
Qed.

Lemma send_seen ts body w e w' : send ts body w = (e, w') → seen w ⊆ seen w' ∧ (e = None → absorbed body w').
Proof.
  unfold send, client_SendTelemetryRaw, SendTelemetryRaw, doRaw.
  destruct (doRaw_loop _ _ _ _ _ _ _ _ _ _ _ _ _ w) as [r w1] eqn:Hr. apply doRaw_telemetry in Hr as [H1 H2].
  intros [= <- <-]. split; [done|]. destruct r as [v|err]; [intros _; by eapply H2|done].
Qed.

(** *** The drain *)

Definition absorbed_row (w : site) (r : outbox_row) : Prop := ob_kind r = "telemetry" → absorbed (ob_body r) w.

Lemma flush_send_seen ts r w e w' : flush_send (send ts) (ob_kind r) (ob_body r) w = (e, w') →
  seen w ⊆ seen w' ∧ (e = None → absorbed_row w' r).
Proof.
  unfold flush_send, absorbed_row. case_decide; [by intros [= <- <-]|]. intros [H1 H2]%send_seen. split; [done|]. auto.
Qed.

Lemma run_sends_seen ts rows : ∀ w, seen w ⊆ seen (run_sends (flush_send (send ts)) w rows).
Proof.
  induction rows as [|r rows IH]; intros w; [done|]. cbn [run_sends].
  destruct (flush_send (send ts) (ob_kind r) (ob_body r) w) as [e w1] eqn:Hs. apply flush_send_seen in Hs as [Hs _].
  etransitivity; [exact Hs|apply IH].
Qed.

Lemma run_sends_absorbed ts rows k : ∀ w, sends_ok (flush_send (send ts)) w (take k rows) →
  Forall (absorbed_row (run_sends (flush_send (send ts)) w rows)) (take k rows).
Proof.
  revert k. induction rows as [|r rows IH]; intros [|k] w Hok; cbn [take]; [constructor..|].
  cbn [take sends_ok run_sends] in *. destruct (flush_send (send ts) (ob_kind r) (ob_body r) w) as [e w1] eqn:Hs.
  apply flush_send_seen in Hs as [_ Hs]. cbn [fst snd] in *. destruct Hok as [-> Hok]. constructor; [|by apply IH].
  intros Hk. eapply absorbed_mono; [apply run_sends_seen|by apply Hs].
Qed.

(** A flush removes a prefix of the queue, all of which the cloud has absorbed. *)
Lemma flush_spec b ts s w s' w' : outbox_wf (sdb s) → flush b ts s w = (s', w') →
  ∃ k, sdb s' = set_outbox (drop k (outbox (sdb s))) (outbox_seq (sdb s)) (sdb s) ∧ seen w ⊆ seen w' ∧
    Forall (absorbed_row w') (take k (outbox (sdb s))).
Proof.
  intros Hwf. unfold flush, flushOutbox. destruct (Drain _ b s w) as [[r s1] w1] eqn:Hd.
  apply Drain_spec in Hd as (k & j & [[Hkj _] _] & Hs & -> & Hok & _); [|done]. intros [= <- <-]. exists k.
  split_and!; [done|apply run_sends_seen|].
  assert (Ht : take k (outbox (sdb s)) = take k (take j (outbox (sdb s)))) by (rewrite take_take; f_equal; lia).
  rewrite Ht in Hok |- *. by apply run_sends_absorbed.
Qed.
(** ** The agent and the cloud as one machine *)

Variable engine : Engine.
Variable json_Marshal : TelemetryRequest → option string.
Variable b : Buffer.
Variable dir : string.

(** [evicted] is history: the bodies that left the outbox without being sent. *)
Record delivery := mkDelivery { dl_agent : agent; dl_site : site; evicted : list string }.

Definition gone (d d' : db) : list string := ob_body <$> filter (λ r, r ∉ outbox d') (outbox d).

(** The agent's own steps; its sessions and commands, which leave outbox and
    ledger alone; a flush of the outbox, cut short by any failure; any request of
    anybody else at the cloud; a change of the network or of the devices. *)
Inductive dl_step : delivery → delivery → Prop :=
| dl_own a a' w ev : own_step engine json_Marshal b dir a a' →
    dl_step (mkDelivery a w ev) (mkDelivery a' w (ev ++ gone (ag_db a) (ag_db a')))
| dl_elsewhere a d w ev : same_outbox (ag_db a) d → ledger_stamps d = ledger_stamps (ag_db a) →
    dl_step (mkDelivery a w ev) (mkDelivery (mkAgent (ag_col a) d (ag_job a) (looked a) (given a)) w ev)
| dl_flush a ts s w s' w' ev : conn_to a s → flush b ts s w = (s', w') →
    dl_step (mkDelivery a w ev) (mkDelivery (mkAgent (ag_col a) (sdb s') (ag_job a) (looked a) (given a)) w' ev)
| dl_cloud a w ev ts rq : dl_step (mkDelivery a w ev) (mkDelivery a (put (mux ts rq (look w)).2 w) ev)
| dl_world a w ev fates devices : dl_step (mkDelivery a w ev) (mkDelivery a (mkSite fates devices (s_cloud w)) ev).

Definition dl_initial (w : site) : delivery := mkDelivery (initial dir) w [].
Definition dl_reachable (x : delivery) : Prop := ∃ w, rtc dl_step (dl_initial w) x.

(** A body the outbox accepted is still queued, or the cloud has it, or the cap
    removed it. *)
Definition kept (x : delivery) (body : string) : Prop :=
  (∃ row, row ∈ outbox (ag_db (dl_agent x)) ∧ ob_kind row = "telemetry" ∧ ob_body row = body) ∨
  absorbed body (dl_site x) ∨ body ∈ evicted x.

Record delivery_ok (x : delivery) : Prop := {
  dl_reach : reachable engine json_Marshal b dir (dl_agent x);
  dl_kept : ∀ r, (r, true) ∈ given (dl_agent x) → kept x (body_of json_Marshal r);
  dl_capped : evicted x ≠ [] → (0 < b_maxBytes b)%Z }.

Context (Hcap : no_tiny_cap b).

Lemma gone_same d d' : outbox d' = outbox d → gone d d' = [].
Proof.
  intros Ho. unfold gone. rewrite Ho, list_filter_none; [done|]. apply Forall_forall. intros r Hr Hn. by apply Hn.
Qed.

Lemma kept_own a a' w ev body : kept (mkDelivery a w ev) body →
  kept (mkDelivery a' w (ev ++ gone (ag_db a) (ag_db a'))) body.
Proof.
  unfold kept. cbn [dl_agent dl_site evicted]. intros [(row & Hin & Hk & Hb)|[?|?]].
  - destruct (decide (row ∈ outbox (ag_db a'))) as [?|Hn]; [left; by exists row|]. right. right. apply elem_of_app. right.
    unfold gone. rewrite <- Hb. by apply list_elem_of_fmap_2, list_elem_of_filter.
  - right. by left.
  - right. right. apply elem_of_app. by left.
Qed.

Lemma delivery_ok_own a a' w ev : own_step engine json_Marshal b dir a a' → delivery_ok (mkDelivery a w ev) →
  delivery_ok (mkDelivery a' w (ev ++ gone (ag_db a) (ag_db a'))).
Proof.
  intros Hown [Hr Hk Hc]. cbn [dl_agent dl_site evicted] in *.
  pose proof (reachable_agent_ok _ _ _ _ Hcap _ Hr) as Hok. split; cbn [dl_agent dl_site evicted].
  - eapply rtc_r; [exact Hr|by apply step_own].
  - intros r Hin. destruct (own_outbox _ _ _ _ _ _ Hown Hok) as [[_ Hb]|(n & r' & q & rows & Hb & Ho & _ & Hq)];
      rewrite Hb in Hin; [by apply kept_own, Hk|].
    apply elem_of_app in Hin as [Hin|Hin]; [by apply kept_own, Hk|]. apply list_elem_of_singleton in Hin as [= -> <-].
    destruct (Hq eq_refl) as (row & Hrow & ? & ?). left. exists row. cbn [dl_agent]. rewrite Ho. split; [|done].
    apply elem_of_app. by right.
  - intros Hne. destruct (decide (ev = [])) as [->|]; [|by apply Hc].
    destruct (own_outbox _ _ _ _ _ _ Hown Hok) as [[Ho _]|(n & r' & q & rows & _ & Ho & Hn & _)].
    + by rewrite gone_same in Hne.
    + apply Hn. destruct n as [|n]; [|lia]. exfalso. apply Hne. rewrite app_nil_l. unfold gone. rewrite Ho, drop_0.
      rewrite list_filter_none; [done|]. apply Forall_forall. intros r Hin Hnot. apply Hnot, elem_of_app. by left.
Qed.

Lemma delivery_ok_flush a ts s w s' w' ev : conn_to a s → flush b ts s w = (s', w') → delivery_ok (mkDelivery a w ev) →
  delivery_ok (mkDelivery (mkAgent (ag_col a) (sdb s') (ag_job a) (looked a) (given a)) w' ev).
Proof.
  intros [Hd _] Hf [Hr Hk Hc]. cbn [dl_agent dl_site evicted] in *.
  pose proof (ok_outbox _ _ _ _ _ (reachable_agent_ok _ _ _ _ Hcap _ Hr)) as Hwf.
  apply flush_spec in Hf as (k & Hs & Hseen & Habs); [|by rewrite Hd]. rewrite Hd in *. split; [| |done].
  - eapply rtc_r; [exact Hr|]. rewrite Hs. by apply step_elsewhere; [|apply outbox_wf_drop].
  - cbn [dl_agent given]. intros r Hin. unfold kept. cbn [dl_agent dl_site evicted ag_db].
    destruct (Hk r Hin) as [(row & Hrow & Hkind & Hb)|[Ha|?]]; cbn [dl_agent dl_site evicted] in *.
    + rewrite <- (take_drop k) in Hrow. apply elem_of_app in Hrow as [Hrow|Hrow].
      * right. left. rewrite Forall_forall in Habs. rewrite <- Hb. by apply Habs.
      * left. exists row. rewrite Hs. split; [exact Hrow|done].
    + right. left. by eapply absorbed_mono.
    + right. by right.
Qed.

(** Steps that touch only the cloud's side. *)
Lemma delivery_ok_site a w w' ev : seen w ⊆ seen w' → delivery_ok (mkDelivery a w ev) → delivery_ok (mkDelivery a w' ev).
Proof.
  intros Hs [Hr Hk Hc]. split; [done| |done]. intros r Hin.
  destruct (Hk r Hin) as [?|[Ha|?]]; [by left|right; left|right; by right]. by eapply absorbed_mono.
Qed.

Lemma dl_step_preserves x y : dl_step x y → delivery_ok x → delivery_ok y.
Proof.
  destruct 1 as [| a d w ev Ho Hl| |a w ev ts rq|]; [by apply delivery_ok_own| |by eapply delivery_ok_flush| |].
  - intros [Hr Hk Hc]. cbn [dl_agent dl_site evicted] in *. split; [| |done].
    + eapply rtc_r; [exact Hr|]. apply step_elsewhere; [done|].
      eapply same_outbox_wf; [done|]. apply ok_outbox with (1 := reachable_agent_ok _ _ _ _ Hcap _ Hr).
    + intros r Hin. destruct (Hk r Hin) as [(row & Hrow & ?)|?]; [left; exists row|by right].
      cbn [dl_agent ag_db] in *. by destruct Ho as [-> _].
  - apply delivery_ok_site. unfold seen, put. cbn [s_cloud]. apply (mux_seen ts rq (look w)).
  - by apply delivery_ok_site.
Qed.

Lemma dl_reachable_ok x : dl_reachable x → delivery_ok x.
Proof.
  intros [w Hr]. assert (Hi : delivery_ok (dl_initial w)).
  { split; [apply rtc_refl|by intros body ?%elem_of_nil|done]. }
  induction Hr as [|x0 y z Hxy _ IH]; [done|]. by apply IH, (dl_step_preserves x0).
Qed.

(** *** The code's functions are runs of the machine *)

(** What neither outbox nor ledger notice. *)
Definition beside (s s' : sql) : Prop :=
  same_outbox (sdb s) (sdb s') ∧ ledger_stamps (sdb s') = ledger_stamps (sdb s) ∧ (engine_faults s → engine_faults s').

#[local] Instance beside_preorder : PreOrder beside.
Proof.
  split; [by intros s|]. intros s1 s2 s3 (H1 & H2 & H3) (H4 & H5 & H6).
  split_and!; [by eapply same_outbox_trans|by rewrite H5|auto].
Qed.

Lemma beside_exec f s : (∀ d, same_outbox d (f d) ∧ ledger_stamps (f d) = ledger_stamps d) → beside s (exec f s).2.
Proof.
  intros Hf. pose proof (triple_exec f (sdb s) (λ _, at_db (f (sdb s))) (λ _, at_db (sdb s)) (λ _ H, H) (λ _ _ H, H) s eq_refl) as Ht.
  pose proof (engine_exec f s) as He. destruct (exec f s) as [[[]|e] s1]; unfold at_db in Ht; unfold beside; cbn [snd]; rewrite Ht.
  - destruct (Hf (sdb s)). split_and!; [done..|exact He].
  - split_and!; [done|done|intros Hs; by apply He].
Qed.

Lemma beside_DrainEvents (s : sql) : beside s (DrainEvents s).2.
Proof.
  simpl. unfold Buffer_DrainEvents. rewrite SE_bind_unfold.
  pose proof (engine_query (λ x, take drain_events_limit (unsent_events x)) s) as Hq.
  destruct (query _ s) as [r s1] eqn:Hrun. apply query_sdb in Hrun as [Hd _].
  assert (H1 : beside s s1).
  { unfold beside. rewrite Hd. split_and!; [done|done|]. intros Hs. specialize (Hq Hs). by destruct r; [|apply Hq]. }
  destruct r as [batch|e]; [|done]. etrans; [exact H1|]. rewrite SE_bind_unfold.
  pose proof (beside_exec id s1 (λ d, conj (conj eq_refl eq_refl) eq_refl)) as H2.
  destruct (exec id s1) as [[[]|e] s2]; cbn [snd] in H2; [|done]. etrans; [exact H2|]. rewrite SE_ret_unfold.
  clear. revert s2. induction batch as [|ev batch IH]; intros s; cbn [mark_uploaded]; [done|].
  pose proof (beside_exec (set_uploaded (er_id ev)) s (λ d, conj (conj eq_refl eq_refl) eq_refl)) as Hx.
  destruct (exec _ s) as [[[]|e] s1]; cbn [snd] in Hx; (etrans; [exact Hx|]); [|apply IH].
  specialize (IH s1). by destruct (mark_uploaded batch s1).
Qed.

Lemma own_run a a' w ev : rtc (own_step engine json_Marshal b dir) a a' → dl_reachable (mkDelivery a w ev) →
  ∃ ev', dl_reachable (mkDelivery a' w ev').
Proof.
  intros Hr. revert ev. induction Hr as [a|a a1 a2 Ha _ IH]; intros ev Hx; [by exists ev|].
  destruct Hx as [w0 Hx]. eapply IH. exists w0. eapply rtc_r; [exact Hx|by apply dl_own].
Qed.

(** A whole poll of the watch directory and a whole [pushTier], with the CWMP
    events it takes along, the queueing and the flush, are runs of the machine. *)
Lemma delivery_scan now entries a s w ev c' s' : dl_reachable (mkDelivery a w ev) → conn_to a s →
  scanFTP engine now entries (ag_col a, s) = (c', s') →
  ∃ l ev', dl_reachable (mkDelivery (mkAgent c' (sdb s') (ag_job a) (looked a ++ l) (given a)) w ev').
Proof.
  intros Hx Hc Hrun. destruct (scanFTP_run engine json_Marshal b dir now entries a s c' s' Hc Hrun) as [l Hl].
  exists l. by eapply own_run.
Qed.

Lemma delivery_push ts now metrics alarms a s w ev c' s' w' : dl_reachable (mkDelivery a w ev) → conn_to a s → ag_job a = None →
  pushTier json_Marshal (send ts) b now metrics alarms (ag_col a, s) w = ((c', s'), w') →
  ∃ l ev', dl_reachable (mkDelivery (mkAgent c' (sdb s') None (looked a) (given a ++ l)) w' ev').
Proof.
  intros Hx [Hd Hf] Hno Hrun. unfold pushTier in Hrun. destruct (DrainFTP (ag_col a)) as [ftp c1] eqn:Hdr.
  unfold drainCWMPEvents in Hrun. pose proof (beside_DrainEvents s) as (Ho & Hl & Hf1).
  destruct (DrainEvents s) as [stored s1]. cbn [snd] in *. specialize (Hf1 Hf). rewrite Hd in Ho, Hl.
  set (a1 := mkAgent (ag_col a) (sdb s1) (ag_job a) (looked a) (given a)).
  assert (Hx1 : dl_reachable (mkDelivery a1 w ev)) by (destruct Hx as [w0 Hx]; exists w0; eapply rtc_r; [exact Hx|by apply dl_elsewhere]).
  pose proof (reachable_agent_ok _ _ _ _ Hcap _ (dl_reach _ (dl_reachable_ok _ Hx1))) as Hok.
  set (cwmp := cwmp_event <$> stored) in *.
  assert (Hcase : (Events ftp = [] ∧ (c1, s1, w) = (c', s', w')) ∨
    (let '(queued, (c, s)) := enqueueTelemetry json_Marshal b now (mkTelemetry metrics (Events ftp ++ cwmp) alarms) ftp (c1, s1) in
     if queued then let '(s, w) := flushOutbox (send ts) b s w in ((c, s), w) else ((c, s), w)) = (c', s', w')).
  { cbn [tq_Metrics tq_Events tq_Alarms] in Hrun. destruct metrics, (Events ftp); try by right.
    destruct cwmp, alarms; [by left|by right..]. }
  destruct Hcase as [[Hnil [= <- <- <-]]|Hrest].
  - (* nothing to send: the drain took nothing *)
    exists [], ev. rewrite app_nil_r. injection Hdr as <- <-. cbn [Events] in Hnil.
    assert (Hm : eventMarks (ag_col a) = []).
    { pose proof (ok_queue _ _ _ _ _ Hok) as Hq. unfold queue_ok, a1 in Hq. cbn [ag_col dl_agent] in Hq. rewrite Hnil in Hq.
      destruct (eventMarks (ag_col a)) as [|em l]; [done|]. destruct Hq as [_ [Hem _]%Forall_cons]. simpl in Hem. lia. }
    replace (set_queue [] [] (ag_col a)) with (ag_col a) by (destruct (ag_col a); simpl in *; by subst). rewrite <- Hno. exact Hx1.
  - destruct (enqueueTelemetry _ _ _ _ ftp (c1, s1)) as [q [c2 s2]] eqn:Hq.
    edestruct (enqueueTelemetry_run engine json_Marshal b dir Hcap now metrics alarms cwmp ftp a1 s1 c1 q c2 s2)
      as (l & Hr & Hf2); [exact Hok|done|done|done|exact Hq|].
    destruct (own_run _ _ _ _ Hr Hx1) as [ev' [w0 Hx2]]. exists l, ev'. destruct q; [|injection Hrest as <- <- <-; by exists w0].
    destruct (flushOutbox (send ts) b s2 w) as [s3 w3] eqn:Hfl. injection Hrest as <- <- <-. exists w0.
    eapply rtc_r; [exact Hx2|]. by eapply (dl_flush (mkAgent c2 (sdb s2) None (looked a) (given a ++ l)) ts s2 w s3 w3 ev').
Qed.


(** C24: The code's own functions are runs of the machine of agent and cloud:
    from a reachable state, a whole poll of the watch directory and a whole
    telemetry cycle of the worker, which takes the collector's and the devices'
    events, queues them in parts and flushes the outbox, end in a reachable state,
    whatever statements fail and whatever the network loses. *)
Theorem code_runs_delivered x s : dl_reachable x → conn_to (dl_agent x) s →
  (∀ now entries c' s', scanFTP engine now entries (ag_col (dl_agent x), s) = (c', s') →
     ∃ l ev, dl_reachable (mkDelivery (mkAgent c' (sdb s') (ag_job (dl_agent x)) (looked (dl_agent x) ++ l) (given (dl_agent x)))
                             (dl_site x) ev)) ∧
  (∀ ts now metrics alarms c' s' w', ag_job (dl_agent x) = None →
     pushTier json_Marshal (send ts) b now metrics alarms (ag_col (dl_agent x), s) (dl_site x) = ((c', s'), w') →
     ∃ l ev, dl_reachable (mkDelivery (mkAgent c' (sdb s') None (looked (dl_agent x)) (given (dl_agent x) ++ l)) w' ev)).
Proof.
  destruct x as [a w ev]. intros Hx Hc. split.
  - intros now entries c' s' Hrun. by eapply delivery_scan.
  - intros ts now metrics alarms c' s' w' Hno Hrun. by eapply delivery_push.
Qed.

(** ** What becomes of an upload's events *)

Definition hex_byte (a : ascii) : bool := bool_decide (a ∈ String.list_ascii_of_string "0123456789abcdef").

Lemma hex_digits l : all_bytes hex_byte (hex l) = true.
Proof.
  assert (Hd : ∀ n, hex_byte (hex_digit n) = true).
  { intros n. unfold hex_digit. generalize (Z.to_nat n). intros k. do 16 (destruct k as [|k]; [reflexivity|]). by destruct k. }
  induction l as [|n l IH]; [done|]. cbn [hex all_bytes]. by rewrite !Hd, IH.
Qed.

(** What the two ends rely on of encoding/json: for each event that the worker
    wrote with a key of hexadecimal digits, the cloud reads one with that key; and
    nothing but a float that is infinite or not a number is refused. *)
Record telemetry_codec : Prop := {
  keys_read : ∀ r body ev, json_Marshal r = Some body → ev ∈ tq_Events r → all_bytes hex_byte (ev_DedupKey ev) = true →
    ∃ en, en ∈ tb_Events (json_telemetry body) ∧ ee_DedupKey en = ev_DedupKey ev;
  only_nonfinite : ∀ r, json_Marshal r = None → ∃ m, m ∈ tq_Metrics r ∧ sample_finite m = false }.
Context (Hcodec : telemetry_codec).

(** In a request given to the buffer, whose body is in the outbox. *)
Definition queued (x : delivery) (ev : EventItem) : Prop :=
  ∃ row r, row ∈ outbox (ag_db (dl_agent x)) ∧ ob_kind row = "telemetry" ∧
    (r, true) ∈ given (dl_agent x) ∧ json_Marshal r = Some (ob_body row) ∧ ev ∈ tq_Events r.

(** Lost to [buffer_max_bytes]: in a body that was evicted, or never queued. *)
Definition capped (x : delivery) (ev : EventItem) : Prop :=
  (0 < b_maxBytes b)%Z ∧ ∃ r q body, (r, q) ∈ given (dl_agent x) ∧ json_Marshal r = Some body ∧ ev ∈ tq_Events r ∧
    (body ∈ evicted x ∨ q = false ∧ over_cap b body).

(** Lost with a metric that JSON cannot express: the request that carried both was
    refused, and an empty body was queued for it. *)
Definition unmarshalled (x : delivery) (ev : EventItem) : Prop :=
  ∃ r q, (r, q) ∈ given (dl_agent x) ∧ ev ∈ tq_Events r ∧ json_Marshal r = None ∧
    ∃ m, m ∈ tq_Metrics r ∧ sample_finite m = false.

Definition accounted (x : delivery) (m : FTPMark) (P : EventItem → Prop) : Prop :=
  ∃ evs, parse_of engine dir (dl_agent x) m evs ∧ ∀ ev, ev ∈ evs → P ev.

(** Events of an upload carry a key, the digits of a hash. *)
Lemma parse_of_keyed a m evs ev : parse_of engine dir a m evs → ev ∈ evs →
  ev_DedupKey ev ≠ "" ∧ all_bytes hex_byte (ev_DedupKey ev) = true.
Proof.
  intros (now & e & _ & _ & _ & [[-> _]|(dev & Hp)]) Hin; [by apply elem_of_nil in Hin|].
  unfold parseUpload, eventsFromGzipLog in Hp. destruct (en_Gunzip e) as [content|]; [|done]. cbn [mbind option_bind] in Hp.
  injection Hp as <-. unfold Apply in Hin. apply apply_lines_elem in Hin as (line & _ & Hin).
  apply apply_line_event in Hin as (_ & _ & -> & _). split; [apply dedup_nonempty|apply hex_digits].
Qed.

Lemma uploads_accounted x p st : dl_reachable x → ledger_stamps (ag_db (dl_agent x)) !! p = Some st →
  accounted x (mkMark p st) (λ ev, ev_DedupKey ev ∈ seen (dl_site x) ∨ queued x ev ∨ capped x ev ∨ unmarshalled x ev).
Proof.
  intros Hx Hl. destruct (dl_reachable_ok x Hx) as [Hr Hk Hc].
  destruct (ok_ledger _ _ _ _ _ (reachable_agent_ok _ _ _ _ Hcap _ Hr) p st Hl) as (evs & Hp & Hh).
  exists evs. split; [done|]. intros ev Hev.
  destruct (Hh ev Hev) as [(r & q & body & Hb & Hin & Hm & Hq)|(r & q & Hb & Hin & Hm)].
  2: { right. right. right. exists r, q. split_and!; [done..|]. by apply (only_nonfinite Hcodec). }
  destruct q.
  - pose proof (Hk r Hb) as Hkept. unfold body_of in Hkept. rewrite Hm in Hkept. change (default "" (Some body)) with body in Hkept.
    destruct Hkept as [(row & Hrow & Hkind & Hbody)|[Ha|He]].
    + right. left. exists row, r. by rewrite Hbody.
    + left. destruct (parse_of_keyed _ _ _ _ Hp Hev) as [Hne Hhex].
      destruct (keys_read Hcodec r body ev Hm Hin Hhex) as (en & Hen & Heq).
      rewrite <- Heq in Hne |- *. by apply (Ha en).
    + right. right. left. split; [apply Hc; by intros Hnil; rewrite Hnil in He; apply elem_of_nil in He|].
      exists r, true, body. auto.
  - right. right. left. destruct (Hq eq_refl) as [Hpos Hlt]. split; [done|]. exists r, false, body. split_and!; [done..|].
    right. by split.
Qed.

(** C2: No event of a recorded upload vanishes on its way to the cloud:
    whatever statements fail, whatever requests and replies the network loses,
    however often the process restarts, an upload in the ingest ledger was read by
    some scan, and each of its events has been counted by the cloud, or waits in
    the outbox, or fell to the outbox's cap, or shared a request with a metric that
    is infinite or not a number, which json.Marshal refuses. *)
Theorem upload_reaches_cloud x p st : dl_reachable x → ledger_stamps (ag_db (dl_agent x)) !! p = Some st →
  accounted x (mkMark p st) (λ ev, ev_DedupKey ev ∈ seen (dl_site x) ∨ queued x ev ∨ capped x ev ∨ unmarshalled x ev).
Proof. apply uploads_accounted. Qed.

(** *** The queue empties *)

(** The network is up and the cloud serves its devices. *)
Definition up (w : site) : Prop := s_fates w = [] ∧ s_devices w ≠ [].
Hypothesis live : ∀ w, ctx_Err w = None.
Hypothesis url_valid : valid_url (url c telemetry_path) = true.

(** The first post after the cloud starts is turned away; any other is accepted. *)
Lemma direct_answer ts body w : s_devices w ≠ [] → ∃ text st,
  direct_Do ts (telemetry_rq body) w =
    (Response (if decide (st_failures (s_cloud w) = 0)%Z then 503 else 200) text, mkSite (s_fates w) (s_devices w) st) ∧
  (st_failures (s_cloud w) = 0 → st_failures st = 1)%Z.
Proof.
  intros Hd. rewrite url_telemetry. unfold mux_Do. cbn [Client.rq_URL Client.rq_Method Client.rq_Body default].
  rewrite HasPrefix_app, TrimPrefix_app. change (PathUnescape telemetry_path) with (Some telemetry_path). cbv iota beta.
  unfold look, cloudMux. cbn [URLPath ReqBody]. destruct w as [fates [|dev0 devs] st]; [done|].
  cbn [s_devices s_cloud s_fates].
  repeat (rewrite (decide_False (P := telemetry_path = _)) by discriminate).
  rewrite (decide_True (P := telemetry_path = telemetry_path)) by done. unfold handle_telemetry, put.
  case_decide as Hz; cbn [fst snd s_fates]; eexists _, _; (split; [reflexivity|]); [|done].
  intros _. destruct st. cbn in *. lia.
Qed.

Lemma send_up ts kind body w : up w →
  (flush_send (send ts) kind body w).1 = None ∧ up (flush_send (send ts) kind body w).2.
Proof.
  intros [Hf Hd]. unfold flush_send. case_decide; [done|].
  unfold send, client_SendTelemetryRaw, SendTelemetryRaw, doRaw. cbn [doRaw_loop]. rewrite url_valid. cbn [negb].
  assert (Hflaky : ∀ w, s_fates w = [] → flaky_Do ts (telemetry_rq body) w = direct_Do ts (telemetry_rq body) w)
    by (intros w1 H1; unfold flaky_Do; by rewrite H1).
  rewrite Hflaky by done. destruct (direct_answer ts body w Hd) as (text & st & -> & Hz).
  destruct (decide (st_failures (s_cloud w) = 0)%Z) as [Hw|Hw].
  - rewrite decide_False by lia. rewrite live, Hflaky by done.
    destruct (direct_answer ts body (mkSite (s_fates w) (s_devices w) st) Hd) as (text' & st' & -> & _).
    cbn [s_cloud s_fates s_devices]. rewrite (decide_False (P := st_failures st = 0%Z)) by (rewrite Hz by done; lia).
    rewrite decide_True by lia. unfold finish. by rewrite decide_False by lia.
  - rewrite decide_True by lia. unfold finish. by rewrite decide_False by lia.
Qed.

(** A flush on a healthy connection, once the network is up, delivers a batch. *)
Lemma flush_up ts s w : outbox_wf (sdb s) → healthy s → up w → let '(s', w') := flush b ts s w in
  healthy s' ∧ up w' ∧ outbox_wf (sdb s') ∧ ledger_stamps (sdb s') = ledger_stamps (sdb s) ∧
  outbox (sdb s') = drop drain_limit (outbox (sdb s)).
Proof.
  intros Hwf Hs Hw. unfold flush, flushOutbox.
  destruct (Drain_runs (flush_send (send ts)) up (send_up ts) b s w Hs Hw) as (s' & w' & Hd & Hs' & Hw'). rewrite Hd.
  apply Drain_spec in Hd as (k & j & _ & Hdb & _ & _ & Hk); [|done]. specialize (Hk eq_refl).
  split_and!; [done|done|rewrite Hdb; by apply outbox_wf_drop|by rewrite Hdb|]. rewrite Hdb. cbn [outbox set_outbox]. subst k.
  destruct (Nat.min_spec drain_limit (length (outbox (sdb s)))) as [[? ->]|[? ->]]; [done|]. by rewrite !drop_ge by lia.
Qed.

(** One flush for each poll. *)
Definition flushes (tss : list string) (x : sql * site) : sql * site := foldl (λ x ts, flush b ts x.1 x.2) x tss.

Lemma flushes_run tss : ∀ a s w ev, dl_reachable (mkDelivery a w ev) → conn_to a s → healthy s → up w →
  length (outbox (sdb s)) ≤ drain_limit * length tss →
  let '(s', w') := flushes tss (s, w) in
  dl_reachable (mkDelivery (mkAgent (ag_col a) (sdb s') (ag_job a) (looked a) (given a)) w' ev) ∧
  ledger_stamps (sdb s') = ledger_stamps (sdb s) ∧ outbox (sdb s') = [].
Proof.
  induction tss as [|ts tss IH]; intros a s w ev Hx [Hd He] Hs Hw Hlen; cbn [flushes foldl].
  { rewrite Hd. split_and!; [by destruct a|done|]. rewrite <- Hd. apply length_zero_iff_nil. cbn [length] in Hlen. lia. }
  assert (Hwf : outbox_wf (sdb s)).
  { rewrite Hd. apply ok_outbox with (1 := reachable_agent_ok _ _ _ _ Hcap _ (dl_reach _ (dl_reachable_ok _ Hx))). }
  pose proof (flush_up ts s w Hwf Hs Hw) as Hf. cbn [fst snd]. destruct (flush b ts s w) as [s1 w1] eqn:Hfl.
  destruct Hf as (Hs1 & Hw1 & _ & Hl & Ho).
  set (a1 := mkAgent (ag_col a) (sdb s1) (ag_job a) (looked a) (given a)).
  assert (Hx1 : dl_reachable (mkDelivery a1 w1 ev)).
  { destruct Hx as [w0 Hx]. exists w0. eapply rtc_r; [exact Hx|]. by eapply dl_flush. }
  assert (He1 : engine_faults s1) by (unfold engine_faults; eapply Forall_impl; [exact Hs1|]; by intros o <-).
  pose proof (IH a1 s1 w1 ev Hx1 (conj eq_refl He1) Hs1 Hw1) as Hi. unfold flushes in Hi.
  destruct (foldl _ (s1, w1) tss) as [s2 w2]. destruct Hi as (Hr & Hl2 & Hn); [rewrite Ho, length_drop; cbn [length] in Hlen; lia|].
  split_and!; [exact Hr|by rewrite Hl2|done].
Qed.

(** C3: And every recorded upload arrives: from any reachable state, once the
    database works and the network is up, a flush for every hundred rows of the
    queue empties it, and then the cloud has counted every event of every upload
    in the ledger, but for what fell to the cap or was in a request that
    json.Marshal refused for a metric that is infinite or not a number. *)
Theorem queue_delivered x s tss : dl_reachable x → conn_to (dl_agent x) s → healthy s → up (dl_site x) →
  length (outbox (sdb s)) ≤ drain_limit * length tss →
  let '(s', w') := flushes tss (s, dl_site x) in
  outbox (sdb s') = [] ∧ ∀ p st, ledger_stamps (sdb s') !! p = Some st →
    accounted x (mkMark p st) (λ ev, ev_DedupKey ev ∈ seen w' ∨ capped x ev ∨ unmarshalled x ev).
Proof.
  intros Hx Hc Hs Hw Hlen. destruct x as [a w ev]. cbn [dl_agent dl_site] in *.
  pose proof (flushes_run tss a s w ev Hx Hc Hs Hw Hlen) as Hrun. destruct (flushes tss (s, w)) as [s' w'].
  destruct Hrun as (Hx' & Hl & Ho). split; [done|]. intros p st Hp.
  destruct (uploads_accounted _ p st Hx' Hp) as (evs & Hev & Hall). exists evs. split; [exact Hev|].
  intros e He. destruct (Hall e He) as [?|[(row & _ & Hrow & _)|?]]; [by left| |by right].
  cbn [dl_agent ag_db] in Hrow. rewrite Ho in Hrow. by apply elem_of_nil in Hrow.
Qed.
End Delivery.

(** ** Witnesses *)

(** A coding of the events that the two ends agree on. *)
Definition ex_event_key (ev : EventItem) : string * string * string := (ev_CWMPID ev, ev_EventType ev, ev_DedupKey ev).
Definition ex_Marshal_events (r : TelemetryRequest) : option string :=
  if forallb sample_finite (tq_Metrics r) then Some (bits (encode (ex_event_key <$> tq_Events r))) else None.
Definition ex_telemetry_events (body : string) : telemetry_body :=
  mkTelemetryBody []
    ((λ k : string * string * string, mkEventEntry k.1.1 k.1.2 k.2) <$>
       default [] (decode (A := list (string * string * string)) (unbits body))).

Lemma ex_events_codec : telemetry_codec ex_telemetry_events ex_Marshal_events.
Proof.
  split; unfold ex_Marshal_events.
  - intros r body ev. destruct (forallb _ _); [intros [= <-]|done]. unfold ex_telemetry_events. cbn [tb_Events].
    rewrite unbits_bits, decode_encode. cbn. intros Hev _. exists (entry_of ev). split; [|done].
    apply list_elem_of_fmap. exists (ex_event_key ev). split; [done|]. by apply list_elem_of_fmap_2.
  - intros r. destruct (forallb _ _) eqn:Hf; [done|]. intros _. induction (tq_Metrics r) as [|m ms IH]; [done|]. cbn in Hf.
    destruct (sample_finite m) eqn:Hm; [|exists m; split; [by left|done]].
    destruct (IH Hf) as (m' & Hin & ?). exists m'. split; [by right|done].
Qed.

Definition ex_uncapped : Buffer := mkBuffer ":memory:" 0.
Definition ex_cl : Client := Client.New "http://testsuite:9000" "key".
Definition ex_site (fates : list fate) : site := mkSite fates [ex_cell] (initial_state "").

(** The ends of the example's wire. *)
Abbreviation at_ex f := (f (λ _, "") (λ _, inl "") (λ _, []) ex_telemetry_events (λ _, ∅) id
  ex_encode "http://testsuite:9000" (λ _, true) (λ _, None)
  ex_envelope ex_unmarshal (λ _, "error") ex_cl).
Abbreviation ex_send := (at_ex send).
Abbreviation ex_dl := (at_ex dl_reachable DefaultEngine ex_Marshal_events ex_uncapped ex_dir).

(** The process starts, a device dials in; a poll finds an upload; the batch is
    queued, and the flush fails three times over. *)
Definition ex_fates : list fate := [Lost; Unanswered; Lost].
Definition ex_pushed : (Collector * sql) * site :=
  pushTier ex_Marshal_events (ex_send "t") ex_uncapped 8 [] [] ex_polled (ex_site ex_fates).

Lemma ex_dl_start : ex_dl (mkDelivery ex_agent (ex_site ex_fates) []).
Proof.
  exists (ex_site ex_fates). eapply rtc_l.
  { eapply dl_own, (step_restart _ _ _ _ _ (Sql empty_db [] 0 4096 0) None ex_started); [split; [done|constructor]|reflexivity]. }
  apply rtc_once. cbn [app]. change (gone _ _) with (@nil string).
  by apply (dl_elsewhere _ _ _ _ _ _ _ _ _ _ _ _ _ _ _ _ _ _ (mkAgent ex_started empty_db None [] []) (sdb ex_col_sql)).
Qed.

Lemma ex_conn : conn_to ex_agent ex_col_sql.
Proof. split; [reflexivity|constructor]. Qed.

Lemma ex_dl_polled : ∃ l ev, ex_dl (mkDelivery (mkAgent ex_polled.1 (sdb ex_polled.2) None l []) (ex_site ex_fates) ev).
Proof.
  destruct (at_ex delivery_scan DefaultEngine ex_Marshal_events ex_uncapped ex_dir
    7 (Some [ex_entry]) ex_agent ex_col_sql (ex_site ex_fates) [] ex_polled.1 ex_polled.2 ex_dl_start ex_conn
    (surjective_pairing ex_polled)) as (l & ev & Hl). by exists l, ev.
Qed.

Lemma ex_dl_pushed : ∃ l k ev, ex_dl (mkDelivery (mkAgent ex_pushed.1.1 (sdb ex_pushed.1.2) None l k) ex_pushed.2 ev).
Proof.
  destruct ex_dl_polled as (l & ev & Hx).
  destruct (at_ex delivery_push eq_refl (or_introl eq_refl)
    DefaultEngine ex_Marshal_events ex_uncapped ex_dir (or_introl (Z.le_refl 0))
    "t" 8 [] [] (mkAgent ex_polled.1 (sdb ex_polled.2) None l []) ex_polled.2 (ex_site ex_fates) ev
    ex_pushed.1.1 ex_pushed.1.2 ex_pushed.2 Hx) as (k & ev' & Hk).
  - split; [done|]. assert (Hf : faults ex_polled.2 = []) by (vm_compute; reflexivity). unfold engine_faults. rewrite Hf. constructor.
  - done.
  - cbn [ag_col]. rewrite <- (surjective_pairing ex_polled). unfold ex_pushed. by destruct (pushTier _ _ _ _ _ _ _ _) as [[? ?] ?].
  - by exists l, ([] ++ k), ev'.
Qed.

Abbreviation ex_path := (Join2 ex_dir ex_name).

Lemma code_runs_delivered_witness :
  ∃ l ev, ex_dl (mkDelivery (mkAgent ex_polled.1 (sdb ex_polled.2) None l []) (ex_site ex_fates) ev) ∧
    length (Collector.events ex_polled.1) = 1.
Proof.
  destruct (proj1 (at_ex code_runs_delivered eq_refl (or_introl eq_refl)
    DefaultEngine ex_Marshal_events ex_uncapped ex_dir (or_introl (Z.le_refl 0))
    (mkDelivery ex_agent (ex_site ex_fates) []) ex_col_sql ex_dl_start ex_conn) 7%Z (Some [ex_entry]) ex_polled.1 ex_polled.2)
    as (l & ev & Hl); [exact (surjective_pairing ex_polled)|].
  exists l, ev. split; [exact Hl|vm_compute; reflexivity].
Defined.

Lemma upload_reaches_cloud_witness :
  ∃ x, ledger_stamps (ag_db (dl_agent x)) !! ex_path = Some (mkStamp 10 20) ∧ length (outbox (ag_db (dl_agent x))) = 1 ∧
    accounted DefaultEngine ex_dir x (mkMark ex_path (mkStamp 10 20))
      (λ ev, ev_DedupKey ev ∈ seen (dl_site x) ∨ queued ex_Marshal_events x ev ∨ capped ex_Marshal_events ex_uncapped x ev ∨
         unmarshalled ex_Marshal_events x ev).
Proof.
  destruct ex_dl_pushed as (l & k & ev & Hx). eexists. split; [|split].
  3: { eapply (at_ex upload_reaches_cloud eq_refl (or_introl eq_refl)
    DefaultEngine ex_Marshal_events ex_uncapped ex_dir (or_introl (Z.le_refl 0)) ex_events_codec _ _ _ Hx).
    vm_compute. reflexivity. }
  - vm_compute. reflexivity.
  - vm_compute. reflexivity.
Defined.

(** The network is back: one flush delivers the upload. *)
Lemma queue_delivered_witness :
  ∃ x, let '(s', w') := at_ex flushes ex_uncapped ["t"] (ex_pushed.1.2, ex_pushed.2) in
  size (seen w') = 1 ∧ ledger_stamps (sdb s') !! ex_path = Some (mkStamp 10 20) ∧
  accounted DefaultEngine ex_dir x (mkMark ex_path (mkStamp 10 20))
    (λ ev, ev_DedupKey ev ∈ seen w' ∨ capped ex_Marshal_events ex_uncapped x ev ∨ unmarshalled ex_Marshal_events x ev).
Proof.
  destruct ex_dl_pushed as (l & k & ev & Hx). eexists.
  pose proof (at_ex queue_delivered eq_refl (or_introl eq_refl)
    DefaultEngine ex_Marshal_events ex_uncapped ex_dir (or_introl (Z.le_refl 0)) ex_events_codec
    (λ _, eq_refl) eq_refl _ ex_pushed.1.2 ["t"] Hx) as Hq.
  assert (Hf : faults ex_pushed.1.2 = []) by (vm_compute; reflexivity).
  assert (Hseen : size (seen (at_ex flushes ex_uncapped ["t"]
    (ex_pushed.1.2, ex_pushed.2)).2) = 1) by (vm_compute; reflexivity).
  assert (Hled : ledger_stamps (sdb (at_ex flushes ex_uncapped ["t"]
    (ex_pushed.1.2, ex_pushed.2)).1) !! ex_path = Some (mkStamp 10 20)) by (vm_compute; reflexivity).
  cbn [dl_site] in Hq. destruct (flushes _ _ _ _ _ _ _ _ _ _ _ _ _ _ _ _ _) as [s' w']. cbn [fst snd] in *.
  split; [exact Hseen|]. split; [exact Hled|]. refine (proj2 (Hq _ _ _ _) _ _ Hled).
  - split; [done|]. unfold engine_faults. rewrite Hf. constructor.
  - unfold healthy. rewrite Hf. constructor.
  - split; [vm_compute; reflexivity|vm_compute; discriminate].
  - vm_compute. lia.
Defined.
