(* ===== verification/Boot.v ===== *)
(** * Starting the agent (goagent/cmd/agent/main.go, and Open in goagent/internal/buffer/sqlite.go)

    [main] loads the configuration, opens the buffer, and wires the ACS, the
    collector and the worker together; what it needs and cannot get is fatal,
    except for the rules and the ingest ledger. *)
From S2P Require Import Prelude GoStrings Regexp CloudTypes Db Ledger Outbox CwmpTypes CwmpStore Server.
From S2P Require Import Config Manifest Rules Collector Metrics Client Worker Agent CommandTable WorkerRun.

(** ** Opening the buffer *)

Definition default_path : string := "/var/lib/cloudlynet-agent/buffer.sqlite".
Definition incremental : Z := 2.

Section Open.
(** [os.MkdirAll] of the file's directory; the connection [sql.Open] gives (the
    tables are those the file holds, empty ones in a new file); the engine's
    answers to PRAGMA auto_vacuum, before and after the mode was set. *)
Variable MkdirAll : string → bool.
Variable sql_Open : string → option sql.
Variables mode_before mode_after : Z.

(** A failed query leaves [m] at 0. *)
Definition mode (answer : Z) : DB Z := recover (query (λ _, answer)) (λ _, mret 0%Z).

Definition ensureIncrementalVacuum : DB unit :=
  m ← mode mode_before;
  if decide (m = incremental) then mret tt
  else
    recover
      (_ ← exec id; (* PRAGMA auto_vacuum=INCREMENTAL *)
       m ← mode mode_after;
       if decide (m = incremental) then mret tt
       else recover (exec id) (λ _, mret tt)) (* VACUUM *)
      (λ _, mret tt).

(** CREATE TABLE IF NOT EXISTS, for the tables of [Db.db]: those are there from the
    start, empty in a new file, so that creating the missing ones can fail but
    changes none. *)
Definition init : DB unit := exec id.

Definition Open (path : string) (maxBytes : Z) : option (Buffer * sql) :=
  let path := if decide (path = "") then default_path else path in
  if bool_decide (path ≠ ":memory:") && negb (MkdirAll path) then None
  else
    s ← sql_Open path;
    let s := if decide (path = ":memory:") then s else ignore_err ensureIncrementalVacuum s in
    match init s with
    | (Err _, _) => None
    | (Ok _, s) => Some (mkBuffer path maxBytes, s)
    end.
End Open.

(** ** main *)

Inductive fatal :=
| FatalConfig (e : config_error)
| FatalBuffer
| FatalManifest.

(** What runs once everything is wired: the goroutine [acs.Run] serves [p_acs],
    and the worker runs. *)
Record process := mkProcess {
  p_cfg : Config;
  p_buf : Buffer;
  p_sql : sql;
  p_engine : Engine;
  p_manifest : Manifest;
  p_acs : Server;
  p_col : Collector;
  p_client : Client }.

Section Main.
Variable ParseDuration : string → option Z.
Variables (base64_RawURL base64_URL : string → option string) (base64_RawURL_encode : string → string).
Variables (json_Unmarshal : string → option Enrollment) (json_Marshal : Enrollment → string).
Variable MkdirAll : string → bool.
Variable sql_Open : string → option sql.
Variables mode_before mode_after : Z.
(** The rule file, read and decoded; the compiler of expressions; the embedded
    manifest, decoded. *)
Variable read_rules : string → option (Z * list Rule).
Variable regexp_Compile : string → option regex.
Variable embedded : option (string * Z * list ParamMeta).

Definition load_rules (path : string) : option Engine :=
  '(version, rules) ← read_rules path; Rules.Load regexp_Compile version rules.

Definition main (file : config_file) (env : string → string) : result fatal process :=
  match Config.Load ParseDuration base64_RawURL base64_URL base64_RawURL_encode json_Unmarshal json_Marshal file env with
  | Err e => Err (FatalConfig e)
  | Ok cfg =>
      match Open MkdirAll sql_Open mode_before mode_after (BufferDB cfg) (BufferMaxBytes cfg) with
      | None => Err FatalBuffer
      | Some (buf, s) =>
          let ruleEngine := default DefaultEngine (load_rules (RulesFile cfg)) in
          match embedded with
          | None => Err FatalManifest
          | Some (id, count, params) =>
              let acs := UseConnRequest (CRUser (CWMP cfg)) (CRPass (CWMP cfg)) (CRURLOverride (CWMP cfg)) NewServer in
              let acs := if FullSnapshotOnFirstContact (CWMP cfg) then UseFirstContactSnapshot SnapshotPaths acs else acs in
              let '(_, (cl, s)) := UseIngestLedger (Collector.New (FTPWatchDir cfg), s) in (* an error is logged *)
              Ok (mkProcess cfg buf s ruleEngine (LoadManifest id count params) acs cl
                    (Client.New (en_BaseURL (cfg_Enrollment cfg)) (en_APIKey (cfg_Enrollment cfg))))
          end
      end
  end.

(** The worker as [worker.New] makes it. *)
Definition started {W} (p : process) (w : W) : worker W := mkWorker false (p_col p) (p_sql p) w.

(** ** Lemmas *)

(** Opening leaves the tables alone. *)
Definition untouched {A} (m : DB A) : Prop := ∀ s, sdb (m s).2 = sdb s.

Lemma untouched_id : untouched (exec id).
Proof. intros s. destruct (exec id s) as [r s'] eqn:He. apply exec_sdb in He. by destruct r. Qed.

Lemma untouched_mode answer : untouched (mode answer).
Proof.
  intros s. unfold mode, recover. destruct (query _ s) as [[a|e] s'] eqn:Hq; by apply query_sdb in Hq as [? _].
Qed.

Lemma untouched_bind {A B} (m : DB A) (f : A → DB B) : untouched m → (∀ a, untouched (f a)) → untouched (m ≫= f).
Proof.
  intros Hm Hf s. rewrite SE_bind_unfold. specialize (Hm s). destruct (m s) as [[a|e] s1]; [|done].
  rewrite <- Hm. apply Hf.
Qed.

Lemma untouched_recover {A} (m : DB A) a : untouched m → untouched (recover m (λ _, mret a)).
Proof. intros Hm s. unfold recover. specialize (Hm s). by destruct (m s) as [[]]. Qed.

Lemma untouched_ensureIncrementalVacuum : untouched (ensureIncrementalVacuum mode_before mode_after).
Proof.
  assert (Hr : untouched (mret tt : DB unit)) by done. pose proof untouched_id.
  unfold ensureIncrementalVacuum. apply untouched_bind; [apply untouched_mode|]. intros m. case_decide; [done|].
  apply untouched_recover, untouched_bind; [done|]. intros _. apply untouched_bind; [apply untouched_mode|].
  intros m'. case_decide; [done|]. by apply untouched_recover.
Qed.

Lemma engine_recover_ret {A} (m : DB A) a : engine_only m → engine_only (recover m (λ _, mret a)).
Proof.
  intros Hm. eapply triple_recover; [exact Hm|]. intros e s [Hs _]. exact Hs.
Qed.

Lemma engine_ensureIncrementalVacuum : engine_only (ensureIncrementalVacuum mode_before mode_after).
Proof.
  assert (Hm : ∀ z, engine_only (mode z)) by (intros z; apply engine_recover_ret, engine_query).
  pose proof (engine_exec id). unfold ensureIncrementalVacuum. apply engine_bind; [done|]. intros m.
  case_decide; [apply engine_ret|]. apply engine_recover_ret, engine_bind; [done|]. intros _. apply engine_bind; [done|].
  intros m'. case_decide; [apply engine_ret|]. by apply engine_recover_ret.
Qed.

Lemma Open_tables path maxBytes b s : Open MkdirAll sql_Open mode_before mode_after path maxBytes = Some (b, s) →
  ∃ s0, sql_Open (b_path b) = Some s0 ∧ b_maxBytes b = maxBytes ∧ sdb s = sdb s0 ∧ (engine_faults s0 → engine_faults s).
Proof.
  unfold Open. set (p := if decide (path = "") then _ else _). destruct (_ && _); [done|].
  destruct (sql_Open p) as [s0|] eqn:Ho; [|done]. cbn [mbind option_bind].
  set (s1 := if decide (p = ":memory:") then _ else _).
  assert (H1 : sdb s1 = sdb s0 ∧ (engine_faults s0 → engine_faults s1)).
  { unfold s1. case_decide; [done|]. unfold ignore_err. split; [apply untouched_ensureIncrementalVacuum|].
    intros Hf. pose proof (engine_ensureIncrementalVacuum s0 Hf) as He.
    destruct (ensureIncrementalVacuum _ _ s0) as [[]]; [done|by destruct He]. }
  destruct H1 as [Hd Hf]. pose proof (untouched_id s1) as Hi. pose proof (engine_exec id s1) as He.
  unfold init. destruct (exec id s1) as [[[]|e] s2]; [|done]. intros [= <- <-]. exists s0. cbn [b_path b_maxBytes snd] in *.
  split_and!; [done|done|by rewrite Hi|auto].
Qed.
End Main.

(** ** Properties *)

(** C17: Starting the process is the restart of the agent's machine, so what the
    machine guarantees holds across restarts of the real program: if [main] gets
    everything running on a database a reachable state left behind (under the same
    directory), the state it starts in is reachable too, whatever statements
    failed on the way, with the uploads of the ledger, if it could be read, as the
    ones it has seen.  The worker is not registered yet. *)
Theorem start_is_restart ParseDuration b64 b64u b64e json_Unmarshal json_Marshal MkdirAll sql_Open mode_before mode_after
    read_rules regexp_Compile embedded file env p engine marshal a :
  main ParseDuration b64 b64u b64e json_Unmarshal json_Marshal MkdirAll sql_Open mode_before mode_after
    read_rules regexp_Compile embedded file env = Ok p →
  reachable engine marshal (p_buf p) (FTPWatchDir (p_cfg p)) a →
  (∀ s0, sql_Open (b_path (p_buf p)) = Some s0 → sdb s0 = ag_db a ∧ engine_faults s0) →
  reachable engine marshal (p_buf p) (FTPWatchDir (p_cfg p)) (mkAgent (p_col p) (sdb (p_sql p)) None (looked a) (given a)) ∧
  (∀ W (w : W), registered (started p w) = false) ∧
  b_maxBytes (p_buf p) = BufferMaxBytes (p_cfg p) ∧
  (with_ledger (p_col p) = true → seenPaths (p_col p) = ledger_stamps (ag_db a)).
Proof.
  intros Hmain Hr Hdb. unfold main in Hmain. destruct (Config.Load _ _ _ _ _ _ file env) as [cfg|]; [|done].
  destruct (Open _ _ _ _ _ _) as [[b s]|] eqn:Ho; [|done]. destruct embedded as [[[id count] params]|]; [|done].
  destruct (UseIngestLedger (Collector.New (FTPWatchDir cfg), s)) as [r [c s']] eqn:Hu. cbv zeta in Hmain. injection Hmain as <-.
  cbn [p_buf p_cfg p_col p_sql] in *. apply Open_tables in Ho as (s0 & Hs0 & Hb & Hd & Hf).
  destruct (Hdb s0 Hs0) as [Ha He]. split_and!; [|done|done|].
  - eapply rtc_r; [exact Hr|]. eapply step_own, (step_restart _ _ _ _ a s r c s'); [|exact Hu]. split; [congruence|auto].
  - unfold UseIngestLedger in Hu. cbn [led_Load Buffer_IngestLedger] in Hu.
    pose proof (triple_LoadFTPIngested (sdb s) s eq_refl) as Ht.
    destruct (LoadFTPIngested s) as [[seen|e] s1]; simplify_eq; [|done]. destruct Ht as [_ ->]. intros _. simpl. congruence.
Qed.

(** ** Witnesses *)

(** The agent starts on the database of [Agent.ex_queued]; reading the vacuum mode
    fails. *)
Definition ex_conn : sql := Sql (sdb ex_queued.2.2) [Some (ErrDB "locked")] 0 4096 0.
Abbreviation ex_main :=
  (main (λ _, None) Some (λ _, None) (λ s, s) (λ _, Some (mkEnrollment 1 "t1" "e1" "https://cloud.example/" "key"))
    (λ _, "") (λ _, true) (λ _, Some ex_conn) 0 2 (λ _, None) (λ _, None) (Some ("id", 0%Z, []))
    (FileRead (mkRaw "token" "" "" "" "" "" "" "" "" (mkRawCWMP "" "" "" "" None) ex_dir "" "/var/lib/edge.db" 4096))
    (λ _, "")).

Lemma start_is_restart_witness :
  match ex_main with
  | Ok p => (∃ l k, reachable DefaultEngine ex_Marshal ex_big ex_dir (mkAgent (p_col p) (sdb (p_sql p)) None l k)) ∧
            seenPaths (p_col p) !! Join2 ex_dir ex_name = Some (mkStamp 10 20)
  | Err _ => False
  end.
Proof.
  assert (Hled : ledger_stamps (sdb ex_conn) !! Join2 ex_dir ex_name = Some (mkStamp 10 20)) by (vm_compute; reflexivity).
  assert (Hok : match ex_main with
    | Ok p => p_buf p = ex_big ∧ FTPWatchDir (p_cfg p) = ex_dir ∧ with_ledger (p_col p) = true
    | Err _ => False
    end) by (vm_compute; auto).
  destruct ex_main as [p|e] eqn:Hmain; [|exact Hok]. destruct Hok as (Hb & Hdir & Hw).
  destruct ex_queued_reachable as (l & k & Hr).
  destruct (start_is_restart _ _ _ _ _ _ _ _ _ _ _ _ _ _ _ p DefaultEngine ex_Marshal
    (mkAgent ex_queued.2.1 (sdb ex_queued.2.2) None l k) Hmain) as (Hp & _ & _ & Hseen).
  - rewrite Hb, Hdir. exact Hr.
  - intros s0 Hs. injection Hs as <-. split; [reflexivity|]. repeat constructor.
  - rewrite Hb, Hdir in Hp. split; [exists l, k; exact Hp|]. rewrite (Hseen Hw). exact Hled.
Defined.
